(* ===== verification/_CoqProject ===== *)
-Q . S2P
Prelude.v
Bytes.v
CString.v
Names.v
Volume.v
Directory.v
Namespace.v
FileIO.v
Append.v
Nested.v
FileSystem.v
Flat.v
NestedLife.v
FlatSim.v
FlatTree.v
Shell.v
Threads.v
Modules.v
Kscan.v
KscanRun.v
KscanTree.v
Syscalls.v
Linux.v
Credentials.v
Priority.v
ProcessGroups.v
Limits.v
UtsName.v
SysInfo.v
Usage.v
MmMap.v
Prctl.v
Kernel.v
Tests.v
Demo.v
FlatDemo.v
