(* ===== verification/Prelude.v ===== *)
(** * OS2021 lab sources: a verification development

    ** The program

    The repository collects the programs of an operating systems course:

    - lab4/simple_fat16_new.c with fat16.h, a FUSE file system on a FAT16 image
      file: the largest part, with its own state (the image) and a contract
      that can be stated without the code;
    - lab2/lab2.2/lab2_shell.c, a shell with pipelines;
    - lab2/lab2.1: linux/sys.c, the file of the Linux kernel with the system
      calls on ids, priorities, process groups, limits, names, statistics and
      prctl, to which the exercise adds two calls; and test_syscall.c, which
      prints what the second one delivers;
    - lab3/EXP3.1/thread.c, three threads that take turns by counters, and
      sec2.c, a kernel module that reports on processes;
    - the two modules forcermmod.c and forcermmod_replace_exit.c, which reset
      the reference count of another module;
    - lab3/EXP3.2/sec3.c, a kernel module that reports on the memory of a
      process through sysfs and procfs.

    ** Files

    Each component has a file with its data, its operations in the order of the
    source and under their names, and its theorems.

    - Prelude: machine integers, the outcomes of a C computation ([res]), the
      platform, shared tactics. Bytes: byte sequences with reads ([slice]),
      writes ([splice]) and little-endian integers. CString: C strings, strtok,
      strcmp.
    - Names: depth, path_split, path_decode, org_path_split, get_prt_path.
    - Volume: fat16.h's structs, sector_read, pre_init_fat16,
      fat_entry_by_cluster, ClusterEmpty, FindEmptyCluster, ClusterIsEmpty,
      first_sector_by_cluster, freeCluster and the loop that frees a chain.
      The state is the image, a list of bytes passed and returned.
    - Directory: find_root, find_subdir, fat16_readdir, fat16_getattr. The code
      repeats two loops, over the root directory and over the clusters of a
      subdirectory; they are [root_loop] and [sub_scan], with what stands
      inside them as an argument.
    - Namespace: fat16_mknod, dir_entry_create, fat16_unlink, edit_size. The
      loop of fat16_mknod over a subdirectory differs from the others and is
      [mknod_scan].
    - FileIO: read_path, write_path (its three ways of storing are
      [write_in_place], [write_at_boundary] and [write_after_fill]) and the
      FUSE entry points fat16_read and fat16_write.
    - Append: what the three ways of storing do at the end of a file.
    - Nested: files in subdirectories, whose entries and whose paths the calls
      treat differently.
    - FileSystem: fat16_oper as a type of requests and [serve], sessions
      ([serve_all]), fat16_utimens, fat16_init, fat16_destroy, and main, which
      mounts, serves and releases.
    - Flat: the abstract volume that a user of the root directory sees - a list of
      slots, each with a name, a content and its clusters, and the clusters that
      are taken otherwise - with its operations, and what it is for an image to
      represent it ([represents]). FlatSim: the code simulates it, and it is a
      finite map from names to contents. FlatTree: what is below a subdirectory
      stays as it is meanwhile.
    - NestedLife: a file in a subdirectory from its creation to its end.
    - Shell: split_string, exec_builtin, execute, one line of main; the wiring
      of a pipeline as the descriptor tables of the children, with calls of pipe
      and fork that may fail and locals of the loop that are indeterminate when
      its body is entered ([round]); the loop of main with what it leaves in its
      buffer.
    - Threads: thread.c as an interleaving of loads and stores, with characters
      for getchar that may come or not.
    - Modules: sec2.c, with its timer from loading to unloading, and the two
      forced removals.
    - Kscan: sec3.c, each function as one piece; the calls into procfs are
      logged. KscanRun: its functions cut into steps where they read what others
      may store or call into procfs, with the thread, the writers of the
      attributes and the unloading of the module taking turns ([turn]); and what
      its files print. KscanTree: the entries that this leaves in /proc.
    - Syscalls: ps_counter, ps_state, test_syscall.c.
    - Linux: what the parts of sys.c share: error numbers, credentials,
      capabilities ([ns_capable], [capable]) and a monad of calls that keep a
      state and may return early ([sys]), with the predicates that such a call
      keeps. Each part has its own state, a record of what its calls touch:
      Credentials (setuid and the other calls on ids; a task with its
      credentials), Priority (setpriority, getpriority; the list of threads),
      ProcessGroups (setpgid, setsid, getpgid, getsid; a map from process
      numbers), Limits (prlimit64, setrlimit, getrlimit; a map of tasks), UtsName
      (the uname calls, sethostname, gethostname; the names of the system),
      SysInfo (sysinfo), Usage (getrusage, times, umask, getpid), MmMap
      (prctl_set_mm with its checks; the memory description of a process) and
      Prctl (prctl itself, which calls MmMap).
    - Kernel: one state for the calls of sys.c - the list of tasks with all that
      the parts know of them, and the names of the system - with the view of
      each part on it and back; the SYSCALL_DEFINEx wrappers of syscalls.h and
      the numbers of syscall_64.tbl, by which a number and registers become a
      call ([decode]) that changes the state ([serve_call]) or reads it
      ([serve_query]); and runs in which any process makes any call.
    - Tests: bench.h, the branch of main that runs it, and test_read_path.
    - Demo: a volume of eight clusters, mounted and used: the theorems on the
      file system at concrete inputs. FlatDemo: the same volume as an abstract
      one. The other files end with such instances.

    ** What is proved

    File system. A volume is well formed ([vol_ok]) when its layout is the one
    pre_init_fat16 computes and everything the code addresses with sixteen bits
    fits. The abstract directory is a list of slots, the abstract lookup the
    relation [lookup], a file a [chain] of clusters. On well-formed volumes the
    loops visit the slots in order (directory_loops_in_order), find_root decides
    [lookup] (find_root_correct), listing, attributes, creation, deletion,
    resizing, reading and writing are described exactly, with what they leave
    unchanged, and the operations compose (write_then_read,
    fat16_mknod_then_lookup, create_write_read). A write at the end of a file
    of the root directory stores its data behind what is there, with or without
    new clusters, but for the last of the new clusters when the data fills them
    exactly (fat16_write_appends). Below the root directory, at any depth, what is written
    inside the last cluster of a file is read back and nothing else is touched
    (sub_write_then_read), and a file that is created, written, read and deleted
    leaves the volume as it was (sub_file_life); an append that begins where the last cluster ends
    overwrites that cluster instead (sub_append_overwrites). Every sequence of requests keeps the volume well formed
    (sessions_preserve_volume). What the code does outside the good cases is
    stated as well: chains that are not extended, entries that are missed, a
    search that never ends, blocks that are too small.

    What a user of the root directory sees of all this is the contract of FlatSim:
    in any session of creating, writing, reading, deleting, listing and asking for
    attributes that the abstract volume answers, the code gives the same replies
    and leaves an image that represents the abstract volume left
    (sessions_refine_lists), which is a map from names to contents
    (sessions_refine_maps); creating succeeds while there is room
    (create_with_room), and deleting gives back what creating and writing took
    (created_and_deleted). The abstract volume does not answer where the code
    does something else than its caller would expect: writes that end on a cluster
    boundary behind the clusters of the file, that start before its last cluster,
    that start behind its end, that find too few free clusters behind the last
    one, or that overwrite a file from its start with more than its clusters hold;
    reads across the end of a file or past the block. Subdirectories are in
    it as names and clusters that are taken; what is below them is found, listed
    and read after a session as before it (subdirectories_stay).

    The tests of the file system pass on every volume that holds what they ask
    for, up to one byte that path_split does not write (Tests).

    Shell. Pipelines of two and of more commands connect every child to its
    neighbours and leave the shell's table as it was, given that pipes can be made
    and, for three and more, that the compiled loop keeps the locals it declares
    (pipeline_wiring; what happens when it does not is pipeline_needs_locals);
    without pipes no command is run. split_string yields the
    trimmed parts or stores outside its array. The program serves its lines one
    after the other up to exit (shell_serves_lines); without it, it runs the first
    word of the last line for ever (shell_repeats_at_eof).

    Threads. The steps are the loads and stores of the program. In schedules that
    do not cut into waiting and signaling at most one thread works, every step that
    does something leaves less to do, some thread can always go on, given a
    character, and the end is reached with the counters restored
    (threads_uncut_exit; all states that such schedules reach are enumerated and
    checked). In others two threads work at once (threads_race), an update can be
    lost and the program never end (threads_lost_update), and echo may replace the
    process before any work is done (echo_before_work).

    Kernel code. The counts and listings of sec2.c and sec3.c are those of the
    abstract sets, in int counters that wrap round (page_counts_correct); the
    timer of sec2.c reports in its intervals until the module
    is unloaded (timer_reports_spaced). For sec3.c the steps put together are the
    functions (uninterrupted_round), and in all interleavings the variables stay in
    range, reports are made only while the run flag is on and no waking is lost
    (scanner_interleavings), and unloading ends unless a report runs into a process
    that it cannot deal with (unloading_ends); while nobody
    stores a process number during a report and only one kind of directory is
    made, the entries in /proc are a tree that unloading removes
    (unloading_leaves_nothing); otherwise an entry can be left
    (pid_race_leaves_a_file). ps_state delivers the records of its second walk,
    follows NULL or writes behind its block, depending on kmalloc and on what has
    changed between its two walks (ps_calls_correct); where a table is too small
    or an entry is removed twice, that is a theorem.

    The fuel that unloading_ends, phys_report_bounds and page_counts_correct ask
    for is more than an area has pages, so that fuel never ends a run there.

    System calls. Each part of sys.c has an invariant of its state that all
    sequences of its calls keep (cred_ok, groups_ok, tasks_ok, uts_ok, mm_ok,
    task_ok) and descriptions of its calls, errors included. Safety is stated
    over sequences of calls: privileges that are given up do not come back
    (setuid_drops_for_good, unprivileged_ids_stay, prctl_keeps_task_ok), hard
    limits only fall (hard_limits_only_fall). What is set is what is read
    (set_then_getres, setpriority_getpriority, setpgid_getpgid, prlimit64_swaps,
    hostname_roundtrip, prctl_set_get); setpriority is described by which threads
    it names and what they may object (setpriority_correct), the options of
    PR_SET_MM for one address by the layouts that are valid
    (one_address_is_whole_map); sysinfo scales its amounts without loss
    (sysinfo_keeps_amounts). Calls that fail change nothing
    (failed_calls_change_nothing, prctl_errors_change_nothing) but for one.

    Kernel puts the parts together. Whatever numbers and registers the processes
    pass, in whatever order, every call returns and the whole state keeps its
    invariant (kernel_stays_ok; there kmalloc is taken to find room for the block of
    ps_state, and its two walks see the same tasks since calls do not overlap), and
    in a system without privileges no combination of calls
    brings a process an id that it did not hold, raises a hard limit or renames
    the system (unprivileged_system_stays). The parts' lemmas on what one call
    may change ([id_change], [reniced], [joins], [limit_change], [since]) are all
    that these proofs use of them.

    ** Conventions

    A C integer is a [Z] with the conversion written at the store that narrows
    it. Undefined behaviour is an outcome of its own ([Undef], with a tag);
    [OutOfFuel] only bounds loops that the source does not bound. The fuel of
    the directory loops is [dir_fuel]: one round per entry of a chain of all
    clusters and one to see the end; a chain has no cluster twice because its
    last entry ends it, so it has at most as many clusters as the volume. All
    theorems either hold for every fuel from such a bound on, or state that no
    fuel is enough.

    ** Assumptions

    What the sources take from elsewhere is a parameter: uninitialised memory,
    the room behind a malloc, the clock and mktime (class [Platform]); new
    descriptors (class [Kernel] in Shell) and, for every line of the shell, which
    calls of getcwd, pipe and fork succeed and what the compiled code leaves in
    locals ([round]); memory maps and page tables (class
    [Machine] in Kscan); kstrtoul, kmalloc and the number of bytes that
    copy_to_user manages; the tasks and modules of the kernel. A call of fseek,
    fread or fwrite on the image succeeds. The system calls of sys.c are proved
    against interfaces to the rest of the kernel, whose laws are what its
    documentation says: Linux (user namespaces, capabilities, credentials,
    security modules), PidNamespace, Scheduler in Priority, Groups in
    ProcessGroups, Limits, Uts in UtsName, Statistics in SysInfo, Clock in Usage,
    AddressSpace in MmMap, Processes in Prctl and Heap in Kernel. The files end with an instance
    of each. The kernel is a 64-bit one with CONFIG_CHECKPOINT_RESTORE and
    without COMPAT_UTS_MACHINE, compiled, as kernels are, so that signed integers
    wrap round. thread.c is taken without the optimisation that would keep a
    polled counter in a register.

    ** Not modelled

    Debug output; freeing and leaking of memory; failing fopen, fseek, fread
    and malloc; the first eight bytes that memcpy copies before strcpy copies
    the same path; requests of libfuse that overlap (they are taken one after the
    other); scheduling, wait and exit codes of the shell; pthread_create, pthread_join and
    execl that fail, and the order of the two processes of thread.c, which share
    nothing but the terminal; freezing and signals for the thread of sec3.c;
    split_string of simple_fat16_new.c, a copy of the shell's that nothing calls.
    Of sys.c: locks and RCU, so the calls are taken one after the
    other; reference counts (free_uid, get_task_struct, fput); notifications
    (proc_sid_connector, sched_autogroup_create_attach, uts_proc_notify,
    proc_comm_connector); in Kernel, the calls without a number for 64-bit
    programs, fork, exec and exit, so that the tasks are the same throughout, the
    passing of time, and processes of more than one thread; the variables overflowuid to fs_overflowgid
    at its head, which only other files use. The prototypes in
    syscalls.h of functions that are in other files; its trace metadata. Build
    files and scripts. *)

From Stdlib Require Import Lia.
From stdpp Require Import base numbers option list.

(** ** Machine integers

    A C integer of width w is a [Z]; the conversions below are the ones the
    compiler inserts when a value is stored in a narrower object (two's
    complement, x86-64: [char] is signed, [int] is 32 bits, [long] 64). *)
Section machine_integers.
Local Open Scope Z_scope.

Definition u8 (x : Z) : Z := x mod 2 ^ 8.
Definition u16 (x : Z) : Z := x mod 2 ^ 16.
Definition u32 (x : Z) : Z := x mod 2 ^ 32.
Definition u64 (x : Z) : Z := x mod 2 ^ 64.
Definition s8 (x : Z) : Z := (x + 2 ^ 7) mod 2 ^ 8 - 2 ^ 7.
Definition s32 (x : Z) : Z := (x + 2 ^ 31) mod 2 ^ 32 - 2 ^ 31.

Definition is_byte (b : Z) : Prop := 0 <= b < 256.

#[global] Instance is_byte_dec b : Decision (is_byte b).
Proof. unfold is_byte. apply _. Defined.

Lemma u16_small x : 0 <= x < 65536 → u16 x = x.
Proof. intros. apply Z.mod_small. lia. Qed.

Lemma u32_small x : 0 <= x < 4294967296 → u32 x = x.
Proof. intros. apply Z.mod_small. lia. Qed.

Lemma u64_small x : 0 <= x < 18446744073709551616 → u64 x = x.
Proof. intros. apply Z.mod_small. lia. Qed.

Lemma s32_small x : - 2147483648 <= x < 2147483648 → s32 x = x.
Proof. intros. unfold s32. rewrite Z.mod_small; lia. Qed.

Lemma u16_range x : 0 <= u16 x < 65536.
Proof. apply Z.mod_pos_bound. lia. Qed.

Lemma u32_range x : 0 <= u32 x < 4294967296.
Proof. apply Z.mod_pos_bound. lia. Qed.

Lemma s8_byte_eq x y : is_byte x → is_byte y → s8 x = y ↔ x = y ∧ y < 128.
Proof.
  unfold s8, is_byte. intros Hx Hy.
  destruct (decide (x < 128)).
  - rewrite Z.mod_small; lia.
  - replace (x + 2 ^ 7) with (x - 128 + 1 * 2 ^ 8) by lia.
    rewrite Z.mod_add, Z.mod_small; lia.
Qed.
End machine_integers.

(** ** Outcomes of a C computation

    [Exit c] is a call of [exit(c)], [Undef u] is undefined behaviour (the
    tag says which), and [OutOfFuel] is the artefact of bounding a loop that
    the source does not bound: theorems that use fuel show it away. *)
Inductive undef :=
  | NullDeref | OutOfBounds | HeapOverflow | DivByZero | Uninitialised | SignedOverflow
  | Dangling | KernelBug.

Inductive res (A : Type) :=
  | Ok (a : A)
  | Exit (code : Z)
  | Undef (u : undef)
  | OutOfFuel.
Arguments Ok {A} a.
Arguments Exit {A} code.
Arguments Undef {A} u.
Arguments OutOfFuel {A}.

#[global] Instance undef_eq_dec : EqDecision undef.
Proof. solve_decision. Defined.
#[global] Instance res_eq_dec {A} `{EqDecision A} : EqDecision (res A).
Proof. solve_decision. Defined.

#[global] Instance res_ret : MRet res := @Ok.
#[global] Instance res_bind : MBind res := λ A B f m,
  match m with
  | Ok a => f a
  | Exit c => Exit c
  | Undef u => Undef u
  | OutOfFuel => OutOfFuel
  end.

(** The check a translated expression makes before it goes on. *)
Definition require (b : bool) (u : undef) : res unit :=
  if b then Ok tt else Undef u.

Lemma bind_ok {A B} (m : res A) (f : A → res B) b :
  m ≫= f = Ok b ↔ ∃ a, m = Ok a ∧ f a = Ok b.
Proof. destruct m; simpl; split; intros; naive_solver. Qed.

Lemma bind_assoc {A B C} (m : res A) (f : A → res B) (g : B → res C) :
  (m ≫= f) ≫= g = m ≫= (λ a, f a ≫= g).
Proof. by destruct m. Qed.

Lemma require_true u : require true u = Ok tt.
Proof. done. Qed.

(** [res_step H] replaces the first bind of the goal's left-hand side by the
    value that [H : m = Ok a] gives it. *)
Ltac res_step H := rewrite H; cbn [mbind res_bind].
Ltac res_steps := cbn [mbind res_bind mret res_ret require].

(** ** The platform

    What the sources use of their environment without being able to choose
    it: the bytes of uninitialised memory, the number of bytes that may be
    written at the pointer [malloc n] returns (the C standard promises at
    least [n]; glibc rounds up), the broken-down current time and the
    inverse conversion [mktime]. Theorems hold for every platform. *)
Record tm := Tm {
  tm_sec : Z; tm_min : Z; tm_hour : Z;
  tm_mday : Z; tm_mon : Z; tm_year : Z
}.

Class Platform := {
  uninit_byte : nat → Z;
  uninit_is_byte i : is_byte (uninit_byte i);
  malloc_usable : Z → Z;
  malloc_usable_ge n : (n <= malloc_usable n)%Z;
  localtime_now : tm;
  mktime : tm → Z
}.

(** An uninitialised array of [n] bytes. *)
Definition uninit `{Platform} (n : nat) : list Z := uninit_byte <$> seq 0 n.

Lemma length_uninit `{Platform} n : length (uninit n) = n.
Proof. unfold uninit. by rewrite length_fmap, length_seq. Qed.

Lemma uninit_bytes `{Platform} n : Forall is_byte (uninit n).
Proof. apply Forall_fmap, Forall_true. intros i. apply uninit_is_byte. Qed.

(** A concrete platform for evaluation: memory filled with 0xAA, an
    allocator that rounds up to 24 bytes as glibc does on x86-64, and
    2021-05-19 20:30:41 as the time. *)
Program Definition demo_platform : Platform := {|
  uninit_byte := λ _, 170%Z;
  malloc_usable := λ n, Z.max n 24;
  localtime_now := Tm 41 30 20 19 4 121;
  mktime := λ t, (tm_sec t + 60 * (tm_min t + 60 * tm_hour t))%Z
|}.
Next Obligation. intros. unfold is_byte. lia. Qed.
Next Obligation. intros. apply Z.le_max_l. Qed.

(** A [Forall] from another whose predicate is stronger pointwise. *)
Ltac forall_impl H :=
  eapply Forall_impl; [exact H|]; intros ? ?; cbv beta in *.

(** Case analysis on the first conditional of the goal. *)
Ltac case_goal :=
  match goal with |- context [if ?b then _ else _] => destruct b eqn:? end.
