(* ===== verification/Bytes.v ===== *)
(** * Byte sequences

    The image file and every buffer of the sources is a [list Z] of bytes,
    addressed by [Z] offsets as the code does. [slice] is a read
    ([fread]/[memcpy] from), [splice] a write ([fwrite]/[memcpy] to) and
    [le]/[le_bytes] are the little-endian integers that the casts
    [*((WORD * ) p)] and the packed structs read and write. *)

From Stdlib Require Import Lia.
From stdpp Require Import base numbers option list.
From S2P Require Import Prelude.
Local Open Scope Z_scope.

Create HintDb bytes.
Create Rewrite HintDb bytes.

(** [n] bytes of [l] from offset [off] (fewer when [l] ends before). *)
Definition slice (off n : Z) (l : list Z) : list Z :=
  take (Z.to_nat n) (drop (Z.to_nat off) l).

(** Overwrite [l] with [d] at [off]; a write past the end of the file leaves
    a hole of zero bytes, as [fseek] followed by [fwrite] does. *)
Definition splice (off : Z) (d l : list Z) : list Z :=
  match d with
  | [] => l
  | _ =>
    let o := Z.to_nat off in
    let l' := resize (Nat.max (length l) (o + length d)) 0 l in
    take o l' ++ d ++ drop (o + length d) l'
  end.

Definition byte_at (l : list Z) (off : Z) : Z := default 0 (l !! Z.to_nat off).

Abbreviation lenZ l := (Z.of_nat (length l)).

Fixpoint le (l : list Z) : Z :=
  match l with
  | [] => 0
  | b :: l => b + 256 * le l
  end.

Fixpoint le_bytes (n : nat) (v : Z) : list Z :=
  match n with
  | O => []
  | S n => v mod 256 :: le_bytes n (v / 256)
  end.

(** ** Reads *)

Lemma length_slice off n l :
  0 <= off → 0 <= n → off + n <= lenZ l → length (slice off n l) = Z.to_nat n.
Proof. unfold slice. intros. rewrite length_take, length_drop. lia. Qed.

Lemma lookup_slice off n l i :
  (i < Z.to_nat n)%nat → slice off n l !! i = l !! (Z.to_nat off + i)%nat.
Proof. intros. unfold slice. by rewrite lookup_take_lt, lookup_drop. Qed.

Lemma slice_slice a n b m l :
  0 <= a → 0 <= b → 0 <= n → a + n <= m →
  slice a n (slice b m l) = slice (b + a) n l.
Proof.
  intros. unfold slice. rewrite skipn_firstn_comm, drop_drop, take_take.
  f_equal; [lia|]. f_equal. lia.
Qed.

Lemma slice_all l : slice 0 (lenZ l) l = l.
Proof. unfold slice. rewrite drop_0, Nat2Z.id. by rewrite firstn_all. Qed.

Lemma slice_app a n m l :
  0 <= a → 0 <= n → 0 <= m →
  slice a (n + m) l = slice a n l ++ slice (a + n) m l.
Proof.
  intros. unfold slice.
  replace (Z.to_nat (n + m)) with (Z.to_nat n + Z.to_nat m)%nat by lia.
  rewrite <- take_take_drop, drop_drop. do 3 f_equal. lia.
Qed.

Lemma byte_at_slice off n l i :
  0 <= off → 0 <= i < n → byte_at (slice off n l) i = byte_at l (off + i).
Proof.
  intros. unfold byte_at. rewrite lookup_slice by lia. do 2 f_equal. lia.
Qed.

Lemma slice_1 l i : 0 <= i < lenZ l → slice i 1 l = [byte_at l i].
Proof.
  intros. unfold slice, byte_at.
  destruct (l !! Z.to_nat i) as [x|] eqn:E.
  - by rewrite (drop_S _ _ _ E).
  - apply lookup_ge_None in E. lia.
Qed.

Lemma slice_S l i n :
  0 <= i → 0 <= n → i < lenZ l →
  slice i (1 + n) l = byte_at l i :: slice (i + 1) n l.
Proof. intros. rewrite slice_app by lia. by rewrite slice_1 by lia. Qed.

Lemma slice_0 l i : slice i 0 l = [].
Proof. done. Qed.

(** ** Writes *)

Lemma length_splice off d l :
  0 <= off → off + lenZ d <= lenZ l → length (splice off d l) = length l.
Proof.
  unfold splice. destruct d as [|x d]; [done|]. intros.
  rewrite resize_all_alt by lia.
  rewrite !length_app, length_take, length_drop. lia.
Qed.

Lemma lookup_splice off d l i :
  0 <= off → off + lenZ d <= lenZ l →
  splice off d l !! i =
    if decide (Z.to_nat off ≤ i < Z.to_nat off + length d)%nat
    then d !! (i - Z.to_nat off)%nat else l !! i.
Proof.
  unfold splice. intros.
  destruct d as [|x d].
  { rewrite decide_False; [done|]. simpl. lia. }
  rewrite resize_all_alt by lia. set (o := Z.to_nat off) in *.
  set (dd := x :: d) in *.
  case_decide as Hi.
  - rewrite lookup_app_r by (rewrite length_take; lia).
    rewrite length_take, Nat.min_l by lia.
    by rewrite lookup_app_l by lia.
  - destruct (decide (i < o)%nat).
    + rewrite lookup_app_l by (rewrite length_take; lia).
      by rewrite lookup_take_lt.
    + rewrite lookup_app_r by (rewrite length_take; lia).
      rewrite length_take, Nat.min_l by lia.
      rewrite lookup_app_r by lia. rewrite lookup_drop. f_equal. lia.
Qed.

(** Reading back exactly what was written, also past the old end. *)
Lemma slice_splice_same off d l :
  0 <= off → slice off (lenZ d) (splice off d l) = d.
Proof.
  unfold splice, slice. destruct d as [|x d]; [done|]. intros.
  set (dd := x :: d). set (o := Z.to_nat off).
  rewrite Nat2Z.id, drop_app_length'.
  - by rewrite take_app_length.
  - rewrite length_take, length_resize. lia.
Qed.

Lemma slice_splice_disjoint o n off d l :
  0 <= off → 0 <= o → 0 <= n → off + lenZ d <= lenZ l →
  o + n <= off ∨ off + lenZ d <= o →
  slice o n (splice off d l) = slice o n l.
Proof.
  intros Hoff Ho Hn Hin Hd. apply list_eq. intros i.
  destruct (decide (i < Z.to_nat n)%nat).
  - rewrite !lookup_slice by done. rewrite lookup_splice by lia.
    rewrite decide_False; [done|]. lia.
  - unfold slice. by rewrite !lookup_take_ge by lia.
Qed.

(** A write inside a range that is read back. *)
Lemma slice_splice_inside o n off d l :
  0 <= o → o <= off → off + lenZ d <= o + n → o + n <= lenZ l →
  slice o n (splice off d l) = splice (off - o) d (slice o n l).
Proof.
  intros. assert (length (slice o n l) = Z.to_nat n)
    by (apply length_slice; lia).
  apply list_eq. intros i. rewrite lookup_splice by lia.
  destruct (decide (i < Z.to_nat n)%nat).
  - rewrite !lookup_slice by done. rewrite lookup_splice by lia.
    case_decide; case_decide; try lia; [|done]. f_equal. lia.
  - case_decide; [lia|]. unfold slice. by rewrite !lookup_take_ge by lia.
Qed.

Lemma byte_at_splice off d l i :
  0 <= off → off + lenZ d <= lenZ l → 0 <= i →
  byte_at (splice off d l) i =
    if decide (off <= i < off + lenZ d) then byte_at d (i - off) else byte_at l i.
Proof.
  unfold byte_at. intros. rewrite lookup_splice by lia.
  do 2 case_decide; try lia. do 2 f_equal. lia.
Qed.

Lemma slice_splice_cover o n off d l :
  0 <= off → off <= o → 0 <= n → o + n <= off + lenZ d → off + lenZ d <= lenZ l →
  slice o n (splice off d l) = slice (o - off) n d.
Proof.
  intros. apply list_eq. intros i.
  destruct (decide (i < Z.to_nat n)%nat).
  - rewrite !lookup_slice by done. rewrite lookup_splice by lia.
    rewrite decide_True by lia. f_equal. lia.
  - unfold slice. by rewrite !lookup_take_ge by lia.
Qed.

(** ** Little-endian integers *)

Lemma length_le_bytes n v : length (le_bytes n v) = n.
Proof. revert v. induction n; intros; simpl; [done|]. by rewrite IHn. Qed.

Lemma le_bytes_byte n v : Forall is_byte (le_bytes n v).
Proof.
  revert v. induction n; intros v; simpl; constructor; [|apply IHn].
  apply Z.mod_pos_bound. lia.
Qed.

Lemma le_le_bytes n v : le (le_bytes n v) = v mod 256 ^ Z.of_nat n.
Proof.
  revert v. induction n; intros v; cbn [le le_bytes].
  { change (256 ^ Z.of_nat 0) with 1. by rewrite Z.mod_1_r. }
  rewrite IHn, Nat2Z.inj_succ, Z.pow_succ_r by lia.
  rewrite Z.rem_mul_r by (try apply Z.pow_nonzero; lia). lia.
Qed.

Lemma le_bound l : Forall is_byte l → 0 <= le l < 256 ^ Z.of_nat (length l).
Proof.
  induction 1 as [|b l Hb Hl IH]; cbn [le length]; [lia|].
  unfold is_byte in Hb. rewrite Nat2Z.inj_succ, Z.pow_succ_r by lia. lia.
Qed.

Lemma le_bytes_le l n : Forall is_byte l → length l = n → le_bytes n (le l) = l.
Proof.
  intros H. revert n. induction H as [|b l Hb Hl IH]; intros n <-; [done|].
  cbn [le length le_bytes]. unfold is_byte in Hb.
  replace (b + 256 * le l) with (b + le l * 256) by lia.
  rewrite Z.mod_add, Z.mod_small, Z.div_add, Z.div_small by lia.
  by rewrite Z.add_0_l, IH.
Qed.

Lemma le_inj l1 l2 :
  Forall is_byte l1 → Forall is_byte l2 → length l1 = length l2 →
  le l1 = le l2 → l1 = l2.
Proof.
  intros H1 H2 Hlen E. rewrite <- (le_bytes_le l1 _ H1 Hlen).
  rewrite E. by apply le_bytes_le.
Qed.

Lemma Forall_slice {P : Z → Prop} off n l : Forall P l → Forall P (slice off n l).
Proof. intros. unfold slice. by apply Forall_take, Forall_drop. Qed.

Lemma Forall_splice off d l :
  0 <= off → off + lenZ d <= lenZ l →
  Forall is_byte l → Forall is_byte d → Forall is_byte (splice off d l).
Proof.
  intros Ho Hin Hl Hd. apply Forall_lookup. intros i x. rewrite lookup_splice by done.
  case_decide; intros; [by eapply (Forall_lookup_1 _ d)|by eapply (Forall_lookup_1 _ l)].
Qed.

#[export] Hint Rewrite length_le_bytes @length_app @length_take @length_drop
  @length_replicate : bytes.
#[export] Hint Resolve Forall_slice Forall_splice le_bytes_byte : bytes.

Lemma splice_app_mid off d a b c :
  off = lenZ a → length b = length d →
  splice off d (a ++ b ++ c) = a ++ d ++ c.
Proof.
  unfold splice. intros -> Hbd. destruct d as [|x d].
  { by destruct b. }
  rewrite resize_all_alt by (rewrite !length_app, Hbd; lia).
  rewrite Nat2Z.id, take_app_length. f_equal. f_equal.
  rewrite drop_app_ge by lia. replace (length a + length (x :: d) - length a)%nat
    with (length b) by lia. by rewrite drop_app_length.
Qed.

(** What a write leaves up to its end. *)
Lemma take_splice off d l :
  0 <= off → off + lenZ d <= lenZ l →
  take (Z.to_nat (off + lenZ d)) (splice off d l) = take (Z.to_nat off) l ++ d.
Proof.
  intros Ho Hd. apply list_eq. intros i.
  destruct (decide (i < Z.to_nat (off + lenZ d))%nat) as [Hi|Hi].
  - rewrite lookup_take, decide_True, lookup_splice by lia.
    destruct (decide (i < Z.to_nat off)%nat).
    + rewrite decide_False, lookup_app_l by (rewrite ?length_take; lia).
      by rewrite lookup_take, decide_True by lia.
    + rewrite decide_True, lookup_app_r by (rewrite ?length_take; lia).
      f_equal. rewrite length_take. lia.
  - rewrite !lookup_ge_None_2; [done|..]; rewrite ?length_app, ?length_take, ?length_splice by lia; lia.
Qed.
