(* ===== verification/CString.v ===== *)
(** * C strings

    A C string is the [list Z] of its characters as [unsigned char] values,
    without the terminator; a buffer that a library call has cut up holds
    zero bytes, and [c_str] is what a [char *] to its start denotes. *)

From Stdlib Require Import Lia String Ascii.
From stdpp Require Import base numbers option list.
From S2P Require Import Prelude.
Local Open Scope Z_scope.

Abbreviation ch_space := 32 (only parsing).
Abbreviation ch_dot := 46 (only parsing).
Abbreviation ch_slash := 47 (only parsing).

(** Literals, for evaluation on concrete inputs. *)
Fixpoint chars (s : string) : list Z :=
  match s with
  | EmptyString => []
  | String a s => Z.of_nat (nat_of_ascii a) :: chars s
  end.

Section take_while.
Context (f : Z → bool).

Fixpoint take_while (l : list Z) : list Z :=
  match l with
  | [] => []
  | x :: l => if f x then x :: take_while l else []
  end.

Fixpoint drop_while (l : list Z) : list Z :=
  match l with
  | [] => []
  | x :: l => if f x then drop_while l else x :: l
  end.

Lemma take_drop_while l : take_while l ++ drop_while l = l.
Proof. induction l as [|x l IH]; simpl; [done|]. destruct (f x); simpl; by rewrite ?IH. Qed.

Lemma take_while_all l : Forall (λ x, f x = true) l → take_while l = l.
Proof. induction 1 as [|x l Hx _ IH]; simpl; [done|]. by rewrite Hx, IH. Qed.

Lemma drop_while_all l : Forall (λ x, f x = true) l → drop_while l = [].
Proof. induction 1 as [|x l Hx _ IH]; simpl; [done|]. by rewrite Hx. Qed.

Lemma take_while_stop l x k :
  Forall (λ x, f x = true) l → f x = false → take_while (l ++ x :: k) = l.
Proof. induction 1 as [|y l Hy _ IH]; intros Hx; simpl; rewrite ?Hx, ?Hy; [done|]. by rewrite IH. Qed.

Lemma drop_while_stop l x k :
  Forall (λ x, f x = true) l → f x = false → drop_while (l ++ x :: k) = x :: k.
Proof. induction 1 as [|y l Hy _ IH]; intros Hx; simpl; rewrite ?Hx, ?Hy; [done|]. by rewrite IH. Qed.

Lemma take_while_Forall l : Forall (λ x, f x = true) (take_while l).
Proof. induction l as [|x l IH]; simpl; [constructor|]. destruct (f x) eqn:E; by constructor. Qed.
End take_while.

Definition c_str (buf : list Z) : list Z := take_while (λ c, negb (c =? 0)) buf.

Definition no_nul (s : list Z) : Prop := Forall (λ c, c ≠ 0) s.

Lemma c_str_no_nul s : no_nul s → c_str s = s.
Proof.
  intros H. apply take_while_all. forall_impl H. lia.
Qed.

Lemma c_str_cut s k : no_nul s → c_str (s ++ 0 :: k) = s.
Proof.
  intros H. apply take_while_stop; [|done]. forall_impl H. lia.
Qed.

(** [strcmp(a, b) == 0] and [strncmp(a, b, n) == 0] on buffers. *)
Definition strcmp_eq (a b : list Z) : bool := bool_decide (c_str a = c_str b).

Fixpoint strncmp_eq (n : nat) (a b : list Z) : bool :=
  match n with
  | O => true
  | S n =>
    let x := default 0 (head a) in
    let y := default 0 (head b) in
    if x =? y then (if x =? 0 then true else strncmp_eq n (tail a) (tail b)) else false
  end.

Lemma strncmp_eq_refl n a : strncmp_eq n a a = true.
Proof.
  revert a. induction n; intros; simpl; [done|]. rewrite Z.eqb_refl.
  case_match; [done|]. by apply IHn.
Qed.

(** Without NUL bytes in one operand, [strncmp] over the whole length is
    equality. *)
Lemma strncmp_eq_spec a b :
  length a = length b → no_nul b → strncmp_eq (length a) a b = bool_decide (a = b).
Proof.
  revert b. induction a as [|x a IH]; intros [|y b] Hlen Hb; simplify_eq/=.
  { done. }
  inversion Hb; subst. destruct (Z.eqb_spec x y) as [->|Hne].
  - destruct (Z.eqb_spec y 0); [done|]. rewrite IH by done.
    apply bool_decide_ext. naive_solver.
  - rewrite bool_decide_false; [done|]. naive_solver.
Qed.

(** ** [strtok]

    [strtok_run sep n s] makes [n] successive calls, the first with the
    string [s] and the others with NULL: the tokens (None once the string is
    exhausted) and the buffer, in which the byte after each token has been
    overwritten with NUL. *)
Fixpoint strtok_run (sep : Z) (n : nat) (s : list Z) : list (option (list Z)) * list Z :=
  match n with
  | O => ([], s)
  | S n =>
    let skipped := take_while (Z.eqb sep) s in
    let s1 := drop_while (Z.eqb sep) s in
    let tok := take_while (λ c, negb (sep =? c)) s1 in
    match s1, drop_while (λ c, negb (sep =? c)) s1 with
    | [], _ => (replicate (S n) None, s)
    | _, [] => (Some tok :: replicate n None, s)
    | _, _ :: s3 =>
      let '(ts, s3') := strtok_run sep n s3 in
      (Some tok :: ts, skipped ++ tok ++ 0 :: s3')
    end
  end.

Lemma strtok_run_length sep n s : length (strtok_run sep n s).1 = n.
Proof.
  revert s. induction n as [|n IH]; intros s; cbn -[replicate]; [done|].
  case_match; cbn; [by rewrite length_replicate|].
  case_match; cbn; [by rewrite length_replicate|].
  match goal with |- context [strtok_run sep n ?l] => specialize (IH l); destruct (strtok_run sep n l) end.
  cbn in *. by f_equal.
Qed.

(** A string [/c1/c2/.../cn] of components. *)
Definition join_path (cs : list (list Z)) : list Z :=
  concat ((λ c, ch_slash :: c) <$> cs).

(** The same buffer after [strtok] has cut it. *)
Definition cut_path (cs : list (list Z)) : list Z :=
  match cs with
  | [] => []
  | c :: cs => ch_slash :: c ++ concat ((λ c, 0 :: c) <$> cs)
  end.

Definition component (c : list Z) : Prop :=
  c ≠ [] ∧ Forall (λ x, x ≠ ch_slash ∧ x ≠ 0) c.

#[global] Instance component_dec c : Decision (component c).
Proof. unfold component. apply _. Defined.

Lemma component_no_nul c : component c → no_nul c.
Proof. intros [_ H]. forall_impl H. lia. Qed.

Lemma component_no_slash c :
  component c → Forall (λ x, negb (ch_slash =? x) = true) c.
Proof. intros [_ H]. forall_impl H. lia. Qed.

(** One call: leading separators are skipped, the token ends at the next. *)
Lemma strtok_run_last sep n sk c :
  Forall (λ x, (sep =? x) = true) sk → c ≠ [] →
  Forall (λ x, negb (sep =? x) = true) c →
  strtok_run sep (S n) (sk ++ c) = (Some c :: replicate n None, sk ++ c).
Proof.
  intros Hsk Hne Hc. cbn [strtok_run]. destruct c as [|x c]; [done|].
  assert (Hx : (sep =? x) = false) by (inversion Hc; subst; destruct (sep =? x); done).
  rewrite (drop_while_stop _ sk) by done.
  rewrite (drop_while_all _ (x :: c)), (take_while_all _ (x :: c)) by done. done.
Qed.

Lemma strtok_run_more sep n sk c rest :
  Forall (λ x, (sep =? x) = true) sk → c ≠ [] →
  Forall (λ x, negb (sep =? x) = true) c →
  strtok_run sep (S n) (sk ++ c ++ sep :: rest) =
    (Some c :: (strtok_run sep n rest).1, sk ++ c ++ 0 :: (strtok_run sep n rest).2).
Proof.
  intros Hsk Hne Hc. cbn [strtok_run]. destruct c as [|x c]; [done|].
  assert (Hx : (sep =? x) = false) by (inversion Hc; subst; destruct (sep =? x); done).
  cbn [app]. rewrite (drop_while_stop _ sk), (take_while_stop _ sk) by done.
  change (x :: c ++ sep :: rest) with ((x :: c) ++ sep :: rest).
  rewrite take_while_stop, drop_while_stop by (done || by rewrite Z.eqb_refl).
  by destruct (strtok_run sep n rest).
Qed.

Lemma strtok_run_components n c cs :
  Forall component (c :: cs) → (length cs < n)%nat →
  strtok_run ch_slash n (c ++ join_path cs) =
    ((Some <$> c :: cs) ++ replicate (n - S (length cs)) None,
     c ++ concat ((λ c, 0 :: c) <$> cs)).
Proof.
  revert n c. induction cs as [|c' cs IH]; intros [|n] c Hcs Hn; cbn [length] in *; try lia.
  - inversion Hcs as [|?? Hc]; subst. change (join_path []) with (@nil Z).
    cbn [fmap list_fmap concat]. rewrite !app_nil_r.
    pose proof (strtok_run_last ch_slash n [] c (Forall_nil_2 _) (proj1 Hc)
      (component_no_slash _ Hc)) as E.
    cbn [app] in E. rewrite E. by rewrite Nat.sub_succ, Nat.sub_0_r.
  - inversion Hcs as [|?? Hc Hcs']; subst.
    change (join_path (c' :: cs)) with (ch_slash :: c' ++ join_path cs).
    pose proof (strtok_run_more ch_slash n [] c (c' ++ join_path cs) (Forall_nil_2 _)
      (proj1 Hc) (component_no_slash _ Hc)) as E.
    cbn [app] in E. rewrite E, IH by (done || lia). by cbn.
Qed.

(** The calls [path_split] makes on an absolute path. *)
Lemma strtok_run_path n c cs :
  Forall component (c :: cs) → (length cs < n)%nat →
  strtok_run ch_slash n (join_path (c :: cs)) =
    ((Some <$> c :: cs) ++ replicate (n - S (length cs)) None, cut_path (c :: cs)).
Proof.
  intros Hcs Hn. inversion Hcs as [|?? Hc Hcs']; subst.
  change (join_path (c :: cs)) with ([ch_slash] ++ c ++ join_path cs).
  destruct n as [|n]; [lia|]. destruct cs as [|c' cs].
  - change (join_path []) with (@nil Z). rewrite app_nil_r.
    rewrite strtok_run_last by
      (try apply Hc; try (by apply component_no_slash); by repeat constructor).
    cbn. by rewrite app_nil_r, Nat.sub_0_r.
  - change (join_path (c' :: cs)) with (ch_slash :: c' ++ join_path cs).
    rewrite strtok_run_more by
      (try apply Hc; try (by apply component_no_slash); by repeat constructor).
    cbn [length] in Hn. rewrite strtok_run_components by (done || lia). done.
Qed.

Lemma join_path_no_nul cs : Forall component cs → no_nul (join_path cs).
Proof.
  induction 1 as [|c cs Hc _ IH]; [constructor|].
  constructor; [lia|]. apply Forall_app. split; [by apply component_no_nul|done].
Qed.

Lemma c_str_cut_path c cs :
  component c → c_str (cut_path (c :: cs)) = ch_slash :: c.
Proof.
  intros Hc. unfold cut_path. rewrite app_comm_cons.
  assert (no_nul (ch_slash :: c)) by (constructor; [lia|by apply component_no_nul]).
  destruct cs as [|c' cs]; cbn [fmap list_fmap concat].
  - rewrite app_nil_r. by apply c_str_no_nul.
  - by apply c_str_cut.
Qed.

(** ** Decimal numbers *)

(** Decimal digits, as [sprintf] writes them. *)
Fixpoint digits (fuel : nat) (n : Z) (acc : list Z) : list Z :=
  match fuel with
  | O => acc
  | S fuel =>
    let acc := 48 + n mod 10 :: acc in
    if n / 10 =? 0 then acc else digits fuel (n / 10) acc
  end.
Definition sprintf_u (n : Z) : list Z := digits 20 n [].

Lemma length_digits fuel n acc k :
  0 <= n < 10 ^ Z.of_nat k → (1 ≤ k)%nat → Z.of_nat (length (digits fuel n acc)) <= Z.of_nat k + Z.of_nat (length acc).
Proof.
  revert n acc k. induction fuel as [|fuel IH]; intros n acc k Hn Hk; cbn [digits]; [lia|].
  destruct (Z.eqb_spec (n / 10) 0); [cbn [length]; lia|].
  destruct k as [|[|k]]; [lia| |].
  { change (10 ^ Z.of_nat 1) with 10 in Hn. rewrite Z.div_small in *; lia. }
  assert (Hd : 0 <= n / 10 < 10 ^ Z.of_nat (S k)).
  { split; [apply Z.div_pos; lia|]. apply Z.div_lt_upper_bound; [lia|].
    rewrite <- Z.pow_succ_r by lia. replace (Z.succ (Z.of_nat (S k))) with (Z.of_nat (S (S k))) by lia.
    apply Hn. }
  pose proof (IH (n / 10) (48 + n mod 10 :: acc) (S k) Hd ltac:(lia)) as E. cbn [length] in *. lia.
Qed.

Lemma digits_chars fuel n acc :
  Forall (λ c, 48 <= c <= 57) acc → Forall (λ c, 48 <= c <= 57) (digits fuel n acc).
Proof.
  revert n acc. induction fuel as [|fuel IH]; intros n acc Ha; cbn [digits]; [done|].
  assert (Hd : Forall (λ c, 48 <= c <= 57) (48 + n mod 10 :: acc)).
  { apply Forall_cons_2; [|done]. pose proof (Z.mod_pos_bound n 10). lia. }
  case_goal; [done|by apply IH].
Qed.

(** The digits that [sprintf] writes denote the number. *)
Lemma digits_value k n acc :
  0 <= n < 10 ^ Z.of_nat k → (1 ≤ k)%nat →
  ∃ ds, digits k n acc = ds ++ acc ∧ Forall (λ c, 48 <= c <= 57) ds ∧
    foldl (λ a c, 10 * a + (c - 48)) 0 ds = n.
Proof.
  revert n acc. induction k as [|k IH]; intros n acc Hn Hk; [lia|]. cbn [digits].
  pose proof (Z.div_mod n 10 ltac:(lia)) as Hdm. pose proof (Z.mod_pos_bound n 10 ltac:(lia)).
  destruct (Z.eqb_spec (n / 10) 0) as [E|E].
  - exists [48 + n mod 10]. split; [done|]. split; [apply Forall_cons_2; [lia|apply Forall_nil_2]|].
    cbn [foldl]. lia.
  - rewrite Nat2Z.inj_succ, Z.pow_succ_r in Hn by lia.
    assert (0 <= n / 10 < 10 ^ Z.of_nat k) by (split; [apply Z.div_pos|apply Z.div_lt_upper_bound]; lia).
    destruct k as [|k]; [lia|].
    destruct (IH (n / 10) (48 + n mod 10 :: acc)) as (ds & E1 & E2 & E3); [done|lia|].
    exists (ds ++ [48 + n mod 10]). rewrite E1, <- app_assoc. split; [done|]. split.
    + apply Forall_app. split; [done|]. apply Forall_cons_2; [lia|apply Forall_nil_2].
    + rewrite foldl_snoc, E3. lia.
Qed.
