(* ===== verification/Names.v ===== *)
(** * File names and paths

    The pure string part of lab4/simple_fat16_new.c: splitting a path into
    FAT 8.3 names ([path_split]), the way back from a directory entry
    ([path_decode]), and the helpers that keep the user's spelling
    ([org_path_split], [get_prt_path]). [path_split] cuts the path it is
    given with [strtok], so the buffer it leaves behind is part of its result. *)

From Stdlib Require Import Lia String.
From stdpp Require Import base numbers option list.
From S2P Require Import Prelude Bytes CString.
Local Open Scope Z_scope.

(** ** Definitions *)

Definition is_lower (c : Z) : bool := (97 <=? c) && (c <=? 122).
Definition is_upper (c : Z) : bool := (65 <=? c) && (c <=? 90).

Definition depth (pathInput : list Z) : Z :=
  Z.of_nat (length (filter (λ c, c = ch_slash) (c_str pathInput))).

(** The loop [for (; k < hi; k++) out[k] = ' ']. *)
Definition fill_spaces (k hi : Z) (out : list Z) : list Z :=
  splice k (replicate (Z.to_nat (hi - k)) ch_space) out.

(** The inner loop of [path_split] over one component: [cs] is
    [paths[i] + j], and the result is [flag] with [path_transform[i]]. *)
Fixpoint convert_name (cs : list Z) (j k name_len ext_len : Z) (flag : bool)
    (out : list Z) : res (bool * list Z) :=
  match cs with
  | [] => Ok (flag, fill_spaces k 11 out)
  | c :: cs' =>
    if c =? ch_dot then
      if (j =? 0) && bool_decide (cs' = []) then
        Ok (flag, fill_spaces 1 11 (splice 0 [ch_dot] out))
      else if (j =? 0) && bool_decide (cs' = [ch_dot]) then
        Ok (flag, fill_spaces 2 11 (splice 1 [ch_dot] (splice 0 [ch_dot] out)))
      else if negb flag then
        if bool_decide (cs' = []) then Exit 1
        else convert_name cs' (j + 1) (7 + 1) name_len ext_len true (fill_spaces k 8 out)
      else Exit 1
    else
      if (name_len =? 8) && negb flag then
        convert_name cs' (j + 1) (7 + 1) name_len ext_len flag out
      else if ext_len =? 3 then Ok (flag, out)
      else
        _ ← require ((0 <=? k) && (k <? 11)) OutOfBounds;
        let out' := splice k [if is_lower c then c - 32 else c] out in
        if flag then convert_name cs' (j + 1) (k + 1) name_len (ext_len + 1) flag out'
        else convert_name cs' (j + 1) (k + 1) (name_len + 1) ext_len flag out'
  end.

Section names.
Context `{Platform}.

(** The outer loop: [flag] is carried from one component to the next. *)
Fixpoint convert_names (paths : list (option (list Z))) (flag : bool) : res (list (list Z)) :=
  match paths with
  | [] => Ok []
  | None :: _ => Undef NullDeref
  | Some p :: ps =>
    '(flag', row) ← convert_name p 0 0 0 0 flag (uninit 11);
    rows ← convert_names ps flag';
    Ok (row :: rows)
  end.

(** [path_split]: the rows of [path_transform], [*pathDepth_ret], and what
    is left of the buffer [pathInput]. *)
Definition path_split (pathInput : list Z) : res (list (list Z) * Z * list Z) :=
  let s := c_str pathInput in
  let pathDepth := depth pathInput in
  let n := Z.to_nat pathDepth in
  let '(toks, s') := strtok_run ch_slash (S n) s in
  rows ← convert_names (take n toks) false;
  Ok (rows, pathDepth, s' ++ drop (length s) pathInput).

(** [org_path_split] works on a copy, so its argument is not changed. *)
Definition org_path_split (pathInput : list Z) : list (option (list Z)) :=
  let pathDepth := depth pathInput in
  take (Z.to_nat pathDepth)
    (strtok_run ch_slash (S (Z.to_nat pathDepth)) (c_str pathInput)).1.

(** [paths[i]] used as a [char *]. *)
Definition path_at (paths : list (option (list Z))) (i : Z) : res (list Z) :=
  _ ← require (0 <=? i) OutOfBounds;
  match paths !! Z.to_nat i with
  | Some (Some p) => Ok p
  | Some None => Undef NullDeref
  | None => Undef OutOfBounds
  end.

Definition get_prt_path (path : list Z) (orgPaths : list (option (list Z)))
    (pathDepth : Z) : res (list Z) :=
  if pathDepth =? 1 then Ok [ch_slash]
  else
    last ← path_at orgPaths (pathDepth - 1);
    let prtPathLen := lenZ (c_str path) - lenZ last - 1 in
    _ ← require (0 <=? prtPathLen) OutOfBounds;
    Ok (take (Z.to_nat prtPathLen) (c_str path)).

(** [p = malloc(sizeof(path)); strcpy(p, path)]: the block is that of an
    eight-byte pointer whatever the length of the string. *)
Definition copy_path (path : list Z) : res (list Z) :=
  _ ← require (lenZ (c_str path) + 1 <=? malloc_usable 8) HeapOverflow;
  Ok (c_str path).
End names.

(** [path_decode]: the bytes of [pathDecoded] before the final NUL. *)
Fixpoint decode_loop (i : Z) (cs : list Z) (pathDecoded : list Z) : res (list Z) :=
  match cs with
  | [] => Ok pathDecoded
  | c :: cs =>
    if c =? ch_space then decode_loop (i + 1) cs pathDecoded
    else
      let pathDecoded := if i =? 8 then pathDecoded ++ [ch_dot] else pathDecoded in
      let pathDecoded :=
        pathDecoded ++ [if is_upper c then c - 65 + 97 else c] in
      _ ← require (lenZ pathDecoded <=? 13) HeapOverflow;
      decode_loop (i + 1) cs pathDecoded
  end.

Definition path_decode (path : list Z) : res (list Z) :=
  if (byte_at path 0 =? ch_dot) && (byte_at path 1 =? ch_dot) && (byte_at path 2 =? ch_space)
  then Ok [ch_dot; ch_dot]
  else if (byte_at path 0 =? ch_dot) && (byte_at path 1 =? ch_space) then Ok [ch_dot]
  else
    out ← decode_loop 0 (take 11 path) [];
    _ ← require (lenZ out <? 13) HeapOverflow;
    Ok out.

(** ** The 8.3 name of a component

    What a correct translation of a component gives: upper case, base padded
    or cut to eight characters, extension padded or cut to three. *)
Definition toupper (c : Z) : Z := if is_lower c then c - 32 else c.

Definition fat_name (base ext : list Z) : list Z :=
  resize 8 ch_space (toupper <$> base) ++ resize 3 ch_space (toupper <$> ext).

Definition spell (base ext : list Z) : list Z :=
  match ext with [] => base | _ => base ++ ch_dot :: ext end.

Definition dot_free (s : list Z) : Prop := Forall (λ c, c ≠ ch_dot) s.

#[global] Instance dot_free_dec s : Decision (dot_free s).
Proof. unfold dot_free. apply _. Defined.

Lemma length_fat_name base ext : length (fat_name base ext) = 11%nat.
Proof. unfold fat_name. by rewrite length_app, !length_resize. Qed.

Lemma fill_spaces_app k hi a b c :
  k = lenZ a → hi = k + lenZ b →
  fill_spaces k hi (a ++ b ++ c) = a ++ replicate (length b) ch_space ++ c.
Proof.
  intros -> ->. unfold fill_spaces.
  replace (Z.to_nat (lenZ a + lenZ b - lenZ a)) with (length b) by lia.
  apply splice_app_mid; [done|]. by rewrite length_replicate.
Qed.

Lemma fill_spaces_all k a b :
  k = lenZ a → length b = (11 - length a)%nat → (length a ≤ 11)%nat →
  fill_spaces k 11 (a ++ b) = a ++ replicate (11 - length a) ch_space.
Proof.
  intros. rewrite <- (app_nil_r b), fill_spaces_app by lia.
  rewrite app_nil_r. congruence.
Qed.

(** One character of a base name. *)
Lemma convert_name_base_char c cs j done x junk :
  c ≠ ch_dot → (length done < 8)%nat →
  convert_name (c :: cs) j (lenZ done) (lenZ done) 0 false (done ++ x :: junk) =
  convert_name cs (j + 1) (lenZ (done ++ [toupper c])) (lenZ (done ++ [toupper c])) 0 false
    ((done ++ [toupper c]) ++ junk).
Proof.
  intros Hc Hlen. cbn [convert_name]. rewrite (proj2 (Z.eqb_neq _ _)) by done.
  rewrite (proj2 (Z.eqb_neq _ 8)) by lia. cbn [andb].
  rewrite (proj2 (Z.eqb_neq 0 3)) by lia.
  rewrite (proj2 (Z.leb_le _ _)), (proj2 (Z.ltb_lt _ _)) by lia. res_steps.
  replace (lenZ (done ++ [toupper c])) with (lenZ done + 1)
    by (rewrite length_app; cbn [length]; lia).
  change (done ++ x :: junk) with (done ++ [x] ++ junk).
  rewrite splice_app_mid by done. by rewrite <- app_assoc.
Qed.

(** The eighth character of a base name is the last one kept. *)
Lemma convert_name_base_full cs rest j out :
  dot_free cs →
  convert_name (cs ++ rest) j 8 8 0 false out =
  convert_name rest (j + lenZ cs) 8 8 0 false out.
Proof.
  intros Hcs. revert j. induction Hcs as [|c cs Hc _ IH]; intros j.
  { cbn [app length]. by rewrite Z.add_0_r. }
  cbn [app convert_name]. rewrite (proj2 (Z.eqb_neq _ _)) by done. cbn -[Z.of_nat].
  rewrite IH. f_equal. cbn [length]. lia.
Qed.

Lemma convert_name_base cs rest j done junk :
  dot_free cs → (length done ≤ 8)%nat → (8 ≤ length done + length junk)%nat →
  let done' := take 8 (done ++ (toupper <$> cs)) in
  convert_name (cs ++ rest) j (lenZ done) (lenZ done) 0 false (done ++ junk) =
  convert_name rest (j + lenZ cs) (lenZ done') (lenZ done') 0 false
    (done' ++ drop (length done' - length done) junk).
Proof.
  intros Hcs. revert j done junk. induction Hcs as [|c cs Hc Hcs IH]; intros j done junk H1 H2; cbn zeta.
  { cbn [app fmap list_fmap]. rewrite app_nil_r, take_ge by lia.
    rewrite Nat.sub_diag, drop_0. cbn [length]. f_equal. lia. }
  destruct (decide (length done = 8)%nat) as [E|E].
  - rewrite take_app_length' by done. rewrite Nat.sub_diag, drop_0.
    replace (lenZ done) with 8 by lia.
    apply convert_name_base_full. by constructor.
  - destruct junk as [|x junk]; cbn [length] in H2; [lia|].
    cbn [app]. rewrite convert_name_base_char by (done || lia).
    rewrite IH by (rewrite length_app; cbn [length]; lia). cbn zeta.
    rewrite fmap_cons, <- app_assoc. cbn [app].
    set (d := take 8 (done ++ toupper c :: (toupper <$> cs))).
    assert (length done < length d)%nat.
    { unfold d. rewrite length_take, length_app. cbn [length]. lia. }
    rewrite length_app. cbn [length].
    replace (length d - length done)%nat with (S (length d - (length done + 1))) by lia.
    cbn [drop]. f_equal. lia.
Qed.

(** The extension, written from column [8 + ext_len]. *)
Lemma convert_name_ext ext j nl done junk el :
  dot_free ext → length done = (8 + el)%nat → (el ≤ 3)%nat →
  length junk = (3 - el)%nat →
  convert_name ext j (8 + Z.of_nat el) nl (Z.of_nat el) true (done ++ junk) =
  Ok (true, done ++ resize (3 - el) ch_space (toupper <$> ext)).
Proof.
  intros Hext. revert j done junk el.
  induction Hext as [|c ext Hc Hext IH]; intros j done junk el Hd He Hj.
  { cbn [convert_name]. rewrite fill_spaces_all by lia.
    rewrite fmap_nil, resize_nil. do 4 f_equal. lia. }
  cbn [convert_name]. rewrite (proj2 (Z.eqb_neq _ _)) by done. cbn [negb]. rewrite andb_false_r.
  destruct (decide (el = 3)%nat) as [->|Hne].
  { destruct junk; [|done]. cbn -[Z.of_nat]. by rewrite app_nil_r. }
  rewrite (proj2 (Z.eqb_neq _ 3)) by lia.
  rewrite (proj2 (Z.leb_le _ _)), (proj2 (Z.ltb_lt _ _)) by lia. res_steps.
  destruct junk as [|x junk]; cbn [length] in Hj; [lia|].
  change (done ++ x :: junk) with (done ++ [x] ++ junk).
  rewrite splice_app_mid by (done || lia).
  change (if is_lower c then c - 32 else c) with (toupper c).
  rewrite app_assoc. replace (8 + Z.of_nat el + 1) with (8 + Z.of_nat (S el)) by lia.
  replace (Z.of_nat el + 1) with (Z.of_nat (S el)) by lia.
  rewrite IH by (rewrite ?length_app; cbn [length]; lia).
  rewrite <- app_assoc, fmap_cons. replace (3 - el)%nat with (S (3 - S el)) by lia. done.
Qed.


(** The dot that starts the extension. *)
Lemma convert_name_dot cs j k nl el out :
  cs ≠ [] → cs ≠ [ch_dot] →
  convert_name (ch_dot :: cs) j k nl el false out =
  convert_name cs (j + 1) 8 nl el true (fill_spaces k 8 out).
Proof.
  intros H1 H2. cbn [convert_name]. rewrite Z.eqb_refl.
  rewrite !bool_decide_false by done. by rewrite !andb_false_r.
Qed.

Lemma resize_app_pad n (l : list Z) :
  (length l ≤ n)%nat → l ++ replicate (n - length l) ch_space = resize n ch_space l.
Proof. intros. by rewrite resize_ge. Qed.

(** [path_split]'s inner loop on one component that has at most one dot: the
    8.3 name, and the flag telling whether a dot was met. *)
Lemma convert_component base ext out :
  dot_free base → dot_free ext → length out = 11%nat →
  convert_name (spell base ext) 0 0 0 0 false out =
    Ok (bool_decide (ext ≠ []), fat_name base ext).
Proof.
  intros Hb He Hout. set (d := take 8 (toupper <$> base)).
  assert (Hd : (length d ≤ 8)%nat) by (unfold d; rewrite length_take; lia).
  assert (Hres : d ++ replicate (8 - length d) ch_space = resize 8 ch_space (toupper <$> base)).
  { rewrite resize_app_pad by done. unfold d. apply resize_take_eq. }
  assert (Hbase : ∀ rest, convert_name (base ++ rest) 0 0 0 0 false out =
    convert_name rest (lenZ base) (lenZ d) (lenZ d) 0 false (d ++ drop (length d) out)).
  { intros rest. pose proof (convert_name_base base rest 0 [] out Hb) as E.
    cbn [app length] in E. change (Z.of_nat 0) with 0 in E. cbn zeta in E. rewrite E by lia.
    by rewrite Nat.sub_0_r. }
  destruct ext as [|e ext].
  - cbn [spell]. rewrite <- (app_nil_r base), Hbase. cbn [convert_name].
    rewrite fill_spaces_all by (rewrite ?length_drop; lia).
    rewrite app_nil_r. unfold fat_name. rewrite <- Hres, <- app_assoc.
    rewrite bool_decide_false by naive_solver.
    do 3 f_equal. change (resize 3 ch_space (toupper <$> [])) with (replicate 3 ch_space).
    rewrite <- replicate_add. f_equal. lia.
  - cbn [spell]. rewrite Hbase, convert_name_dot; [|done|].
    2:{ intros [= -> ->]. by inversion He. }
    replace (drop (length d) out) with
      (take (8 - length d) (drop (length d) out) ++ drop 8 out).
    2:{ rewrite <- (take_drop (8 - length d) (drop (length d) out)) at 2.
        rewrite drop_drop. do 2 f_equal. lia. }
    rewrite fill_spaces_app by (rewrite ?length_take, ?length_drop; lia).
    rewrite length_take, length_drop, Nat.min_l by lia.
    rewrite app_assoc, Hres.
    pose proof (convert_name_ext (e :: ext) (lenZ base + 1) (lenZ d)
      (resize 8 ch_space (toupper <$> base)) (drop 8 out) 0) as E.
    change (8 + Z.of_nat 0) with 8 in E. change (Z.of_nat 0) with 0 in E.
    rewrite E by (rewrite ?length_resize, ?length_drop; done || lia).
    by rewrite bool_decide_true.
Qed.

(** ** Paths *)

Lemma depth_join_path cs : Forall component cs → depth (join_path cs) = lenZ cs.
Proof.
  intros Hcs. unfold depth. rewrite c_str_no_nul by by apply join_path_no_nul.
  f_equal. induction Hcs as [|c cs Hc _ IH]; [done|].
  change (join_path (c :: cs)) with (ch_slash :: c ++ join_path cs).
  rewrite filter_cons_True, filter_app, length_cons, length_app, IH by done.
  assert (filter (λ c, c = ch_slash) c = []) as ->; [|done].
  destruct Hc as [_ Hc]. induction Hc as [|x c [Hx _] _ IHc]; [done|].
  by rewrite filter_cons_False.
Qed.

Section paths.
Context `{Platform}.

Lemma path_split_join c cs rows :
  Forall component (c :: cs) → convert_names (Some <$> c :: cs) false = Ok rows →
  path_split (join_path (c :: cs)) = Ok (rows, 1 + lenZ cs, cut_path (c :: cs)).
Proof.
  intros Hcs Hrows. unfold path_split.
  rewrite depth_join_path, c_str_no_nul by (done || by apply join_path_no_nul).
  rewrite Nat2Z.id, strtok_run_path by (cbn [length]; done || lia).
  rewrite take_app_length' by by rewrite length_fmap.
  res_step Hrows. rewrite drop_all, app_nil_r. do 3 f_equal. cbn [length]. lia.
Qed.

(** Components without dots leave the flag alone. *)
Lemma convert_names_dirs dirs rest :
  Forall dot_free dirs →
  convert_names ((Some <$> dirs) ++ rest) false =
  (rows ← convert_names rest false; Ok (((λ d, fat_name d []) <$> dirs) ++ rows)).
Proof.
  induction 1 as [|d dirs Hd _ IH].
  { cbn [fmap list_fmap app]. by destruct (convert_names rest false). }
  cbn [fmap list_fmap app convert_names].
  change d with (spell d []) at 1. rewrite convert_component by first [done|by constructor|apply length_uninit].
  cbn [mbind res_bind]. rewrite bool_decide_false by naive_solver.
  change (list_fmap _ _ Some dirs) with (Some <$> dirs). rewrite IH.
  by destruct (convert_names rest false).
Qed.

Lemma convert_names_file dirs base ext :
  Forall dot_free dirs → dot_free base → dot_free ext →
  convert_names (Some <$> (dirs ++ [spell base ext])) false =
  Ok (((λ d, fat_name d []) <$> dirs) ++ [fat_name base ext]).
Proof.
  intros Hd Hb He. rewrite fmap_app, convert_names_dirs by done.
  cbn [fmap list_fmap convert_names].
  rewrite convert_component by first [done|by constructor|apply length_uninit]. done.
Qed.

Definition path_of (dirs : list (list Z)) (base ext : list Z) : list Z :=
  join_path (dirs ++ [spell base ext]).

(** A path whose directories have no extension. *)
Record plain_path (dirs : list (list Z)) (base ext : list Z) : Prop := {
  plain_component : Forall component (dirs ++ [spell base ext]);
  plain_dirs : Forall dot_free dirs;
  plain_base : dot_free base;
  plain_ext : dot_free ext
}.

Lemma path_split_plain dirs base ext :
  plain_path dirs base ext →
  path_split (path_of dirs base ext) =
    Ok (((λ d, fat_name d []) <$> dirs) ++ [fat_name base ext],
        1 + lenZ dirs, cut_path (dirs ++ [spell base ext])).
Proof.
  intros [Hc Hd Hb He]. unfold path_of.
  destruct (dirs ++ [spell base ext]) as [|c cs] eqn:E; [by destruct dirs|].
  rewrite (path_split_join c cs (((λ d, fat_name d []) <$> dirs) ++ [fat_name base ext])).
  - apply (f_equal length) in E. rewrite length_app in E. cbn [length] in E.
    do 3 f_equal. lia.
  - done.
  - rewrite <- E. by apply convert_names_file.
Qed.
End paths.

(** ** Parents *)

Definition parent_string (dirs : list (list Z)) : list Z :=
  match dirs with [] => [ch_slash] | _ => join_path dirs end.

Lemma org_path_split_join c cs :
  Forall component (c :: cs) → org_path_split (join_path (c :: cs)) = Some <$> c :: cs.
Proof.
  intros Hcs. unfold org_path_split.
  rewrite depth_join_path, c_str_no_nul by (done || by apply join_path_no_nul).
  rewrite Nat2Z.id, strtok_run_path by (cbn [length]; done || lia).
  cbn [fst]. by rewrite take_app_length' by by rewrite length_fmap.
Qed.

Lemma join_path_app cs1 cs2 : join_path (cs1 ++ cs2) = join_path cs1 ++ join_path cs2.
Proof. unfold join_path. by rewrite fmap_app, concat_app. Qed.

Lemma path_at_last (cs : list (list Z)) x :
  path_at (Some <$> (cs ++ [x])) (lenZ cs) = Ok x.
Proof.
  unfold path_at. rewrite (proj2 (Z.leb_le _ _)) by lia. res_steps.
  by rewrite Nat2Z.id, list_lookup_fmap, lookup_app_r, Nat.sub_diag by lia.
Qed.

Lemma get_prt_path_join cs x :
  Forall component (cs ++ [x]) →
  get_prt_path (join_path (cs ++ [x])) (Some <$> (cs ++ [x])) (lenZ cs + 1) =
    Ok (parent_string cs).
Proof.
  intros Hcs. unfold get_prt_path. destruct cs as [|c cs]; [done|].
  rewrite (proj2 (Z.eqb_neq _ _)) by (cbn [length]; lia).
  replace (lenZ (c :: cs) + 1 - 1) with (lenZ (c :: cs)) by lia.
  rewrite path_at_last. res_steps. rewrite c_str_no_nul by by apply join_path_no_nul.
  rewrite join_path_app, length_app.
  assert (Hx : length (join_path [x]) = S (length x)).
  { unfold join_path. cbn. by rewrite app_nil_r. }
  rewrite Hx. rewrite (proj2 (Z.leb_le _ _)) by lia. res_steps.
  rewrite take_app_length' by lia. done.
Qed.

Lemma parent_string_root cs :
  Forall component cs → strcmp_eq (parent_string cs) [ch_slash] = bool_decide (cs = []).
Proof.
  intros Hcs. unfold strcmp_eq. apply bool_decide_ext. destruct cs as [|c cs]; [done|].
  cbn [parent_string]. rewrite c_str_no_nul by by apply join_path_no_nul.
  inversion Hcs as [|? ? [Hne _] _]; subst. destruct c; [done|]. by split.
Qed.

(** ** Decoding *)

(** The characters a short name consists of once it is spelt in lower case. *)
Definition name_char (c : Z) : Prop :=
  c ≠ ch_space ∧ c ≠ ch_dot ∧ is_upper c = false.

Lemma toupper_facts c :
  name_char c → toupper c ≠ ch_space ∧ toupper c ≠ ch_dot ∧
  (if is_upper (toupper c) then toupper c - 65 + 97 else toupper c) = c.
Proof.
  unfold name_char, toupper, is_lower, is_upper. intros (?&?&?).
  destruct ((97 <=? c) && (c <=? 122)) eqn:E; case_match; lia.
Qed.

Lemma decode_loop_chars i cs rest out :
  Forall name_char cs → i + lenZ cs <= 8 ∨ 8 < i → lenZ out + lenZ cs <= 13 →
  decode_loop i ((toupper <$> cs) ++ rest) out = decode_loop (i + lenZ cs) rest (out ++ cs).
Proof.
  intros Hcs. revert i out. induction Hcs as [|c cs Hc _ IH]; intros i out Hi Hlen.
  { cbn [fmap list_fmap app length]. rewrite app_nil_r. f_equal. lia. }
  destruct (toupper_facts c Hc) as (H1 & H2 & H3).
  cbn [fmap list_fmap app decode_loop length] in *.
  rewrite (proj2 (Z.eqb_neq _ _)), (proj2 (Z.eqb_neq _ 8)) by (done || lia).
  rewrite H3. rewrite (proj2 (Z.leb_le _ _)) by (rewrite length_app; cbn [length]; lia).
  res_steps. change (list_fmap _ _ toupper cs) with (toupper <$> cs).
  rewrite IH by (rewrite ?length_app; cbn [length]; lia).
  rewrite <- app_assoc. cbn [app]. f_equal. lia.
Qed.

Lemma decode_loop_spaces i n rest out :
  decode_loop i (replicate n ch_space ++ rest) out = decode_loop (i + Z.of_nat n) rest out.
Proof.
  revert i. induction n as [|n IH]; intros i; cbn [replicate app decode_loop].
  { f_equal. lia. }
  rewrite Z.eqb_refl, IH. f_equal. lia.
Qed.

Lemma fmap_resize_pad n (l : list Z) :
  (length l ≤ n)%nat →
  resize n ch_space (toupper <$> l) = (toupper <$> l) ++ replicate (n - length l) ch_space.
Proof. intros. rewrite resize_ge by by rewrite length_fmap. by rewrite length_fmap. Qed.

(** The first loop of [path_decode] inverts [fat_name]. *)
Lemma decode_loop_fat_name base ext :
  Forall name_char base → Forall name_char ext →
  (length base ≤ 8)%nat → (length ext ≤ 3)%nat →
  decode_loop 0 (fat_name base ext) [] = Ok (spell base ext).
Proof.
  intros Hb He Hlb Hle. unfold fat_name. rewrite !fmap_resize_pad by done.
  rewrite <- app_assoc, decode_loop_chars by (done || cbn [length]; lia).
  rewrite decode_loop_spaces. cbn [app].
  replace (0 + lenZ base + Z.of_nat (8 - length base)) with 8 by lia.
  destruct He as [|c ext Hc He]; cbn [fmap list_fmap app spell].
  { cbn [length]. rewrite <- (app_nil_r (replicate _ _)), decode_loop_spaces. done. }
  destruct (toupper_facts c Hc) as (H1 & H2 & H3). cbn [decode_loop length] in *.
  rewrite (proj2 (Z.eqb_neq _ _)), Z.eqb_refl, H3 by done.
  rewrite (proj2 (Z.leb_le _ _)) by (rewrite !length_app; cbn [length]; lia).
  res_steps. change (list_fmap _ _ toupper ext) with (toupper <$> ext).
  rewrite decode_loop_chars by (done || rewrite ?length_app; cbn [length]; lia).
  rewrite <- (app_nil_r (replicate _ _)), decode_loop_spaces.
  cbn [decode_loop]. by rewrite <- !app_assoc.
Qed.

(** The buffer of [path_decode] holds 13 bytes and 11 input characters plus
    a dot plus the terminator fit. *)
Lemma decode_loop_fits i cs out :
  0 <= i → i + lenZ cs <= 11 → lenZ out <= i + (if 8 <? i then 1 else 0) →
  ∃ out', decode_loop i cs out = Ok out' ∧ lenZ out' <= 12.
Proof.
  revert i out. induction cs as [|c cs IH]; intros i out Hi Hcs Hout; cbn [length decode_loop] in *.
  { exists out. split; [done|]. case_match; lia. }
  destruct (c =? ch_space).
  { apply IH; [lia|lia|]. repeat case_match; lia. }
  set (o := if i =? 8 then _ else _).
  assert (lenZ o <= i + (if 8 <=? i then 1 else 0)).
  { unfold o. destruct (Z.eqb_spec i 8); rewrite ?length_app; cbn [length];
      repeat case_match; lia. }
  rewrite (proj2 (Z.leb_le _ 13)) by (rewrite length_app; cbn [length]; case_match; lia).
  res_steps. apply IH; [lia|lia|]. rewrite length_app. cbn [length]. repeat case_match; lia.
Qed.

Lemma path_decode_ok path :
  length path = 11%nat → ∃ name, path_decode path = Ok name ∧ lenZ name <= 12.
Proof.
  intros Hl. unfold path_decode. case_goal; [eexists; split; [done|cbn; lia]|].
  case_goal; [eexists; split; [done|cbn; lia]|].
  destruct (decode_loop_fits 0 (take 11 path) []) as (o & -> & Ho);
    [lia|rewrite length_take; lia|cbn; lia|].
  exists o. res_steps. by rewrite (proj2 (Z.ltb_lt _ _)) by lia.
Qed.

(** ** Memory safety of [path_split] *)

(** The column [k] and the two counters stay in step. *)
Definition columns_ok (k name_len ext_len : Z) (flag : bool) : Prop :=
  0 <= ext_len <= 3 ∧
  (if flag then k = ext_len ∨ k = 8 + ext_len
   else ext_len = 0 ∧ k = name_len ∧ 0 <= name_len <= 8).

Definition row_result (r : res (bool * list Z)) : Prop :=
  r = Exit 1 ∨ ∃ flag row, r = Ok (flag, row) ∧ length row = 11%nat.

Lemma length_fill_spaces k hi out :
  0 <= k → hi <= lenZ out → length (fill_spaces k hi out) = length out.
Proof.
  intros. unfold fill_spaces. destruct (decide (k <= hi)).
  - apply length_splice; rewrite ?length_replicate; lia.
  - by replace (Z.to_nat (hi - k)) with O by lia.
Qed.

Lemma convert_name_safe cs j k name_len ext_len flag out :
  columns_ok k name_len ext_len flag → length out = 11%nat →
  row_result (convert_name cs j k name_len ext_len flag out).
Proof.
  revert j k name_len ext_len flag out.
  induction cs as [|c cs IH]; intros j k nl el flag out (He & Hk) Hout; cbn [convert_name].
  { right. eexists _, _. split; [done|]. rewrite length_fill_spaces; [done| |lia].
    destruct flag; lia. }
  assert (Hk0 : 0 <= k) by (destruct flag; lia).
  destruct (Z.eqb_spec c ch_dot) as [->|].
  { case_goal; [|case_goal].
    - right. eexists _, _. split; [done|].
      rewrite length_fill_spaces; rewrite ?length_splice; cbn [length]; lia.
    - right. eexists _, _. split; [done|].
      rewrite length_fill_spaces; repeat (rewrite length_splice; cbn [length]); lia.
    - destruct flag; cbn [negb]; [by left|]. case_goal; [by left|].
      apply IH; [split; lia|]. rewrite length_fill_spaces; lia. }
  destruct ((nl =? 8) && negb flag) eqn:E1.
  { apply IH; [|done]. destruct flag; [lia|]. split; lia. }
  destruct (Z.eqb_spec el 3); [right; eauto|].
  rewrite (proj2 (Z.leb_le _ _)), (proj2 (Z.ltb_lt _ _)) by (destruct flag; lia).
  res_steps. destruct flag; (apply IH; [split; lia|]);
    rewrite length_splice; cbn [length]; lia.
Qed.

Lemma convert_names_safe `{Platform} paths flag :
  match convert_names paths flag with
  | Ok rows => Forall (λ r, length r = 11%nat) rows ∧ length rows = length paths
  | Exit c => c = 1
  | Undef u => u = NullDeref ∧ None ∈ paths
  | OutOfFuel => False
  end.
Proof.
  revert flag. induction paths as [|[p|] ps IH]; intros flag; cbn [convert_names].
  { split; [constructor|done]. }
  2:{ split; [done|]. by apply list_elem_of_here. }
  assert (columns_ok 0 0 0 flag) by (split; [lia|]; destruct flag; lia).
  destruct (convert_name_safe p 0 0 0 0 flag (uninit 11)) as [->|(f & r & -> & Hr)];
    [done|apply length_uninit|done|].
  cbn [mbind res_bind]. specialize (IH f). destruct (convert_names ps f); cbn [mbind res_bind].
  - destruct IH as [IH1 IH2]. cbn [length]. split; [by constructor|lia].
  - done.
  - destruct IH as [-> IH]. split; [done|]. by apply list_elem_of_further.
  - done.
Qed.

(** ** The flag that survives a component

    [flag] is declared outside the loop over the components and never reset,
    so after a component with an extension the next one is read as if it
    were already inside its extension. *)
Lemma convert_name_stale p c rest j nl done junk :
  dot_free p → c ≠ ch_dot → (length done + length p = 3)%nat →
  (length p ≤ length junk)%nat → (length done + length junk ≤ 11)%nat →
  convert_name (p ++ c :: rest) j (lenZ done) nl (lenZ done) true (done ++ junk) =
    Ok (true, done ++ (toupper <$> p) ++ drop (length p) junk).
Proof.
  intros Hp Hc. revert j done junk. induction Hp as [|x p Hx Hp IH]; intros j done junk Hl Hj Hd.
  { cbn [app convert_name]. rewrite (proj2 (Z.eqb_neq c _)) by done.
    cbn [negb length] in *. rewrite andb_false_r.
    replace (lenZ done) with 3 by lia. done. }
  cbn [app convert_name length] in *. rewrite (proj2 (Z.eqb_neq x _)) by done.
  cbn [negb]. rewrite andb_false_r, (proj2 (Z.eqb_neq _ 3)) by lia.
  rewrite (proj2 (Z.leb_le _ _)), (proj2 (Z.ltb_lt _ _)) by lia. res_steps.
  destruct junk as [|y junk]; cbn [length] in Hj, Hd; [lia|].
  change (done ++ y :: junk) with (done ++ [y] ++ junk).
  rewrite splice_app_mid by done. change (if is_lower x then x - 32 else x) with (toupper x).
  rewrite app_assoc. replace (lenZ done + 1) with (lenZ (done ++ [toupper x]))
    by (rewrite length_app; cbn [length]; lia).
  rewrite IH by (rewrite ?length_app; cbn [length]; lia).
  rewrite <- app_assoc. done.
Qed.

Section properties.
Context `{Platform}.

(** C24: [path_split] turns an absolute path whose directories have no
    extension into the 8.3 names of its components (long parts cut, lower
    case raised), reports its depth, and leaves in the caller's buffer only
    the first component readable as a string. *)
Theorem path_split_correct dirs base ext :
  plain_path dirs base ext →
  ∃ rows buf,
    path_split (path_of dirs base ext) = Ok (rows, 1 + lenZ dirs, buf) ∧
    rows = ((λ d, fat_name d []) <$> dirs) ++ [fat_name base ext] ∧
    c_str buf = ch_slash :: default [] (head (dirs ++ [spell base ext])).
Proof.
  intros Hp. eexists _, _. split; [by apply path_split_plain|]. split; [done|].
  destruct Hp as [Hc _ _ _]. destruct dirs as [|d dirs]; cbn [app] in *; inversion Hc; subst;
    by rewrite c_str_cut_path.
Qed.

(** Whatever string it is given, [path_split] writes inside the eleven
    bytes of each row; the only ways it can fail are the [exit(1)] on a
    misplaced dot and the null dereference on an empty component. *)
Theorem path_split_safe pathInput :
  match path_split pathInput with
  | Ok (rows, d, _) => Forall (λ r, length r = 11%nat) rows ∧ lenZ rows = d ∧ d = depth pathInput
  | Exit c => c = 1
  | Undef u => u = NullDeref
  | OutOfFuel => False
  end.
Proof.
  unfold path_split. set (n := Z.to_nat (depth pathInput)).
  pose proof (strtok_run_length ch_slash (S n) (c_str pathInput)) as Hlen.
  destruct (strtok_run ch_slash (S n) (c_str pathInput)) as [toks s']. cbn [fst] in Hlen.
  pose proof (convert_names_safe (take n toks) false) as Hs.
  destruct (convert_names (take n toks) false); cbn [mbind res_bind]; [|done|by destruct Hs|done].
  destruct Hs as [H1 H2]. split; [done|]. split; [|done].
  rewrite H2, length_take, Hlen. assert (0 <= depth pathInput) by (unfold depth; lia). lia.
Qed.

(** A directory with an extension makes every deeper component lose its
    name: all but its first three characters are left as the uninitialised
    bytes of the row. *)
Theorem path_split_dotted_directory dbase dext p c rest :
  dot_free dbase → dot_free dext → dext ≠ [] → dot_free p → c ≠ ch_dot → length p = 3%nat →
  component (spell dbase dext) → component (p ++ c :: rest) →
  path_split (join_path [spell dbase dext; p ++ c :: rest]) =
    Ok ([fat_name dbase dext; (toupper <$> p) ++ drop 3 (uninit 11)], 2,
        cut_path [spell dbase dext; p ++ c :: rest]).
Proof.
  intros Hdb Hde Hne Hp Hc Hl H1 H2.
  apply (path_split_join (spell dbase dext) [p ++ c :: rest]).
  { do 2 (apply Forall_cons_2; [done|]). apply Forall_nil_2. }
  cbn [fmap list_fmap convert_names].
  rewrite convert_component by (done || apply length_uninit).
  rewrite bool_decide_true by done. cbn [mbind res_bind].
  pose proof (convert_name_stale p c rest 0 0 [] (uninit 11) Hp Hc) as E.
  rewrite length_uninit in E. cbn [length app] in E. change (Z.of_nat 0) with 0 in E.
  rewrite E by lia. cbn [mbind res_bind]. by rewrite Hl.
Qed.
End properties.

(** Decoding a directory entry's name gives back the user's spelling, for
    every 8.3 name in lower case. *)
Theorem path_decode_encode base ext :
  base ≠ [] → Forall name_char base → Forall name_char ext →
  (length base ≤ 8)%nat → (length ext ≤ 3)%nat →
  path_decode (fat_name base ext) = Ok (spell base ext).
Proof.
  intros Hne Hb He Hlb Hle. unfold path_decode.
  assert ((byte_at (fat_name base ext) 0 =? ch_dot) = false) as ->.
  { destruct base as [|c base]; [done|]. inversion Hb; subst.
    apply Z.eqb_neq. by apply toupper_facts. }
  cbn [andb]. rewrite take_ge by by rewrite length_fat_name.
  rewrite decode_loop_fat_name by done. res_steps.
  rewrite (proj2 (Z.ltb_lt _ _)); [done|].
  destruct ext; cbn [spell]; rewrite ?length_app; cbn [length] in *; lia.
Qed.

(** [path_decode] never writes outside its thirteen-byte buffer, for any
    eleven bytes found in a directory entry. *)
Theorem path_decode_in_bounds path :
  length path = 11%nat → ∃ name, path_decode path = Ok name ∧ lenZ name <= 12.
Proof. apply path_decode_ok. Qed.

(** ** Instances *)

Lemma path_split_correct_witness :
  ∃ rows buf, @path_split demo_platform (chars "/home/user1/m.c") = Ok (rows, 3, buf) ∧
    rows = [chars "HOME       "; chars "USER1      "; chars "M       C  "] ∧ c_str buf = chars "/home".
Proof.
  destruct (@path_split_correct demo_platform [chars "home"; chars "user1"] (chars "m") (chars "c"))
    as (rows & buf & E & Er & Eb).
  - split; repeat first [apply Forall_cons_2|apply Forall_nil_2]; try split;
      repeat first [apply Forall_cons_2|apply Forall_nil_2]; vm_compute; (discriminate || split; discriminate).
  - exists rows, buf. split; [exact E|]. rewrite Er, Eb. split; vm_compute; reflexivity.
Defined.

Lemma path_decode_encode_witness : path_decode (chars "MAKE    C  ") = Ok (chars "make.c").
Proof.
  apply (path_decode_encode (chars "make") (chars "c")); [discriminate|..];
    repeat first [apply Forall_cons_2|apply Forall_nil_2|split|discriminate|reflexivity
      |(vm_compute; lia)].
Defined.
