(* ===== verification/Volume.v ===== *)
(** * The FAT16 volume: sectors, boot block and allocation table

    lab4/fat16.h and the table routines of lab4/simple_fat16_new.c. The open
    image file [fat16_ins->fd] is the list of its bytes, passed and returned
    explicitly; [fseek]/[fread] is [slice], [fseek]/[fwrite] is [splice]. *)

From Stdlib Require Import Lia.
From stdpp Require Import base numbers option sets list.
From S2P Require Import Prelude Bytes.
Local Open Scope Z_scope.
Create HintDb volume.

(** ** Data *)

Abbreviation image := (list Z).

Definition BYTES_PER_SECTOR : Z := 512.
Definition BYTES_PER_DIR : Z := 32.
Definition ATTR_DIRECTORY : Z := 16.
Definition ATTR_ARCHIVE : Z := 32.

Record BPB_BS := mkBPB {
  BS_jmpBoot : list Z;
  BS_OEMName : list Z;
  BPB_BytsPerSec : Z;
  BPB_SecPerClus : Z;
  BPB_RsvdSecCnt : Z;
  BPB_NumFATS : Z;
  BPB_RootEntCnt : Z;
  BPB_TotSec16 : Z;
  BPB_Media : Z;
  BPB_FATSz16 : Z;
  BPB_SecPerTrk : Z;
  BPB_NumHeads : Z;
  BPB_HiddSec : Z;
  BPB_TotSec32 : Z;
  BS_DrvNum : Z;
  BS_Reserved1 : Z;
  BS_BootSig : Z;
  BS_VollID : Z;
  BS_VollLab : list Z;
  BS_FilSysType : list Z;
  Reserved2 : list Z;
  Signature_word : Z
}.

(** The packed struct laid over the 512 bytes of sector 0. *)
Definition bpb_of_bytes (s : list Z) : BPB_BS := {|
  BS_jmpBoot := slice 0 3 s;
  BS_OEMName := slice 3 8 s;
  BPB_BytsPerSec := le (slice 11 2 s);
  BPB_SecPerClus := le (slice 13 1 s);
  BPB_RsvdSecCnt := le (slice 14 2 s);
  BPB_NumFATS := le (slice 16 1 s);
  BPB_RootEntCnt := le (slice 17 2 s);
  BPB_TotSec16 := le (slice 19 2 s);
  BPB_Media := le (slice 21 1 s);
  BPB_FATSz16 := le (slice 22 2 s);
  BPB_SecPerTrk := le (slice 24 2 s);
  BPB_NumHeads := le (slice 26 2 s);
  BPB_HiddSec := le (slice 28 4 s);
  BPB_TotSec32 := le (slice 32 4 s);
  BS_DrvNum := le (slice 36 1 s);
  BS_Reserved1 := le (slice 37 1 s);
  BS_BootSig := le (slice 38 1 s);
  BS_VollID := le (slice 39 4 s);
  BS_VollLab := slice 43 11 s;
  BS_FilSysType := slice 54 8 s;
  Reserved2 := slice 62 448 s;
  Signature_word := le (slice 510 2 s)
|}.

(** [FAT16] without its [fd], which is the image. *)
Record FAT16 := mkFAT16 {
  FirstRootDirSecNum : Z;
  FirstDataSector : Z;
  Bpb : BPB_BS
}.

Abbreviation BytsPerSec fs := (BPB_BytsPerSec (Bpb fs)).
Abbreviation SecPerClus fs := (BPB_SecPerClus (Bpb fs)).
Abbreviation RsvdSecCnt fs := (BPB_RsvdSecCnt (Bpb fs)).
Abbreviation NumFATS fs := (BPB_NumFATS (Bpb fs)).
Abbreviation RootEntCnt fs := (BPB_RootEntCnt (Bpb fs)).
Abbreviation FATSz16 fs := (BPB_FATSz16 (Bpb fs)).

(** ** Operations *)

(** [sector_read]: the position is computed in [unsigned int]; the part of
    the sector beyond the end of the file leaves [buffer] as it was. *)
Definition sector_read (img : image) (secnum : Z) (buffer : list Z) : list Z :=
  let got := slice (u32 (BYTES_PER_SECTOR * secnum)) BYTES_PER_SECTOR img in
  got ++ drop (length got) buffer.

(** An [fseek] whose offset is computed in [int]. *)
Definition int_offset (p : Z) : res Z :=
  _ ← require ((0 <=? p) && (p <? 2 ^ 31)) SignedOverflow;
  Ok p.

Section volume.
Context `{Platform}.

Definition pre_init_fat16 (img : image) : res FAT16 :=
  let bpb := bpb_of_bytes (sector_read img 0 (uninit 512)) in
  let first_root := u32 (BPB_RsvdSecCnt bpb + BPB_FATSz16 bpb * BPB_NumFATS bpb) in
  _ ← require (negb (BPB_BytsPerSec bpb =? 0)) DivByZero;
  let RootDirSectors :=
    u32 ((BPB_RootEntCnt bpb * 32 + (BPB_BytsPerSec bpb - 1)) `quot` BPB_BytsPerSec bpb) in
  Ok {| FirstRootDirSecNum := first_root;
        FirstDataSector :=
          u32 (BPB_RsvdSecCnt bpb + BPB_NumFATS bpb * BPB_FATSz16 bpb + RootDirSectors);
        Bpb := bpb |}.

(** [secNumber] and [tableSize], computed alike by the table routines:
    [WORD offset = ClusterN * 2] keeps sixteen bits. *)
Definition fat_position (fs : FAT16) (ClusterN : Z) : res (Z * Z) :=
  let offset := u16 (ClusterN * 2) in
  _ ← require (negb (BytsPerSec fs =? 0)) DivByZero;
  Ok (u16 (RsvdSecCnt fs + offset / BytsPerSec fs), u16 (offset mod BytsPerSec fs)).

Definition fat_entry_by_cluster (fs : FAT16) (img : image) (ClusterN : Z) : res Z :=
  '(secNumber, tableSize) ← fat_position fs ClusterN;
  let sector_buffer := sector_read img secNumber (uninit 512) in
  _ ← require (tableSize + 2 <=? BYTES_PER_SECTOR) OutOfBounds;
  Ok (le (slice tableSize 2 sector_buffer)).

(** 0 when the table entry is 0, 1 otherwise. *)
Definition ClusterEmpty (fs : FAT16) (img : image) (ClusterN : Z) : res Z :=
  '(secNumber, tableSize) ← fat_position fs ClusterN;
  let sector_buffer := sector_read img secNumber (uninit 512) in
  _ ← require (tableSize + 2 <=? BYTES_PER_SECTOR) OutOfBounds;
  Ok (if le (slice tableSize 2 sector_buffer) =? 0 then 0 else 1).

Fixpoint find_empty_from (fuel : nat) (fs : FAT16) (img : image) (ClusterN : Z) : res Z :=
  match fuel with
  | O => OutOfFuel
  | S fuel =>
    used ← ClusterEmpty fs img ClusterN;
    if used =? 0 then Ok ClusterN else find_empty_from fuel fs img (u16 (ClusterN + 1))
  end.

Definition FindEmptyCluster (fuel : nat) (fs : FAT16) (img : image) : res Z :=
  find_empty_from fuel fs img 2.

(** Link [ClusterN] to [ClusterValue] if the latter is free: 0 when the entry
    was written, 1 when [ClusterValue] is taken. Only the first table is
    written. *)
Definition ClusterIsEmpty (fs : FAT16) (img : image) (ClusterN ClusterValue : Z)
    : res (Z * image) :=
  '(secNumber, tableSize) ← fat_position fs ClusterN;
  ClusterNextN ←
    (if ClusterValue =? 65535 then Ok 0 else fat_entry_by_cluster fs img ClusterValue);
  if negb (ClusterNextN =? 0) then Ok (1, img)
  else
    pos ← int_offset (secNumber * BytsPerSec fs + tableSize);
    let img' := splice pos (le_bytes 2 ClusterValue) img in
    _ ← fat_entry_by_cluster fs img' ClusterN;
    Ok (0, img').

(** The sector number arithmetic of [first_sector_by_cluster] and of every
    directory and file routine: the result is stored in a [WORD]. *)
Definition first_sector (fs : FAT16) (ClusterN : Z) : Z :=
  u16 ((ClusterN - 2) * SecPerClus fs + FirstDataSector fs).

(** The three values stored through the pointer arguments. *)
Definition first_sector_by_cluster (fs : FAT16) (img : image) (ClusterN : Z)
    (buffer : list Z) : res (Z * Z * list Z) :=
  FatClusEntryVal ← fat_entry_by_cluster fs img ClusterN;
  let FirstSectorofCluster := first_sector fs ClusterN in
  Ok (FatClusEntryVal, FirstSectorofCluster, sector_read img FirstSectorofCluster buffer).

(** Clear the entry in both tables; the result is the next cluster. *)
Definition freeCluster (fs : FAT16) (img : image) (ClusterNum : Z) : res (Z * image) :=
  '(FATClusEntryval, _, _) ← first_sector_by_cluster fs img (u16 ClusterNum) (uninit 512);
  let ClusterN := u16 ClusterNum in
  let FAT_offset := u16 (ClusterN * 2) in
  let FatEntSize := u16 (FAT_offset mod BytsPerSec fs) in
  let FatSecNum1 := u16 (RsvdSecCnt fs + FAT_offset / BytsPerSec fs) in
  let FatSecNum2 := u16 (RsvdSecCnt fs + FATSz16 fs + FAT_offset / BytsPerSec fs) in
  pos1 ← int_offset (FatSecNum1 * BytsPerSec fs + FatEntSize);
  let img1 := splice pos1 (le_bytes 2 0) img in
  pos2 ← int_offset (FatSecNum2 * BytsPerSec fs + FatEntSize);
  Ok (FATClusEntryval, splice pos2 (le_bytes 2 0) img1).

(** The [do ... while (ClusterN > 1 && ClusterN < 0xFFF8)] loop of
    [fat16_unlink]. *)
Fixpoint free_chain (fuel : nat) (fs : FAT16) (img : image) (ClusterN : Z) : res image :=
  match fuel with
  | O => OutOfFuel
  | S fuel =>
    '(next, img') ← freeCluster fs img ClusterN;
    let ClusterN := u16 next in
    if (1 <? ClusterN) && (ClusterN <? 65528) then free_chain fuel fs img' ClusterN
    else Ok img'
  end.
End volume.

(** ** Well-formed volumes

    [geometry fs n]: the layout fields are those of a volume with [n] data
    clusters (numbered from 2) that the sixteen-bit arithmetic of the code
    can address: sector numbers fit a [WORD] and so does twice a cluster
    number. *)
Record geometry (fs : FAT16) (n : Z) : Prop := {
  geo_bps : BytsPerSec fs = 512;
  geo_spc : 1 <= SecPerClus fs < 256;
  geo_rsvd : 1 <= RsvdSecCnt fs;
  geo_nfats : 2 <= NumFATS fs;
  geo_fatsz : 1 <= FATSz16 fs;
  geo_rootcnt : 0 <= RootEntCnt fs < 65536;
  geo_root : FirstRootDirSecNum fs = RsvdSecCnt fs + FATSz16 fs * NumFATS fs;
  geo_data : FirstDataSector fs = FirstRootDirSecNum fs + (RootEntCnt fs * 32 + 511) / 512;
  geo_n : 0 <= n;
  geo_sectors : FirstDataSector fs + n * SecPerClus fs <= 65536;
  geo_fat : n + 2 <= 256 * FATSz16 fs;
  geo_word : n + 2 <= 32768
}.

Record vol_ok (fs : FAT16) (n : Z) (img : image) : Prop := {
  vol_geo :> geometry fs n;
  vol_len : (FirstDataSector fs + n * SecPerClus fs) * 512 <= lenZ img;
  vol_bytes : Forall is_byte img
}.

Definition in_volume (n c : Z) : Prop := 2 <= c < n + 2.

(** Byte offsets of a table entry in the two copies, its value, and the
    abstract updates of the table. *)
Definition fat_off (fs : FAT16) (c : Z) : Z := RsvdSecCnt fs * 512 + 2 * c.
Definition fat2_off (fs : FAT16) (c : Z) : Z := (RsvdSecCnt fs + FATSz16 fs) * 512 + 2 * c.
Definition fat_get (fs : FAT16) (img : image) (c : Z) : Z := le (slice (fat_off fs c) 2 img).
Definition fat2_get (fs : FAT16) (img : image) (c : Z) : Z := le (slice (fat2_off fs c) 2 img).
Definition fat_set (fs : FAT16) (c v : Z) (img : image) : image :=
  splice (fat_off fs c) (le_bytes 2 v) img.
Definition fat_free (fs : FAT16) (c : Z) (img : image) : image :=
  splice (fat2_off fs c) (le_bytes 2 0) (fat_set fs c 0 img).

(** A table index that both the table and the code's [WORD] offset cover. *)
Definition fat_index (fs : FAT16) (c : Z) : Prop := 0 <= c < 32768 ∧ c < 256 * FATSz16 fs.

Section geometry_facts.
Context `{Platform} {fs : FAT16} {n : Z}.

Lemma in_volume_index c : geometry fs n → in_volume n c → fat_index fs c.
Proof. intros [] Hc. unfold in_volume, fat_index in *. lia. Qed.

Lemma fat_index_small c : geometry fs n → 0 <= c < n + 2 → fat_index fs c.
Proof. intros [] Hc. unfold fat_index in *. lia. Qed.

Lemma two_tables : geometry fs n → FATSz16 fs * 2 <= FATSz16 fs * NumFATS fs.
Proof. intros []. apply Z.mul_le_mono_nonneg_l; lia. Qed.

Lemma data_nonneg : geometry fs n → 2 <= FirstRootDirSecNum fs <= FirstDataSector fs ∧ FirstDataSector fs <= 65536.
Proof.
  intros []. assert (0 <= n * SecPerClus fs) by nia.
  assert (1 <= FATSz16 fs * NumFATS fs) by nia.
  assert (0 <= (RootEntCnt fs * 32 + 511) / 512) by (apply Z.div_pos; lia). lia.
Qed.

(** Both tables lie before the root directory. *)
Lemma fat_off_bounds c :
  geometry fs n → fat_index fs c →
  0 <= fat_off fs c ∧ fat_off fs c + 2 <= (RsvdSecCnt fs + FATSz16 fs) * 512.
Proof. intros [] [??]. unfold fat_off. lia. Qed.

Lemma fat2_off_bounds c :
  geometry fs n → fat_index fs c →
  (RsvdSecCnt fs + FATSz16 fs) * 512 <= fat2_off fs c ∧
  fat2_off fs c + 2 <= FirstRootDirSecNum fs * 512.
Proof. intros [] [??]. unfold fat2_off. assert (2 * FATSz16 fs <= FATSz16 fs * NumFATS fs) by nia. lia. Qed.

Lemma tables_below_root : geometry fs n →
  (RsvdSecCnt fs + FATSz16 fs) * 512 <= FirstRootDirSecNum fs * 512.
Proof. intros []. nia. Qed.

Lemma root_in_image img : vol_ok fs n img → FirstDataSector fs * 512 <= lenZ img.
Proof. intros [[] ? ?]. assert (0 <= n * SecPerClus fs) by nia. lia. Qed.

(** The code's sector/offset pair denotes the table entry. *)
Lemma fat_position_ok c :
  geometry fs n → fat_index fs c →
  ∃ sec off, fat_position fs c = Ok (sec, off) ∧
    sec * 512 + off = fat_off fs c ∧ 0 <= sec < 65536 ∧ 0 <= off ∧ off + 2 <= 512 ∧
    u16 (u16 c * 2) / 512 = sec - RsvdSecCnt fs ∧ u16 (u16 c * 2) mod 512 = off.
Proof.
  intros Hg [Hc1 Hc2]. unfold fat_position. rewrite (geo_bps _ _ Hg). res_steps.
  pose proof (data_nonneg Hg). destruct Hg.
  rewrite (u16_small c), (u16_small (c * 2)) by lia.
  assert (FATSz16 fs * 2 <= FATSz16 fs * NumFATS fs) by (apply Z.mul_le_mono_nonneg_l; lia).
  assert (0 <= c * 2 / 512 < FATSz16 fs).
  { split; [apply Z.div_pos; lia|]. apply Z.div_lt_upper_bound; lia. }
  pose proof (Z.mod_pos_bound (c * 2) 512).
  pose proof (Z.div_mod (c * 2) 512).
  rewrite !u16_small by lia. eexists _, _. split; [done|]. unfold fat_off.
  assert ((c * 2) mod 512 = c mod 256 * 2) by (apply (Z.mul_mod_distr_r c 256 2); lia).
  pose proof (Z.mod_pos_bound c 256). lia.
Qed.

Lemma sector_read_in_image img sec buf off k :
  0 <= sec < 65536 → (sec + 1) * 512 <= lenZ img ∨ sec * 512 + off + k <= lenZ img →
  0 <= off → 0 <= k → off + k <= 512 → sec * 512 <= lenZ img →
  slice off k (sector_read img sec buf) = slice (sec * 512 + off) k img.
Proof.
  intros Hsec Hlen Ho Hk Hok Hs. unfold sector_read, BYTES_PER_SECTOR.
  rewrite u32_small by lia. set (got := slice (512 * sec) 512 img).
  assert (Hg : off + k <= lenZ got).
  { unfold got, slice. rewrite length_take, length_drop. lia. }
  unfold slice at 1. rewrite drop_app_le by lia.
  rewrite take_app_le by (rewrite length_drop; lia).
  fold (slice off k got). unfold got. rewrite slice_slice by lia. f_equal. lia.
Qed.

Lemma length_sector_read img sec buf :
  length buf = 512%nat → length (sector_read img sec buf) = 512%nat.
Proof.
  intros Hb. unfold sector_read, BYTES_PER_SECTOR. set (got := slice _ _ _).
  assert (length got ≤ 512)%nat.
  { unfold got, slice. rewrite length_take. lia. }
  rewrite length_app, length_drop. lia.
Qed.

(** A sector that lies in the image replaces the buffer. *)
Lemma sector_read_full img sec buf :
  0 <= sec < 65536 → (sec + 1) * 512 <= lenZ img → length buf = 512%nat →
  sector_read img sec buf = slice (sec * 512) 512 img.
Proof.
  intros Hs Hl Hb. unfold sector_read, BYTES_PER_SECTOR. rewrite u32_small by lia.
  rewrite (Z.mul_comm 512). rewrite drop_ge, app_nil_r; [done|].
  rewrite length_slice by lia. lia.
Qed.
End geometry_facts.

(** ** The abstract allocation table *)

Section table.
Context {fs : FAT16} {n : Z}.
Implicit Types (img : image) (c v : Z).

Lemma fat_region img c :
  vol_ok fs n img → fat_index fs c →
  0 <= fat_off fs c ∧ fat_off fs c + 2 <= fat2_off fs c ∧
  fat2_off fs c + 2 <= FirstRootDirSecNum fs * 512 ∧ FirstRootDirSecNum fs * 512 <= lenZ img.
Proof.
  intros Hv Hc. pose proof (fat_off_bounds c Hv Hc). pose proof (fat2_off_bounds c Hv Hc).
  pose proof (root_in_image img Hv). pose proof (data_nonneg (vol_geo _ _ _ Hv)).
  destruct Hv as [[] ? ?]. unfold fat_off, fat2_off in *. lia.
Qed.

Lemma length_fat_set img c v :
  vol_ok fs n img → fat_index fs c → length (fat_set fs c v img) = length img.
Proof.
  intros Hv Hc. pose proof (fat_region img c Hv Hc).
  unfold fat_set. apply length_splice; rewrite ?length_le_bytes; lia.
Qed.

Lemma vol_ok_fat_set img c v :
  vol_ok fs n img → fat_index fs c → vol_ok fs n (fat_set fs c v img).
Proof.
  intros Hv Hc. pose proof (fat_region img c Hv Hc). destruct Hv as [Hg Hl Hb].
  split; [done|by rewrite length_fat_set|].
  apply Forall_splice; rewrite ?length_le_bytes; auto with bytes lia.
Qed.

Lemma splice_fat2_vol_ok img c v :
  vol_ok fs n img → fat_index fs c →
  vol_ok fs n (splice (fat2_off fs c) (le_bytes 2 v) img) ∧
  length (splice (fat2_off fs c) (le_bytes 2 v) img) = length img.
Proof.
  intros Hv Hc. pose proof (fat_region img c Hv Hc) as Hr. destruct Hv as [Hg Hl Hb].
  assert (E : length (splice (fat2_off fs c) (le_bytes 2 v) img) = length img)
    by (apply length_splice; rewrite ?length_le_bytes; lia).
  split; [|done]. split; [done|by rewrite E|].
  apply Forall_splice; rewrite ?length_le_bytes; auto with bytes lia.
Qed.

Lemma vol_ok_fat_free img c :
  vol_ok fs n img → fat_index fs c → vol_ok fs n (fat_free fs c img).
Proof. intros. apply splice_fat2_vol_ok; [|done]. by apply vol_ok_fat_set. Qed.

Lemma length_fat_free img c :
  vol_ok fs n img → fat_index fs c → length (fat_free fs c img) = length img.
Proof.
  intros Hv Hc. unfold fat_free.
  rewrite (proj2 (splice_fat2_vol_ok _ c 0 (vol_ok_fat_set _ c 0 Hv Hc) Hc)).
  by apply length_fat_set.
Qed.

(** Bytes outside the tables are not touched. *)
Lemma slice_fat_set img c v o k :
  vol_ok fs n img → fat_index fs c → FirstRootDirSecNum fs * 512 <= o → 0 <= k →
  slice o k (fat_set fs c v img) = slice o k img.
Proof.
  intros Hv Hc Ho Hk. pose proof (fat_region img c Hv Hc).
  apply slice_splice_disjoint; rewrite ?length_le_bytes; lia.
Qed.

Lemma slice_fat_free img c o k :
  vol_ok fs n img → fat_index fs c → FirstRootDirSecNum fs * 512 <= o → 0 <= k →
  slice o k (fat_free fs c img) = slice o k img.
Proof.
  intros Hv Hc Ho Hk. pose proof (fat_region img c Hv Hc).
  unfold fat_free. rewrite slice_splice_disjoint;
    rewrite ?length_le_bytes, ?length_fat_set by done; try lia.
  by apply slice_fat_set.
Qed.

(** Reading a table entry after an update of the first table. *)
Lemma fat_get_set img c v c' :
  vol_ok fs n img → fat_index fs c → fat_index fs c' →
  fat_get fs (fat_set fs c v img) c' = if decide (c' = c) then u16 v else fat_get fs img c'.
Proof.
  intros Hv Hc Hc'. pose proof (fat_region img c Hv Hc). pose proof (fat_region img c' Hv Hc').
  unfold fat_get, fat_set. case_decide as E.
  - subst. change 2 with (lenZ (le_bytes 2 v)) at 1.
    rewrite slice_splice_same by lia. by rewrite le_le_bytes.
  - rewrite slice_splice_disjoint; [done|..]; rewrite ?length_le_bytes; unfold fat_off in *; lia.
Qed.

Lemma fat2_get_set img c v c' :
  vol_ok fs n img → fat_index fs c → fat_index fs c' →
  fat2_get fs (fat_set fs c v img) c' = fat2_get fs img c'.
Proof.
  intros Hv Hc Hc'. pose proof (fat_region img c Hv Hc). pose proof (fat_region img c' Hv Hc').
  pose proof (fat_off_bounds c Hv Hc). pose proof (fat2_off_bounds c' Hv Hc').
  unfold fat2_get, fat_set.
  rewrite slice_splice_disjoint; [done|..]; rewrite ?length_le_bytes; lia.
Qed.

Lemma fat_get_free img c c' :
  vol_ok fs n img → fat_index fs c → fat_index fs c' →
  fat_get fs (fat_free fs c img) c' = if decide (c' = c) then 0 else fat_get fs img c'.
Proof.
  intros Hv Hc Hc'. pose proof (fat_region img c Hv Hc). pose proof (fat_region img c' Hv Hc').
  pose proof (fat_off_bounds c' Hv Hc'). pose proof (fat2_off_bounds c Hv Hc).
  unfold fat_free. unfold fat_get at 1.
  rewrite slice_splice_disjoint; rewrite ?length_le_bytes, ?length_fat_set by done; try lia.
  by apply (fat_get_set img c 0 c').
Qed.

Lemma fat2_get_free img c c' :
  vol_ok fs n img → fat_index fs c → fat_index fs c' →
  fat2_get fs (fat_free fs c img) c' = if decide (c' = c) then 0 else fat2_get fs img c'.
Proof.
  intros Hv Hc Hc'. pose proof (fat_region img c Hv Hc). pose proof (fat_region img c' Hv Hc').
  unfold fat_free. unfold fat2_get at 1. case_decide as E.
  - subst. change 2 with (lenZ (le_bytes 2 0)) at 1. by rewrite slice_splice_same by lia.
  - rewrite slice_splice_disjoint; rewrite ?length_le_bytes, ?length_fat_set by done;
      try (unfold fat2_off in *; lia).
    by apply fat2_get_set.
Qed.

Lemma fat_get_range img c :
  vol_ok fs n img → fat_index fs c → 0 <= fat_get fs img c < 65536.
Proof.
  intros Hv Hc. pose proof (fat_region img c Hv Hc). unfold fat_get.
  pose proof (le_bound (slice (fat_off fs c) 2 img)
    (Forall_slice _ _ _ (vol_bytes _ _ _ Hv))) as Hb.
  rewrite length_slice in Hb by lia. exact Hb.
Qed.
End table.

#[export] Hint Resolve vol_ok_fat_set vol_ok_fat_free in_volume_index : volume.

(** ** What the table routines compute *)

Section routines.
Context `{Platform} {fs : FAT16} {n : Z}.
Implicit Types (img : image) (c v : Z).

Lemma fat_entry_ok img c :
  vol_ok fs n img → fat_index fs c →
  fat_entry_by_cluster fs img c = Ok (fat_get fs img c).
Proof.
  intros Hv Hc. destruct (fat_position_ok c Hv Hc) as (sec & off & E & Ho & Hs & Hoff & Hok & _).
  pose proof (fat_region img c Hv Hc). unfold fat_entry_by_cluster. res_step E.
  rewrite (proj2 (Z.leb_le _ _)) by (unfold BYTES_PER_SECTOR; lia). res_steps.
  rewrite sector_read_in_image by lia. by rewrite Ho.
Qed.

Lemma ClusterEmpty_ok img c :
  vol_ok fs n img → fat_index fs c →
  ClusterEmpty fs img c = Ok (if fat_get fs img c =? 0 then 0 else 1).
Proof.
  intros Hv Hc. destruct (fat_position_ok c Hv Hc) as (sec & off & E & Ho & Hs & Hoff & Hok & _).
  pose proof (fat_region img c Hv Hc). unfold ClusterEmpty. res_step E.
  rewrite (proj2 (Z.leb_le _ _)) by (unfold BYTES_PER_SECTOR; lia). res_steps.
  rewrite sector_read_in_image by lia. by rewrite Ho.
Qed.

Lemma int_offset_ok p : 0 <= p < 2 ^ 31 → int_offset p = Ok p.
Proof.
  intros. unfold int_offset.
  by rewrite (proj2 (Z.leb_le _ _)), (proj2 (Z.ltb_lt _ _)) by lia.
Qed.

Lemma ClusterIsEmpty_ok img c v :
  vol_ok fs n img → fat_index fs c → v = 65535 ∨ fat_index fs v →
  ClusterIsEmpty fs img c v =
    if bool_decide (v = 65535 ∨ fat_get fs img v = 0) then Ok (0, fat_set fs c v img)
    else Ok (1, img).
Proof.
  intros Hv Hc Hval. destruct (fat_position_ok c Hv Hc) as (sec & off & E & Ho & Hs & Hoff & Hok & _).
  pose proof (fat_region img c Hv Hc). pose proof (root_in_image img Hv).
  pose proof (data_nonneg (vol_geo _ _ _ Hv)).
  unfold ClusterIsEmpty. res_step E. rewrite (geo_bps _ _ Hv).
  assert (Hlink : (pos ← int_offset (sec * 512 + off);
    _ ← fat_entry_by_cluster fs (splice pos (le_bytes 2 v) img) c;
    Ok (0, splice pos (le_bytes 2 v) img)) = Ok (0, fat_set fs c v img)).
  { rewrite int_offset_ok by lia. res_steps. rewrite Ho. fold (fat_set fs c v img).
    by rewrite fat_entry_ok by auto with volume. }
  destruct (Z.eqb_spec v 65535) as [->|Hne]; res_steps.
  { rewrite bool_decide_true by auto. exact Hlink. }
  destruct Hval as [|Hval]; [done|]. rewrite (fat_entry_ok img v) by done. res_steps.
  destruct (Z.eqb_spec (fat_get fs img v) 0).
  - rewrite bool_decide_true by auto. exact Hlink.
  - by rewrite bool_decide_false by tauto.
Qed.

Lemma freeCluster_ok img c :
  vol_ok fs n img → fat_index fs c →
  freeCluster fs img c = Ok (fat_get fs img c, fat_free fs c img).
Proof.
  intros Hv Hc. destruct (fat_position_ok c Hv Hc) as (sec & off & E & Ho & Hs & Hoff & Hok & E1 & E2).
  pose proof (fat_region img c Hv Hc). pose proof (root_in_image img Hv).
  pose proof (data_nonneg (vol_geo _ _ _ Hv)) as Hd. pose proof (fat2_off_bounds c Hv Hc) as H2.
  assert (Hcw : u16 c = c) by (destruct Hc; apply u16_small; lia).
  unfold freeCluster, first_sector_by_cluster. rewrite (geo_bps _ _ Hv), E1, E2, Hcw.
  rewrite fat_entry_ok by done. res_steps.
  pose proof (two_tables (vol_geo _ _ _ Hv)).
  assert (0 <= RsvdSecCnt fs /\ 0 <= FATSz16 fs) by (destruct Hv as [[] _ _]; lia).
  assert (RsvdSecCnt fs + FATSz16 fs + (sec - RsvdSecCnt fs) < 65536).
  { unfold fat2_off, fat_off in *. destruct Hv as [[] _ _]. lia. }
  rewrite (u16_small (RsvdSecCnt fs + (sec - RsvdSecCnt fs))), (u16_small off),
    (u16_small (RsvdSecCnt fs + FATSz16 fs + (sec - RsvdSecCnt fs))) by lia.
  replace ((RsvdSecCnt fs + (sec - RsvdSecCnt fs)) * 512 + off) with (fat_off fs c) by lia.
  replace ((RsvdSecCnt fs + FATSz16 fs + (sec - RsvdSecCnt fs)) * 512 + off)
    with (fat2_off fs c) by (unfold fat2_off, fat_off in *; lia).
  by rewrite !int_offset_ok by lia.
Qed.
End routines.

(** ** Cluster chains *)

(** The clusters reached from [c] by following the table until an entry
    satisfies [stop]. *)
Inductive chain (stop : Z → Prop) (fs : FAT16) (n : Z) (img : image) : Z → list Z → Prop :=
  | chain_last c :
      in_volume n c → stop (fat_get fs img c) → chain stop fs n img c [c]
  | chain_more c l :
      in_volume n c → ¬ stop (fat_get fs img c) →
      chain stop fs n img (fat_get fs img c) l → chain stop fs n img c (c :: l).

(** The loops over a file go on while the entry is above 1 and below 0xFFF8;
    those over a directory stop only at 0xFFFF. *)
Definition file_end (v : Z) : Prop := v <= 1 ∨ 65528 <= v.
Definition dir_end (v : Z) : Prop := v = 65535.
Abbreviation file_chain := (chain file_end).
Abbreviation dir_chain := (chain dir_end).

(** The state of the table after a chain has been released. *)
Definition fat_free_all (fs : FAT16) (l : list Z) (img : image) : image :=
  foldl (λ img c, fat_free fs c img) img l.

Section chains.
Context `{Platform} {fs : FAT16} {n : Z} {stop : Z → Prop}.
Implicit Types (img : image) (c : Z) (l : list Z).

Lemma chain_in_volume img c l : chain stop fs n img c l → Forall (in_volume n) l.
Proof. induction 1; by apply Forall_cons_2. Qed.

Lemma chain_head img c l : chain stop fs n img c l → ∃ l', l = c :: l'.
Proof. destruct 1; eauto. Qed.

Lemma chain_det img c l l' :
  chain stop fs n img c l → chain stop fs n img c l' → l = l'.
Proof.
  intros Hl. revert l'. induction Hl as [c Hc Hend|c l Hc Hnext Hl IH]; intros l' Hl';
    inversion Hl'; subst; try done. f_equal. by apply IH.
Qed.

(** Every suffix is the chain of its head. *)
Lemma chain_suffix img c l d :
  chain stop fs n img c l → d ∈ l →
  ∃ l', chain stop fs n img d l' ∧ (length l' ≤ length l)%nat.
Proof.
  induction 1 as [c Hc Hend|c l Hc Hnext Hl IH]; intros Hd.
  - apply list_elem_of_singleton in Hd as ->. exists [c]. split; [by constructor|done].
  - apply elem_of_cons in Hd as [->|Hd].
    + exists (c :: l). split; [by constructor|done].
    + destruct (IH Hd) as (l' & ? & ?). exists l'. split; [done|]. cbn [length]. lia.
Qed.

(** A chain that ends never visits a cluster twice. *)
Lemma chain_NoDup img c l : chain stop fs n img c l → NoDup l.
Proof.
  induction 1 as [c Hc Hend|c l Hc Hnext Hl IH].
  - apply NoDup_singleton.
  - apply NoDup_cons. split; [|done]. intros Hin.
    destruct (chain_suffix _ _ _ _ Hl Hin) as (l' & Hl' & Hlen).
    assert (l' = c :: l) as -> by (eapply chain_det; [done|by constructor]).
    cbn [length] in Hlen. lia.
Qed.

(** So it is no longer than the volume. *)
Lemma chain_length img c l : chain stop fs n img c l → lenZ l <= n.
Proof.
  intros Hl. pose proof (chain_in_volume _ _ _ Hl) as Hin. pose proof (chain_NoDup _ _ _ Hl).
  assert (l ⊆+ seqZ 2 n) as Hsub.
  { apply NoDup_submseteq; [done|]. intros x Hx. rewrite Forall_forall in Hin.
    apply elem_of_seqZ. specialize (Hin x Hx). unfold in_volume in Hin. lia. }
  apply submseteq_length in Hsub. rewrite length_seqZ in Hsub.
  destruct (chain_head _ _ _ Hl) as [l' ->].
  apply Forall_cons in Hin as [Hin _]. unfold in_volume in Hin. lia.
Qed.

(** Only the entries of its own clusters matter to a chain. *)
Lemma chain_frame img img' c l :
  chain stop fs n img c l → (∀ d, d ∈ l → fat_get fs img' d = fat_get fs img d) →
  chain stop fs n img' c l.
Proof.
  induction 1 as [c Hc Hend|c l Hc Hnext Hl IH]; intros Hf.
  - apply chain_last; [done|]. rewrite Hf; [done|]. apply list_elem_of_here.
  - assert (E : fat_get fs img' c = fat_get fs img c) by (apply Hf, list_elem_of_here).
    apply chain_more; rewrite ?E; [done|done|].
    apply IH. intros d Hd. apply Hf. by apply list_elem_of_further.
Qed.

Lemma chain_indices img c l :
  vol_ok fs n img → chain stop fs n img c l → Forall (fat_index fs) l.
Proof.
  intros Hv Hl. pose proof (chain_in_volume _ _ _ Hl) as Hin. forall_impl Hin.
  eapply in_volume_index; [apply Hv|done].
Qed.
End chains.

Section release.
Context `{Platform} {fs : FAT16} {n : Z}.
Implicit Types (img : image) (c : Z) (l : list Z).

Lemma fat_free_all_facts img l :
  vol_ok fs n img → Forall (fat_index fs) l →
  vol_ok fs n (fat_free_all fs l img) ∧
  length (fat_free_all fs l img) = length img ∧
  (∀ d, fat_index fs d →
    fat_get fs (fat_free_all fs l img) d = if decide (d ∈ l) then 0 else fat_get fs img d) ∧
  (∀ d, fat_index fs d →
    fat2_get fs (fat_free_all fs l img) d = if decide (d ∈ l) then 0 else fat2_get fs img d) ∧
  (∀ o k, FirstRootDirSecNum fs * 512 <= o → 0 <= k →
    slice o k (fat_free_all fs l img) = slice o k img).
Proof.
  intros Hv Hl. revert img Hv. induction Hl as [|c l Hc Hl IH]; intros img Hv.
  { cbn. split_and!; try done. }
  cbn [fat_free_all foldl]. fold (fat_free_all fs l (fat_free fs c img)).
  destruct (IH (fat_free fs c img)) as (H1 & H2 & H3 & H4 & H5); [by apply vol_ok_fat_free|].
  split_and!; [done|by erewrite H2, length_fat_free|..].
  - intros d Hd. erewrite H3, fat_get_free by done.
    repeat case_decide; try done; set_solver.
  - intros d Hd. erewrite H4, fat2_get_free by done.
    repeat case_decide; try done; set_solver.
  - intros o k Ho Hk. rewrite H5 by done. by eapply slice_fat_free.
Qed.

Lemma free_chain_ok img c l fuel :
  vol_ok fs n img → file_chain fs n img c l → (length l ≤ fuel)%nat →
  free_chain fuel fs img c = Ok (fat_free_all fs l img).
Proof.
  intros Hv Hl. revert img c Hv Hl fuel.
  induction l as [|x l IH]; intros img c Hv Hl fuel Hfuel; [inversion Hl|].
  destruct fuel as [|fuel]; cbn [length] in Hfuel; [lia|].
  pose proof (chain_indices _ _ _ Hv Hl) as Hidx.
  pose proof (chain_NoDup _ _ _ Hl) as Hnd.
  unfold file_end in *.
  inversion Hl as [? Hc Hend|? ? Hc Hnext Hl']; subst; cbn [free_chain];
    assert (Hi : fat_index fs x) by (by inversion Hidx);
    erewrite freeCluster_ok by done; res_steps;
    rewrite u16_small by (by eapply fat_get_range).
  - rewrite (proj2 (andb_false_iff _ _)) by lia. done.
  - rewrite (proj2 (andb_true_iff _ _)) by lia.
    apply NoDup_cons in Hnd as [Hx Hnd].
    rewrite (IH (fat_free fs x img)); [done|by apply vol_ok_fat_free| |lia].
    eapply chain_frame; [done|]. intros d Hd.
    erewrite fat_get_free; [|done|done|]. { case_decide; [by subst|done]. }
    apply Forall_cons in Hidx as [_ Hidx]. rewrite Forall_forall in Hidx. by apply Hidx.
Qed.
End release.

(** ** Searching the table *)

Section search.
Context `{Platform} {fs : FAT16} {n : Z}.
Implicit Types (img : image) (c d : Z).

Lemma find_empty_from_ok img c d fuel :
  vol_ok fs n img → 0 <= c <= d → fat_index fs d → fat_get fs img d = 0 →
  (∀ e, c <= e < d → fat_get fs img e ≠ 0) → (Z.to_nat (d - c) < fuel)%nat →
  find_empty_from fuel fs img c = Ok d.
Proof.
  intros Hv Hcd Hd Hfree Hused. revert c Hcd Hused.
  induction fuel as [|fuel IH]; intros c Hcd Hused Hfuel; [lia|].
  assert (Hc : fat_index fs c) by (destruct Hd; split; lia).
  cbn [find_empty_from]. erewrite ClusterEmpty_ok by done. res_steps.
  destruct (decide (c = d)) as [->|Hne].
  { by rewrite Hfree. }
  rewrite (proj2 (Z.eqb_neq (fat_get fs img c) 0)) by (apply Hused; lia). cbn [Z.eqb].
  rewrite u16_small by (destruct Hd; lia).
  apply IH; [lia| |lia]. intros e He. apply Hused. lia.
Qed.

(** With every addressable entry in use the counter wraps and starts again. *)
Lemma ClusterEmpty_wrap img c : ClusterEmpty fs img (c + 32768) = ClusterEmpty fs img c.
Proof.
  unfold ClusterEmpty, fat_position. replace (u16 ((c + 32768) * 2)) with (u16 (c * 2)); [done|].
  unfold u16. replace ((c + 32768) * 2) with (c * 2 + 1 * 2 ^ 16) by lia.
  by rewrite Z.mod_add.
Qed.

Lemma find_empty_from_full img c fuel :
  vol_ok fs n img → 32768 <= 256 * FATSz16 fs →
  (∀ e, 0 <= e < 32768 → fat_get fs img e ≠ 0) → 0 <= c < 65536 →
  find_empty_from fuel fs img c = OutOfFuel.
Proof.
  intros Hv Hsz Hused. revert c. induction fuel as [|fuel IH]; intros c Hc; [done|].
  cbn [find_empty_from].
  assert (E : ClusterEmpty fs img c = Ok 1).
  { destruct (decide (c < 32768)).
    - erewrite ClusterEmpty_ok; [|done|split; lia].
      rewrite (proj2 (Z.eqb_neq _ _)) by (apply Hused; lia). done.
    - replace c with (c - 32768 + 32768) by lia. rewrite ClusterEmpty_wrap.
      erewrite ClusterEmpty_ok; [|done|split; lia].
      rewrite (proj2 (Z.eqb_neq _ _)) by (apply Hused; lia). done. }
  rewrite E. res_steps. cbn [Z.eqb]. apply IH. apply u16_range.
Qed.
End search.

(** ** Properties *)

Section properties.
Context `{Platform} {fs : FAT16} {n : Z}.
Implicit Types (img : image) (c v : Z).

(** Mounting reads the boot block and places the root directory after the
    reserved sectors and all copies of the table, and the data area after the
    root directory rounded up to whole sectors, without overflow; a block
    with zero bytes per sector divides by zero. *)
Theorem pre_init_fat16_layout img :
  512 <= lenZ img → Forall is_byte img →
  let b := bpb_of_bytes (slice 0 512 img) in
  if BPB_BytsPerSec b =? 0 then pre_init_fat16 img = Undef DivByZero
  else ∃ root data r,
    pre_init_fat16 img = Ok (mkFAT16 root data b) ∧
    root = BPB_RsvdSecCnt b + BPB_FATSz16 b * BPB_NumFATS b ∧ data = root + r ∧
    32 * BPB_RootEntCnt b <= r * BPB_BytsPerSec b < 32 * BPB_RootEntCnt b + BPB_BytsPerSec b.
Proof.
  intros Hlen Hb b.
  assert (Hbytes : ∀ o k, 0 <= o → 0 <= k → o + k <= 512 →
    0 <= le (slice o k (slice 0 512 img)) < 256 ^ k).
  { intros o k Ho Hk Hok. pose proof (le_bound _ (Forall_slice o k _ (Forall_slice 0 512 _ Hb))) as B.
    rewrite length_slice in B by (try rewrite length_slice; lia).
    by rewrite Z2Nat.id in B by lia. }
  pose proof (Hbytes 11 2 ltac:(lia) ltac:(lia) ltac:(lia)) as B1.
  pose proof (Hbytes 14 2 ltac:(lia) ltac:(lia) ltac:(lia)) as B2.
  pose proof (Hbytes 16 1 ltac:(lia) ltac:(lia) ltac:(lia)) as B3.
  pose proof (Hbytes 17 2 ltac:(lia) ltac:(lia) ltac:(lia)) as B4.
  pose proof (Hbytes 22 2 ltac:(lia) ltac:(lia) ltac:(lia)) as B5.
  unfold pre_init_fat16.
  rewrite sector_read_full by (rewrite ?length_uninit; lia).
  change (slice (0 * 512) 512 img) with (slice 0 512 img). fold b.
  change (le (slice 11 2 _)) with (BPB_BytsPerSec b) in B1.
  change (le (slice 14 2 _)) with (BPB_RsvdSecCnt b) in B2.
  change (le (slice 16 1 _)) with (BPB_NumFATS b) in B3.
  change (le (slice 17 2 _)) with (BPB_RootEntCnt b) in B4.
  change (le (slice 22 2 _)) with (BPB_FATSz16 b) in B5.
  clearbody b. clear Hbytes Hlen Hb.
  destruct (Z.eqb_spec (BPB_BytsPerSec b) 0) as [|Hne]; [done|]. res_steps.
  assert (0 <= BPB_FATSz16 b * BPB_NumFATS b <= 65535 * 255).
  { split; [apply Z.mul_nonneg_nonneg; lia|]. apply Z.mul_le_mono_nonneg; lia. }
  rewrite Z.quot_div_nonneg by lia.
  set (r := (BPB_RootEntCnt b * 32 + (BPB_BytsPerSec b - 1)) / BPB_BytsPerSec b).
  pose proof (Z.div_mod (BPB_RootEntCnt b * 32 + (BPB_BytsPerSec b - 1)) (BPB_BytsPerSec b) Hne) as Hdm.
  pose proof (Z.mod_pos_bound (BPB_RootEntCnt b * 32 + (BPB_BytsPerSec b - 1)) (BPB_BytsPerSec b)).
  fold r in Hdm.
  assert (0 <= r) by (apply Z.div_pos; lia).
  assert (r <= BPB_RootEntCnt b * 32 + (BPB_BytsPerSec b - 1)).
  { apply Z.div_le_upper_bound; [lia|]. nia. }
  rewrite (Z.mul_comm (BPB_NumFATS b)). rewrite !u32_small by (rewrite ?u32_small; lia).
  eexists _, _, r. split_and!; [done|done|done|lia|lia].
Qed.

(** Below 32768 and inside the table, [fat_entry_by_cluster] reads the
    little-endian word at the cluster's place in the first table. *)
Theorem fat_entry_by_cluster_reads img c :
  vol_ok fs n img → fat_index fs c →
  fat_entry_by_cluster fs img c =
    Ok (byte_at img (RsvdSecCnt fs * 512 + 2 * c) +
        256 * byte_at img (RsvdSecCnt fs * 512 + 2 * c + 1)).
Proof.
  intros Hv Hc. erewrite fat_entry_ok by done. pose proof (fat_region img c Hv Hc).
  unfold fat_get. change (slice (fat_off fs c) 2 img) with (slice (fat_off fs c) (1 + 1) img).
  rewrite slice_S, slice_1 by lia.
  cbn [le]. do 2 f_equal. unfold fat_off. lia.
Qed.

(** [WORD offset = ClusterN * 2] loses the top bit of the cluster number,
    so clusters 32768 apart share a table entry: a volume with more than
    32766 clusters is read wrongly. *)
Theorem fat_entry_by_cluster_aliases img c :
  fat_entry_by_cluster fs img (c + 32768) = fat_entry_by_cluster fs img c.
Proof.
  unfold fat_entry_by_cluster, fat_position.
  replace (u16 ((c + 32768) * 2)) with (u16 (c * 2)); [done|].
  unfold u16. replace ((c + 32768) * 2) with (c * 2 + 1 * 2 ^ 16) by lia.
  by rewrite Z.mod_add.
Qed.

(** [FindEmptyCluster] returns the lowest free cluster from 2 upwards
    whenever the table has one, and the loop ends within that many steps. *)
Theorem FindEmptyCluster_lowest img c fuel :
  vol_ok fs n img → fat_index fs c → 2 <= c → fat_get fs img c = 0 →
  (∀ d, 2 <= d < c → fat_get fs img d ≠ 0) → (Z.to_nat c ≤ fuel)%nat →
  FindEmptyCluster fuel fs img = Ok c.
Proof.
  intros Hv Hc H2 Hfree Hused Hfuel. eapply find_empty_from_ok; [done|lia|done|done|done|lia].
Qed.

(** On a full table [FindEmptyCluster] never returns: its counter wraps
    round and no bound is tested. *)
Theorem FindEmptyCluster_full_diverges img :
  vol_ok fs n img → 32768 <= 256 * FATSz16 fs →
  (∀ c, 0 <= c < 32768 → fat_get fs img c ≠ 0) →
  ∀ fuel, FindEmptyCluster fuel fs img = OutOfFuel.
Proof. intros Hv Hsz Hused fuel. eapply find_empty_from_full; (done || lia). Qed.

(** [ClusterIsEmpty] links [c] to [v] exactly when [v] is the end marker
    or free. On success it returns 0 and the first table differs only at [c],
    where it holds [v]; the second table and everything behind the tables
    stay as they were. Otherwise it returns 1 and nothing changes. *)
Theorem ClusterIsEmpty_links img c v :
  vol_ok fs n img → fat_index fs c → v = 65535 ∨ fat_index fs v →
  ∃ ret img', ClusterIsEmpty fs img c v = Ok (ret, img') ∧ vol_ok fs n img' ∧
    (ret = 0 ↔ v = 65535 ∨ fat_get fs img v = 0) ∧
    (ret ≠ 0 → ret = 1 ∧ img' = img) ∧
    (ret = 0 → (∀ d, fat_index fs d →
       fat_get fs img' d = (if decide (d = c) then v else fat_get fs img d) ∧
       fat2_get fs img' d = fat2_get fs img d) ∧
     ∀ o k, FirstRootDirSecNum fs * 512 <= o → 0 <= k → slice o k img' = slice o k img).
Proof.
  intros Hv Hc Hval. erewrite ClusterIsEmpty_ok by done.
  case_bool_decide as E.
  - exists 0, (fat_set fs c v img).
    split_and!; [done|by apply vol_ok_fat_set|tauto|done|]. intros _. split.
    + intros d Hd. erewrite fat_get_set, fat2_get_set by done. split; [|done].
      case_decide; [|done]. apply u16_small. destruct Hval as [->|[]]; lia.
    + intros. by eapply slice_fat_set.
  - exists 1, img. split_and!; [done|done|split; [done|tauto]|done|done].
Qed.

(** C31: releasing a chain (the loop of [fat16_unlink]) terminates in as many
    rounds as the chain has clusters; afterwards both tables hold 0 for
    exactly those clusters and what they held before for all others, and
    nothing behind the tables has changed. *)
Theorem free_chain_releases img c l fuel :
  vol_ok fs n img → file_chain fs n img c l → (length l ≤ fuel)%nat →
  ∃ img', free_chain fuel fs img c = Ok img' ∧ vol_ok fs n img' ∧
    (∀ d, fat_index fs d →
      fat_get fs img' d = (if decide (d ∈ l) then 0 else fat_get fs img d) ∧
      fat2_get fs img' d = (if decide (d ∈ l) then 0 else fat2_get fs img d)) ∧
    (∀ o k, FirstRootDirSecNum fs * 512 <= o → 0 <= k → slice o k img' = slice o k img).
Proof.
  intros Hv Hl Hfuel. exists (fat_free_all fs l img).
  destruct (fat_free_all_facts img l Hv (chain_indices _ _ _ Hv Hl)) as (H1&H2&H3&H4&H5).
  split_and!; [by eapply free_chain_ok|done|by auto|done].
Qed.
End properties.
