(* ===== verification/Directory.v ===== *)
(** * Directories: entries, scans and path lookup

    The directory half of lab4/simple_fat16_new.c. Every routine that walks a
    directory repeats one of two loops, over the sectors of the root
    directory ([root_scan]) or over the cluster chain of a subdirectory
    ([sub_scan]); the loops are translated once, with the statements inside
    them as the parameter [body]. The second half of the file shows that both
    loops visit the abstract list of entries in order ([scan]). *)

From Stdlib Require Import Lia.
From stdpp Require Import base numbers option sets list.
From S2P Require Import Prelude Bytes CString Names Volume.
Local Open Scope Z_scope.

(** ** Data *)

Record DIR_ENTRY := mkDIR {
  DIR_Name : list Z;
  DIR_Attr : Z;
  DIR_NTRes : Z;
  DIR_CrtTimeTenth : Z;
  DIR_CrtTime : Z;
  DIR_CrtDate : Z;
  DIR_LstAccDate : Z;
  DIR_FstClusHI : Z;
  DIR_WrtTime : Z;
  DIR_WrtDate : Z;
  DIR_FstClusLO : Z;
  DIR_FileSize : Z
}.

(** [memcpy(&Dir, p, BYTES_PER_DIR)] into the packed struct. *)
Definition dir_entry_of_bytes (s : list Z) : DIR_ENTRY := {|
  DIR_Name := slice 0 11 s;
  DIR_Attr := le (slice 11 1 s);
  DIR_NTRes := le (slice 12 1 s);
  DIR_CrtTimeTenth := le (slice 13 1 s);
  DIR_CrtTime := le (slice 14 2 s);
  DIR_CrtDate := le (slice 16 2 s);
  DIR_LstAccDate := le (slice 18 2 s);
  DIR_FstClusHI := le (slice 20 2 s);
  DIR_WrtTime := le (slice 22 2 s);
  DIR_WrtDate := le (slice 24 2 s);
  DIR_FstClusLO := le (slice 26 2 s);
  DIR_FileSize := le (slice 28 4 s)
|}.

Definition name0 (d : DIR_ENTRY) : Z := byte_at (DIR_Name d) 0.

(** The [i]-th entry, counted from 1, of the sector in [buf]. *)
Definition entry_offset (i : Z) : Z := ((i - 1) * BYTES_PER_DIR) mod BYTES_PER_SECTOR.
Definition entry_at (buf : list Z) (i : Z) : DIR_ENTRY :=
  dir_entry_of_bytes (slice (entry_offset i) BYTES_PER_DIR buf).

(** ** The two loops *)

(** The variables of a walk over a subdirectory. *)
Record cursor := mkCursor {
  cur_i : Z;
  DirSecCnt : Z;
  ClusterN : Z;
  FatClusEntryVal : Z;
  FirstSectorofCluster : Z;
  sector_buffer : list Z
}.

Section loops.
Context `{Platform} (fs : FAT16) (img : image).

(** What follows the open of a directory whose first cluster is [c]. *)
Definition dir_open (c : Z) (buf : list Z) : res cursor :=
  '(fat, first, buf') ← first_sector_by_cluster fs img c buf;
  Ok (mkCursor 1 1 c fat first buf').

(** The block [if (i % 16 == 0) { ... }] and the [i++] of the loop: [None]
    when the chain ends with 0xffff. *)
Definition dir_advance (cu : cursor) : res (option cursor) :=
  if cur_i cu mod 16 =? 0 then
    if DirSecCnt cu <? SecPerClus fs then
      Ok (Some (mkCursor (cur_i cu + 1) (DirSecCnt cu + 1) (ClusterN cu)
        (FatClusEntryVal cu) (FirstSectorofCluster cu)
        (sector_read img (FirstSectorofCluster cu + DirSecCnt cu) (sector_buffer cu))))
    else if FatClusEntryVal cu =? 65535 then Ok None
    else
      cu' ← dir_open (FatClusEntryVal cu) (sector_buffer cu);
      Ok (Some cu')
  else
    Ok (Some (mkCursor (cur_i cu + 1) (DirSecCnt cu) (ClusterN cu)
      (FatClusEntryVal cu) (FirstSectorofCluster cu) (sector_buffer cu))).

(** Where the entry under the cursor lies, as the routines that write it
    compute it: a sector number in [DWORD] arithmetic and a byte offset. *)
Definition sub_sectorNum (cu : cursor) : Z :=
  u32 (DirSecCnt cu - 1 + (ClusterN cu - 2) * SecPerClus fs + FirstDataSector fs).
Definition root_sectorNum (RootDirCnt : Z) : Z :=
  u32 (RootDirCnt - 1 + RsvdSecCnt fs + NumFATS fs * FATSz16 fs).

(** [body acc sectorNum offset entry] is the inside of the loop: a new
    accumulator, and [Some r] to leave the loop with [r]. The result has the
    accumulator, the reason for leaving and the last entry copied. *)
Context {A R : Type} (body : A → Z → Z → DIR_ENTRY → res (A * option R)).

Fixpoint sub_scan (fuel : nat) (cu : cursor) (acc : A) (Dir : DIR_ENTRY)
    : res (A * option R * DIR_ENTRY) :=
  match fuel with
  | O => OutOfFuel
  | S fuel =>
    if name0 Dir =? 0 then Ok (acc, None, Dir)
    else
      let Dir := entry_at (sector_buffer cu) (cur_i cu) in
      '(acc, r) ← body acc (sub_sectorNum cu) (entry_offset (cur_i cu)) Dir;
      match r with
      | Some _ => Ok (acc, r, Dir)
      | None =>
        next ← dir_advance cu;
        match next with
        | None => Ok (acc, None, Dir)
        | Some cu => sub_scan fuel cu acc Dir
        end
      end
  end.

(** [k] entries are left of the [BPB_RootEntCnt]. *)
Fixpoint root_scan (k : nat) (i RootDirCnt : Z) (buf : list Z) (acc : A) (Root : DIR_ENTRY)
    : res (A * option R * DIR_ENTRY) :=
  match k with
  | O => Ok (acc, None, Root)
  | S k =>
    let Root := entry_at buf i in
    '(acc, r) ← body acc (root_sectorNum RootDirCnt) (entry_offset i) Root;
    match r with
    | Some _ => Ok (acc, r, Root)
    | None =>
      if (i mod 16 =? 0) && negb (i =? RootEntCnt fs) then
        root_scan k (i + 1) (RootDirCnt + 1)
          (sector_read img (FirstRootDirSecNum fs + RootDirCnt) buf) acc Root
      else root_scan k (i + 1) RootDirCnt buf acc Root
    end
  end.

(** The loop with the [sector_read] before it. *)
Definition root_loop (acc : A) (Root : DIR_ENTRY) : res (A * option R * DIR_ENTRY) :=
  root_scan (Z.to_nat (RootEntCnt fs)) 1 1
    (sector_read img (FirstRootDirSecNum fs) (uninit 512)) acc Root.
End loops.

(** ** Lookup *)

Section lookup.
Context `{Platform} (fs : FAT16) (img : image).

(** The comparison loop of [find_subdir]: an unsigned byte of the entry
    against a signed [char] of the path. *)
Definition same_name (Name path : list Z) : bool := bool_decide (Name = s8 <$> path).

(** [names] are [paths[curDepth]], ..., [paths[pathDepth - 1]]. *)
Fixpoint find_subdir (fuel : nat) (Dir : DIR_ENTRY) (names : list (list Z))
    : res (Z * DIR_ENTRY) :=
  match names with
  | [] => Undef OutOfBounds
  | name :: rest =>
    cu ← dir_open fs img (DIR_FstClusLO Dir) (uninit 512);
    '(_, r, Dir') ←
      sub_scan fs img (λ (_ : unit) _ _ Dir,
        let SameName := same_name (DIR_Name Dir) name in
        let last := bool_decide (rest = []) in
        if (SameName && (DIR_Attr Dir =? ATTR_ARCHIVE) && last) ||
           (SameName && (DIR_Attr Dir =? ATTR_DIRECTORY) && last)
        then Ok (tt, Some true)
        else if SameName && (DIR_Attr Dir =? ATTR_DIRECTORY) then Ok (tt, Some false)
        else Ok (tt, None)) fuel cu tt Dir;
    match r with
    | Some true => Ok (0, Dir')
    | Some false => find_subdir fuel Dir' rest
    | None => Ok (1, Dir')
    end
  end.

(** How [find_root] leaves its loop. *)
Inductive root_exit := RootReturn (ret : Z) | RootDescend.

(** The result has the return value, [*Root] and the path buffer, which
    [path_split] has cut. *)
Definition find_root (fuel : nat) (Root : DIR_ENTRY) (path : list Z)
    : res (Z * DIR_ENTRY * list Z) :=
  '(paths, pathDepth, path') ← path_split path;
  match paths with
  | [] => Undef OutOfBounds
  | path0 :: rest =>
    '(_, r, Root') ←
      root_loop fs img (λ (_ : unit) _ _ Root,
        if name0 Root =? 0 then Ok (tt, Some (RootReturn 1))
        else
          let is_eq := strncmp_eq 11 (DIR_Name Root) path0 in
          if is_eq && (DIR_Attr Root =? ATTR_ARCHIVE) then Ok (tt, Some (RootReturn 0))
          else if is_eq && (DIR_Attr Root =? ATTR_DIRECTORY) && (pathDepth =? 1)
          then Ok (tt, Some (RootReturn 0))
          else if is_eq && (DIR_Attr Root =? ATTR_DIRECTORY) then Ok (tt, Some RootDescend)
          else Ok (tt, None)) tt Root;
    match r with
    | Some (RootReturn ret) => Ok (ret, Root', path')
    | Some RootDescend =>
      '(ret, Dir) ← find_subdir fuel Root' rest;
      Ok (ret, Dir, path')
    | None => Ok (1, Root', path')
    end
  end.

(** A local [DIR_ENTRY Dir;] before anything is stored in it. *)
Definition uninit_dir : DIR_ENTRY := dir_entry_of_bytes (uninit 32).

Definition ENOENT : Z := 2.
Definition S_IFDIR : Z := 16384.
Definition S_IFREG : Z := 32768.

(** The fields of [struct stat] that [fat16_getattr] sets after its
    [memset]; the three times are one value. *)
Record stat := mkStat {
  st_dev : Z; st_blksize : Z; st_mode : Z; st_size : Z; st_blocks : Z; st_time : Z
}.

(** The broken-down time of a directory entry. *)
Definition tm_of_entry (Dir : DIR_ENTRY) : tm := {|
  tm_sec := Z.land (DIR_WrtTime Dir) (Z.shiftl 1 5 - 1);
  tm_min := Z.land (Z.shiftr (DIR_WrtTime Dir) 5) (Z.shiftl 1 6 - 1);
  tm_hour := Z.shiftr (DIR_WrtTime Dir) 11;
  tm_mday := Z.land (DIR_WrtDate Dir) (Z.shiftl 1 5 - 1);
  tm_mon := Z.land (Z.shiftr (DIR_WrtDate Dir) 5) (Z.shiftl 1 4 - 1);
  tm_year := Z.shiftr (DIR_WrtDate Dir) 9 + 80
|}.

Definition fat16_getattr (fuel : nat) (path : list Z) : res (Z * option stat) :=
  let dev := BS_VollID (Bpb fs) in
  let blksize := BYTES_PER_SECTOR * SecPerClus fs in
  if strcmp_eq path [ch_slash] then
    Ok (0, Some (mkStat dev blksize (Z.lor S_IFDIR 448) 0 0 0))
  else
    '(res, Dir, _) ← find_root fuel uninit_dir path;
    if res =? 0 then
      let mode := if DIR_Attr Dir =? ATTR_DIRECTORY then Z.lor S_IFDIR 493 else Z.lor S_IFREG 493 in
      let size := DIR_FileSize Dir in
      _ ← require (negb (blksize =? 0)) DivByZero;
      let blocks := if negb (size `rem` blksize =? 0) then size `quot` blksize + 1
                    else size `quot` blksize in
      Ok (0, Some (mkStat dev blksize mode size blocks (mktime (tm_of_entry Dir))))
    else Ok (- ENOENT, None).

(** The names handed to [filler], in order. *)
Definition readdir_body (stop : bool) (acc : list (list Z)) (_ _ : Z) (Dir : DIR_ENTRY)
    : res (list (list Z) * option unit) :=
  if stop && (name0 Dir =? 0) then Ok (acc, Some tt)
  else if ((DIR_Attr Dir =? ATTR_ARCHIVE) || (DIR_Attr Dir =? ATTR_DIRECTORY))
          && negb (name0 Dir =? 229) then
    filename ← path_decode (DIR_Name Dir);
    Ok (acc ++ [c_str filename], None)
  else Ok (acc, None).

Definition fat16_readdir (fuel : nat) (path : list Z) : res (Z * list (list Z)) :=
  if strcmp_eq path [ch_slash] then
    '(names, _, _) ← root_loop fs img (readdir_body true) [] uninit_dir;
    Ok (0, names)
  else
    '(res, Dir, _) ← find_root fuel uninit_dir path;
    if res =? 1 then Ok (- ENOENT, [])
    else
      cu ← dir_open fs img (DIR_FstClusLO Dir)
        (sector_read img (FirstRootDirSecNum fs) (uninit 512));
      '(names, _, _) ← sub_scan fs img (readdir_body false) fuel cu [] Dir;
      Ok (0, names).
End lookup.

(** ** The abstract directory

    A directory is the list of its entries with the place of each: sector
    number, byte offset, contents. *)
Abbreviation slot := (Z * Z * DIR_ENTRY)%type.

Definition entry_pos (sec off : Z) : Z := sec * 512 + off.

Definition entry_on (img : image) (sec off : Z) : DIR_ENTRY :=
  dir_entry_of_bytes (slice (entry_pos sec off) BYTES_PER_DIR img).

Definition root_slot (fs : FAT16) (img : image) (k : Z) : slot :=
  let sec := FirstRootDirSecNum fs + k / 16 in
  let off := 32 * (k mod 16) in
  (sec, off, entry_on img sec off).

Definition root_slots (fs : FAT16) (img : image) : list slot :=
  root_slot fs img <$> seqZ 0 (RootEntCnt fs).

(** First sector of a cluster, without the [WORD] arithmetic. *)
Definition cluster_sector (fs : FAT16) (c : Z) : Z :=
  FirstDataSector fs + (c - 2) * SecPerClus fs.

Definition cluster_slot (fs : FAT16) (img : image) (c k : Z) : slot :=
  let sec := cluster_sector fs c + k / 16 in
  let off := 32 * (k mod 16) in
  (sec, off, entry_on img sec off).

Definition cluster_slots (fs : FAT16) (img : image) (c : Z) : list slot :=
  cluster_slot fs img c <$> seqZ 0 (16 * SecPerClus fs).

Definition dir_slots (fs : FAT16) (img : image) (l : list Z) : list slot :=
  l ≫= cluster_slots fs img.

(** Running a loop body over a list of slots; a subdirectory ends at the
    first entry whose name starts with 0. *)
Section scan.
Context {A R : Type} (body : A → Z → Z → DIR_ENTRY → res (A * option R)) (stop : bool).

Fixpoint scan (es : list slot) (acc : A) (last : DIR_ENTRY)
    : res (A * option R * DIR_ENTRY) :=
  match es with
  | [] => Ok (acc, None, last)
  | (sec, off, e) :: es =>
    '(acc, r) ← body acc sec off e;
    match r with
    | Some _ => Ok (acc, r, e)
    | None => if stop && (name0 e =? 0) then Ok (acc, None, e) else scan es acc e
    end
  end.
End scan.

(** ** Geometry of directory slots *)

Section slots.
Context `{Platform} {fs : FAT16} {n : Z}.
Implicit Types (img : image) (c k : Z).

Lemma in_cluster_bounds c : geometry fs n → in_volume n c →
  FirstDataSector fs <= cluster_sector fs c ∧
  cluster_sector fs c + SecPerClus fs <= FirstDataSector fs + n * SecPerClus fs ∧
  cluster_sector fs c + SecPerClus fs <= 65536.
Proof.
  intros Hg [H2 Hn]. unfold cluster_sector.
  assert (0 <= (c - 2) * SecPerClus fs) by (apply Z.mul_nonneg_nonneg; destruct Hg; lia).
  assert ((c - 2 + 1) * SecPerClus fs <= n * SecPerClus fs)
    by (apply Z.mul_le_mono_nonneg_r; destruct Hg; lia).
  destruct Hg. lia.
Qed.

Lemma first_sector_ok c : geometry fs n → in_volume n c →
  first_sector fs c = cluster_sector fs c.
Proof.
  intros Hg Hc. pose proof (in_cluster_bounds c Hg Hc). pose proof (data_nonneg Hg).
  unfold first_sector, cluster_sector in *. rewrite u16_small; destruct Hg; lia.
Qed.

Lemma entry_offset_eq k : entry_offset (k + 1) = 32 * (k mod 16).
Proof.
  unfold entry_offset, BYTES_PER_DIR, BYTES_PER_SECTOR. replace (k + 1 - 1) with k by lia.
  rewrite (Z.mul_comm 32). apply (Z.mul_mod_distr_r k 16 32); lia.
Qed.

(** The entry copied from a sector buffer is the one on the image. *)
Lemma entry_at_sector img sec k :
  0 <= sec → (sec + 1) * 512 <= lenZ img →
  entry_at (slice (sec * 512) 512 img) (k + 1) = entry_on img sec (32 * (k mod 16)).
Proof.
  intros Hs Hl. unfold entry_at, entry_on, entry_pos. rewrite entry_offset_eq.
  pose proof (Z.mod_pos_bound k 16). rewrite slice_slice; [done|..]; unfold BYTES_PER_DIR; lia.
Qed.

Lemma root_sectorNum_ok k :
  geometry fs n → 0 <= k < RootEntCnt fs →
  root_sectorNum fs (k / 16 + 1) = FirstRootDirSecNum fs + k / 16.
Proof.
  intros Hg Hk. pose proof (data_nonneg Hg). unfold root_sectorNum.
  assert (0 <= k / 16 <= k) by (split; [apply Z.div_pos; lia|apply Z.div_le_upper_bound; lia]).
  rewrite u32_small; destruct Hg; lia.
Qed.

Lemma root_sector_in_image img k :
  vol_ok fs n img → 0 <= k < RootEntCnt fs →
  FirstRootDirSecNum fs + k / 16 + 1 <= FirstDataSector fs.
Proof.
  intros Hv Hk. rewrite (geo_data _ _ Hv).
  assert (k / 16 + 1 <= (RootEntCnt fs * 32 + 511) / 512); [|lia].
  apply Z.div_le_lower_bound; [lia|]. pose proof (Z.mul_div_le k 16). lia.
Qed.

Lemma div16_next k : (k + 1) mod 16 = 0 → (k + 1) / 16 = k / 16 + 1.
Proof. intros. pose proof (Z.div_mod (k + 1) 16). pose proof (Z.div_mod k 16).
  pose proof (Z.mod_pos_bound k 16). lia. Qed.

Lemma div16_same k : (k + 1) mod 16 ≠ 0 → (k + 1) / 16 = k / 16.
Proof. intros. pose proof (Z.div_mod (k + 1) 16). pose proof (Z.div_mod k 16).
  pose proof (Z.mod_pos_bound k 16). pose proof (Z.mod_pos_bound (k + 1) 16). lia. Qed.
End slots.

(** ** The loops visit the slots in order *)

Section refinement.
Context `{Platform} {fs : FAT16} {n : Z} {img : image} (Hv : vol_ok fs n img).
Context {A R : Type} (body : A → Z → Z → DIR_ENTRY → res (A * option R)).

Lemma root_scan_ok m k buf acc last :
  0 <= k → k + Z.of_nat m = RootEntCnt fs →
  (0 < m)%nat →
  buf = slice ((FirstRootDirSecNum fs + k / 16) * 512) 512 img →
  root_scan fs img body m (k + 1) (k / 16 + 1) buf acc last =
  scan body false (root_slot fs img <$> seqZ k (Z.of_nat m)) acc last.
Proof.
  revert k buf acc last. induction m as [|m IH]; intros k buf acc last Hk Hm Hpos Hbuf; [lia|].
  pose proof (data_nonneg (vol_geo _ _ _ Hv)). pose proof (root_in_image img Hv).
  assert (Hk16 : 0 <= k / 16) by (apply Z.div_pos; lia).
  pose proof (root_sector_in_image img k Hv ltac:(lia)).
  rewrite seqZ_cons, fmap_cons by lia. cbn [root_scan scan root_slot].
  rewrite (root_sectorNum_ok (n := n)) by (apply Hv || lia).
  rewrite entry_offset_eq, Hbuf, entry_at_sector by lia.
  destruct (body acc _ _ _) as [[acc' [r|]]| | |]; res_steps; try done.
  cbn [andb]. replace (Z.pred (Z.of_nat (S m))) with (Z.of_nat m) by lia.
  replace (Z.succ k) with (k + 1) by lia.
  destruct m as [|m].
  { cbn [seqZ fmap list_fmap root_scan scan].
    by destruct ((k + 1) mod 16 =? 0), (negb (k + 1 =? RootEntCnt fs)). }
  destruct (Z.eqb_spec (k + 1) (RootEntCnt fs)); [lia|]. cbn [negb].
  rewrite andb_true_r. destruct (Z.eqb_spec ((k + 1) mod 16) 0) as [E|E].
  - pose proof (root_sector_in_image img (k + 1) Hv ltac:(lia)).
    pose proof (div16_next k E) as Hd. erewrite <- (IH (k + 1)); [|lia..|reflexivity].
    rewrite Hd. rewrite sector_read_full; [|lia|lia|rewrite length_slice; lia].
    do 2 f_equal; lia.
  - pose proof (div16_same k E) as Hd. erewrite <- (IH (k + 1)); [|lia..|reflexivity].
    by rewrite Hd.
Qed.

(** The loop over the root directory. *)
Lemma root_loop_ok acc last :
  root_loop fs img body acc last = scan body false (root_slots fs img) acc last.
Proof.
  unfold root_loop, root_slots. pose proof (data_nonneg (vol_geo _ _ _ Hv)).
  pose proof (root_in_image img Hv). pose proof (geo_rootcnt _ _ Hv).
  destruct (decide (RootEntCnt fs = 0)) as [E|E].
  { by rewrite E. }
  pose proof (root_sector_in_image img 0 Hv ltac:(lia)) as Hfit.
  rewrite Z.div_0_l in Hfit by lia.
  rewrite sector_read_full by (rewrite ?length_uninit; lia).
  rewrite <- (Z2Nat.id (RootEntCnt fs)) at 2 by lia.
  rewrite <- (root_scan_ok (Z.to_nat (RootEntCnt fs)) 0
    (slice (FirstRootDirSecNum fs * 512) 512 img)); [done|lia..|].
  rewrite Z.div_0_l by lia. do 2 f_equal. lia.
Qed.

(** The cursor stands on entry [k] of cluster [c]. *)
Record cursor_on (c k : Z) (cu : cursor) : Prop := {
  on_i : cur_i cu = k + 1;
  on_sec : DirSecCnt cu = k / 16 + 1;
  on_cluster : ClusterN cu = c;
  on_fat : FatClusEntryVal cu = fat_get fs img c;
  on_first : FirstSectorofCluster cu = cluster_sector fs c;
  on_buf : sector_buffer cu = slice ((cluster_sector fs c + k / 16) * 512) 512 img
}.

Lemma dir_open_ok c buf :
  in_volume n c → length buf = 512%nat →
  ∃ cu, dir_open fs img c buf = Ok cu ∧ cursor_on c 0 cu.
Proof.
  intros Hc Hb. pose proof (in_cluster_bounds c Hv Hc). pose proof (geo_spc _ _ Hv).
  pose proof (data_nonneg (vol_geo _ _ _ Hv)).
  unfold dir_open, first_sector_by_cluster.
  erewrite fat_entry_ok; [|done|by eapply in_volume_index; [apply Hv|]]. res_steps.
  rewrite (first_sector_ok (n := n)) by (done || apply Hv).
  eexists. split; [reflexivity|]. split; try done. cbn [sector_buffer].
  rewrite sector_read_full; [|lia|destruct Hv; lia|done].
  rewrite Z.div_0_l, Z.add_0_r by lia. done.
Qed.

Lemma dir_advance_ok c k l cu :
  dir_chain fs n img c (c :: l) → 0 <= k < 16 * SecPerClus fs → cursor_on c k cu →
  if decide (k + 1 < 16 * SecPerClus fs)
  then ∃ cu', dir_advance fs img cu = Ok (Some cu') ∧ cursor_on c (k + 1) cu'
  else match l with
       | [] => dir_advance fs img cu = Ok None
       | c' :: l' =>
         dir_chain fs n img c' (c' :: l') ∧
         ∃ cu', dir_advance fs img cu = Ok (Some cu') ∧ cursor_on c' 0 cu'
       end.
Proof.
  intros Hch Hk [Hi Hsec Hcl Hfat Hfirst Hbuf].
  assert (Hc : in_volume n c) by (by inversion Hch).
  pose proof (in_cluster_bounds c Hv Hc). pose proof (data_nonneg (vol_geo _ _ _ Hv)).
  assert (0 <= k / 16 < SecPerClus fs).
  { split; [apply Z.div_pos; lia|]. apply Z.div_lt_upper_bound; lia. }
  pose proof (vol_len _ _ _ Hv).
  assert (Hlb : length (sector_buffer cu) = 512%nat) by (rewrite Hbuf, length_slice; lia).
  unfold dir_advance. rewrite Hi, Hsec, Hfat, Hcl, Hfirst.
  clear Hi Hsec Hfat Hcl Hfirst.
  case_decide as Hlast.
  - destruct (Z.eqb_spec ((k + 1) mod 16) 0) as [E|E].
    + pose proof (div16_next k E) as Hd.
      assert ((k + 1) / 16 < SecPerClus fs) by (apply Z.div_lt_upper_bound; lia).
      rewrite (proj2 (Z.ltb_lt _ _)) by lia. eexists. split; [reflexivity|].
      split; cbn; rewrite ?Hd; try (done || lia).
      rewrite sector_read_full by (done || lia). do 2 f_equal; lia.
    + pose proof (div16_same k E) as Hd. eexists. split; [reflexivity|].
      split; cbn; rewrite ?Hd; done.
  - assert (k + 1 = SecPerClus fs * 16) as Ek by lia. rewrite Ek, Z.mod_mul by lia.
    cbn [Z.eqb]. assert (k / 16 + 1 = SecPerClus fs) as Es.
    { assert (E : (k + 1) mod 16 = 0) by (rewrite Ek; apply Z.mod_mul; lia).
      rewrite <- (div16_next k E), Ek. by apply Z.div_mul. }
    rewrite Es, Z.ltb_irrefl. inversion Hch as [? ? Hend|? ? ? Hne Hrest]; subst.
    + rewrite Hend, Z.eqb_refl. done.
    + destruct l as [|c' l]; [inversion Hrest|].
      assert (fat_get fs img c = c') as Ec by (by inversion Hrest). rewrite Ec in *.
      split; [done|]. rewrite (proj2 (Z.eqb_neq _ _)) by done.
      destruct (dir_open_ok c' (sector_buffer cu)) as (cu' & -> & ?);
        [by inversion Hrest|done|]. eauto.
Qed.

Definition slots_from (c k : Z) (l : list Z) : list slot :=
  (cluster_slot fs img c <$> seqZ k (16 * SecPerClus fs - k)) ++ dir_slots fs img l.

Lemma cursor_slot c k cu :
  in_volume n c → 0 <= k < 16 * SecPerClus fs → cursor_on c k cu →
  cluster_slot fs img c k =
    (sub_sectorNum fs cu, entry_offset (cur_i cu), entry_at (sector_buffer cu) (cur_i cu)).
Proof.
  intros Hc Hk [Hi Hsec Hcl Hfat Hfirst Hbuf].
  pose proof (in_cluster_bounds c Hv Hc). pose proof (data_nonneg (vol_geo _ _ _ Hv)).
  assert (0 <= k / 16 < SecPerClus fs).
  { split; [apply Z.div_pos; lia|]. apply Z.div_lt_upper_bound; lia. }
  pose proof (vol_len _ _ _ Hv).
  unfold cluster_slot, sub_sectorNum.
  rewrite Hi, Hsec, Hcl, Hbuf, entry_offset_eq, entry_at_sector by lia.
  rewrite u32_small by (unfold cluster_sector in *; lia).
  unfold cluster_sector. do 2 f_equal. lia.
Qed.

Lemma sub_scan_from fuel c k l cu acc last :
  dir_chain fs n img c (c :: l) → 0 <= k < 16 * SecPerClus fs → cursor_on c k cu →
  name0 last ≠ 0 → (length (slots_from c k l) < fuel)%nat →
  sub_scan fs img body fuel cu acc last = scan body true (slots_from c k l) acc last.
Proof.
  revert c k l cu acc last.
  induction fuel as [|fuel IH]; intros c k l cu acc last Hch Hk Hon Hlast Hfuel; [lia|].
  assert (Hc : in_volume n c) by (by inversion Hch).
  pose proof (dir_advance_ok c k l cu Hch Hk Hon) as Hadv.
  unfold slots_from in *. rewrite seqZ_cons, fmap_cons in * by lia.
  rewrite (cursor_slot c k cu) in * by done. cbn [app length] in Hfuel.
  cbn [sub_scan app scan]. rewrite (proj2 (Z.eqb_neq _ _)) by done.
  set (e := entry_at _ _).
  destruct (body acc _ _ e) as [[acc' [r|]]| | |]; res_steps; try done. cbn [andb].
  replace (Z.pred (16 * SecPerClus fs - k)) with (16 * SecPerClus fs - (k + 1)) in * by lia.
  replace (Z.succ k) with (k + 1) in * by lia.
  assert (Hnext : ∀ c' k' l' cu', dir_chain fs n img c' (c' :: l') →
    0 <= k' < 16 * SecPerClus fs → cursor_on c' k' cu' →
    slots_from c' k' l' = (cluster_slot fs img c <$>
      seqZ (k + 1) (16 * SecPerClus fs - (k + 1))) ++ dir_slots fs img l →
    sub_scan fs img body fuel cu' acc' e =
    if name0 e =? 0 then Ok (acc', None, e)
    else scan body true ((cluster_slot fs img c <$>
      seqZ (k + 1) (16 * SecPerClus fs - (k + 1))) ++ dir_slots fs img l) acc' e).
  { intros c' k' l' cu' Hch' Hk' Hon' Heq. destruct (Z.eqb_spec (name0 e) 0) as [E0|E0].
    - destruct fuel as [|fuel]; [lia|]. cbn [sub_scan]. by rewrite E0.
    - rewrite <- Heq. apply IH; try done. unfold slots_from in Heq. rewrite Heq. lia. }
  case_decide as Hin.
  - destruct Hadv as (cu' & -> & Hon'). res_steps. by apply (Hnext c (k + 1) l); [done|lia|done|].
  - replace (16 * SecPerClus fs - (k + 1)) with 0 in * by lia.
    change (seqZ (k + 1) 0) with (@nil Z) in *. cbn [fmap list_fmap app] in *.
    destruct l as [|c' l].
    + rewrite Hadv. res_steps. cbn [dir_slots mbind list_bind scan].
      by destruct (name0 e =? 0).
    + destruct Hadv as (Hch' & cu' & -> & Hon'). res_steps.
      pose proof (geo_spc _ _ Hv).
      apply (Hnext c' 0 l); [done|lia|done|]. unfold slots_from. by rewrite Z.sub_0_r.
Qed.

(** The loop over a subdirectory, opened at its first cluster. *)
Lemma sub_loop_ok fuel c l buf acc last :
  dir_chain fs n img c l → length buf = 512%nat → name0 last ≠ 0 →
  (length (dir_slots fs img l) < fuel)%nat →
  (cu ← dir_open fs img c buf; sub_scan fs img body fuel cu acc last) =
  scan body true (dir_slots fs img l) acc last.
Proof.
  intros Hch Hbuf Hlast Hfuel. assert (∃ l', l = c :: l') as [l' ->] by (inversion Hch; eauto).
  assert (Hc : in_volume n c) by (by inversion Hch).
  destruct (dir_open_ok c buf Hc Hbuf) as (cu & -> & Hon). res_steps.
  pose proof (geo_spc _ _ Hv).
  assert (E : dir_slots fs img (c :: l') = slots_from c 0 l')
    by (unfold slots_from; by rewrite Z.sub_0_r).
  rewrite E in *. apply sub_scan_from; (done || lia).
Qed.
End refinement.

(** ** Path lookup as a specification *)

Fixpoint first_slot (P : DIR_ENTRY → bool) (stop : bool) (es : list slot) : option slot :=
  match es with
  | [] => None
  | (sec, off, e) :: es =>
    if P e then Some (sec, off, e)
    else if stop && (name0 e =? 0) then None else first_slot P stop es
  end.

Definition is_file (e : DIR_ENTRY) : bool := DIR_Attr e =? ATTR_ARCHIVE.
Definition is_dir (e : DIR_ENTRY) : bool := DIR_Attr e =? ATTR_DIRECTORY.
Definition named (name : list Z) (e : DIR_ENTRY) : bool := bool_decide (DIR_Name e = name).

(** Looking a name up in the subdirectory of entry [D]: the last component
    may be a file or a directory, the others are directories. *)
Definition wanted (name : list Z) (last : bool) (e : DIR_ENTRY) : bool :=
  named name e && ((is_file e && last) || is_dir e).

Inductive walk (fs : FAT16) (n : Z) (img : image)
    : DIR_ENTRY → list (list Z) → option DIR_ENTRY → Prop :=
  | walk_missing D name rest l :
      dir_chain fs n img (DIR_FstClusLO D) l →
      first_slot (wanted name (bool_decide (rest = []))) true (dir_slots fs img l) = None →
      walk fs n img D (name :: rest) None
  | walk_found D name l sec off e :
      dir_chain fs n img (DIR_FstClusLO D) l →
      first_slot (wanted name true) true (dir_slots fs img l) = Some (sec, off, e) →
      walk fs n img D [name] (Some e)
  | walk_down D name rest l sec off e r :
      dir_chain fs n img (DIR_FstClusLO D) l → rest ≠ [] →
      first_slot (wanted name false) true (dir_slots fs img l) = Some (sec, off, e) →
      walk fs n img e rest r →
      walk fs n img D (name :: rest) r.

(** The code's answer for a lookup: 0 found, 1 not found. *)
Definition found (r : option DIR_ENTRY) : Z := match r with Some _ => 0 | None => 1 end.

(** The entry of the root directory the code stops at. *)
Definition root_stop (name : list Z) (e : DIR_ENTRY) : bool :=
  (name0 e =? 0) || (named name e && (is_file e || is_dir e)).

Inductive lookup (fs : FAT16) (n : Z) (img : image)
    : list (list Z) → option DIR_ENTRY → Prop :=
  | lookup_end name rest :
      first_slot (root_stop name) false (root_slots fs img) = None →
      lookup fs n img (name :: rest) None
  | lookup_free name rest sec off e :
      first_slot (root_stop name) false (root_slots fs img) = Some (sec, off, e) →
      name0 e = 0 → lookup fs n img (name :: rest) None
  | lookup_file name rest sec off e :
      first_slot (root_stop name) false (root_slots fs img) = Some (sec, off, e) →
      name0 e ≠ 0 → is_file e = true → lookup fs n img (name :: rest) (Some e)
  | lookup_dir name sec off e :
      first_slot (root_stop name) false (root_slots fs img) = Some (sec, off, e) →
      name0 e ≠ 0 → is_dir e = true → lookup fs n img [name] (Some e)
  | lookup_down name rest sec off e r :
      first_slot (root_stop name) false (root_slots fs img) = Some (sec, off, e) →
      name0 e ≠ 0 → is_dir e = true → rest ≠ [] → walk fs n img e rest r →
      lookup fs n img (name :: rest) r.

Lemma scan_ext {A R} (body body' : A → Z → Z → DIR_ENTRY → res (A * option R)) stop es acc last :
  (∀ acc sec off e, body acc sec off e = body' acc sec off e) →
  scan body stop es acc last = scan body' stop es acc last.
Proof.
  intros Hb. revert acc last. induction es as [|[[sec off] e] es IH]; intros acc last;
    cbn [scan]; [done|]. rewrite Hb. destruct (body' acc sec off e) as [[acc' [r|]]| | |];
    res_steps; [done| |done..]. case_goal; [done|apply IH].
Qed.

(** A loop body that only inspects the entry stops at the first slot it
    accepts. *)
Lemma scan_first {R} (f : DIR_ENTRY → option R) stop es last :
  scan (λ (_ : unit) _ _ e, Ok (tt, f e)) stop es tt last =
  match first_slot (λ e, bool_decide (is_Some (f e))) stop es with
  | Some (_, _, e) => Ok (tt, f e, e)
  | None => Ok (tt, None, (fix lst es last := match es with
                           | [] => last
                           | (_, _, e) :: es => if stop && (name0 e =? 0) then e else lst es e
                           end) es last)
  end.
Proof.
  revert last. induction es as [|[[sec off] e] es IH]; intros last; cbn [scan first_slot]; [done|].
  res_steps. destruct (f e) as [r|] eqn:E.
  - rewrite bool_decide_true by eauto. by rewrite E.
  - rewrite bool_decide_false by (intros [? ?]; congruence).
    case_goal; [done|]. apply IH.
Qed.

Lemma first_slot_ext P Q stop es :
  (∀ sec off e, (sec, off, e) ∈ es → P e = Q e) → first_slot P stop es = first_slot Q stop es.
Proof.
  induction es as [|[[sec off] e] es IH]; intros HPQ; cbn [first_slot]; [done|].
  rewrite (HPQ sec off e) by apply list_elem_of_here. case_goal; [done|]. case_goal; [done|].
  apply IH. intros. eapply HPQ. by apply list_elem_of_further.
Qed.

Lemma first_slot_Some P stop es sec off e :
  first_slot P stop es = Some (sec, off, e) → (sec, off, e) ∈ es ∧ P e = true.
Proof.
  induction es as [|[[sec' off'] e'] es IH]; cbn [first_slot]; [done|].
  destruct (P e') eqn:E.
  { intros [= -> -> ->]. split; [apply list_elem_of_here|done]. }
  case_goal; [done|]. intros Hf. destruct (IH Hf). split; [by apply list_elem_of_further|done].
Qed.

(** Fuel that is enough for every directory of the volume: one round per
    entry of a chain of all clusters, and one to see the end. *)
Definition dir_fuel (fs : FAT16) (n : Z) : nat := S (Z.to_nat (16 * SecPerClus fs * n)).

(** Rows that [path_split] produces for names in ASCII. *)
Definition ascii_row (row : list Z) : Prop :=
  length row = 11%nat ∧ Forall (λ c, 0 < c < 128) row.

Section lookup_facts.
Context `{Platform} {fs : FAT16} {n : Z} {img : image} (Hv : vol_ok fs n img).

Lemma length_cluster_slots c : length (cluster_slots fs img c) = Z.to_nat (16 * SecPerClus fs).
Proof. unfold cluster_slots. by rewrite length_fmap, length_seqZ. Qed.

Lemma length_dir_slots l : lenZ (dir_slots fs img l) = 16 * SecPerClus fs * lenZ l.
Proof.
  pose proof (geo_spc _ _ Hv). induction l as [|c l IH]; [cbn; lia|].
  unfold dir_slots in *. rewrite bind_cons, length_app, length_cluster_slots. cbn [length]. lia.
Qed.

Lemma dir_fuel_enough c l :
  dir_chain fs n img c l → (length (dir_slots fs img l) < dir_fuel fs n)%nat.
Proof.
  intros Hl. pose proof (chain_length _ _ _ Hl). pose proof (length_dir_slots l).
  pose proof (geo_spc _ _ Hv). unfold dir_fuel.
  assert (16 * SecPerClus fs * lenZ l <= 16 * SecPerClus fs * n)
    by (apply Z.mul_le_mono_nonneg_l; lia). lia.
Qed.

Lemma s8_ascii row : ascii_row row → s8 <$> row = row.
Proof.
  intros [_ Ha]. induction Ha as [|c row Hc _ IH]; [done|]. rewrite fmap_cons, IH. f_equal.
  by apply s8_byte_eq; unfold is_byte; [lia|lia|split; [done|lia]].
Qed.

Lemma named_name0 name e : ascii_row name → named name e = true → name0 e ≠ 0.
Proof.
  intros [Hl Ha] He. apply bool_decide_eq_true in He. unfold name0. rewrite He.
  destruct Ha as [|c name' Hc _]; [done|].
  change (c ≠ 0). lia.
Qed.

Lemma length_entry_name sec off :
  0 <= entry_pos sec off → entry_pos sec off + 32 <= lenZ img →
  length (DIR_Name (entry_on img sec off)) = 11%nat.
Proof.
  intros. cbn. rewrite slice_slice by (unfold BYTES_PER_DIR; lia).
  apply length_slice; lia.
Qed.

(** One level of [find_subdir]. *)
Lemma find_subdir_step D name rest l fuel :
  dir_chain fs n img (DIR_FstClusLO D) l → name0 D ≠ 0 → ascii_row name →
  (dir_fuel fs n ≤ fuel)%nat →
  let last := bool_decide (rest = []) in
  match first_slot (wanted name last) true (dir_slots fs img l) with
  | Some (_, _, e) => find_subdir fs img fuel D (name :: rest) =
      if last then Ok (0, e) else find_subdir fs img fuel e rest
  | None => ∃ e, find_subdir fs img fuel D (name :: rest) = Ok (1, e)
  end.
Proof.
  intros Hl HD Hname Hfuel last. pose proof (dir_fuel_enough _ _ Hl).
  cbn [find_subdir]. fold last.
  set (f := λ e : DIR_ENTRY,
    if same_name (DIR_Name e) name && is_file e && last
       || same_name (DIR_Name e) name && is_dir e && last then Some true
    else if same_name (DIR_Name e) name && is_dir e then Some false else None).
  assert (Hf : ∀ e, bool_decide (is_Some (f e)) = wanted name last e ∧
    (wanted name last e = true → f e = Some last)).
  { intros e. unfold f, wanted, same_name, named. rewrite s8_ascii by done.
    by destruct (bool_decide (DIR_Name e = name)), (is_file e), (is_dir e), last. }
  rewrite <- bind_assoc.
  erewrite (sub_loop_ok Hv _ fuel _ l) by (done || lia || by rewrite length_uninit).
  erewrite (scan_ext _ (λ (_ : unit) _ _ e, Ok (tt, f e))).
  2:{ intros. unfold f, is_file, is_dir. by repeat case_goal. }
  rewrite scan_first, (first_slot_ext (λ e, bool_decide (is_Some (f e))) (wanted name last))
    by (intros; apply Hf).
  destruct (first_slot _ _ _) as [[[sec off] e]|] eqn:Es; res_steps; [|by eauto].
  apply first_slot_Some in Es as [_ Es].
  rewrite (proj2 (Hf e) Es). by destruct last.
Qed.

Lemma wanted_named name last e : wanted name last e = true → named name e = true.
Proof. unfold wanted. destruct (named name e); [done|]. intros E. by cbn in E. Qed.

Lemma find_subdir_walk D names r fuel :
  walk fs n img D names r → name0 D ≠ 0 → Forall ascii_row names →
  (dir_fuel fs n ≤ fuel)%nat →
  ∃ Dir', find_subdir fs img fuel D names = Ok (found r, Dir') ∧
    (∀ e, r = Some e → Dir' = e).
Proof.
  intros Hw. induction Hw as [D name rest l Hl Hf|D name l sec off e Hl Hf
    |D name rest l sec off e r Hl Hne Hf Hw IH]; intros HD Hrows Hfuel;
    apply Forall_cons in Hrows as [Hname Hrest].
  - pose proof (find_subdir_step D name rest l fuel Hl HD Hname Hfuel) as E.
    cbn zeta in E. rewrite Hf in E. destruct E as [e E]. by exists e.
  - pose proof (find_subdir_step D name [] l fuel Hl HD Hname Hfuel) as E.
    cbn zeta in E. rewrite bool_decide_true, Hf in E by done.
    exists e. split; [done|]. by intros ? [= ->].
  - pose proof (find_subdir_step D name rest l fuel Hl HD Hname Hfuel) as E.
    cbn zeta in E. rewrite bool_decide_false, Hf in E by done.
    apply first_slot_Some in Hf as [_ Hf]. apply wanted_named in Hf.
    destruct (IH (named_name0 _ _ Hname Hf) Hrest Hfuel) as (Dir' & E' & ?).
    exists Dir'. by rewrite E.
Qed.

(** The root directory: entries are eleven bytes long, so [strncmp] against
    a row is equality. *)
Lemma root_slot_name sec off e :
  (sec, off, e) ∈ root_slots fs img → length (DIR_Name e) = 11%nat.
Proof.
  unfold root_slots. rewrite list_elem_of_fmap. intros (k & [= -> -> ->] & Hk).
  apply elem_of_seqZ in Hk. pose proof (root_sector_in_image img k Hv ltac:(lia)).
  pose proof (root_in_image img Hv). pose proof (data_nonneg (vol_geo _ _ _ Hv)).
  pose proof (Z.mod_pos_bound k 16). assert (0 <= k / 16) by (apply Z.div_pos; lia).
  apply length_entry_name; unfold entry_pos; lia.
Qed.

Lemma find_root_step Root path name rest path' fuel :
  path_split path = Ok (name :: rest, 1 + lenZ rest, path') → ascii_row name →
  match first_slot (root_stop name) false (root_slots fs img) with
  | Some (_, _, e) =>
    find_root fs img fuel Root path =
      if name0 e =? 0 then Ok (1, e, path')
      else if is_file e || bool_decide (rest = []) then Ok (0, e, path')
      else '(ret, Dir) ← find_subdir fs img fuel e rest; Ok (ret, Dir, path')
  | None => ∃ e, find_root fs img fuel Root path = Ok (1, e, path')
  end.
Proof.
  intros Hp Hname. unfold find_root. res_step Hp.
  assert (Hone : (1 + lenZ rest =? 1) = bool_decide (rest = [])).
  { destruct rest; [done|]. rewrite bool_decide_false by done. cbn [length].
    apply Z.eqb_neq. lia. }
  rewrite Hone. rewrite (root_loop_ok Hv).
  set (f := λ e : DIR_ENTRY,
    if name0 e =? 0 then Some (RootReturn 1)
    else if strncmp_eq 11 (DIR_Name e) name && is_file e then Some (RootReturn 0)
    else if strncmp_eq 11 (DIR_Name e) name && is_dir e && bool_decide (rest = [])
    then Some (RootReturn 0)
    else if strncmp_eq 11 (DIR_Name e) name && is_dir e then Some RootDescend else None).
  erewrite (scan_ext _ (λ (_ : unit) _ _ e, Ok (tt, f e))).
  2:{ intros. unfold f, is_file, is_dir. by repeat case_goal. }
  assert (Hf : ∀ e, length (DIR_Name e) = 11%nat →
    bool_decide (is_Some (f e)) = root_stop name e ∧
    (root_stop name e = true → f e = Some
      (if name0 e =? 0 then RootReturn 1
       else if is_file e || bool_decide (rest = []) then RootReturn 0 else RootDescend))).
  { intros e He. destruct Hname as [Hl Ha]. unfold f, root_stop, named.
    assert (strncmp_eq 11 (DIR_Name e) name = bool_decide (DIR_Name e = name)) as ->.
    { rewrite <- He. apply strncmp_eq_spec; [lia|]. forall_impl Ha. lia. }
    by destruct (name0 e =? 0), (bool_decide (DIR_Name e = name)), (is_file e), (is_dir e),
      (bool_decide (rest = [])). }
  rewrite scan_first, (first_slot_ext (λ e, bool_decide (is_Some (f e))) (root_stop name))
    by (intros; by eapply Hf, root_slot_name).
  destruct (first_slot _ _ _) as [[[sec off] e]|] eqn:Es; res_steps; [|by eauto].
  apply first_slot_Some in Es as [Hin Es].
  rewrite (proj2 (Hf e (root_slot_name _ _ _ Hin)) Es). by repeat case_goal.
Qed.

Lemma root_stop_cases name e :
  root_stop name e = true → name0 e ≠ 0 → is_file e = true ∨ (is_file e = false ∧ is_dir e = true).
Proof. unfold root_stop. intros H0 Hn. destruct (is_file e), (is_dir e); auto. lia. Qed.

Lemma find_root_lookup Root path name rest path' r fuel :
  path_split path = Ok (name :: rest, 1 + lenZ rest, path') →
  Forall ascii_row (name :: rest) → lookup fs n img (name :: rest) r →
  (dir_fuel fs n ≤ fuel)%nat →
  ∃ Dir', find_root fs img fuel Root path = Ok (found r, Dir', path') ∧
    (∀ e, r = Some e → Dir' = e).
Proof.
  intros Hp Hrows Hl Hfuel. apply Forall_cons in Hrows as [Hname Hrest].
  pose proof (find_root_step Root path name rest path' fuel Hp Hname) as E.
  inversion Hl as [? ? Hf|? ? sec off e Hf H0|? ? sec off e Hf H0 Ha|? sec off e Hf H0 Ha
    |? ? sec off e ? Hf H0 Ha Hne Hw]; subst; rewrite Hf in E.
  - destruct E as [e E]. by exists e.
  - rewrite (proj2 (Z.eqb_eq _ _) H0) in E. by exists e.
  - rewrite (proj2 (Z.eqb_neq _ _) H0), Ha in E. exists e. split; [done|]. by intros ? [= ->].
  - rewrite (proj2 (Z.eqb_neq _ _) H0), orb_true_r in E. exists e. split; [done|].
    by intros ? [= ->].
  - assert (is_file e = false) as Hnf.
    { unfold is_file, is_dir in *. unfold ATTR_ARCHIVE, ATTR_DIRECTORY in *. lia. }
    rewrite (proj2 (Z.eqb_neq _ _) H0), Hnf, bool_decide_false in E by done.
    destruct (find_subdir_walk e rest r fuel Hw H0 Hrest Hfuel) as (Dir' & E' & ?).
    exists Dir'. cbn [orb] in E. rewrite E, E'. by res_steps.
Qed.
End lookup_facts.

(** ** Listing *)

Definition listed (e : DIR_ENTRY) : bool := (is_file e || is_dir e) && negb (name0 e =? 229).

Definition shown_name (e : DIR_ENTRY) : list Z :=
  match path_decode (DIR_Name e) with Ok s => c_str s | _ => [] end.

(** The entries up to the first free one, with it or without it. *)
Fixpoint until_free (incl : bool) (es : list slot) : list DIR_ENTRY :=
  match es with
  | [] => []
  | (_, _, e) :: es =>
    if name0 e =? 0 then (if incl then [e] else []) else e :: until_free incl es
  end.

Definition listing (incl : bool) (es : list slot) : list (list Z) :=
  shown_name <$> filter (λ e, listed e = true) (until_free incl es).

(** What the lookup says about the entry it finds. *)
Definition ascii_name (s : list Z) : Prop := Forall (λ c, 0 < c < 128) s.

#[global] Instance ascii_name_dec s : Decision (ascii_name s).
Proof. unfold ascii_name. apply _. Defined.

Section listing_facts.
Context `{Platform} {fs : FAT16} {n : Z} {img : image} (Hv : vol_ok fs n img).

Definition names_ok (es : list slot) : Prop :=
  ∀ sec off e, (sec, off, e) ∈ es → length (DIR_Name e) = 11%nat.

Lemma cluster_slot_name c k :
  in_volume n c → 0 <= k < 16 * SecPerClus fs →
  length (DIR_Name (cluster_slot fs img c k).2) = 11%nat.
Proof.
  intros Hc Hk. pose proof (in_cluster_bounds c Hv Hc). pose proof (vol_len _ _ _ Hv).
  pose proof (data_nonneg (vol_geo _ _ _ Hv)). pose proof (Z.mod_pos_bound k 16).
  assert (0 <= k / 16 < SecPerClus fs).
  { split; [apply Z.div_pos; lia|]. apply Z.div_lt_upper_bound; lia. }
  cbn [cluster_slot snd]. apply length_entry_name; unfold entry_pos; lia.
Qed.

Lemma root_names_ok : names_ok (root_slots fs img).
Proof. intros sec off e. by eapply root_slot_name. Qed.

Lemma dir_names_ok c l : dir_chain fs n img c l → names_ok (dir_slots fs img l).
Proof.
  intros Hl sec off e Hin. pose proof (chain_in_volume _ _ _ Hl) as Hvol.
  apply list_elem_of_bind in Hin as (d & Hin & Hd). rewrite Forall_forall in Hvol.
  apply list_elem_of_fmap in Hin as (k & Hk & Hin). apply elem_of_seqZ in Hin.
  replace e with (cluster_slot fs img d k).2 by by rewrite <- Hk.
  apply cluster_slot_name; [by apply Hvol|lia].
Qed.

Lemma decode_shown e :
  length (DIR_Name e) = 11%nat →
  ∃ s, path_decode (DIR_Name e) = Ok s ∧ shown_name e = c_str s.
Proof.
  intros Hl. destruct (path_decode_ok _ Hl) as (s & Hs & _). exists s. split; [done|]. unfold shown_name. by rewrite Hs.
Qed.

Lemma scan_readdir root es acc last :
  names_ok es →
  ∃ r e, scan (readdir_body root) (negb root) es acc last =
    Ok (acc ++ listing (negb root) es, r, e).
Proof.
  revert acc last. induction es as [|[[sec off] e] es IH]; intros acc last Hok; cbn [scan].
  { exists None, last. by rewrite app_nil_r. }
  destruct (decode_shown e) as (s & Hs & Hsh); [eapply Hok, list_elem_of_here|].
  assert (Hok' : names_ok es) by (intros ????; eapply Hok; by apply list_elem_of_further).
  assert (Hbody : readdir_body root acc sec off e =
    if root && (name0 e =? 0) then Ok (acc, Some tt)
    else Ok (acc ++ (if listed e then [shown_name e] else []), None)).
  { unfold readdir_body. case_goal; [done|]. rewrite Hs, Hsh.
    change ((DIR_Attr e =? ATTR_ARCHIVE) || _) with (is_file e || is_dir e).
    unfold listed. case_goal; res_steps; by rewrite ?app_nil_r. }
  rewrite Hbody. unfold listing. cbn [until_free].
  destruct root, (Z.eqb_spec (name0 e) 0) as [E0|E0]; cbn [andb negb]; res_steps.
  - exists (Some tt), e. cbn. by rewrite app_nil_r.
  - destruct (IH (acc ++ (if listed e then [shown_name e] else [])) e Hok') as (r & e' & E).
    exists r, e'. cbn [negb] in E. rewrite E, <- app_assoc. do 4 f_equal. unfold listing.
    destruct (listed e) eqn:El; [by rewrite filter_cons_True|].
    by rewrite filter_cons_False by congruence.
  - exists None, e. do 4 f_equal. destruct (listed e) eqn:El.
    + by rewrite filter_cons_True.
    + by rewrite filter_cons_False by congruence.
  - destruct (IH (acc ++ (if listed e then [shown_name e] else [])) e Hok') as (r & e' & E).
    exists r, e'. cbn [negb] in E. rewrite E, <- app_assoc. do 4 f_equal. unfold listing.
    destruct (listed e) eqn:El; [by rewrite filter_cons_True|].
    by rewrite filter_cons_False by congruence.
Qed.
End listing_facts.

(** ** Properties *)

Lemma toupper_ascii c : 0 < c < 128 → 0 < toupper c < 128.
Proof. unfold toupper, is_lower. intros. case_goal; lia. Qed.

Lemma ascii_row_fat_name base ext : ascii_name base → ascii_name ext → ascii_row (fat_name base ext).
Proof.
  intros Hb He. split; [apply length_fat_name|]. unfold fat_name.
  assert (Hup : ∀ k s, ascii_name s → Forall (λ c, 0 < c < 128) (resize k ch_space (toupper <$> s))).
  { intros k s Hs. apply Forall_resize; [lia|]. apply Forall_fmap. forall_impl Hs.
    by apply toupper_ascii. }
  apply Forall_app. by split; apply Hup.
Qed.

(** The 8.3 names of a plain path, and what it means that it is in ASCII. *)
Definition rows_of (dirs : list (list Z)) (base ext : list Z) : list (list Z) :=
  ((λ d, fat_name d []) <$> dirs) ++ [fat_name base ext].

Record ascii_path (dirs : list (list Z)) (base ext : list Z) : Prop := {
  ascii_plain :> plain_path dirs base ext;
  ascii_dirs : Forall ascii_name dirs;
  ascii_base : ascii_name base;
  ascii_ext : ascii_name ext
}.

(** [by_decision] evaluates a decidable proposition, and [path_tac] proves that
    a concrete path is in ASCII. *)
Ltac by_decision := apply (bool_decide_unpack _); vm_compute; exact I.
Ltac path_tac := split; [split|..]; by_decision.

Lemma ascii_rows dirs base ext :
  ascii_path dirs base ext → Forall ascii_row (rows_of dirs base ext).
Proof.
  intros [_ Hd Hb He]. apply Forall_app. split.
  - apply Forall_fmap. forall_impl Hd. by apply ascii_row_fat_name, Forall_nil_2.
  - apply Forall_cons_2; [by apply ascii_row_fat_name|apply Forall_nil_2].
Qed.

Lemma rows_of_cons dirs base ext :
  ∃ name rest, rows_of dirs base ext = name :: rest ∧ lenZ dirs = lenZ rest.
Proof.
  unfold rows_of. destruct dirs as [|d dirs]; cbn [fmap list_fmap app].
  - by exists (fat_name base ext), [].
  - eexists _, _. split; [done|]. rewrite length_app, length_fmap. cbn [length]. lia.
Qed.

Section properties.
Context `{Platform} {fs : FAT16} {n : Z} {img : image} (Hv : vol_ok fs n img).

Lemma find_root_path dirs base ext r Root fuel :
  ascii_path dirs base ext → lookup fs n img (rows_of dirs base ext) r →
  (dir_fuel fs n ≤ fuel)%nat →
  ∃ Dir', find_root fs img fuel Root (path_of dirs base ext) =
      Ok (found r, Dir', cut_path (dirs ++ [spell base ext])) ∧
    (∀ e, r = Some e → Dir' = e).
Proof.
  intros Hp Hl Hfuel. pose proof (ascii_rows _ _ _ Hp) as Hrows.
  pose proof (path_split_plain dirs base ext Hp) as Hs. fold (rows_of dirs base ext) in Hs.
  destruct (rows_of_cons dirs base ext) as (name & rest & E & El).
  rewrite E in *. rewrite El in Hs. by eapply find_root_lookup.
Qed.

Lemma path_of_not_root dirs base ext :
  plain_path dirs base ext → strcmp_eq (path_of dirs base ext) [ch_slash] = false.
Proof.
  intros [Hc _ _ _]. unfold strcmp_eq. apply bool_decide_false. unfold path_of.
  rewrite c_str_no_nul by by apply join_path_no_nul.
  destruct dirs as [|d dirs]; inversion Hc as [|? ? [Hne _] _]; subst.
  - cbn. by destruct (spell base ext).
  - cbn. by destruct d.
Qed.

(** Every slot holds the entry found at its place on the image. *)
Lemma root_slot_entry sec off e : (sec, off, e) ∈ root_slots fs img → e = entry_on img sec off.
Proof. unfold root_slots. rewrite list_elem_of_fmap. by intros (k & [= -> -> ->] & _). Qed.

Lemma dir_slot_entry l sec off e : (sec, off, e) ∈ dir_slots fs img l → e = entry_on img sec off.
Proof.
  intros (d & Hin & _)%list_elem_of_bind. apply list_elem_of_fmap in Hin as (k & [= -> -> ->] & _).
  done.
Qed.

Lemma named_ascii name e : ascii_row name → named name e = true → 0 < name0 e < 128.
Proof.
  intros [Hl Ha] He. apply bool_decide_eq_true in He. unfold name0. rewrite He.
  by destruct Ha as [|c name' Hc _].
Qed.

Lemma walk_entry D names r :
  walk fs n img D names r → Forall ascii_row names → ∀ e, r = Some e →
  0 < name0 e < 128 ∧ ∃ sec off, e = entry_on img sec off.
Proof.
  induction 1 as [|D name l sec off e Hl Hf|D name rest l sec off e r Hl Hne Hf Hw IH];
    intros Hrows ? [= ->].
  - apply first_slot_Some in Hf as [Hin Hf]. apply wanted_named in Hf.
    apply Forall_cons in Hrows as [Hrow _]. split; [by eapply named_ascii|].
    exists sec, off. by eapply dir_slot_entry.
  - apply Forall_cons in Hrows as [_ Hrows]. by apply IH.
Qed.

Lemma lookup_entry names e :
  lookup fs n img names (Some e) → Forall ascii_row names →
  0 < name0 e < 128 ∧ ∃ sec off, e = entry_on img sec off.
Proof.
  intros Hl Hrows. inversion Hl as [| |name rest sec off e' Hf H0|name sec off e' Hf H0
    |name rest sec off e' r Hf H0 Hd Hne Hw]; subst; apply Forall_cons in Hrows as [Hrow Hrows].
  1,2: apply first_slot_Some in Hf as [Hin Hstop]; unfold root_stop in Hstop;
    rewrite (proj2 (Z.eqb_neq _ _) H0) in Hstop; apply andb_true_iff in Hstop as [Hn _];
    split; [by eapply named_ascii|exists sec, off; by eapply root_slot_entry].
  by eapply walk_entry.
Qed.

Lemma DIR_FileSize_range sec off : 0 <= DIR_FileSize (entry_on img sec off) < 2 ^ 32.
Proof.
  cbn. set (b := slice 28 4 _).
  assert (Forall is_byte b) as Hb by (do 2 apply Forall_slice; apply Hv).
  apply le_bound in Hb. assert (length b ≤ 4)%nat by (unfold b, slice; rewrite length_take; lia).
  assert (256 ^ lenZ b <= 256 ^ 4) by (apply Z.pow_le_mono_r; lia). lia.
Qed.

(** C23: the two directory loops, over the sectors of the root directory and
    over the cluster chain of a subdirectory, run whatever stands inside them
    on every 32-byte entry, in order, with the right sector number and offset;
    the second one ends after the first entry whose name starts with 0. *)
Theorem directory_loops_in_order {A R} (body : A → Z → Z → DIR_ENTRY → res (A * option R))
    acc last :
  root_loop fs img body acc last = scan body false (root_slots fs img) acc last ∧
  ∀ c l buf fuel, dir_chain fs n img c l → length buf = 512%nat → name0 last ≠ 0 →
    (dir_fuel fs n ≤ fuel)%nat →
    (cu ← dir_open fs img c buf; sub_scan fs img body fuel cu acc last) =
    scan body true (dir_slots fs img l) acc last.
Proof.
  split; [by apply (root_loop_ok Hv)|]. intros c l buf fuel Hl Hb H0 Hfuel.
  pose proof (dir_fuel_enough Hv _ _ Hl). apply (sub_loop_ok Hv); (done || lia).
Qed.

(** C5: [find_root] returns 0 and the entry the path denotes, or 1 when the
    path denotes nothing, for every path in ASCII whose directories have no
    extension. The caller's string is cut after its first component. *)
Theorem find_root_correct dirs base ext r Root fuel :
  ascii_path dirs base ext → lookup fs n img (rows_of dirs base ext) r →
  (dir_fuel fs n ≤ fuel)%nat →
  ∃ Dir path', find_root fs img fuel Root (path_of dirs base ext) = Ok (found r, Dir, path') ∧
    (∀ e, r = Some e → Dir = e ∧ 0 < name0 e < 128) ∧
    c_str path' = ch_slash :: default [] (head (dirs ++ [spell base ext])).
Proof.
  intros Hp Hl Hfuel. destruct (find_root_path dirs base ext r Root fuel Hp Hl Hfuel) as (D & E & HD).
  eexists D, _. split; [exact E|]. split.
  - intros e ->. split; [by apply HD|]. by eapply lookup_entry, ascii_rows.
  - pose proof (plain_component _ _ _ (ascii_plain _ _ _ Hp)) as Hc.
    destruct dirs as [|d dirs]; cbn [app] in *; inversion Hc; subst; by rewrite c_str_cut_path.
Qed.

(** A regular file of the root directory also answers for every path that
    goes on below it: [find_root] does not look at the depth before it accepts
    an archive entry. *)
Theorem find_root_below_a_file d dirs base ext sec off e Root fuel :
  ascii_path (d :: dirs) base ext →
  first_slot (root_stop (fat_name d [])) false (root_slots fs img) = Some (sec, off, e) →
  name0 e ≠ 0 → is_file e = true → (dir_fuel fs n ≤ fuel)%nat →
  ∃ path', find_root fs img fuel Root (path_of (d :: dirs) base ext) = Ok (0, e, path').
Proof.
  intros Hp Hf H0 He Hfuel.
  destruct (find_root_path (d :: dirs) base ext (Some e) Root fuel Hp) as (D & E & HD);
    [by eapply lookup_file|done|]. rewrite (HD e) in E by done. eexists. exact E.
Qed.

(** Listing the root directory yields, in order, the decoded names of the
    files and directories before the first free entry, without the deleted
    ones. *)
Theorem fat16_readdir_root fuel :
  fat16_readdir fs img fuel [ch_slash] = Ok (0, listing false (root_slots fs img)).
Proof.
  unfold fat16_readdir. change (strcmp_eq [ch_slash] [ch_slash]) with true. cbn match.
  rewrite (root_loop_ok Hv).
  destruct (scan_readdir true _ [] uninit_dir (root_names_ok Hv)) as (r & e & E).
  cbn [negb] in E. by res_step E.
Qed.

Lemma readdir_path_ok dirs base ext r fuel :
  ascii_path dirs base ext → lookup fs n img (rows_of dirs base ext) r →
  (dir_fuel fs n ≤ fuel)%nat →
  match r with
  | None => fat16_readdir fs img fuel (path_of dirs base ext) = Ok (- ENOENT, [])
  | Some D => ∀ l, dir_chain fs n img (DIR_FstClusLO D) l →
      fat16_readdir fs img fuel (path_of dirs base ext) =
        Ok (0, listing true (dir_slots fs img l))
  end.
Proof.
  intros Hp Hl Hfuel. unfold fat16_readdir. rewrite path_of_not_root by apply Hp.
  destruct (find_root_path dirs base ext r uninit_dir fuel Hp Hl Hfuel) as (D & E & HD).
  res_step E. destruct r as [e|]; [|done]. rewrite (HD e) by done. cbn [found Z.eqb].
  intros l Hc. rewrite <- bind_assoc. pose proof (dir_fuel_enough Hv _ _ Hc).
  destruct (lookup_entry _ _ Hl (ascii_rows _ _ _ Hp)) as [HD0 _].
  rewrite (sub_loop_ok Hv _ fuel _ l)
    by (lia || done || by rewrite length_sector_read; rewrite ?length_uninit).
  destruct (scan_readdir false _ [] e (dir_names_ok Hv _ _ Hc)) as (x & y & E').
  cbn [negb] in E'. by res_step E'.
Qed.

(** C26: listing a subdirectory yields the names of the entries of its cluster
    chain up to and including the first free one, and listing a path that
    denotes nothing returns [-ENOENT]. *)
Theorem fat16_readdir_path dirs base ext r fuel :
  ascii_path dirs base ext → lookup fs n img (rows_of dirs base ext) r →
  (dir_fuel fs n ≤ fuel)%nat →
  match r with
  | None => fat16_readdir fs img fuel (path_of dirs base ext) = Ok (- ENOENT, [])
  | Some D => ∀ l, dir_chain fs n img (DIR_FstClusLO D) l →
      fat16_readdir fs img fuel (path_of dirs base ext) =
        Ok (0, listing true (dir_slots fs img l))
  end.
Proof. apply readdir_path_ok. Qed.

(** C27: [fat16_getattr] on a path that denotes an entry reports its type, its
    size and the number of clusters that hold it, rounded up; on one that
    denotes nothing it returns [-ENOENT]. *)
Theorem fat16_getattr_correct dirs base ext r fuel :
  ascii_path dirs base ext → lookup fs n img (rows_of dirs base ext) r →
  (dir_fuel fs n ≤ fuel)%nat →
  match r with
  | None => fat16_getattr fs img fuel (path_of dirs base ext) = Ok (- ENOENT, None)
  | Some e => ∃ st, fat16_getattr fs img fuel (path_of dirs base ext) = Ok (0, Some st) ∧
      st_mode st = Z.lor (if is_dir e then S_IFDIR else S_IFREG) 493 ∧
      st_size st = DIR_FileSize e ∧ st_blksize st = 512 * SecPerClus fs ∧
      st_size st <= st_blocks st * st_blksize st < st_size st + st_blksize st ∧
      st_time st = mktime (tm_of_entry e)
  end.
Proof.
  intros Hp Hl Hfuel. unfold fat16_getattr. rewrite path_of_not_root by apply Hp.
  destruct (find_root_path dirs base ext r uninit_dir fuel Hp Hl Hfuel) as (D & E & HD).
  res_step E. destruct r as [e|]; [|done]. rewrite (HD e) by done. cbn [found Z.eqb].
  destruct (lookup_entry _ _ Hl (ascii_rows _ _ _ Hp)) as (_ & sec & off & He).
  pose proof (DIR_FileSize_range sec off) as Hs. rewrite <- He in Hs.
  pose proof (geo_spc _ _ Hv). unfold BYTES_PER_SECTOR.
  set (blk := 512 * SecPerClus fs) in *. rewrite (proj2 (Z.eqb_neq blk 0)) by lia. res_steps.
  eexists. split; [done|]. cbn [st_mode st_size st_blksize st_blocks st_time].
  rewrite Z.rem_mod_nonneg, Z.quot_div_nonneg by lia.
  pose proof (Z.div_mod (DIR_FileSize e) blk). pose proof (Z.mod_pos_bound (DIR_FileSize e) blk).
  split_and!; try done; [by unfold is_dir; case_goal|..].
  - destruct (Z.eqb_spec (DIR_FileSize e mod blk) 0); cbn [negb]; lia.
  - destruct (Z.eqb_spec (DIR_FileSize e mod blk) 0); cbn [negb]; lia.
Qed.
End properties.
