(* ===== verification/Namespace.v ===== *)
(** * Creating, deleting and resizing directory entries

    [dir_entry_create], [fat16_mknod], [fat16_unlink] and [edit_size] of
    lab4/simple_fat16_new.c. *)

From Stdlib Require Import Lia.
From stdpp Require Import base numbers option sets list.
From S2P Require Import Prelude Bytes CString Names Volume Directory.
Local Open Scope Z_scope.

(** ** Operations *)

Section operations.
Context `{Platform} (fs : FAT16).

(** The copies of the path, [pathDepth], [pathSplit] and [prtPath] that
    [fat16_mknod], [fat16_unlink] and [edit_size] start with. *)
Definition parent_of (path : list Z) : res (Z * list (option (list Z)) * list Z) :=
  path_const ← copy_path path;
  let pathDepth := depth path_const in
  let pathSplit := org_path_split path_const in
  prtPath ← get_prt_path path_const pathSplit pathDepth;
  Ok (pathDepth, pathSplit, prtPath).

(** The test inside the loops of [fat16_unlink] and [edit_size]: the decoded
    name against the user's last component. *)
Definition locate_body (name : res (list Z)) (_ : unit) (sectorNum offset : Z)
    (Dir : DIR_ENTRY) : res (unit * option (Z * Z)) :=
  decoded ← path_decode (DIR_Name Dir);
  last ← name;
  Ok (tt, if strcmp_eq decoded last then Some (sectorNum, offset) else None).

(** The two search loops: [sectorNum] and [offset] when [findFlag] is 1. *)
Definition locate (fuel : nat) (img : image) (prtPath : list Z) (name : res (list Z))
    : res (option (Z * Z)) :=
  if strcmp_eq prtPath [ch_slash] then
    '(_, r, _) ← root_loop fs img (locate_body name) tt uninit_dir;
    Ok r
  else
    '(_, Dir, _) ← find_root fs img fuel uninit_dir prtPath;
    cu ← dir_open fs img (DIR_FstClusLO Dir) (uninit 512);
    '(_, r, _) ← sub_scan fs img (locate_body name) fuel cu tt Dir;
    Ok r.

(** The field [DIR_FileSize] is at offset 28 of the entry. *)
Definition edit_size (fuel : nat) (img : image) (path : list Z) (filesize : Z)
    : res (Z * image) :=
  '(pathDepth, pathSplit, prtPath) ← parent_of path;
  found ← locate fuel img prtPath (path_at pathSplit (pathDepth - 1));
  match found with
  | Some (sectorNum, offset) =>
    Ok (0, splice (u32 (sectorNum * BytsPerSec fs + offset + 28)) (le_bytes 4 filesize) img)
  | None => Ok (0, img)
  end.

(** [update_time] and [update_year] of [dir_entry_create], stored in a [WORD]. *)
Definition update_time (t : tm) : Z := u16 (tm_hour t * 2048 + tm_min t * 32 + tm_sec t `quot` 2).
Definition update_year (t : tm) : Z := u16 ((tm_year t - 2000) * 512 + tm_mon t * 32 + tm_mday t).

Definition entry_info (Name : list Z) (attr firstClusterNum fileSize : Z) : list Z :=
  Name ++ [attr] ++ replicate 10 0 ++ le_bytes 2 (update_time localtime_now) ++
  le_bytes 2 (update_year localtime_now) ++ le_bytes 2 firstClusterNum ++ le_bytes 4 fileSize.

Definition dir_entry_create (img : image) (sectorNum offset : Z) (Name : list Z)
    (attr firstClusterNum fileSize : Z) : res (Z * image) :=
  pos ← int_offset (sectorNum * BytsPerSec fs + offset);
  Ok (0, splice pos (entry_info (slice 0 11 Name) attr firstClusterNum fileSize) img).

Definition is_free (e : DIR_ENTRY) : bool := (name0 e =? 0) || (name0 e =? 229).

(** The loop of [fat16_mknod] over a subdirectory. The condition is tested
    after the cursor has moved on from the entry it looks at, and the offset
    is computed from [i - 2]. *)
Fixpoint mknod_scan (fuel : nat) (img : image) (cu : cursor) (Dir : DIR_ENTRY)
    : res (option (Z * Z)) :=
  match fuel with
  | O => OutOfFuel
  | S fuel =>
    if is_free Dir then
      Ok (Some (sub_sectorNum fs cu,
                ((cur_i cu - 2) * BYTES_PER_DIR) `rem` BYTES_PER_SECTOR))
    else
      let Dir := entry_at (sector_buffer cu) (cur_i cu) in
      next ← dir_advance fs img cu;
      match next with
      | None => Ok None
      | Some cu => mknod_scan fuel img cu Dir
      end
  end.

(** What follows the search: the entry is written, its cluster marked as the
    end of a chain, and the entry read back for a message. *)
Definition mknod_create (fuel : nat) (img : image) (path : list Z)
    (place : option (Z * Z)) : res (Z * image) :=
  match place with
  | None => Ok (0, img)
  | Some (sectorNum, offset) =>
    '(path_test, j, _) ← path_split path;
    Cluster_temp ← FindEmptyCluster fuel fs img;
    row ← (if decide (1 <= j) then
             match path_test !! Z.to_nat (j - 1) with Some row => Ok row | None => Undef OutOfBounds end
           else Undef OutOfBounds);
    '(_, img1) ← dir_entry_create img (s32 sectorNum) offset row ATTR_ARCHIVE Cluster_temp 0;
    '(_, img2) ← ClusterIsEmpty fs img1 Cluster_temp 65535;
    _ ← require ((0 <=? offset) && (offset + BYTES_PER_DIR <=? BYTES_PER_SECTOR)) OutOfBounds;
    Ok (0, img2)
  end.

Definition fat16_mknod (fuel : nat) (img : image) (path : list Z) : res (Z * image) :=
  '(pathDepth, pathSplit, prtPath) ← parent_of path;
  path_const3 ← copy_path path;
  if strcmp_eq prtPath [ch_slash] then
    '(_, place, _) ← root_loop fs img (λ (_ : unit) sectorNum offset Root,
      Ok (tt, if is_free Root then Some (sectorNum, offset) else None)) tt uninit_dir;
    mknod_create fuel img path_const3 place
  else
    '(ret, Dir, _) ← find_root fs img fuel uninit_dir prtPath;
    if negb (ret =? 0) then Ok (- ENOENT, img)
    else
      cu ← dir_open fs img (DIR_FstClusLO Dir) (uninit 512);
      place ← mknod_scan fuel img cu Dir;
      mknod_create fuel img path_const3 place.

Definition fat16_unlink (fuel : nat) (img : image) (path : list Z) : res (Z * image) :=
  path_const ← copy_path path;
  '(ret, Dir, _) ← find_root fs img fuel uninit_dir path_const;
  if ret =? 1 then Ok (1, img)
  else
    img1 ← free_chain fuel fs img (DIR_FstClusLO Dir);
    '(pathDepth, pathSplit, prtPath) ← parent_of path;
    found ← locate fuel img1 prtPath (path_at pathSplit (pathDepth - 1));
    match found with
    | Some (sectorNum, offset) =>
      Ok (0, splice (u32 (sectorNum * BytsPerSec fs + offset)) [229] img1)
    | None => Ok (0, img1)
    end.
End operations.

(** ** The directory a new or existing entry belongs to *)

(** The slots of the directory that the components [dirs] denote, and
    whether the loops over it stop at a free entry. *)
Inductive parent_slots (fs : FAT16) (n : Z) (img : image)
    : list (list Z) → list slot → bool → Prop :=
  | parent_root : parent_slots fs n img [] (root_slots fs img) false
  | parent_dir ds d D l :
      ascii_path ds d [] → lookup fs n img (rows_of ds d []) (Some D) → is_dir D = true →
      dir_chain fs n img (DIR_FstClusLO D) l →
      parent_slots fs n img (ds ++ [d]) (dir_slots fs img l) true.

(** The entry is listed under this spelling. *)
Definition shows (name : list Z) (e : DIR_ENTRY) : bool := bool_decide (shown_name e = name).

(** The path and its NUL fit the block of [malloc(sizeof(path))]. *)
Definition short_path `{Platform} (path : list Z) : Prop := lenZ path + 1 <= malloc_usable 8.

Record slot_ok (fs : FAT16) (img : image) (sec off : Z) : Prop := {
  so_sec : 0 <= sec < 65536;
  so_off : 0 <= off <= 480;
  so_align : off mod 32 = 0;
  so_low : FirstRootDirSecNum fs * 512 <= entry_pos sec off;
  so_high : entry_pos sec off + 32 <= lenZ img
}.

Section places.
Context `{Platform} {fs : FAT16} {n : Z} {img : image} (Hv : vol_ok fs n img).

Lemma slot_off_ok k : 0 <= 32 * (k mod 16) <= 480 ∧ (32 * (k mod 16)) mod 32 = 0.
Proof.
  pose proof (Z.mod_pos_bound k 16). split; [lia|].
  rewrite Z.mul_comm. by apply Z.mod_mul.
Qed.

Lemma root_slot_ok sec off e : (sec, off, e) ∈ root_slots fs img → slot_ok fs img sec off.
Proof.
  unfold root_slots. rewrite list_elem_of_fmap. intros (k & [= -> -> ->] & Hk).
  apply elem_of_seqZ in Hk. pose proof (root_sector_in_image img k Hv ltac:(lia)).
  pose proof (root_in_image img Hv). pose proof (data_nonneg (vol_geo _ _ _ Hv)).
  pose proof (slot_off_ok k) as [? ?]. assert (0 <= k / 16) by (apply Z.div_pos; lia).
  split; unfold entry_pos; (done || lia).
Qed.

Lemma dir_slot_ok c l sec off e :
  dir_chain fs n img c l → (sec, off, e) ∈ dir_slots fs img l → slot_ok fs img sec off.
Proof.
  intros Hl Hin. pose proof (chain_in_volume _ _ _ Hl) as Hvol.
  apply list_elem_of_bind in Hin as (d & Hin & Hd). rewrite Forall_forall in Hvol.
  apply list_elem_of_fmap in Hin as (k & [= -> -> ->] & Hin). apply elem_of_seqZ in Hin.
  pose proof (in_cluster_bounds d Hv (Hvol _ Hd)). pose proof (vol_len _ _ _ Hv).
  pose proof (data_nonneg (vol_geo _ _ _ Hv)). pose proof (slot_off_ok k) as [? ?].
  assert (0 <= k / 16 < SecPerClus fs).
  { split; [apply Z.div_pos; lia|]. apply Z.div_lt_upper_bound; lia. }
  split; unfold entry_pos; (done || lia).
Qed.

Lemma parent_names_ok dirs es stop : parent_slots fs n img dirs es stop → names_ok es.
Proof. destruct 1; [by apply (root_names_ok Hv)|by eapply (dir_names_ok Hv)]. Qed.

Lemma parent_slot dirs es stop sec off e :
  parent_slots fs n img dirs es stop → (sec, off, e) ∈ es →
  slot_ok fs img sec off ∧ e = entry_on img sec off.
Proof.
  destruct 1; intros Hin.
  - split; [by eapply root_slot_ok|]. by eapply root_slot_entry.
  - split; [by eapply dir_slot_ok|]. by eapply dir_slot_entry.
Qed.

(** The position the code seeks to is the place of the entry. *)
Lemma slot_pos_small sec off a :
  slot_ok fs img sec off → 0 <= a <= 32 →
  sec * BytsPerSec fs + off + a = entry_pos sec off + a ∧ 0 <= entry_pos sec off + a < 2 ^ 31.
Proof.
  intros [] Ha. rewrite (geo_bps _ _ Hv). unfold entry_pos in *.
  pose proof (data_nonneg (vol_geo _ _ _ Hv)). lia.
Qed.
End places.

(** ** Writing inside one entry *)

Section writing.
Context `{Platform} {fs : FAT16} {n : Z} {img : image} (Hv : vol_ok fs n img).
Context {sec off : Z} (Hs : slot_ok fs img sec off).
Context {a : Z} {d : list Z} (Ha : 0 <= a) (Hd : a + lenZ d <= 32) (Hb : Forall is_byte d).
Local Abbreviation img' := (splice (entry_pos sec off + a) d img).

Lemma length_splice_entry : length img' = length img.
Proof.
  destruct Hs. pose proof (data_nonneg (vol_geo _ _ _ Hv)). apply length_splice; lia.
Qed.

Lemma vol_ok_splice_entry : vol_ok fs n img'.
Proof.
  pose proof length_splice_entry as E. destruct Hv as [Hg Hl Hbytes]. split; [done|by rewrite E|].
  destruct Hs. pose proof (data_nonneg Hg). apply Forall_splice; (done || lia).
Qed.

Lemma slice_splice_entry o k :
  0 <= o → 0 <= k → o + k <= entry_pos sec off + a ∨ entry_pos sec off + a + lenZ d <= o →
  slice o k img' = slice o k img.
Proof.
  destruct Hs. pose proof (data_nonneg (vol_geo _ _ _ Hv)). intros.
  apply slice_splice_disjoint; lia.
Qed.

Lemma entry_on_splice_same :
  entry_on img' sec off = dir_entry_of_bytes (splice a d (slice (entry_pos sec off) 32 img)).
Proof.
  destruct Hs. pose proof (data_nonneg (vol_geo _ _ _ Hv)). unfold entry_on, BYTES_PER_DIR.
  rewrite slice_splice_inside by lia. do 3 f_equal. lia.
Qed.

Lemma entry_on_splice_other sec' off' :
  slot_ok fs img sec' off' → entry_pos sec' off' ≠ entry_pos sec off →
  entry_on img' sec' off' = entry_on img sec' off'.
Proof.
  intros Hs' Hne. unfold entry_on, BYTES_PER_DIR. f_equal.
  destruct Hs as [Hsec Hoff Hal _ _], Hs' as [Hsec' Hoff' Hal' _ _].
  assert (∃ p, entry_pos sec off = 32 * p) as [p Hp].
  { exists (sec * 16 + off / 32). unfold entry_pos. pose proof (Z.div_mod off 32). lia. }
  assert (∃ q, entry_pos sec' off' = 32 * q) as [q Hq].
  { exists (sec' * 16 + off' / 32). unfold entry_pos. pose proof (Z.div_mod off' 32). lia. }
  apply slice_splice_entry; unfold entry_pos in *; lia.
Qed.

Lemma fat_get_splice_entry c : fat_index fs c →
  fat_get fs img' c = fat_get fs img c ∧ fat2_get fs img' c = fat2_get fs img c.
Proof.
  intros Hc. pose proof (fat_region img c Hv Hc). destruct Hs.
  unfold fat_get, fat2_get. by rewrite !slice_splice_entry by lia.
Qed.
End writing.

(** ** Locating *)

Section locating.
Context `{Platform} {fs : FAT16} {n : Z} {img : image} (Hv : vol_ok fs n img).

Lemma parent_of_path dirs x :
  Forall component (dirs ++ [x]) → short_path (join_path (dirs ++ [x])) →
  copy_path (join_path (dirs ++ [x])) = Ok (join_path (dirs ++ [x])) ∧
  parent_of (join_path (dirs ++ [x])) =
    Ok (lenZ dirs + 1, Some <$> (dirs ++ [x]), parent_string dirs).
Proof.
  intros Hc Hs. pose proof (join_path_no_nul _ Hc) as Hnul.
  assert (E : copy_path (join_path (dirs ++ [x])) = Ok (join_path (dirs ++ [x]))).
  { unfold copy_path. rewrite c_str_no_nul by done. unfold short_path in Hs.
    by rewrite (proj2 (Z.leb_le _ _)) by lia. }
  split; [done|]. unfold parent_of. res_step E.
  rewrite depth_join_path by done. rewrite length_app. cbn [length].
  replace (Z.of_nat (length dirs + 1)) with (lenZ dirs + 1) by lia.
  assert (org_path_split (join_path (dirs ++ [x])) = Some <$> (dirs ++ [x])) as ->.
  { destruct dirs; by apply org_path_split_join. }
  by rewrite get_prt_path_join by done.
Qed.

Lemma path_at_name (dirs : list (list Z)) x :
  path_at (Some <$> (dirs ++ [x])) (lenZ dirs + 1 - 1) = Ok x.
Proof. replace (lenZ dirs + 1 - 1) with (lenZ dirs) by lia. apply path_at_last. Qed.

Lemma scan_locate x es stop last :
  names_ok es → no_nul x →
  ∃ e, scan (locate_body (Ok x)) stop es tt last =
    Ok (tt, (λ '(sec, off, _), (sec, off)) <$> first_slot (shows x) stop es, e).
Proof.
  intros Hok Hx. revert last Hok. induction es as [|[[sec off] e] es IH]; intros last Hok;
    cbn [scan first_slot]; [by eexists|].
  destruct (decode_shown e) as (s & Hs & Hsh); [eapply Hok, list_elem_of_here|].
  assert (E : locate_body (Ok x) tt sec off e =
    Ok (tt, if shows x e then Some (sec, off) else None)).
  { unfold locate_body. res_step Hs. unfold strcmp_eq, shows. by rewrite Hsh, (c_str_no_nul x). }
  rewrite E. res_steps. destruct (shows x e); [by eexists|].
  case_goal; [by eexists|]. apply IH. intros ????. eapply Hok. by apply list_elem_of_further.
Qed.

Lemma path_of_dir ds d : path_of ds d [] = join_path (ds ++ [d]).
Proof. done. Qed.

Lemma parent_dirs_component ds d : ascii_path ds d [] → Forall component (ds ++ [d]).
Proof. intros [[]]. done. Qed.

Lemma locate_ok dirs es stop x fuel :
  parent_slots fs n img dirs es stop → component x → (dir_fuel fs n ≤ fuel)%nat →
  locate fs fuel img (parent_string dirs) (Ok x) =
    Ok ((λ '(sec, off, _), (sec, off)) <$> first_slot (shows x) stop es).
Proof.
  intros Hp Hx Hfuel. pose proof (parent_names_ok Hv _ _ _ Hp) as Hn.
  pose proof (component_no_nul _ Hx) as Hnul. unfold locate.
  destruct Hp as [|ds d D l Ha Hl Hdir Hc].
  - change (strcmp_eq (parent_string []) [ch_slash]) with true. cbn match.
    rewrite (root_loop_ok Hv). edestruct (scan_locate x) as (e & E); [done..|]. by res_step E.
  - rewrite parent_string_root by by apply parent_dirs_component.
    rewrite bool_decide_false by by destruct ds.
    assert (parent_string (ds ++ [d]) = path_of ds d []) as -> by by destruct ds.
    destruct (find_root_path Hv ds d [] (Some D) uninit_dir fuel Ha Hl Hfuel) as (D' & E & HD).
    rewrite (HD D) in E by done. res_step E. rewrite <- bind_assoc.
    destruct (lookup_entry _ _ Hl (ascii_rows _ _ _ Ha)) as [HD0 _].
    pose proof (dir_fuel_enough Hv _ _ Hc).
    rewrite (sub_loop_ok Hv _ fuel _ l) by (lia || done || by rewrite length_uninit).
    edestruct (scan_locate x) as (e & E'); [done..|]. by res_step E'.
Qed.
End locating.

(** ** The entry a file is created with *)

Definition new_entry `{Platform} (Name : list Z) (c : Z) : DIR_ENTRY :=
  dir_entry_of_bytes (entry_info Name ATTR_ARCHIVE c 0).

Section creation.
Context `{Platform} {fs : FAT16} {n : Z} {img : image} (Hv : vol_ok fs n img).

Lemma length_entry_info row attr c size :
  length row = 11%nat → length (entry_info row attr c size) = 32%nat.
Proof.
  intros Hr. unfold entry_info.
  rewrite !length_app, length_replicate, !length_le_bytes. cbn [length]. lia.
Qed.

Lemma entry_info_bytes row attr c size :
  Forall is_byte row → is_byte attr → Forall is_byte (entry_info row attr c size).
Proof.
  intros Hr Ha. unfold entry_info. rewrite !Forall_app.
  split_and!; try apply le_bytes_byte; [done|by apply Forall_cons_2; [|apply Forall_nil_2]|].
  apply Forall_replicate. unfold is_byte. lia.
Qed.

Lemma new_entry_fields row c :
  length row = 11%nat → 0 <= c < 65536 →
  new_entry row c = mkDIR row ATTR_ARCHIVE 0 0 0 0 0 0
    (update_time localtime_now) (update_year localtime_now) c 0.
Proof.
  intros Hr Hc. do 11 (destruct row as [|? row]; [done|]). destruct row; [|done].
  unfold new_entry, entry_info, dir_entry_of_bytes.
  assert (Hle : ∀ v, 0 <= v < 65536 → v mod 256 + 256 * ((v / 256) mod 256 + 256 * 0) = v).
  { intros v Hv'. pose proof (le_le_bytes 2 v) as E.
    change (256 ^ Z.of_nat 2) with 65536 in E. cbn [le le_bytes] in E. 
    rewrite (Z.mod_small v 65536) in E by lia. exact E. }
  cbv -[Z.mul Z.add Z.modulo Z.div update_time update_year localtime_now].
  rewrite !Hle by (done || apply u16_range). done.
Qed.

Lemma ascii_row_bytes row : ascii_row row → Forall is_byte row.
Proof. intros [_ Hr]. forall_impl Hr. unfold is_byte. lia. Qed.

Lemma take_row row : length row = 11%nat → slice 0 11 row = row.
Proof. intros Hr. unfold slice. rewrite drop_0. apply take_ge. lia. Qed.

Lemma dir_entry_create_ok sec off row c :
  slot_ok fs img sec off → length row = 11%nat →
  dir_entry_create fs img (s32 sec) off row ATTR_ARCHIVE c 0 =
    Ok (0, splice (entry_pos sec off + 0) (entry_info row ATTR_ARCHIVE c 0) img).
Proof.
  intros Hs Hr. unfold dir_entry_create.
  destruct (slot_pos_small Hv sec off 0 Hs ltac:(lia)) as [E ?].
  rewrite s32_small by (destruct Hs; lia).
  rewrite int_offset_ok by lia. res_steps. rewrite take_row by done.
  do 3 f_equal. lia.
Qed.
End creation.

(** ** The search of [fat16_mknod] over a subdirectory *)

Section mknod_search.
Context `{Platform} {fs : FAT16} {n : Z} {img : image} (Hv : vol_ok fs n img).

(** Where the search ends when the first free entry is entry [k] of a cluster
    that is followed in the chain by [l]. *)
Definition mknod_place (c k : Z) (l : list Z) : option (Z * Z) :=
  if decide (k mod 16 = 15) then
    if decide (k + 1 < 16 * SecPerClus fs) then
      Some (cluster_sector fs c + k / 16 + 1, 480)
    else match l with
         | [] => None
         | c' :: _ => Some (cluster_sector fs c', -32)
         end
  else Some (cluster_sector fs c + k / 16, 32 * (k mod 16)).

Lemma rem_offset k : 0 <= k → ((k + 1 + 1 - 2) * 32) `rem` 512 = 32 * (k mod 16).
Proof.
  intros. rewrite Z.rem_mod_nonneg by lia. replace (k + 1 + 1 - 2) with k by lia.
  rewrite (Z.mul_comm 32). apply (Z.mul_mod_distr_r k 16 32); lia.
Qed.

Lemma cursor_on_sector c k cu :
  in_volume n c → 0 <= k < 16 * SecPerClus fs → cursor_on (fs := fs) (img := img) c k cu →
  sub_sectorNum fs cu = cluster_sector fs c + k / 16.
Proof.
  intros Hc Hk Hon. pose proof (cursor_slot Hv c k cu Hc Hk Hon) as E.
  unfold cluster_slot in E. congruence.
Qed.

Lemma mknod_scan_hit fuel c k l cu Dir :
  dir_chain fs n img c (c :: l) → 0 <= k < 16 * SecPerClus fs →
  cursor_on (fs := fs) (img := img) c k cu → is_free Dir = false →
  is_free (cluster_slot fs img c k).2 = true → (2 ≤ fuel)%nat →
  mknod_scan fs fuel img cu Dir = Ok (mknod_place c k l).
Proof.
  intros Hch Hk Hon HD Hfree Hfuel. destruct fuel as [|[|fuel]]; [lia..|].
  assert (Hc : in_volume n c) by (by inversion Hch).
  pose proof (dir_advance_ok Hv c k l cu Hch Hk Hon) as Hadv.
  pose proof (cursor_slot Hv c k cu Hc Hk Hon) as Es. rewrite Es in Hfree. cbn [snd] in Hfree.
  cbn [mknod_scan]. rewrite HD. unfold mknod_place.
  assert (Hlast : ¬ k + 1 < 16 * SecPerClus fs → k mod 16 = 15).
  { intros. replace k with (15 + (SecPerClus fs - 1) * 16) by lia. by rewrite Z.mod_add. }
  destruct (decide (k + 1 < 16 * SecPerClus fs)) as [Hin|Hin].
  - destruct Hadv as (cu' & -> & Hon'). res_steps. cbn [mknod_scan]. rewrite Hfree.
    rewrite (cursor_on_sector c (k + 1)) by (done || lia).
    rewrite (on_i _ _ _ Hon'). unfold BYTES_PER_DIR, BYTES_PER_SECTOR. rewrite rem_offset by lia.
    pose proof (Z.mod_pos_bound k 16). pose proof (Z.div_mod k 16).
    pose proof (Z.div_mod (k + 1) 16). pose proof (Z.mod_pos_bound (k + 1) 16).
    case_decide as E.
    + rewrite E. do 3 f_equal. lia.
    + do 3 f_equal. lia.
  - rewrite decide_True by auto. destruct l as [|c' l].
    + rewrite Hadv. by res_steps.
    + destruct Hadv as (Hch' & cu' & -> & Hon'). res_steps. cbn [mknod_scan]. rewrite Hfree.
      pose proof (geo_spc _ _ Hv).
      rewrite (cursor_on_sector c' 0) by (lia || by inversion Hch' || done).
      rewrite (on_i _ _ _ Hon'). rewrite Z.div_0_l, Z.add_0_r by lia. done.
Qed.

(** An entry in use: the search goes on with the next one. *)
Lemma mknod_scan_step c k l cu Dir :
  dir_chain fs n img c (c :: l) → 0 <= k < 16 * SecPerClus fs →
  cursor_on (fs := fs) (img := img) c k cu → is_free Dir = false →
  let e := (cluster_slot fs img c k).2 in
  if decide (k + 1 < 16 * SecPerClus fs)
  then ∃ cu', cursor_on (fs := fs) (img := img) c (k + 1) cu' ∧
       ∀ fuel, mknod_scan fs (S fuel) img cu Dir = mknod_scan fs fuel img cu' e
  else match l with
       | [] => ∀ fuel, mknod_scan fs (S fuel) img cu Dir = Ok None
       | c' :: l' => dir_chain fs n img c' (c' :: l') ∧
         ∃ cu', cursor_on (fs := fs) (img := img) c' 0 cu' ∧
         ∀ fuel, mknod_scan fs (S fuel) img cu Dir = mknod_scan fs fuel img cu' e
       end.
Proof.
  intros Hch Hk Hon HD e. assert (Hc : in_volume n c) by (by inversion Hch).
  pose proof (dir_advance_ok Hv c k l cu Hch Hk Hon) as Hadv.
  unfold e. rewrite (cursor_slot Hv c k cu Hc Hk Hon). cbn [snd].
  case_decide; [|destruct l].
  - destruct Hadv as (cu' & E & ?). exists cu'. split; [done|]. intros.
    cbn [mknod_scan]. rewrite HD, E. done.
  - intros. cbn [mknod_scan]. by rewrite HD, Hadv.
  - destruct Hadv as (? & cu' & E & ?). split; [done|]. exists cu'. split; [done|]. intros.
    cbn [mknod_scan]. by rewrite HD, E.
Qed.

Definition used_from (c k : Z) (m : nat) : Prop :=
  ∀ j, k <= j < k + Z.of_nat m → is_free (cluster_slot fs img c j).2 = false.

Lemma mknod_scan_run m : ∀ c k l cu Dir,
  dir_chain fs n img c (c :: l) → 0 <= k → k + Z.of_nat m < 16 * SecPerClus fs →
  cursor_on (fs := fs) (img := img) c k cu → is_free Dir = false → used_from c k m →
  ∃ cu' Dir', cursor_on (fs := fs) (img := img) c (k + Z.of_nat m) cu' ∧ is_free Dir' = false ∧
    ∀ fuel, mknod_scan fs (m + fuel) img cu Dir = mknod_scan fs fuel img cu' Dir'.
Proof.
  induction m as [|m IH]; intros c k l cu Dir Hch Hk Hm Hon HD Hused.
  { exists cu, Dir. by rewrite Z.add_0_r. }
  pose proof (mknod_scan_step c k l cu Dir Hch ltac:(lia) Hon HD) as Hstep. cbn zeta in Hstep.
  rewrite decide_True in Hstep by lia. destruct Hstep as (cu' & Hon' & E).
  destruct (IH c (k + 1) l cu' (cluster_slot fs img c k).2) as (cu2 & D2 & Hon2 & HD2 & E2);
    [done|lia|lia|done|apply Hused; lia| |].
  { intros j Hj. apply Hused. lia. }
  exists cu2, D2. split_and!; [by replace (k + Z.of_nat (S m)) with (k + 1 + Z.of_nat m) by lia
    |done|]. intros. cbn [Nat.add]. by rewrite E, E2.
Qed.

(** All entries of a cluster in use. *)
Definition cluster_full (c : Z) : Prop := used_from c 0 (Z.to_nat (16 * SecPerClus fs)).

Lemma mknod_scan_cluster c l cu Dir :
  dir_chain fs n img c (c :: l) → cursor_on (fs := fs) (img := img) c 0 cu →
  is_free Dir = false → cluster_full c →
  let m := Z.to_nat (16 * SecPerClus fs) in
  match l with
  | [] => ∀ fuel, mknod_scan fs (m + fuel) img cu Dir = Ok None
  | c' :: l' => dir_chain fs n img c' (c' :: l') ∧
    ∃ cu' Dir', cursor_on (fs := fs) (img := img) c' 0 cu' ∧ is_free Dir' = false ∧
      ∀ fuel, mknod_scan fs (m + fuel) img cu Dir = mknod_scan fs fuel img cu' Dir'
  end.
Proof.
  intros Hch Hon HD Hfull m. pose proof (geo_spc _ _ Hv).
  assert (Hm : Z.of_nat m = 16 * SecPerClus fs) by (unfold m; lia).
  clearbody m.
  destruct (mknod_scan_run (m - 1) c 0 l cu Dir) as (cu1 & D1 & Hon1 & HD1 & E1);
    [done|lia|lia|done|done| |].
  { intros j Hj. apply Hfull. lia. }
  replace (0 + Z.of_nat (m - 1)) with (16 * SecPerClus fs - 1) in Hon1 by lia.
  pose proof (mknod_scan_step c (16 * SecPerClus fs - 1) l cu1 D1 Hch ltac:(lia) Hon1 HD1) as Hstep. cbn zeta in Hstep.
  rewrite decide_False in Hstep by lia.
  assert (Em : ∀ fuel, (m + fuel = (m - 1) + S fuel)%nat) by lia.
  destruct l as [|c' l'].
  - intros. by rewrite Em, E1, Hstep.
  - destruct Hstep as (? & cu' & ? & E). split; [done|]. exists cu'. eexists.
    split_and!; [done| |]; [|intros; by rewrite Em, E1, E]. apply Hfull. lia.
Qed.

(** The search ends at the first free entry, or finds nothing. *)
Lemma mknod_scan_found pre c k l c0 cu Dir fuel :
  dir_chain fs n img c0 (pre ++ c :: l) → cursor_on (fs := fs) (img := img) c0 0 cu →
  is_free Dir = false → Forall cluster_full pre → 0 <= k < 16 * SecPerClus fs →
  used_from c 0 (Z.to_nat k) → is_free (cluster_slot fs img c k).2 = true →
  (length (dir_slots fs img (pre ++ c :: l)) < fuel)%nat →
  mknod_scan fs fuel img cu Dir = Ok (mknod_place c k l).
Proof.
  intros Hch Hon HD Hpre. revert c0 cu Dir fuel Hch Hon HD.
  pose proof (geo_spc _ _ Hv) as Hspc.
  induction Hpre as [|x pre Hx Hpre IH]; intros c0 cu Dir fuel Hch Hon HD Hk Hused Hfree Hfuel.
  - assert (c0 = c) as -> by (by inversion Hch).
    cbn [app] in *. unfold dir_slots in Hfuel. rewrite bind_cons, length_app in Hfuel.
    rewrite length_cluster_slots in Hfuel.
    destruct (mknod_scan_run (Z.to_nat k) c 0 l cu Dir) as (cu1 & D1 & Hon1 & HD1 & E1);
      [done|lia|lia|done|done|done|].
    replace fuel with (Z.to_nat k + (fuel - Z.to_nat k))%nat by lia. rewrite E1.
    apply mknod_scan_hit; [done|done| |done|done|lia].
    by replace k with (0 + Z.of_nat (Z.to_nat k)) at 1 by lia.
  - assert (c0 = x) as -> by (by inversion Hch). cbn [app] in *.
    unfold dir_slots in Hfuel. rewrite bind_cons, length_app, length_cluster_slots in Hfuel.
    fold (dir_slots fs img (pre ++ c :: l)) in Hfuel.
    pose proof (mknod_scan_cluster x _ cu Dir Hch Hon HD Hx) as Hstep. cbn zeta in Hstep.
    set (m := Z.to_nat (16 * SecPerClus fs)) in *.
    assert (Hm : Z.of_nat m = 16 * SecPerClus fs) by (unfold m; lia).
    assert (∃ c' l', pre ++ c :: l = c' :: l') as (c' & l' & E) by (destruct pre; cbn; eauto).
    rewrite E in Hstep. destruct Hstep as (Hch' & cu' & D' & Hon' & HD' & E').
    replace fuel with (m + (fuel - m))%nat by lia. rewrite E'.
    apply (IH c'); try done; [by rewrite E|lia].
Qed.

Lemma mknod_scan_none l c0 cu Dir fuel :
  dir_chain fs n img c0 l → cursor_on (fs := fs) (img := img) c0 0 cu →
  is_free Dir = false → Forall cluster_full l →
  (length (dir_slots fs img l) < fuel)%nat →
  mknod_scan fs fuel img cu Dir = Ok None.
Proof.
  intros Hch Hon HD Hl. revert c0 cu Dir fuel Hch Hon HD.
  induction Hl as [|x l Hx Hl IH]; intros c0 cu Dir fuel Hch Hon HD Hfuel; [inversion Hch|].
  assert (c0 = x) as -> by (by inversion Hch).
  unfold dir_slots in Hfuel. rewrite bind_cons, length_app, length_cluster_slots in Hfuel.
  fold (dir_slots fs img l) in Hfuel.
  pose proof (mknod_scan_cluster x _ cu Dir Hch Hon HD Hx) as Hstep. cbn zeta in Hstep.
  set (m := Z.to_nat (16 * SecPerClus fs)) in *.
  replace fuel with (m + (fuel - m))%nat by lia. destruct l as [|c' l]; [by rewrite Hstep|].
  destruct Hstep as (Hch' & cu' & D' & Hon' & HD' & E'). rewrite E'.
  apply (IH c'); (done || lia).
Qed.
End mknod_search.

(** ** The image after a creation *)

Definition lowest_free (fs : FAT16) (img : image) (c : Z) : Prop :=
  2 <= c ∧ fat_get fs img c = 0 ∧ ∀ d, 2 <= d < c → fat_get fs img d ≠ 0.

Definition created `{Platform} (fs : FAT16) (img : image) (sec off : Z) (row : list Z) (c : Z)
    : image :=
  fat_set fs c 65535 (splice (entry_pos sec off + 0) (entry_info row ATTR_ARCHIVE c 0) img).

Section created_facts.
Context `{Platform} {fs : FAT16} {n : Z} {img : image} (Hv : vol_ok fs n img).
Context {sec off : Z} (Hs : slot_ok fs img sec off).
Context {row : list Z} {c : Z} (Hrow : ascii_row row) (Hc : in_volume n c).

Local Lemma info_len : lenZ (entry_info row ATTR_ARCHIVE c 0) = 32.
Proof. rewrite length_entry_info; [done|apply Hrow]. Qed.

Local Lemma info_bytes : Forall is_byte (entry_info row ATTR_ARCHIVE c 0).
Proof. apply entry_info_bytes; [by apply ascii_row_bytes|]. by unfold is_byte, ATTR_ARCHIVE. Qed.

Local Lemma spliced_ok :
  vol_ok fs n (splice (entry_pos sec off + 0) (entry_info row ATTR_ARCHIVE c 0) img).
Proof.
  pose proof info_len. apply (vol_ok_splice_entry Hv Hs); [lia|lia|apply info_bytes].
Qed.

Lemma created_vol_ok : vol_ok fs n (created fs img sec off row c).
Proof. apply vol_ok_fat_set; [apply spliced_ok|]. by eapply in_volume_index; [apply Hv|]. Qed.

(** A directory entry of the new image is the one of the spliced image. *)
Lemma entry_on_fat_set img0 v sec' off' :
  vol_ok fs n img0 → FirstRootDirSecNum fs * 512 <= entry_pos sec' off' →
  entry_on (fat_set fs c v img0) sec' off' = entry_on img0 sec' off'.
Proof.
  intros Hv0 Hlow. unfold entry_on, BYTES_PER_DIR. f_equal.
  eapply slice_fat_set; [done|by eapply in_volume_index; [apply Hv0|]|done|lia].
Qed.

Lemma created_entry : entry_on (created fs img sec off row c) sec off = new_entry row c.
Proof.
  pose proof info_len as Hlen. unfold created.
  rewrite entry_on_fat_set by (apply spliced_ok || apply Hs).
  rewrite (entry_on_splice_same Hv Hs) by lia.
  unfold new_entry. f_equal.
  assert (lenZ (slice (entry_pos sec off) 32 img) = 32) as Hl.
  { destruct Hs. pose proof (data_nonneg (vol_geo _ _ _ Hv)). rewrite length_slice; lia. }
  rewrite <- (app_nil_l (slice _ _ _)), <- (app_nil_r (slice _ _ _)).
  rewrite splice_app_mid by (done || lia). by rewrite app_nil_r.
Qed.

Lemma created_other sec' off' :
  slot_ok fs img sec' off' → entry_pos sec' off' ≠ entry_pos sec off →
  entry_on (created fs img sec off row c) sec' off' = entry_on img sec' off'.
Proof.
  pose proof info_len. intros Hs' Hne. unfold created.
  rewrite entry_on_fat_set by (apply spliced_ok || apply Hs').
  apply (entry_on_splice_other Hv Hs); (done || lia).
Qed.

Lemma created_slice o k :
  FirstRootDirSecNum fs * 512 <= o → 0 <= k → o + k <= entry_pos sec off ∨ entry_pos sec off + 32 <= o →
  slice o k (created fs img sec off row c) = slice o k img.
Proof.
  pose proof info_len. intros Ho Hk Hdis. unfold created. pose proof (data_nonneg (vol_geo _ _ _ Hv)).
  rewrite (slice_fat_set (n := n)) by (done || apply spliced_ok || by eapply in_volume_index; [apply Hv|]).
  apply (slice_splice_entry Hv Hs); lia.
Qed.

Lemma created_fat d : fat_index fs d →
  fat_get fs (created fs img sec off row c) d =
    (if decide (d = c) then 65535 else fat_get fs img d) ∧
  fat2_get fs (created fs img sec off row c) d = fat2_get fs img d.
Proof.
  pose proof info_len. intros Hd. unfold created. pose proof (in_volume_index c Hv Hc).
  rewrite (fat_get_set (n := n)), (fat2_get_set (n := n)) by (done || apply spliced_ok).
  destruct (fat_get_splice_entry Hv Hs (a := 0) (d := entry_info row ATTR_ARCHIVE c 0))
    with (c := d) as [-> ->]; [lia|lia|done|done].
Qed.
End created_facts.

Section mknod_create.
Context `{Platform} {fs : FAT16} {n : Z} {img : image} (Hv : vol_ok fs n img).

Lemma FindEmptyCluster_ok c fuel :
  lowest_free fs img c → in_volume n c → (dir_fuel fs n ≤ fuel)%nat →
  FindEmptyCluster fuel fs img = Ok c.
Proof.
  intros (H2 & Hz & Hlow) Hc Hfuel. unfold FindEmptyCluster.
  eapply find_empty_from_ok; [done|lia|by eapply in_volume_index; [apply Hv|]|done..|].
  unfold dir_fuel in Hfuel. pose proof (geo_spc _ _ Hv). unfold in_volume in Hc.
  assert (1 * n <= 16 * SecPerClus fs * n) by (apply Z.mul_le_mono_nonneg_r; lia). lia.
Qed.

Lemma mknod_create_ok dirs base ext sec off c fuel :
  ascii_path dirs base ext → slot_ok fs img sec off → lowest_free fs img c → in_volume n c →
  (dir_fuel fs n ≤ fuel)%nat →
  mknod_create fs fuel img (path_of dirs base ext) (Some (sec, off)) =
    Ok (0, created fs img sec off (fat_name base ext) c).
Proof.
  intros Hp Hs Hlow Hc Hfuel. pose proof (ascii_row_fat_name base ext) as Hrow.
  specialize (Hrow ltac:(apply Hp) ltac:(apply Hp)).
  unfold mknod_create. rewrite path_split_plain by apply Hp. res_steps.
  rewrite (FindEmptyCluster_ok c) by done. res_steps.
  rewrite decide_True by lia.
  rewrite list_lookup_middle by (rewrite length_fmap; lia). res_steps.
  rewrite (dir_entry_create_ok Hv) by (done || apply Hrow). res_steps.
  rewrite (ClusterIsEmpty_ok (n := n)); [|by apply spliced_ok
    |by eapply in_volume_index; [apply Hv|]|by left].
  rewrite bool_decide_true by by left. res_steps.
  destruct Hs. rewrite (proj2 (Z.leb_le 0 _)), (proj2 (Z.leb_le _ BYTES_PER_SECTOR)); [done|..];
    unfold BYTES_PER_DIR, BYTES_PER_SECTOR; lia.
Qed.
End mknod_create.

(** ** Deleting: the table is released before the directory is searched *)

(** Entries that path lookup can reach. *)
Inductive reachable_entry (fs : FAT16) (n : Z) (img : image) : DIR_ENTRY → Prop :=
  | reach_root sec off e : (sec, off, e) ∈ root_slots fs img → reachable_entry fs n img e
  | reach_sub D l sec off e :
      reachable_entry fs n img D → is_dir D = true →
      dir_chain fs n img (DIR_FstClusLO D) l → (sec, off, e) ∈ dir_slots fs img l →
      reachable_entry fs n img e.

(** No cluster of [l] belongs to a directory. *)
Definition not_a_directory (fs : FAT16) (n : Z) (img : image) (l : list Z) : Prop :=
  ∀ D l', reachable_entry fs n img D → is_dir D = true →
    dir_chain fs n img (DIR_FstClusLO D) l' → ∀ d, d ∈ l' → d ∉ l.

(** Two images that agree behind the tables and on the chains of all
    directories have the same directories. *)
Section frame.
Context `{Platform} {fs : FAT16} {n : Z} {img : image} (Hv : vol_ok fs n img).
Context {img' : image}.
Context (Hdata : ∀ o k, FirstRootDirSecNum fs * 512 <= o → 0 <= k → slice o k img' = slice o k img).
Context (Hdirs : ∀ D l, reachable_entry fs n img D → is_dir D = true →
  dir_chain fs n img (DIR_FstClusLO D) l → ∀ d, d ∈ l → fat_get fs img' d = fat_get fs img d).

Lemma entry_on_frame sec off :
  FirstRootDirSecNum fs * 512 <= entry_pos sec off → entry_on img' sec off = entry_on img sec off.
Proof. intros. unfold entry_on, BYTES_PER_DIR. by rewrite Hdata by lia. Qed.

Lemma root_slots_frame : root_slots fs img' = root_slots fs img.
Proof.
  unfold root_slots. apply list_fmap_ext. intros i k Hk. unfold root_slot. f_equal.
  apply entry_on_frame. apply list_elem_of_lookup_2, elem_of_seqZ in Hk.
  assert (0 <= k / 16) by (apply Z.div_pos; lia). pose proof (Z.mod_pos_bound k 16).
  unfold entry_pos. lia.
Qed.

Lemma dir_slots_frame l : Forall (in_volume n) l → dir_slots fs img' l = dir_slots fs img l.
Proof.
  induction 1 as [|d l Hd _ IH]; [done|]. unfold dir_slots in *. rewrite !bind_cons, IH. f_equal.
  unfold cluster_slots. apply list_fmap_ext. intros i k Hk. unfold cluster_slot. f_equal.
  apply entry_on_frame. apply list_elem_of_lookup_2, elem_of_seqZ in Hk.
  pose proof (in_cluster_bounds d Hv Hd). pose proof (data_nonneg (vol_geo _ _ _ Hv)).
  assert (0 <= k / 16) by (apply Z.div_pos; lia). pose proof (Z.mod_pos_bound k 16).
  unfold entry_pos. lia.
Qed.

Lemma dir_chain_frame D l :
  reachable_entry fs n img D → is_dir D = true → dir_chain fs n img (DIR_FstClusLO D) l →
  dir_chain fs n img' (DIR_FstClusLO D) l ∧ dir_slots fs img' l = dir_slots fs img l.
Proof.
  intros Hr Hd Hl. split.
  - eapply chain_frame; [done|]. by eapply Hdirs.
  - apply dir_slots_frame. by eapply chain_in_volume.
Qed.

Lemma wanted_dir name e : wanted name false e = true → is_dir e = true.
Proof. unfold wanted. destruct (is_dir e); [done|]. by rewrite !andb_false_r. Qed.

Lemma walk_frame D names r :
  reachable_entry fs n img D → is_dir D = true → walk fs n img D names r →
  walk fs n img' D names r ∧ ∀ e, r = Some e → reachable_entry fs n img e.
Proof.
  intros Hr Hd Hw. induction Hw as [D name rest l Hl Hf|D name l sec off e Hl Hf
    |D name rest l sec off e r Hl Hne Hf Hw IH];
    destruct (dir_chain_frame D l Hr Hd Hl) as [Hl' E].
  - split; [|done]. eapply walk_missing; [exact Hl'|]. by rewrite E.
  - split; [eapply walk_found; [exact Hl'|by rewrite E]|]. intros ? [= ->].
    apply first_slot_Some in Hf as [Hin _]. by eapply reach_sub.
  - pose proof (first_slot_Some _ _ _ _ _ _ Hf) as [Hin Hwant].
    destruct IH as [Hw' Hreach]; [by eapply reach_sub|by eapply wanted_dir|].
    split; [|done]. eapply walk_down; [exact Hl'|done|by rewrite E|done].
Qed.

Lemma lookup_frame names r :
  lookup fs n img names r →
  lookup fs n img' names r ∧ ∀ e, r = Some e → reachable_entry fs n img e.
Proof.
  assert (Hreach : ∀ P sec off e, first_slot P false (root_slots fs img) = Some (sec, off, e) →
    reachable_entry fs n img e).
  { intros P sec off e Hf. apply first_slot_Some in Hf as [Hin _]. by eapply reach_root. }
  intros Hl. destruct Hl as [name rest Hf|name rest sec off e Hf H0|name rest sec off e Hf H0 Ha
    |name sec off e Hf H0 Ha|name rest sec off e r Hf H0 Ha Hne Hw].
  - split; [|done]. apply lookup_end. by rewrite root_slots_frame.
  - split; [|done]. by eapply lookup_free; [rewrite root_slots_frame|].
  - split; [by eapply lookup_file; [rewrite root_slots_frame|..]|].
    intros ? [= <-]. by eapply Hreach.
  - split; [by eapply lookup_dir; [rewrite root_slots_frame|..]|].
    intros ? [= <-]. by eapply Hreach.
  - destruct (walk_frame e rest r) as [Hw' ?]; [by eapply Hreach|done|done|].
    split; [|done]. by eapply lookup_down; [rewrite root_slots_frame|..].
Qed.

Lemma parent_slots_frame dirs es stop :
  parent_slots fs n img dirs es stop → parent_slots fs n img' dirs es stop.
Proof.
  destruct 1 as [|ds d D l Ha Hl Hd Hc].
  - rewrite <- root_slots_frame. apply parent_root.
  - destruct (lookup_frame _ _ Hl) as [Hl' Hr].
    destruct (dir_chain_frame D l (Hr D eq_refl) Hd Hc) as [Hc' <-]. by eapply parent_dir.
Qed.
End frame.

(** ** Properties *)

Section properties.
Context `{Platform} {fs : FAT16} {n : Z} {img : image} (Hv : vol_ok fs n img).

Lemma ascii_component dirs base ext : ascii_path dirs base ext → component (spell base ext).
Proof. intros [[Hc]]. apply Forall_app in Hc as [_ Hc]. by apply Forall_cons in Hc as [? _]. Qed.

(** Resizing a file rewrites exactly the four bytes of the size in its
    directory entry; when the user's spelling is not listed in the parent
    directory nothing changes, and both return 0. *)
Theorem edit_size_correct dirs base ext es stop size fuel :
  ascii_path dirs base ext → short_path (path_of dirs base ext) →
  parent_slots fs n img dirs es stop → (dir_fuel fs n ≤ fuel)%nat → 0 <= size < 2 ^ 32 →
  match first_slot (shows (spell base ext)) stop es with
  | None => edit_size fs fuel img (path_of dirs base ext) size = Ok (0, img)
  | Some (sec, off, e) => ∃ img', 
      edit_size fs fuel img (path_of dirs base ext) size = Ok (0, img') ∧ vol_ok fs n img' ∧
      DIR_FileSize (entry_on img' sec off) = size ∧
      slice (entry_pos sec off) 28 img' = slice (entry_pos sec off) 28 img ∧
      ∀ o k, 0 <= o → 0 <= k → o + k <= entry_pos sec off + 28 ∨ entry_pos sec off + 32 <= o →
        slice o k img' = slice o k img
  end.
Proof.
  intros Hp Hshort Hpar Hfuel Hsize.
  destruct (parent_of_path dirs (spell base ext)) as [_ E];
    [apply Hp|done|]. unfold edit_size, path_of. res_step E.
  rewrite path_at_name, (locate_ok Hv _ _ _ _ _ Hpar) by (done || by eapply ascii_component).
  destruct (first_slot _ _ _) as [[[sec off] e]|] eqn:Hf; res_steps; [|done].
  cbn [fmap option_fmap option_map]. res_steps.
  apply first_slot_Some in Hf as [Hin _].
  destruct (parent_slot Hv _ _ _ _ _ _ Hpar Hin) as [Hs _].
  destruct (slot_pos_small Hv sec off 28 Hs) as [-> ?]; [lia|]. rewrite u32_small by lia.
  eexists. split; [done|].
  assert (Hlen : 28 + lenZ (le_bytes 4 size) <= 32) by (rewrite length_le_bytes; lia).
  assert (Hpos : 0 <= entry_pos sec off) by (destruct Hs; unfold entry_pos; lia).
  assert (Hpos2 : entry_pos sec off + 32 <= lenZ img) by (by destruct Hs).
  split; [by apply (vol_ok_splice_entry Hv Hs); [lia..|apply le_bytes_byte]|].
  rewrite length_le_bytes in Hlen.
  split_and!.
  - rewrite (entry_on_splice_same Hv Hs) by (rewrite ?length_le_bytes; lia). cbn [DIR_FileSize dir_entry_of_bytes].
    change 4 with (lenZ (le_bytes 4 size)) at 1. rewrite slice_splice_same by lia.
    rewrite le_le_bytes. by apply Z.mod_small.
  - apply (slice_splice_entry Hv Hs); rewrite ?length_le_bytes; lia.
  - intros. apply (slice_splice_entry Hv Hs); rewrite ?length_le_bytes; lia.
Qed.

Lemma scan_free es stop last :
  ∃ e, scan (λ (_ : unit) sectorNum offset Root,
      Ok (tt, if is_free Root then Some (sectorNum, offset) else None)) stop es tt last =
    Ok (tt, (λ '(sec, off, _), (sec, off)) <$> first_slot is_free stop es, e).
Proof.
  revert last. induction es as [|[[sec off] e] es IH]; intros last; cbn [scan first_slot];
    [by eexists|]. res_steps. destruct (is_free e); [by eexists|]. case_goal; [by eexists|apply IH].
Qed.

(** Reading off the first free entry of a chain where the search finds it. *)
Lemma first_slot_app P es1 es2 :
  first_slot P false (es1 ++ es2) =
  match first_slot P false es1 with Some s => Some s | None => first_slot P false es2 end.
Proof.
  induction es1 as [|[[s o] x] es1 IH]; cbn [app first_slot andb]; [done|].
  destruct (P x); [done|]. apply IH.
Qed.

Lemma first_slot_None P es s : first_slot P false es = None → s ∈ es → P s.2 = false.
Proof.
  induction es as [|[[a o] x] es IH]; cbn [first_slot andb]; intros Hf Hin; [by inversion Hin|].
  destruct (P x) eqn:Ex; [done|]. apply elem_of_cons in Hin as [->|Hin]; [done|by apply IH].
Qed.

Lemma first_slot_cluster c m k sec off e :
  0 <= k → first_slot is_free false (cluster_slot fs img c <$> seqZ k (Z.of_nat m)) =
    Some (sec, off, e) →
  ∃ j, k <= j < k + Z.of_nat m ∧ (∀ i, k <= i < j → is_free (cluster_slot fs img c i).2 = false) ∧
    cluster_slot fs img c j = (sec, off, e).
Proof.
  revert k. induction m as [|m IH]; intros k Hk; [done|].
  rewrite seqZ_cons, fmap_cons by lia. cbn [first_slot]. unfold cluster_slot at 1. cbn [andb].
  case_goal.
  - intros [= <- <- <-]. exists k. split_and!; [lia..|intros; lia|done].
  - replace (Z.pred (Z.of_nat (S m))) with (Z.of_nat m) by lia. intros Hf.
    destruct (IH (Z.succ k)) as (j & Hj & Hu & E); [lia|done|]. exists j.
    split_and!; [lia..| |done]. intros i Hi.
    destruct (decide (i = k)) as [->|]; [done|]. apply Hu. lia.
Qed.

Lemma first_free_split l sec off e :
  first_slot is_free false (dir_slots fs img l) = Some (sec, off, e) →
  ∃ pre c l' k, l = pre ++ c :: l' ∧ Forall (cluster_full (fs := fs) (img := img)) pre ∧
    0 <= k < 16 * SecPerClus fs ∧ used_from (fs := fs) (img := img) c 0 (Z.to_nat k) ∧
    cluster_slot fs img c k = (sec, off, e).
Proof.
  pose proof (geo_spc _ _ Hv). induction l as [|c l IH]; [done|].
  unfold dir_slots. rewrite bind_cons, first_slot_app.
  destruct (first_slot is_free false (cluster_slots fs img c)) as [s|] eqn:Ec.
  - intros [= ->]. unfold cluster_slots in Ec.
    rewrite <- (Z2Nat.id (16 * SecPerClus fs)) in Ec by lia.
    destruct (first_slot_cluster c _ 0 _ _ _ ltac:(lia) Ec) as (k & Hk & Hu & E).
    exists [], c, l, k. split_and!; [done|apply Forall_nil_2|lia|lia| |done].
    intros j Hj. apply Hu. lia.
  - intros Hf. destruct (IH Hf) as (pre & c' & l' & k & -> & Hpre & Hk & Hu & E).
    exists (c :: pre), c', l', k. split_and!; try (done || lia). apply Forall_cons_2; [|done].
    intros j Hj. apply (first_slot_None _ _ (cluster_slot fs img c j) Ec).
    apply list_elem_of_fmap. exists j. split; [done|]. apply elem_of_seqZ. lia.
Qed.

(** The place [fat16_mknod] chooses, when the first free entry of the parent
    is entry [k] of cluster [c]. *)
Lemma mknod_in_directory ds d D base ext pre c k l fuel :
  ascii_path (ds ++ [d]) base ext → short_path (path_of (ds ++ [d]) base ext) →
  ascii_path ds d [] → lookup fs n img (rows_of ds d []) (Some D) → is_dir D = true →
  dir_chain fs n img (DIR_FstClusLO D) (pre ++ c :: l) →
  Forall (cluster_full (fs := fs) (img := img)) pre → 0 <= k < 16 * SecPerClus fs →
  used_from (fs := fs) (img := img) c 0 (Z.to_nat k) →
  is_free (cluster_slot fs img c k).2 = true → is_free D = false → (dir_fuel fs n ≤ fuel)%nat →
  fat16_mknod fs fuel img (path_of (ds ++ [d]) base ext) =
  mknod_create fs fuel img (path_of (ds ++ [d]) base ext) (mknod_place (fs := fs) c k l).
Proof.
  intros Hp Hshort Hpd Hl Hd Hc Hpre Hk Hu Hfree HD Hfuel.
  destruct (parent_of_path (ds ++ [d]) (spell base ext)) as [Ec E]; [apply Hp|done|].
  unfold fat16_mknod, path_of. res_step E. res_step Ec.
  rewrite parent_string_root by by apply parent_dirs_component.
  rewrite bool_decide_false by by destruct ds.
  assert (parent_string (ds ++ [d]) = path_of ds d []) as -> by by destruct ds.
  destruct (find_root_path Hv ds d [] (Some D) uninit_dir fuel Hpd Hl Hfuel) as (D' & E' & HD').
  rewrite (HD' D) in E' by done. res_step E'. cbn [found Z.eqb negb].
  pose proof (chain_in_volume _ _ _ Hc) as Hvol. pose proof (dir_fuel_enough Hv _ _ Hc).
  destruct (chain_head _ _ _ Hc) as [l' El].
  destruct (dir_open_ok Hv (DIR_FstClusLO D) (uninit 512)) as (cu & -> & Hon);
    [rewrite El in Hvol; by inversion Hvol|apply length_uninit|]. res_steps.
  erewrite (mknod_scan_found Hv pre c k l); [|done|done|done|done|done|done|done|lia].
  done.
Qed.

Lemma mknod_ok dirs base ext es stop sec off e c fuel :
  ascii_path dirs base ext → short_path (path_of dirs base ext) →
  parent_slots fs n img dirs es stop → first_slot is_free false es = Some (sec, off, e) →
  dirs = [] ∨ off ≠ 480 → lowest_free fs img c → in_volume n c → (dir_fuel fs n ≤ fuel)%nat →
  fat16_mknod fs fuel img (path_of dirs base ext) = Ok (0, created fs img sec off (fat_name base ext) c).
Proof.
  intros Hp Hshort Hpar Hf Hoff Hlow Hc Hfuel.
  pose proof (first_slot_Some _ _ _ _ _ _ Hf) as [Hin Hfree].
  destruct (parent_slot Hv _ _ _ _ _ _ Hpar Hin) as [Hs _].
  rewrite <- (mknod_create_ok Hv dirs base ext sec off c fuel) by done.
  destruct Hpar as [|ds d D l Ha Hl Hd Hch].
  - destruct (parent_of_path [] (spell base ext)) as [Ec E]; [apply Hp|done|].
    unfold fat16_mknod, path_of. res_step E. res_step Ec.
    change (strcmp_eq (parent_string []) [ch_slash]) with true. cbn match.
    rewrite (root_loop_ok Hv). destruct (scan_free (root_slots fs img) false uninit_dir) as [x Ex].
    res_step Ex. by rewrite Hf.
  - destruct (first_free_split _ _ _ _ Hf) as (pre & c' & l' & k & -> & Hpre & Hk & Hu & E).
    rewrite (mknod_in_directory ds d D base ext pre c' k l'); try done.
    + f_equal. unfold mknod_place. injection E as <- <- <-.
      rewrite decide_False; [done|]. destruct Hoff as [?|Hoff]; [by destruct ds|].
      intros Hk15. rewrite Hk15 in Hoff. lia.
    + by rewrite E.
    + destruct (lookup_entry _ _ Hl (ascii_rows _ _ _ Ha)) as [HD0 _].
      unfold is_free. lia.
Qed.

(** C13: creating a file takes the first free or deleted entry of its parent
    directory (unless that is the last entry of a sector of a subdirectory)
    and the lowest free cluster: the entry gets the 8.3 name, size 0 and that
    cluster, the cluster is marked as the end of a chain in the first table,
    and no other entry, table entry or byte of the second table changes. *)
Theorem fat16_mknod_creates dirs base ext es stop sec off e c fuel :
  ascii_path dirs base ext → short_path (path_of dirs base ext) →
  parent_slots fs n img dirs es stop → first_slot is_free false es = Some (sec, off, e) →
  dirs = [] ∨ off ≠ 480 → lowest_free fs img c → in_volume n c → (dir_fuel fs n ≤ fuel)%nat →
  ∃ img', fat16_mknod fs fuel img (path_of dirs base ext) = Ok (0, img') ∧ vol_ok fs n img' ∧
    entry_on img' sec off = mkDIR (fat_name base ext) ATTR_ARCHIVE 0 0 0 0 0 0
      (update_time localtime_now) (update_year localtime_now) c 0 ∧
    (∀ sec' off', slot_ok fs img sec' off' → entry_pos sec' off' ≠ entry_pos sec off →
      entry_on img' sec' off' = entry_on img sec' off') ∧
    (∀ d, fat_index fs d →
      fat_get fs img' d = (if decide (d = c) then 65535 else fat_get fs img d) ∧
      fat2_get fs img' d = fat2_get fs img d).
Proof.
  intros Hp Hshort Hpar Hf Hoff Hlow Hc Hfuel.
  pose proof (ascii_row_fat_name base ext ltac:(apply Hp) ltac:(apply Hp)) as Hrow.
  pose proof (first_slot_Some _ _ _ _ _ _ Hf) as [Hin _].
  destruct (parent_slot Hv _ _ _ _ _ _ Hpar Hin) as [Hs _].
  exists (created fs img sec off (fat_name base ext) c). rewrite (mknod_ok dirs base ext es stop sec off e c) by done.
  split_and!; [done|by apply (created_vol_ok Hv Hs)| |..].
  - rewrite (created_entry Hv Hs) by done.
    apply new_entry_fields; [apply Hrow|]. destruct (vol_geo _ _ _ Hv). unfold in_volume in Hc. lia.
  - intros. by apply (created_other Hv Hs).
  - intros. by apply (created_fat Hv Hs).
Qed.

(** The root directory after a creation in it: a search that would have
    stopped at a free entry at the earliest stops at the new one. *)
Lemma created_first_slot P row sec off e c :
  ascii_row row → in_volume n c →
  first_slot is_free false (root_slots fs img) = Some (sec, off, e) →
  P (new_entry row c) = true →
  (∀ s o x, first_slot P false (root_slots fs img) = Some (s, o, x) → is_free x = true) →
  first_slot P false (root_slots fs (created fs img sec off row c)) = Some (sec, off, new_entry row c).
Proof.
  intros Hrow Hc Hf HP Hprior. set (img' := created fs img sec off row c).
  pose proof (first_slot_Some _ _ _ _ _ _ Hf) as [Hin _].
  pose proof (root_slot_ok Hv _ _ _ Hin) as Hs.
  assert (Hroot : ∀ s o x, (s, o, x) ∈ root_slots fs img → x = entry_on img s o ∧
    slot_ok fs img s o) by (intros; split; [by eapply root_slot_entry|by eapply root_slot_ok]).
  assert (Hmap : root_slots fs img' =
    (λ '(s, o, x), (s, o, entry_on img' s o)) <$> root_slots fs img).
  { unfold root_slots. rewrite <- list_fmap_compose. by apply list_fmap_ext. }
  rewrite Hmap. clear Hmap Hin. revert Hroot Hprior Hf.
  induction (root_slots fs img) as [|[[s o] x] es IH]; intros Hroot Hprior Hf; [done|].
  cbn [fmap list_fmap first_slot andb] in *.
  destruct (Hroot s o x) as [Ex Hso]; [apply list_elem_of_here|].
  destruct (is_free x) eqn:Efree.
  { injection Hf as -> -> ->. unfold img'. rewrite (created_entry Hv Hs) by done. by rewrite HP. }
  destruct (P x) eqn:Est; [by specialize (Hprior s o x eq_refl); congruence|].
  unfold img'. rewrite (created_other Hv Hs); [|done|done|done|].
  - rewrite <- Ex, Est. apply IH; [|done|done]. intros. apply Hroot. by apply list_elem_of_further.
  - intros Hpos. assert (entry_on img s o = entry_on img sec off) as Heq
      by (unfold entry_on; by rewrite Hpos).
    rewrite <- Ex in Heq. assert (e = entry_on img sec off) as He.
    { apply (Hroot sec off e). apply list_elem_of_further. by apply (first_slot_Some _ _ _ _ _ _ Hf). }
    apply (first_slot_Some _ _ _ _ _ _) in Hf as [_ Hfree]. congruence.
Qed.

(** The new entry is a file of its name, and in use. *)
Lemma new_entry_found row c :
  ascii_row row → in_volume n c →
  is_file (new_entry row c) = true ∧ 0 < name0 (new_entry row c) < 128 ∧
  root_stop row (new_entry row c) = true.
Proof.
  intros Hrow Hc. assert (0 <= c < 65536) by (destruct (vol_geo _ _ _ Hv); unfold in_volume in Hc; lia).
  assert (Hnamed : named row (new_entry row c) = true).
  { rewrite new_entry_fields by (apply Hrow || done). by apply bool_decide_true. }
  assert (Hfile : is_file (new_entry row c) = true)
    by (by rewrite new_entry_fields by (apply Hrow || done)).
  split_and!; [done|by eapply named_ascii|by eapply named_ascii|].
  unfold root_stop. by rewrite Hnamed, Hfile, orb_true_r.
Qed.

(** Before the creation the search for the name found nothing or a free entry. *)
Lemma absent_stops_free row s o x :
  lookup fs n img [row] None →
  first_slot (root_stop row) false (root_slots fs img) = Some (s, o, x) → is_free x = true.
Proof.
  intros Hl Hx. inversion Hl as [? ? Hn|? ? s' o' x' Hx' H0| | |? ? ? ? ? ? ? ? ? Hne]; subst;
    [congruence| |done]. assert (x = x') as -> by congruence. unfold is_free. by rewrite H0.
Qed.

Lemma created_root_lookup row sec off e c :
  ascii_row row → in_volume n c → lookup fs n img [row] None →
  first_slot is_free false (root_slots fs img) = Some (sec, off, e) →
  lookup fs n (created fs img sec off row c) [row] (Some (new_entry row c)).
Proof.
  intros Hrow Hc Hl Hf. destruct (new_entry_found row c Hrow Hc) as (Hfile & H0 & Hstop).
  eapply lookup_file; [|lia|exact Hfile]. eapply created_first_slot; try done.
  intros. by eapply absent_stops_free.
Qed.

Lemma mknod_root_ok base ext sec off e c fuel :
  ascii_path [] base ext → short_path (path_of [] base ext) →
  first_slot is_free false (root_slots fs img) = Some (sec, off, e) →
  lowest_free fs img c → in_volume n c → (dir_fuel fs n ≤ fuel)%nat →
  fat16_mknod fs fuel img (path_of [] base ext) = Ok (0, created fs img sec off (fat_name base ext) c).
Proof.
  intros Hp Hshort Hf Hlow Hc Hfuel. pose proof (first_slot_Some _ _ _ _ _ _ Hf) as [Hin _].
  pose proof (root_slot_ok Hv _ _ _ Hin) as Hs.
  destruct (parent_of_path [] (spell base ext)) as [Ec E]; [apply Hp|done|].
  unfold fat16_mknod, path_of. res_step E. res_step Ec.
  change (strcmp_eq (parent_string []) [ch_slash]) with true. cbn match.
  rewrite (root_loop_ok Hv). destruct (scan_free (root_slots fs img) false uninit_dir) as [x Ex].
  res_step Ex. rewrite Hf. by apply (mknod_create_ok Hv [] base ext).
Qed.

(** A file created in the root directory under a name that was not there
    is found afterwards: path lookup, which failed before, returns the new
    entry. *)
Theorem fat16_mknod_then_lookup base ext sec off e c fuel Root :
  ascii_path [] base ext → short_path (path_of [] base ext) →
  lookup fs n img (rows_of [] base ext) None →
  first_slot is_free false (root_slots fs img) = Some (sec, off, e) →
  lowest_free fs img c → in_volume n c → (dir_fuel fs n ≤ fuel)%nat →
  ∃ img' path', fat16_mknod fs fuel img (path_of [] base ext) = Ok (0, img') ∧
    find_root fs img' fuel Root (path_of [] base ext) =
      Ok (0, new_entry (fat_name base ext) c, path').
Proof.
  intros Hp Hshort Hl Hf Hlow Hc Hfuel.
  pose proof (ascii_row_fat_name base ext ltac:(apply Hp) ltac:(apply Hp)) as Hrow.
  pose proof (first_slot_Some _ _ _ _ _ _ Hf) as [Hin _].
  pose proof (root_slot_ok Hv _ _ _ Hin) as Hs.
  exists (created fs img sec off (fat_name base ext) c), (cut_path ([] ++ [spell base ext])).
  split; [by eapply mknod_root_ok|]. pose proof (created_vol_ok Hv Hs Hrow Hc) as Hv'.
  destruct (find_root_path Hv' [] base ext (Some (new_entry (fat_name base ext) c)) Root fuel Hp)
    as (D & E & HD); [by eapply created_root_lookup|done|]. by rewrite (HD _ eq_refl) in E.
Qed.

Lemma next_sector_slot c l k :
  dir_chain fs n img c l → ∀ d, d ∈ l → 0 <= k < 16 * SecPerClus fs → k mod 16 = 15 →
  k + 1 < 16 * SecPerClus fs → slot_ok fs img (cluster_sector fs d + k / 16 + 1) 480.
Proof.
  intros Hc d Hd Hk Hk15 Hmid. pose proof (Z.div_mod k 16).
  assert (k / 16 + 1 < SecPerClus fs).
  { assert (k / 16 + 1 <= SecPerClus fs - 1); [|lia]. lia. }
  assert (Hin : cluster_slot fs img d (k + 1 * 16) ∈ dir_slots fs img l).
  { apply list_elem_of_bind. exists d. split; [|done]. apply list_elem_of_fmap.
    exists (k + 1 * 16). split; [done|]. apply elem_of_seqZ. lia. }
  unfold cluster_slot in Hin. rewrite Z.div_add, Z.mod_add, Hk15 in Hin by lia.
  replace (cluster_sector fs d + k / 16 + 1) with (cluster_sector fs d + (k / 16 + 1)) by lia.
  by eapply (dir_slot_ok Hv).
Qed.

(** When the first free entry of a subdirectory is the last one of a
    sector, the loop has moved on before it tests it. In the last sector of
    the directory nothing is created although 0 is returned; in another sector
    of the cluster the new entry overwrites the last entry of the next sector,
    whatever that holds. *)
Theorem fat16_mknod_last_entry ds d D base ext pre c l k f fuel :
  ascii_path (ds ++ [d]) base ext → short_path (path_of (ds ++ [d]) base ext) →
  ascii_path ds d [] → lookup fs n img (rows_of ds d []) (Some D) → is_dir D = true →
  dir_chain fs n img (DIR_FstClusLO D) (pre ++ c :: l) →
  Forall (cluster_full (fs := fs) (img := img)) pre →
  used_from (fs := fs) (img := img) c 0 (Z.to_nat k) →
  is_free (cluster_slot fs img c k).2 = true →
  0 <= k < 16 * SecPerClus fs → k mod 16 = 15 →
  lowest_free fs img f → in_volume n f → (dir_fuel fs n ≤ fuel)%nat →
  if decide (k + 1 < 16 * SecPerClus fs) then
    ∃ img', fat16_mknod fs fuel img (path_of (ds ++ [d]) base ext) = Ok (0, img') ∧
      entry_on img' (cluster_sector fs c + k / 16) 480 =
        entry_on img (cluster_sector fs c + k / 16) 480 ∧
      entry_on img' (cluster_sector fs c + k / 16 + 1) 480 = new_entry (fat_name base ext) f
  else l = [] → fat16_mknod fs fuel img (path_of (ds ++ [d]) base ext) = Ok (0, img).
Proof.
  intros Hp Hshort Hpd Hl Hd Hc Hpre Hu Hfree Hk Hk15 Hlow Hf Hfuel.
  pose proof (ascii_row_fat_name base ext ltac:(apply Hp) ltac:(apply Hp)) as Hrow.
  assert (is_free D = false) as HD.
  { destruct (lookup_entry _ _ Hl (ascii_rows _ _ _ Hpd)) as [HD0 _]. unfold is_free. lia. }
  rewrite (mknod_in_directory ds d D base ext pre c k l) by done.
  unfold mknod_place. destruct (decide (k mod 16 = 15)) as [_|]; [|done].
  destruct (decide (k + 1 < 16 * SecPerClus fs)) as [Hmid|]; [|by intros ->].
  assert (Hin : c ∈ pre ++ c :: l) by (apply elem_of_app; right; apply list_elem_of_here).
  pose proof (next_sector_slot _ _ k Hc c Hin Hk Hk15 Hmid) as Hs.
  assert (Hs0 : slot_ok fs img (cluster_sector fs c + k / 16) 480).
  { assert (Hslot : cluster_slot fs img c k ∈ dir_slots fs img (pre ++ c :: l)).
    { apply list_elem_of_bind. exists c. split; [|done]. apply list_elem_of_fmap.
      exists k. split; [done|]. apply elem_of_seqZ. lia. }
    unfold cluster_slot in Hslot. rewrite Hk15 in Hslot. by eapply (dir_slot_ok Hv). }
  exists (created fs img (cluster_sector fs c + k / 16 + 1) 480 (fat_name base ext) f).
  split_and!; [by apply (mknod_create_ok Hv)| |by apply (created_entry Hv Hs)].
  apply (created_other Hv Hs); try done. unfold entry_pos. lia.
Qed.

(** Creating a file in a directory that does not exist returns [-ENOENT]
    and changes nothing. *)
Theorem fat16_mknod_no_parent ds d base ext fuel :
  ascii_path (ds ++ [d]) base ext → short_path (path_of (ds ++ [d]) base ext) →
  ascii_path ds d [] → lookup fs n img (rows_of ds d []) None → (dir_fuel fs n ≤ fuel)%nat →
  fat16_mknod fs fuel img (path_of (ds ++ [d]) base ext) = Ok (- ENOENT, img).
Proof.
  intros Hp Hshort Hpd Hl Hfuel.
  destruct (parent_of_path (ds ++ [d]) (spell base ext)) as [Ec E]; [apply Hp|done|].
  unfold fat16_mknod, path_of. res_step E. res_step Ec.
  rewrite parent_string_root by by apply parent_dirs_component.
  rewrite bool_decide_false by by destruct ds.
  assert (parent_string (ds ++ [d]) = path_of ds d []) as -> by by destruct ds.
  destruct (find_root_path Hv ds d [] None uninit_dir fuel Hpd Hl Hfuel) as (D' & E' & _).
  by res_step E'.
Qed.

(** The part of [fat16_unlink] that does not depend on the outcome of the
    search. *)
Lemma fat16_unlink_search dirs base ext D l es stop fuel :
  ascii_path dirs base ext → short_path (path_of dirs base ext) →
  lookup fs n img (rows_of dirs base ext) (Some D) → file_chain fs n img (DIR_FstClusLO D) l →
  parent_slots fs n img dirs es stop → not_a_directory fs n img l → (dir_fuel fs n ≤ fuel)%nat →
  fat16_unlink fs fuel img (path_of dirs base ext) =
    match first_slot (shows (spell base ext)) stop es with
    | Some (sec, off, _) => Ok (0, splice (u32 (sec * BytsPerSec fs + off)) [229] (fat_free_all fs l img))
    | None => Ok (0, fat_free_all fs l img)
    end.
Proof.
  intros Hp Hshort Hl Hc Hpar Hnd Hfuel.
  destruct (parent_of_path dirs (spell base ext)) as [Ec E]; [apply Hp|done|].
  destruct (find_root_path Hv dirs base ext (Some D) uninit_dir fuel Hp Hl Hfuel) as (D' & E' & HD).
  rewrite (HD D eq_refl) in E'. unfold path_of in *.
  unfold fat16_unlink. res_step Ec. res_step E'. cbn [found Z.eqb].
  pose proof (chain_length _ _ _ Hc) as Hlen.
  rewrite (free_chain_ok (n := n) img _ l) by
    (done || (unfold dir_fuel in Hfuel; pose proof (geo_spc _ _ Hv);
     assert (1 * n <= 16 * SecPerClus fs * n) by (apply Z.mul_le_mono_nonneg_r; lia); lia)).
  res_steps. res_step E. rewrite path_at_name.
  destruct (fat_free_all_facts img l Hv (chain_indices _ _ _ Hv Hc)) as (Hv1&_&Hget&_&Hdata).
  rewrite (locate_ok Hv1 dirs es stop); [|eapply (parent_slots_frame Hv); [exact Hdata| |exact Hpar]
    |by eapply ascii_component|done].
  - by destruct (first_slot _ _ _) as [[[sec off] e]|].
  - intros D0 l0 Hr Hd0 Hc0 x Hx. rewrite Hget.
    + rewrite decide_False; [done|]. by eapply Hnd.
    + pose proof (chain_indices _ _ _ Hv Hc0) as Hi. rewrite Forall_forall in Hi. by apply Hi.
Qed.

(** The image that a deletion leaves. *)
Definition deleted (fs : FAT16) (l : list Z) (sec off : Z) (img : image) : image :=
  splice (entry_pos sec off + 0) [229] (fat_free_all fs l img).

Lemma deleted_facts l es dirs stop sec off e :
  Forall (fat_index fs) l → parent_slots fs n img dirs es stop → (sec, off, e) ∈ es →
  vol_ok fs n (deleted fs l sec off img) ∧
  name0 (entry_on (deleted fs l sec off img) sec off) = 229 ∧
  (∀ o k, FirstRootDirSecNum fs * 512 <= o → 0 <= k →
    o + k <= entry_pos sec off ∨ entry_pos sec off < o → slice o k (deleted fs l sec off img) = slice o k img) ∧
  (∀ d, fat_index fs d →
    fat_get fs (deleted fs l sec off img) d = (if decide (d ∈ l) then 0 else fat_get fs img d) ∧
    fat2_get fs (deleted fs l sec off img) d = (if decide (d ∈ l) then 0 else fat2_get fs img d)).
Proof.
  intros Hl Hpar Hin. destruct (parent_slot Hv _ _ _ _ _ _ Hpar Hin) as [Hs _].
  destruct (fat_free_all_facts img l Hv Hl) as (Hv1&Hlen&Hget&Hget2&Hdata).
  assert (Hs1 : slot_ok fs (fat_free_all fs l img) sec off)
    by (destruct Hs; split; rewrite ?Hlen; done).
  assert (Hb : Forall is_byte [229]) by (apply Forall_cons_2; [done|apply Forall_nil_2]).
  assert (Hd : 0 + lenZ [229] <= 32) by (cbn [length]; lia). unfold deleted. split_and!.
  - by apply (vol_ok_splice_entry Hv1 Hs1 (a := 0)).
  - rewrite (entry_on_splice_same Hv1 Hs1) by (done || lia).
    unfold name0. cbn [DIR_Name dir_entry_of_bytes].
    rewrite byte_at_slice, byte_at_splice by (try lia; destruct Hs1;
      pose proof (data_nonneg (vol_geo _ _ _ Hv)); rewrite ?length_slice; cbn [length]; lia).
    done.
  - intros o k Ho Hk Hdis. rewrite <- (Hdata o k) by done. destruct Hs1.
    pose proof (data_nonneg (vol_geo _ _ _ Hv)).
    apply slice_splice_disjoint; cbn [length]; lia.
  - intros d Hdi. rewrite <- Hget, <- Hget2 by done.
    by apply (fat_get_splice_entry Hv1 Hs1 (a := 0)).
Qed.

Lemma unlink_ok dirs base ext D l es stop sec off e fuel :
  ascii_path dirs base ext → short_path (path_of dirs base ext) →
  lookup fs n img (rows_of dirs base ext) (Some D) → file_chain fs n img (DIR_FstClusLO D) l →
  parent_slots fs n img dirs es stop → not_a_directory fs n img l →
  first_slot (shows (spell base ext)) stop es = Some (sec, off, e) → (dir_fuel fs n ≤ fuel)%nat →
  fat16_unlink fs fuel img (path_of dirs base ext) = Ok (0, deleted fs l sec off img).
Proof.
  intros Hp Hshort Hl Hc Hpar Hnd Hf Hfuel.
  erewrite fat16_unlink_search by done. rewrite Hf. apply first_slot_Some in Hf as [Hin _].
  destruct (parent_slot Hv _ _ _ _ _ _ Hpar Hin) as [Hs _].
  destruct (slot_pos_small Hv sec off 0 Hs) as [Epos ?]; [lia|].
  rewrite Z.add_0_r in Epos. rewrite Epos, u32_small by lia. unfold deleted. by rewrite Z.add_0_r.
Qed.

(** C14: deleting a file frees its clusters in both tables, marks its entry as
    deleted by writing 0xe5 over the first byte of its name, and changes
    nothing else. *)
Theorem fat16_unlink_deletes dirs base ext D l es stop sec off e fuel :
  ascii_path dirs base ext → short_path (path_of dirs base ext) →
  lookup fs n img (rows_of dirs base ext) (Some D) → file_chain fs n img (DIR_FstClusLO D) l →
  parent_slots fs n img dirs es stop → not_a_directory fs n img l →
  first_slot (shows (spell base ext)) stop es = Some (sec, off, e) → (dir_fuel fs n ≤ fuel)%nat →
  ∃ img', fat16_unlink fs fuel img (path_of dirs base ext) = Ok (0, img') ∧ vol_ok fs n img' ∧
    name0 (entry_on img' sec off) = 229 ∧
    (∀ o k, FirstRootDirSecNum fs * 512 <= o → 0 <= k →
      o + k <= entry_pos sec off ∨ entry_pos sec off < o → slice o k img' = slice o k img) ∧
    (∀ d, fat_index fs d →
      fat_get fs img' d = (if decide (d ∈ l) then 0 else fat_get fs img d) ∧
      fat2_get fs img' d = (if decide (d ∈ l) then 0 else fat2_get fs img d)).
Proof.
  intros Hp Hshort Hl Hc Hpar Hnd Hf Hfuel.
  exists (deleted fs l sec off img). split; [by eapply unlink_ok|].
  apply first_slot_Some in Hf as [Hin _]. by eapply deleted_facts; [eapply chain_indices|..].
Qed.

(** When no entry of the parent is listed under the user's spelling (the
    lookup compares 8.3 names, the search compares decoded ones, so a spelling
    with capitals or more than eight characters is enough), deleting frees the
    clusters and leaves every directory entry in place. *)
Theorem fat16_unlink_keeps_entry dirs base ext D l es stop fuel :
  ascii_path dirs base ext → short_path (path_of dirs base ext) →
  lookup fs n img (rows_of dirs base ext) (Some D) → file_chain fs n img (DIR_FstClusLO D) l →
  parent_slots fs n img dirs es stop → not_a_directory fs n img l →
  first_slot (shows (spell base ext)) stop es = None → (dir_fuel fs n ≤ fuel)%nat →
  ∃ img', fat16_unlink fs fuel img (path_of dirs base ext) = Ok (0, img') ∧
    (∀ d, d ∈ l → fat_get fs img' d = 0) ∧
    (∀ o k, FirstRootDirSecNum fs * 512 <= o → 0 <= k → slice o k img' = slice o k img).
Proof.
  intros Hp Hshort Hl Hc Hpar Hnd Hf Hfuel.
  erewrite fat16_unlink_search by done. rewrite Hf. eexists. split; [done|].
  pose proof (chain_indices _ _ _ Hv Hc) as Hi.
  destruct (fat_free_all_facts img l Hv Hi) as (_&_&Hget&_&Hdata). split; [|done].
  intros d Hd. rewrite Forall_forall in Hi. rewrite Hget by by apply Hi. by rewrite decide_True.
Qed.
End properties.

Section platform_properties.
Context `{Platform}.

(** The modification time stored with a new file is read back by
    [fat16_getattr] with the same minute, hour, day, month and year, for every
    date from 1980 to 2107; the seconds come back halved. The subtraction of
    2000 from [tm_year] (which counts from 1900) only works because the seven
    bits kept are those of the difference to 1980. *)
Theorem creation_time_readback row c :
  length row = 11%nat → 0 <= c < 65536 →
  0 <= tm_sec localtime_now < 62 → 0 <= tm_min localtime_now < 60 →
  0 <= tm_hour localtime_now < 24 → 1 <= tm_mday localtime_now < 32 →
  0 <= tm_mon localtime_now < 12 → 80 <= tm_year localtime_now < 208 →
  tm_of_entry (new_entry row c) =
    let t := localtime_now in
    Tm (tm_sec t / 2) (tm_min t) (tm_hour t) (tm_mday t) (tm_mon t) (tm_year t).
Proof.
  intros Hr Hc Hsec Hmin Hhour Hday Hmon Hyear. rewrite new_entry_fields by done.
  unfold tm_of_entry, update_time, update_year. cbn [DIR_WrtTime DIR_WrtDate].
  destruct localtime_now as [sec mi hour mday mon year]; cbn [tm_sec tm_min tm_hour tm_mday tm_mon tm_year] in *.
  change (Z.shiftl 1 5 - 1) with (Z.ones 5). change (Z.shiftl 1 6 - 1) with (Z.ones 6).
  change (Z.shiftl 1 4 - 1) with (Z.ones 4).
  rewrite !Z.land_ones, !Z.shiftr_div_pow2 by lia. rewrite Z.quot_div_nonneg by lia.
  assert (0 <= sec / 2 < 32) by (split; [apply Z.div_pos; lia|apply Z.div_lt_upper_bound; lia]).
  rewrite (u16_small (hour * 2048 + mi * 32 + sec / 2)) by lia.
  assert (E : u16 ((year - 2000) * 512 + mon * 32 + mday) =
    (year - 80) * 512 + mon * 32 + mday).
  { unfold u16. replace ((year - 2000) * 512 + mon * 32 + mday)
      with ((year - 80) * 512 + mon * 32 + mday + -15 * 2 ^ 16) by lia.
    rewrite Z.mod_add, Z.mod_small; lia. }
  rewrite E. change (2 ^ 5) with 32. change (2 ^ 6) with 64. change (2 ^ 11) with 2048.
  change (2 ^ 4) with 16. change (2 ^ 9) with 512.
  set (s2 := sec / 2) in *. clearbody s2. clear E.
  assert (Hd : ∀ a b q r, 0 <= r < b → a = q * b + r → a / b = q ∧ a mod b = r).
  { intros a b q r Hr' ->. rewrite Z.add_comm, Z.div_add, Z.mod_add by lia.
    by rewrite Z.div_small, Z.mod_small by lia. }
  destruct (Hd (hour * 2048 + mi * 32 + s2) 32 (hour * 64 + mi) s2) as [-> ->]; [lia|lia|].
  destruct (Hd (hour * 2048 + mi * 32 + s2) 2048 hour (mi * 32 + s2)) as [-> _]; [lia|lia|].
  destruct (Hd (hour * 64 + mi) 64 hour mi) as [_ ->]; [lia|lia|].
  destruct (Hd ((year - 80) * 512 + mon * 32 + mday) 32 ((year - 80) * 16 + mon) mday) as [-> ->]; [lia|lia|].
  destruct (Hd ((year - 80) * 512 + mon * 32 + mday) 512 (year - 80) (mon * 32 + mday)) as [-> _]; [lia|lia|].
  destruct (Hd ((year - 80) * 16 + mon) 16 (year - 80) mon) as [_ ->]; [lia|lia|].
  f_equal. lia.
Qed.

(** The blocks for the copies of a path are sized by [sizeof(path)], the
    size of a pointer: a path that does not fit makes creating, deleting and
    resizing all write past the end of the block. *)
Theorem long_path_overflows fs fuel img path size :
  ¬ short_path (c_str path) →
  fat16_mknod fs fuel img path = Undef HeapOverflow ∧
  fat16_unlink fs fuel img path = Undef HeapOverflow ∧
  edit_size fs fuel img path size = Undef HeapOverflow.
Proof.
  unfold short_path. intros Hlong. assert (E : copy_path path = Undef HeapOverflow).
  { unfold copy_path. by rewrite (proj2 (Z.leb_gt _ _)) by lia. }
  unfold fat16_mknod, fat16_unlink, edit_size, parent_of. rewrite E. by res_steps.
Qed.
End platform_properties.
