(* ===== verification/FileIO.v ===== *)
(** * Reading and writing files

    [read_path] and [write_path] of lab4/simple_fat16_new.c and the two FUSE
    callbacks that call them. Quantities the source keeps in [size_t] are
    reduced with [u64], those in [int] with [s32]. *)

From Stdlib Require Import Lia.
From stdpp Require Import base numbers option sets list.
From S2P Require Import Prelude Bytes CString Names Volume Directory Namespace.
Local Open Scope Z_scope.

(** ** Operations *)

Section operations.
Context `{Platform} (fs : FAT16).

(** [sector_read] into a heap block at position [i]. *)
Definition read_into (img : image) (secnum i : Z) (block : list Z) : res (list Z) :=
  let got := slice (u32 (BYTES_PER_SECTOR * secnum)) BYTES_PER_SECTOR img in
  _ ← require (i + lenZ got <=? lenZ block) HeapOverflow;
  Ok (splice i got block).

(** The loop of [read_path]; [k] rounds are left. *)
Fixpoint read_loop (k : nat) (img : image) (i j FatClusEntryVal FirstSectorofCluster : Z)
    (sector_buffer : list Z) : res (list Z) :=
  match k with
  | O => Ok sector_buffer
  | S k =>
    _ ← require (i + BYTES_PER_SECTOR <? 2 ^ 31) SignedOverflow;
    buf ← read_into img (FirstSectorofCluster + j) i sector_buffer;
    if (j + 1) mod SecPerClus fs =? 0 then
      let ClusterN := FatClusEntryVal in
      fat ← fat_entry_by_cluster fs img ClusterN;
      read_loop k img (i + BYTES_PER_SECTOR) 0 fat (first_sector fs ClusterN) buf
    else
      read_loop k img (i + BYTES_PER_SECTOR) (j + 1) FatClusEntryVal FirstSectorofCluster buf
  end.

(** The return value and the bytes copied to [buffer]. *)
Definition read_path (fuel : nat) (img : image) (path : list Z) (size offset : Z)
    : res (Z * list Z) :=
  let total := u64 (size + offset) in
  let sector_buffer := uninit (Z.to_nat (malloc_usable total)) in
  '(_, Dir, _) ← find_root fs img fuel uninit_dir path;
  let ClusterN := DIR_FstClusLO Dir in
  FatClusEntryVal ← fat_entry_by_cluster fs img ClusterN;
  _ ← require (negb (SecPerClus fs =? 0)) DivByZero;
  buf ← read_loop (Z.to_nat ((total + 511) / 512)) img 0 0 FatClusEntryVal
    (first_sector fs ClusterN) sector_buffer;
  if offset <? DIR_FileSize Dir then Ok (s32 size, slice offset size buf)
  else Ok (0, []).

Definition fat16_read (fuel : nat) (img : image) (path : list Z) (size offset : Z)
    : res (Z * list Z) := read_path fuel img path size offset.

(** The first loop of [write_path]: [ClusterCountPre] and [ClusterLast], which
    is uninitialised when the loop is not entered. *)
Fixpoint count_clusters (fuel : nat) (img : image) (ClusterNPre ClusterCountPre : Z)
    (ClusterLast : option Z) : res (Z * option Z) :=
  match fuel with
  | O => OutOfFuel
  | S fuel =>
    if (1 <? ClusterNPre) && (ClusterNPre <? 65528) then
      ClusterTmp ← fat_entry_by_cluster fs img ClusterNPre;
      let last := if (ClusterTmp <=? 1) || (65528 <=? ClusterTmp) then Some ClusterNPre
                  else ClusterLast in
      count_clusters fuel img ClusterTmp (ClusterCountPre + 1) last
    else Ok (ClusterCountPre, ClusterLast)
  end.

(** [while (ClusterIsEmpty(fat16_ins, ClusterLast, ClusterLast + b)) b++;] *)
Fixpoint link_next (fuel : nat) (img : image) (ClusterLast b : Z) : res image :=
  match fuel with
  | O => OutOfFuel
  | S fuel =>
    '(taken, img') ← ClusterIsEmpty fs img (u16 ClusterLast) (u16 (ClusterLast + b));
    if taken =? 0 then Ok img' else link_next fuel img' ClusterLast (b + 1)
  end.

(** The allocation loop: [k] clusters are still to be appended. *)
Fixpoint alloc_loop (fuel k : nat) (img : image) (ClusterLast : Z) : res image :=
  match k with
  | O => Ok img
  | S k =>
    img1 ← link_next fuel img ClusterLast 1;
    ClusterLast ← fat_entry_by_cluster fs img1 (u16 ClusterLast);
    match k with
    | O => '(_, img2) ← ClusterIsEmpty fs img1 ClusterLast 65535; Ok img2
    | _ => alloc_loop fuel k img1 ClusterLast
    end
  end.

(** [fseek(fd, sector * BPB_BytsPerSec + offset)] and [fwrite] of [length]
    bytes from position [pos] of the caller's buffer. *)
Definition put_bytes (img : image) (sector offset : Z) (buffer : list Z) (pos length : Z)
    : res image :=
  base ← int_offset (sector * BytsPerSec fs);
  _ ← require ((0 <=? length) && (pos + length <=? lenZ buffer)) OutOfBounds;
  Ok (splice (base + offset) (slice pos length buffer) img).

(** The loop over [ClustReqCnt] clusters: [k] rounds are left, [size] is the
    variable that may have been decremented before. *)
Fixpoint write_loop (fuel k : nat) (img : image) (path_pass : list Z) (size : Z)
    (FatClusEntryVal FirstSectorofCluster : Z) (buffer : list Z) (pos offset_temp2 : Z)
    : res image :=
  match k with
  | O => Ok img
  | S k =>
    let bytes_per_cluster := SecPerClus fs * BytsPerSec fs in
    let length := match k with O => s32 (size mod bytes_per_cluster) | _ => bytes_per_cluster end in
    img1 ← put_bytes img FirstSectorofCluster 0 buffer pos length;
    '(_, img2) ← edit_size fs fuel img1 path_pass (u32 (offset_temp2 + length));
    let ClusterValue := FatClusEntryVal in
    fat ← fat_entry_by_cluster fs img2 ClusterValue;
    write_loop fuel k img2 path_pass size fat (first_sector fs ClusterValue)
      buffer (pos + length) (offset_temp2 + length)
  end.

(** The three ways in which [write_path] stores the data. *)
Definition write_in_place (fuel : nat) (img : image) (path_pass : list Z) (size offset : Z)
    (FirstSectorofCluster : Z) (buffer : list Z) : res image :=
  let offset_temp := offset `rem` (SecPerClus fs * BytsPerSec fs) in
  let length := s32 size in
  img1 ← put_bytes img FirstSectorofCluster offset_temp buffer 0 length;
  '(_, img2) ← edit_size fs fuel img1 path_pass (u32 (offset + length));
  Ok img2.

Definition ClustReqCnt_of (size : Z) : Z :=
  s32 (u64 (size - 1) / (SecPerClus fs * BytsPerSec fs) + 1).

Definition write_at_boundary (fuel : nat) (img : image) (path_pass : list Z) (size offset : Z)
    (DIR_FileSize ClusterValue FatClusEntryVal FirstSectorofCluster : Z) (buffer : list Z)
    : res image :=
  let k := Z.to_nat (ClustReqCnt_of size) in
  if negb (DIR_FileSize =? 0) then
    ClusterValue ← fat_entry_by_cluster fs img ClusterValue;
    FatClusEntryVal ← fat_entry_by_cluster fs img ClusterValue;
    write_loop fuel k img path_pass size FatClusEntryVal (first_sector fs ClusterValue)
      buffer 0 offset
  else
    write_loop fuel k img path_pass size FatClusEntryVal FirstSectorofCluster buffer 0 offset.

Definition write_after_fill (fuel : nat) (img : image) (path_pass : list Z) (size offset : Z)
    (FatClusEntryVal FirstSectorofCluster : Z) (buffer : list Z) : res image :=
  let bytes_per_cluster := SecPerClus fs * BytsPerSec fs in
  let offset_temp := offset `rem` bytes_per_cluster in
  let length := bytes_per_cluster - offset_temp in
  let size := u64 (size - length) in
  img1 ← put_bytes img FirstSectorofCluster offset_temp buffer 0 length;
  '(_, img2) ← edit_size fs fuel img1 path_pass (u32 (offset + length));
  let ClusterValue := FatClusEntryVal in
  fat ← fat_entry_by_cluster fs img2 ClusterValue;
  write_loop fuel (Z.to_nat (ClustReqCnt_of size)) img2 path_pass size fat
    (first_sector fs ClusterValue) buffer length (offset + length).

(** [find_root] cuts [path], so the second call, after the allocation, gets
    what is left of it. *)
Definition write_path (fuel : nat) (img : image) (path : list Z) (size offset : Z)
    (buffer : list Z) : res (Z * image) :=
  let bytes_per_cluster := SecPerClus fs * BytsPerSec fs in
  path_pass ← copy_path path;
  '(_, Dir, path1) ← find_root fs img fuel uninit_dir path;
  '(ClusterCountPre, last) ← count_clusters fuel img (DIR_FstClusLO Dir) 0 None;
  match last with
  | None => Undef Uninitialised
  | Some ClusterLast =>
    let ClusterValue := ClusterLast in
    _ ← fat_entry_by_cluster fs img ClusterLast;
    _ ← require (negb (bytes_per_cluster =? 0)) DivByZero;
    let ClusterCount := s32 (u64 (size + offset - 1) / bytes_per_cluster + 1) in
    let ClusterRequired := ClusterCount - ClusterCountPre in
    img1 ← alloc_loop fuel (Z.to_nat ClusterRequired) img ClusterLast;
    FatClusEntryVal ← fat_entry_by_cluster fs img1 ClusterValue;
    let FirstSectorofCluster := first_sector fs ClusterValue in
    img2 ←
      (if 0 <? ClusterRequired then
         '(_, Dir, _) ← find_root fs img1 fuel uninit_dir path1;
         if offset `rem` bytes_per_cluster =? 0 then
           write_at_boundary fuel img1 path_pass size offset (DIR_FileSize Dir) ClusterValue
             FatClusEntryVal FirstSectorofCluster buffer
         else
           write_after_fill fuel img1 path_pass size offset FatClusEntryVal
             FirstSectorofCluster buffer
       else write_in_place fuel img1 path_pass size offset FirstSectorofCluster buffer);
    Ok (s32 size, img2)
  end.

Definition fat16_write (fuel : nat) (img : image) (path : list Z) (size offset : Z)
    (buffer : list Z) : res (Z * image) := write_path fuel img path size offset buffer.
End operations.

(** ** File contents *)

Definition cluster_data (fs : FAT16) (img : image) (c : Z) : list Z :=
  slice (cluster_sector fs c * 512) (512 * SecPerClus fs) img.

(** The bytes of a chain of clusters, one after the other. *)
Definition chain_data (fs : FAT16) (img : image) (l : list Z) : list Z :=
  l ≫= cluster_data fs img.

Section contents.
Context `{Platform} {fs : FAT16} {n : Z} {img : image} (Hv : vol_ok fs n img).

Lemma cluster_in_image c : in_volume n c →
  FirstDataSector fs * 512 <= cluster_sector fs c * 512 ∧ 0 <= cluster_sector fs c ∧
  cluster_sector fs c + SecPerClus fs <= 65536 ∧
  cluster_sector fs c * 512 + 512 * SecPerClus fs <= lenZ img.
Proof.
  intros Hc. pose proof (in_cluster_bounds c Hv Hc). pose proof (vol_len _ _ _ Hv).
  pose proof (data_nonneg (vol_geo _ _ _ Hv)). lia.
Qed.

Lemma length_cluster_data c :
  in_volume n c → lenZ (cluster_data fs img c) = 512 * SecPerClus fs.
Proof.
  intros Hc. pose proof (cluster_in_image c Hc). pose proof (geo_spc _ _ Hv).
  unfold cluster_data. rewrite length_slice; lia.
Qed.

Lemma length_chain_data l :
  Forall (in_volume n) l → lenZ (chain_data fs img l) = 512 * SecPerClus fs * lenZ l.
Proof.
  induction 1 as [|c l Hc _ IH]; [cbn; lia|]. unfold chain_data in *.
  rewrite bind_cons, length_app. pose proof (length_cluster_data c Hc). cbn [length]. lia.
Qed.

(** Every table entry can be read, whatever the number. *)
Lemma fat_entry_total c : ∃ v, fat_entry_by_cluster fs img c = Ok v.
Proof.
  unfold fat_entry_by_cluster, fat_position. rewrite (geo_bps _ _ Hv).
  change (negb (512 =? 0)) with true. res_steps.
  assert (E : u16 (c * 2) mod 512 = (c mod 256) * 2).
  { unfold u16. change (2 ^ 16) with (32768 * 2). rewrite Z.mul_mod_distr_r by lia.
    change 512 with (256 * 2). rewrite Z.mul_mod_distr_r by lia. f_equal.
    apply Z.mod_mod_divide. by exists 128. }
  pose proof (Z.mod_pos_bound c 256).
  rewrite E, (u16_small (c mod 256 * 2)) by lia.
  rewrite (proj2 (Z.leb_le _ _)) by (unfold BYTES_PER_SECTOR; lia). res_steps. eauto.
Qed.

(** One sector of a cluster. *)
Lemma drop_cluster_sector c j l :
  in_volume n c → 0 <= j < SecPerClus fs →
  drop (Z.to_nat (512 * j)) (chain_data fs img (c :: l)) =
    slice ((cluster_sector fs c + j) * 512) 512 img ++
    drop (Z.to_nat (512 * (j + 1))) (chain_data fs img (c :: l)).
Proof.
  intros Hc Hj. pose proof (cluster_in_image c Hc).
  assert (E : slice ((cluster_sector fs c + j) * 512) 512 img =
    slice (512 * j) 512 (chain_data fs img (c :: l))).
  { unfold chain_data. rewrite bind_cons. unfold slice at 2.
    pose proof (length_cluster_data c Hc).
    rewrite drop_app_le, take_app_le by (rewrite ?length_drop; lia).
    change (take _ (drop _ ?x)) with (slice (512 * j) 512 x). unfold cluster_data.
    rewrite slice_slice by lia. f_equal. lia. }
  rewrite E. unfold slice.
  replace (drop (Z.to_nat (512 * (j + 1))) (chain_data fs img (c :: l)))
    with (drop (Z.to_nat 512) (drop (Z.to_nat (512 * j)) (chain_data fs img (c :: l)))).
  - by rewrite take_drop.
  - rewrite drop_drop. f_equal. lia.
Qed.

Lemma drop_cluster c l :
  in_volume n c →
  drop (Z.to_nat (512 * SecPerClus fs)) (chain_data fs img (c :: l)) = chain_data fs img l.
Proof.
  intros Hc. unfold chain_data. rewrite bind_cons. pose proof (length_cluster_data c Hc).
  rewrite drop_app_length'; [done|lia].
Qed.

Lemma read_into_ok sec i pre rest :
  0 <= sec < 65536 → (sec + 1) * 512 <= lenZ img → i = lenZ pre →
  read_into img sec i (pre ++ rest) =
    if 512 <=? lenZ rest then
      Ok (pre ++ slice (sec * 512) 512 img ++ drop 512 rest)
    else Undef HeapOverflow.
Proof.
  intros Hsec Hin ->. unfold read_into, BYTES_PER_SECTOR. rewrite u32_small, (Z.mul_comm 512) by lia.
  assert (Hl : lenZ (slice (sec * 512) 512 img) = 512) by (rewrite length_slice; lia).
  rewrite Hl, length_app. case_goal.
  - rewrite (proj2 (Z.leb_le _ _)) by lia. res_steps. f_equal.
    rewrite <- (take_drop 512 rest) at 1.
    apply splice_app_mid; [done|]. rewrite length_take. lia.
  - by rewrite (proj2 (Z.leb_gt _ _)) by lia.
Qed.

(** The loop of [read_path] copies the chain sector by sector as long as the
    block has room for whole sectors. *)
Lemma read_loop_ok {stop} k c l j pre rest :
  chain stop fs n img c (c :: l) → 0 <= j < SecPerClus fs →
  j + Z.of_nat k <= SecPerClus fs * lenZ (c :: l) →
  lenZ pre + 512 * Z.of_nat k < 2 ^ 31 →
  read_loop fs k img (lenZ pre) j (fat_get fs img c) (cluster_sector fs c) (pre ++ rest) =
    if 512 * Z.of_nat k <=? lenZ rest then
      Ok (pre ++ take (512 * k) (drop (Z.to_nat (512 * j)) (chain_data fs img (c :: l)))
          ++ drop (512 * k) rest)
    else Undef HeapOverflow.
Proof.
  revert c l j pre rest. induction k as [|k IH]; intros c l j pre rest Hch Hj Hk Hbound.
  { cbn [read_loop]. rewrite (proj2 (Z.leb_le _ _)) by lia. done. }
  assert (Hc : in_volume n c) by (by inversion Hch).
  pose proof (cluster_in_image c Hc) as Hin. cbn [read_loop].
  rewrite (proj2 (Z.ltb_lt _ _)) by (unfold BYTES_PER_SECTOR; lia). res_steps.
  rewrite read_into_ok by lia.
  assert (Hsplit : Nat.mul 512 (S k) = (512 + 512 * k)%nat) by lia.
  destruct (Z.leb_spec 512 (lenZ rest)) as [Hroom|Hroom]; res_steps.
  2:{ by rewrite (proj2 (Z.leb_gt _ _)) by lia. }
  set (sec := slice ((cluster_sector fs c + j) * 512) 512 img).
  assert (Hsec : lenZ sec = 512) by (unfold sec; rewrite length_slice; lia).
  assert (Hbuf : ∀ X, pre ++ sec ++ X = (pre ++ sec) ++ X) by (intros; by rewrite app_assoc).
  assert (Hi : lenZ pre + BYTES_PER_SECTOR = lenZ (pre ++ sec))
    by (rewrite length_app; unfold BYTES_PER_SECTOR; lia).
  assert (Hleb : (512 * Z.of_nat k <=? lenZ (drop 512 rest)) = (512 * Z.of_nat (S k) <=? lenZ rest)).
  { apply Bool.eq_iff_eq_true. rewrite !Z.leb_le, length_drop. lia. }
  assert (Hmore : ∀ D, take (512 * S k) (sec ++ D) = sec ++ take (512 * k) D).
  { intros D. rewrite take_app_ge by lia. f_equal. f_equal. lia. }
  rewrite drop_cluster_sector by done. fold sec. rewrite Hmore.
  rewrite Hbuf, Hi. destruct (Z.eqb_spec ((j + 1) mod SecPerClus fs) 0) as [E|E].
  - assert (Hj1 : j + 1 = SecPerClus fs).
    { destruct (decide (j + 1 = SecPerClus fs)); [done|]. rewrite Z.mod_small in E; lia. }
    rewrite Hj1, drop_cluster by done.
    inversion Hch as [? ? Hend|? ? ? Hne Hrest]; subst.
    + destruct k as [|k]; [|cbn [length] in Hk; lia].
      destruct (fat_entry_total (fat_get fs img c)) as [v ->]. res_steps. cbn [read_loop].
      rewrite <- Hleb. rewrite (proj2 (Z.leb_le _ _)) by lia.
      change (chain_data fs img []) with (@nil Z). by rewrite take_nil, app_nil_r, <- Hbuf.
    + destruct (chain_head _ _ _ Hrest) as [l' El]. subst l.
      assert (Hc' : in_volume n (fat_get fs img c)) by (by inversion Hrest).
      rewrite (fat_entry_ok (n := n)) by (done || by eapply in_volume_index; [apply Hv|]).
      res_steps. rewrite (first_sector_ok (n := n)) by (done || apply Hv).
      rewrite (IH _ l') by (done || (cbn [length] in *; rewrite ?length_app; lia)).
      rewrite Hleb. case_goal; [|done]. change (Z.to_nat (512 * 0)) with O.
      rewrite drop_0, drop_drop. rewrite <- !app_assoc. rewrite Hsplit. done.
  - assert (j + 1 <> SecPerClus fs).
    { intros Hj1. apply E. rewrite Hj1. apply Z.mod_same; lia. }
    rewrite (IH _ l) by (done || (cbn [length] in *; rewrite ?length_app; lia)).
    rewrite Hleb. case_goal; [|done]. rewrite <- !app_assoc, drop_drop, Hsplit. done.
Qed.
End contents.

(** Sectors that a read of [total] bytes fetches. *)
Definition sectors_of (total : Z) : Z := (total + 511) / 512.

Lemma sectors_of_bound total : 0 <= total →
  total <= 512 * sectors_of total < total + 512.
Proof.
  intros. unfold sectors_of. pose proof (Z.div_mod (total + 511) 512).
  pose proof (Z.mod_pos_bound (total + 511) 512). lia.
Qed.

Section reading.
Context `{Platform} {fs : FAT16} {n : Z} {img : image} (Hv : vol_ok fs n img).

(** What [read_path] does once the file has been found. *)
Lemma read_path_found {stop} dirs base ext D l size offset fuel :
  ascii_path dirs base ext → lookup fs n img (rows_of dirs base ext) (Some D) →
  chain stop fs n img (DIR_FstClusLO D) l → (dir_fuel fs n ≤ fuel)%nat →
  0 <= size → 0 <= offset → size + offset <= 512 * SecPerClus fs * lenZ l →
  size + offset < 2 ^ 31 - 512 →
  read_path fs fuel img (path_of dirs base ext) size offset =
    if 512 * sectors_of (size + offset) <=? malloc_usable (size + offset) then
      if offset <? DIR_FileSize D then Ok (size, slice offset size (chain_data fs img l))
      else Ok (0, [])
    else Undef HeapOverflow.
Proof.
  intros Hp Hl Hc Hfuel Hs Ho Hcap Hbig. unfold read_path.
  rewrite (u64_small (size + offset)) by lia.
  destruct (find_root_path Hv dirs base ext (Some D) uninit_dir fuel Hp Hl Hfuel) as (D' & E & HD).
  rewrite (HD D eq_refl) in E. res_step E. clear E HD D'.
  destruct (chain_head _ _ _ Hc) as [l' ->]. pose proof (chain_in_volume _ _ _ Hc) as Hvol.
  assert (Hin : in_volume n (DIR_FstClusLO D)) by (by inversion Hvol).
  rewrite (fat_entry_ok (n := n)) by (done || by eapply in_volume_index; [apply Hv|]). res_steps.
  pose proof (geo_spc _ _ Hv). rewrite (proj2 (Z.eqb_neq (SecPerClus fs) 0)) by lia.
  cbn [negb]. res_steps.
  rewrite (first_sector_ok (n := n)) by (done || apply Hv).
  pose proof (sectors_of_bound (size + offset) ltac:(lia)) as Hsec.
  fold (sectors_of (size + offset)). set (K := Z.to_nat (sectors_of (size + offset))).
  assert (HK : Z.of_nat K = sectors_of (size + offset)) by (unfold K; lia).
  pose proof (malloc_usable_ge (size + offset)) as Hm.
  assert (Hfit : 0 + Z.of_nat K <= SecPerClus fs * lenZ (DIR_FstClusLO D :: l')) by lia.
  pose proof (read_loop_ok Hv K (DIR_FstClusLO D) l' 0 [] (uninit (Z.to_nat (malloc_usable (size + offset))))
    Hc ltac:(lia) Hfit) as E.
  cbn [app length] in E. change (Z.of_nat 0) with 0 in E. rewrite E by lia. clear E.
  rewrite length_uninit, HK.
  replace (Z.of_nat (Z.to_nat (malloc_usable (size + offset)))) with (malloc_usable (size + offset)) by lia.
  destruct (512 * sectors_of _ <=? _); res_steps; [|done].
  destruct (offset <? _); [|done].
  rewrite s32_small by lia. do 2 f_equal. change (Z.to_nat (512 * 0)) with O. rewrite drop_0.
  pose proof (length_chain_data Hv _ Hvol) as Hlen.
  unfold slice. rewrite drop_app_le by (rewrite length_take; lia).
  rewrite take_app_le by (rewrite length_drop, length_take; lia).
  rewrite skipn_firstn_comm, take_take. f_equal. lia.
Qed.

(** C12: reading inside the clusters of a file whose size exceeds the offset
    returns the requested number of bytes and copies exactly the bytes of the
    cluster chain at that offset; at or past the end it returns 0. The number
    returned is the requested one even where the file ends before. *)
Theorem read_path_correct {stop} dirs base ext D l size offset fuel :
  ascii_path dirs base ext → lookup fs n img (rows_of dirs base ext) (Some D) →
  chain stop fs n img (DIR_FstClusLO D) l → (dir_fuel fs n ≤ fuel)%nat →
  0 <= size → 0 <= offset → size + offset <= 512 * SecPerClus fs * lenZ l →
  size + offset < 2 ^ 31 - 512 →
  512 * sectors_of (size + offset) <= malloc_usable (size + offset) →
  fat16_read fs fuel img (path_of dirs base ext) size offset =
    if offset <? DIR_FileSize D then Ok (size, slice offset size (chain_data fs img l))
    else Ok (0, []).
Proof.
  intros. unfold fat16_read. erewrite read_path_found by done.
  by rewrite (proj2 (Z.leb_le _ _)) by done.
Qed.

(** The block is sized for the bytes wanted but filled by whole sectors,
    so unless the allocator happens to round up to a multiple of 512, a read
    whose end is not on a sector boundary writes past the end of the block. *)
Theorem read_path_overflows {stop} dirs base ext D l size offset fuel :
  ascii_path dirs base ext → lookup fs n img (rows_of dirs base ext) (Some D) →
  chain stop fs n img (DIR_FstClusLO D) l → (dir_fuel fs n ≤ fuel)%nat →
  0 <= size → 0 <= offset → size + offset <= 512 * SecPerClus fs * lenZ l →
  size + offset < 2 ^ 31 - 512 → (size + offset) mod 512 ≠ 0 →
  malloc_usable (size + offset) < size + offset + (512 - (size + offset) mod 512) →
  fat16_read fs fuel img (path_of dirs base ext) size offset = Undef HeapOverflow.
Proof.
  intros Hp Hl Hc Hfuel Hs Ho Hcap Hbig Hmod Hm. unfold fat16_read.
  erewrite read_path_found by done.
  rewrite (proj2 (Z.leb_gt _ _)); [done|].
  assert (sectors_of (size + offset) = (size + offset) / 512 + 1) as ->.
  { unfold sectors_of. pose proof (Z.div_mod (size + offset) 512).
    pose proof (Z.mod_pos_bound (size + offset) 512).
    pose proof (Z.div_mod (size + offset + 511) 512).
    pose proof (Z.mod_pos_bound (size + offset + 511) 512). lia. }
  pose proof (Z.div_mod (size + offset) 512). lia.
Qed.
End reading.

(** ** Allocation *)

(** [f] is the first free cluster behind [c]. *)
Definition next_free (fs : FAT16) (img : image) (c f : Z) : Prop :=
  c < f ∧ fat_get fs img f = 0 ∧ ∀ d, c < d < f → fat_get fs img d ≠ 0.

Inductive free_run (fs : FAT16) (n : Z) (img : image) : Z → list Z → Prop :=
  | free_run_nil c : free_run fs n img c []
  | free_run_cons c f l :
      in_volume n f → next_free fs img c f → free_run fs n img f l → free_run fs n img c (f :: l).

(** The table after the clusters [fl] have been appended behind [c]. *)
Fixpoint link_all (fs : FAT16) (c : Z) (fl : list Z) (img : image) : image :=
  match fl with
  | [] => fat_set fs c 65535 img
  | f :: fl => link_all fs f fl (fat_set fs c f img)
  end.

Section allocation.
Context `{Platform} {fs : FAT16} {n : Z}.
Implicit Types (img : image) (c f : Z) (l fl : list Z).

Lemma link_next_ok img c f b fuel :
  vol_ok fs n img → in_volume n c → in_volume n f → 1 <= b → c + b <= f →
  fat_get fs img f = 0 → (∀ d, c + b <= d < f → fat_get fs img d ≠ 0) →
  (Z.to_nat (f - c - b) < fuel)%nat →
  link_next fs fuel img c b = Ok (fat_set fs c f img).
Proof.
  intros Hv Hc Hf. revert b. induction fuel as [|fuel IH]; intros b Hb Hle Hfree Hused Hfuel; [lia|].
  pose proof (in_volume_index c Hv Hc) as Hic. pose proof (in_volume_index f Hv Hf) as Hif.
  pose proof (vol_geo _ _ _ Hv) as Hg. destruct Hic as [Hc1 Hc2], Hif as [Hf1 Hf2].
  cbn [link_next]. rewrite (u16_small c), (u16_small (c + b)) by lia.
  rewrite (ClusterIsEmpty_ok (n := n)); [|done|by split|right; split; lia].
  destruct (decide (c + b = f)) as [E|E].
  - rewrite bool_decide_true by (right; congruence). res_steps. cbn [Z.eqb]. by rewrite E.
  - rewrite bool_decide_false; [|intros [?|?]; [lia|]; apply (Hused (c + b)); [lia|done]].
    res_steps. cbn [Z.eqb]. apply IH; [lia|lia|done|intros; apply Hused; lia|lia].
Qed.

Lemma free_run_frame img img' c fl :
  (∀ d, c < d → fat_get fs img' d = fat_get fs img d) →
  free_run fs n img c fl → free_run fs n img' c fl.
Proof.
  intros Hd Hr. revert Hd. induction Hr as [|c f fl Hf (Hlt & Hz & Hu) Hr IH]; intros Hd; constructor.
  - done.
  - split; [done|]. split; [rewrite Hd by lia; done|]. intros d ?. rewrite Hd by lia. apply Hu. lia.
  - apply IH. intros d ?. apply Hd. lia.
Qed.

Lemma fat_get_set_above img c v d :
  vol_ok fs n img → fat_index fs c → c < d → fat_get fs (fat_set fs c v img) d = fat_get fs img d.
Proof.
  intros Hv Hc Hd. pose proof (fat_region img c Hv Hc).
  unfold fat_get, fat_set. rewrite slice_splice_disjoint; [done|..]; rewrite ?length_le_bytes;
    unfold fat_off in *; lia.
Qed.

Lemma alloc_loop_ok img c fl fuel :
  vol_ok fs n img → in_volume n c → free_run fs n img c fl → fl ≠ [] →
  (Z.to_nat n ≤ fuel)%nat →
  alloc_loop fs fuel (length fl) img c = Ok (link_all fs c fl img).
Proof.
  intros Hv Hc Hr Hne Hfuel. revert img c Hv Hc Hr Hne.
  induction fl as [|f fl IH]; intros img c Hv Hc Hr Hne; [done|].
  inversion Hr as [|? ? ? Hf (Hlt & Hz & Hu) Hr']; subst.
  pose proof (in_volume_index c Hv Hc) as Hic. pose proof (in_volume_index f Hv Hf) as Hif.
  cbn [length alloc_loop link_all].
  rewrite (link_next_ok img c f 1) by (done || lia || (intros; apply Hu; lia) ||
    (unfold in_volume in *; lia)). res_steps.
  assert (Hv1 : vol_ok fs n (fat_set fs c f img)) by by apply vol_ok_fat_set.
  rewrite (u16_small c) by (destruct Hic; lia).
  rewrite (fat_entry_ok (n := n)) by done. res_steps.
  rewrite (fat_get_set (n := n)) by done. rewrite decide_True, (u16_small f) by (done || destruct Hif; lia).
  destruct fl as [|f' fl'].
  - cbn [length]. rewrite (ClusterIsEmpty_ok (n := n)) by (done || by left).
    rewrite bool_decide_true by by left. done.
  - cbn [length]. change (S (length fl')) with (length (f' :: fl')).
    apply (IH _ f); [done|done| |done].
    eapply free_run_frame; [|done]. intros d Hd. apply fat_get_set_above; [done|done|lia].
Qed.

Lemma link_all_facts img c fl :
  vol_ok fs n img → in_volume n c → free_run fs n img c fl →
  vol_ok fs n (link_all fs c fl img) ∧ length (link_all fs c fl img) = length img ∧
  (∀ d, fat_index fs d → d ∉ c :: fl → fat_get fs (link_all fs c fl img) d = fat_get fs img d) ∧
  (∀ o k, FirstRootDirSecNum fs * 512 <= o → 0 <= k →
    slice o k (link_all fs c fl img) = slice o k img) ∧
  file_chain fs n (link_all fs c fl img) c (c :: fl) ∧
  dir_chain fs n (link_all fs c fl img) c (c :: fl).
Proof.
  revert img c. induction fl as [|f fl IH]; intros img c Hv Hc Hr; cbn [link_all].
  - pose proof (in_volume_index c Hv Hc) as Hic.
    assert (E : fat_get fs (fat_set fs c 65535 img) c = 65535).
    { rewrite (fat_get_set (n := n)) by done. by rewrite decide_True. }
    split_and!; [by apply vol_ok_fat_set|by eapply length_fat_set|..].
    + intros d Hd Hne. rewrite (fat_get_set (n := n)) by done. rewrite decide_False; [done|]. set_solver.
    + intros. by eapply slice_fat_set.
    + apply chain_last; [done|]. rewrite E. right. lia.
    + apply chain_last; [done|]. by rewrite E.
  - inversion Hr as [|? ? ? Hf (Hlt & Hz & Hu) Hr']; subst.
    pose proof (in_volume_index c Hv Hc) as Hic. pose proof (in_volume_index f Hv Hf) as Hif.
    assert (Hv1 : vol_ok fs n (fat_set fs c f img)) by by apply vol_ok_fat_set.
    assert (Hr1 : free_run fs n (fat_set fs c f img) f fl).
    { eapply free_run_frame; [|done]. intros d Hd. apply fat_get_set_above; [done|done|lia]. }
    destruct (IH _ f Hv1 Hf Hr1) as (H1 & H2 & H3 & H4 & H5 & H6).
    assert (Hge : ∀ d, d ∈ f :: fl → f <= d).
    { clear -Hr'. assert (Hall : ∀ c fl, free_run fs n img c fl → ∀ d, d ∈ fl → c < d).
      { induction 1 as [|c0 f0 l0 _ [? _] _ IH]; intros d Hd; [by inversion Hd|].
        apply elem_of_cons in Hd as [->|Hd]; [done|]. specialize (IH _ Hd). lia. }
      intros d Hd. apply elem_of_cons in Hd as [->|Hd]; [done|].
      specialize (Hall _ _ Hr' _ Hd). lia. }
    assert (E : fat_get fs (link_all fs f fl (fat_set fs c f img)) c = f).
    { rewrite H3; [|done|intros Hin; apply Hge in Hin; lia].
      rewrite (fat_get_set (n := n)) by done. rewrite decide_True by done.
      apply u16_small. destruct Hif; lia. }
    split_and!; [done|by rewrite H2; eapply length_fat_set|..].
    + intros d Hd Hne. apply not_elem_of_cons in Hne as [Hne1 Hne2]. rewrite H3 by done.
      rewrite (fat_get_set (n := n)) by done. by rewrite decide_False.
    + intros o k Ho Hk. rewrite H4 by done. by eapply slice_fat_set.
    + apply chain_more; rewrite ?E; [done| |done]. unfold file_end, in_volume in *.
      destruct Hif. lia.
    + apply chain_more; rewrite ?E; [done| |done]. unfold dir_end. destruct Hif. lia.
Qed.
End allocation.

(** ** Images that differ in file data and in one size field *)

Record keeps (fs : FAT16) (n : Z) (sec off : Z) (img img' : image) : Prop := {
  keeps_vol : vol_ok fs n img';
  keeps_len : length img' = length img;
  keeps_root : ∀ o k, FirstRootDirSecNum fs * 512 <= o → 0 <= k →
    o + k <= FirstDataSector fs * 512 →
    o + k <= entry_pos sec off + 28 ∨ entry_pos sec off + 32 <= o →
    slice o k img' = slice o k img
}.

Definition same_table (fs : FAT16) (img img' : image) : Prop :=
  ∀ d, fat_index fs d → fat_get fs img' d = fat_get fs img d.

(** Two entries that differ at most in the size and the times. *)
Definition same_entry (e e' : DIR_ENTRY) : Prop :=
  DIR_Name e' = DIR_Name e ∧ DIR_Attr e' = DIR_Attr e ∧ DIR_FstClusLO e' = DIR_FstClusLO e.

(** A regular file of the root directory, found by its 8.3 name and listed
    under the user's spelling in the same slot. *)
Record root_file `{Platform} (fs : FAT16) (img : image) (base ext : list Z)
    (sec off : Z) (D : DIR_ENTRY) : Prop := {
  rf_path : ascii_path [] base ext;
  rf_short : short_path (path_of [] base ext);
  rf_find : first_slot (root_stop (fat_name base ext)) false (root_slots fs img) = Some (sec, off, D);
  rf_file : is_file D = true;
  rf_used : name0 D ≠ 0;
  rf_shows : first_slot (shows (spell base ext)) false (root_slots fs img) = Some (sec, off, D)
}.

Section keeping.
Context `{Platform} {fs : FAT16} {n : Z}.
Implicit Types (img : image).

Lemma keeps_refl sec off img : vol_ok fs n img → keeps fs n sec off img img.
Proof. by split. Qed.

Lemma keeps_trans sec off img1 img2 img3 :
  keeps fs n sec off img1 img2 → keeps fs n sec off img2 img3 → keeps fs n sec off img1 img3.
Proof.
  intros [? L1 R1] [? L2 R2]. split; [done|congruence|]. intros o k Ho Hk Hd Hdis.
  rewrite R2, R1; done.
Qed.

Lemma same_table_trans img1 img2 img3 :
  same_table fs img1 img2 → same_table fs img2 img3 → same_table fs img1 img3.
Proof. intros H1 H2 d Hd. by rewrite H2, H1. Qed.

(** Root slots lie below the data area, at multiples of 32. *)
Lemma root_slot_region img sec off e :
  vol_ok fs n img → (sec, off, e) ∈ root_slots fs img →
  entry_pos sec off + 32 <= FirstDataSector fs * 512 ∧ ∃ p, entry_pos sec off = 32 * p.
Proof.
  intros Hv. unfold root_slots. rewrite list_elem_of_fmap. intros (k & [= -> -> ->] & Hk).
  apply elem_of_seqZ in Hk. pose proof (root_sector_in_image img k Hv ltac:(lia)).
  pose proof (Z.mod_pos_bound k 16). unfold entry_pos. split; [lia|].
  exists ((FirstRootDirSecNum fs + k / 16) * 16 + k mod 16). lia.
Qed.

Lemma keeps_entry sec off img img' s o x e :
  vol_ok fs n img → keeps fs n sec off img img' →
  (sec, off, e) ∈ root_slots fs img → (s, o, x) ∈ root_slots fs img →
  same_entry (entry_on img s o) (entry_on img' s o).
Proof.
  intros Hv [_ _ Hroot] Hin Hin'. pose proof (root_slot_ok Hv _ _ _ Hin') as [_ _ _ Hlow _].
  destruct (root_slot_region img _ _ _ Hv Hin) as [_ [p Hp]].
  destruct (root_slot_region img _ _ _ Hv Hin') as [Hd [q Hq]].
  pose proof (data_nonneg (vol_geo _ _ _ Hv)).
  assert (Hf : ∀ a w, 0 <= a → 0 <= w → a + w <= 28 →
    slice a w (slice (entry_pos s o) 32 img') = slice a w (slice (entry_pos s o) 32 img)).
  { intros a w Ha Hw Haw. rewrite !slice_slice by lia. apply Hroot; lia. }
  unfold same_entry, entry_on, BYTES_PER_DIR.
  cbn [dir_entry_of_bytes DIR_Name DIR_Attr DIR_FstClusLO].
  by rewrite !Hf by lia.
Qed.

Lemma root_slots_map img img' :
  root_slots fs img' = (λ '(s, o, x), (s, o, entry_on img' s o)) <$> root_slots fs img.
Proof. unfold root_slots. rewrite <- list_fmap_compose. by apply list_fmap_ext. Qed.

Lemma keeps_first_slot P sec off img img' s o x e :
  vol_ok fs n img → keeps fs n sec off img img' → (sec, off, e) ∈ root_slots fs img →
  (∀ e1 e2, same_entry e1 e2 → P e1 = P e2) →
  first_slot P false (root_slots fs img) = Some (s, o, x) →
  first_slot P false (root_slots fs img') = Some (s, o, entry_on img' s o).
Proof.
  intros Hv Hk Hin HP. rewrite (root_slots_map img img').
  assert (Hall : ∀ s o x, (s, o, x) ∈ root_slots fs img →
    x = entry_on img s o ∧ same_entry (entry_on img s o) (entry_on img' s o)).
  { intros s0 o0 x0 Hx. split; [by eapply root_slot_entry|by eapply keeps_entry]. }
  revert Hall. induction (root_slots fs img) as [|[[s0 o0] x0] es IH] in |- *; intros Hall Hf; [done|].
  cbn [fmap list_fmap first_slot andb] in *.
  destruct (Hall s0 o0 x0) as [Ex Hsame]; [apply list_elem_of_here|].
  rewrite <- (HP _ _ Hsame), <- Ex. destruct (P x0); [by injection Hf as -> -> ->|].
  apply IH; [|done]. intros. apply Hall. by apply list_elem_of_further.
Qed.

Lemma root_stop_same name e1 e2 : same_entry e1 e2 → root_stop name e1 = root_stop name e2.
Proof.
  intros (H1 & H2 & _). unfold root_stop, named, is_file, is_dir, name0. by rewrite H1, H2.
Qed.

Lemma shows_same x e1 e2 : same_entry e1 e2 → shows x e1 = shows x e2.
Proof. intros (H1 & _). unfold shows, shown_name. by rewrite H1. Qed.

Context {base ext : list Z} {sec off : Z} {D : DIR_ENTRY} {img : image}.
Context (Hv : vol_ok fs n img) (Hf : root_file fs img base ext sec off D).

Lemma root_file_in : (sec, off, D) ∈ root_slots fs img.
Proof. by apply (first_slot_Some _ _ _ _ _ _ (rf_find _ _ _ _ _ _ _ Hf)). Qed.

Lemma root_file_slot : slot_ok fs img sec off ∧ D = entry_on img sec off.
Proof. split; [eapply root_slot_ok|eapply root_slot_entry]; eauto using root_file_in. Qed.

Lemma root_file_lookup : lookup fs n img (rows_of [] base ext) (Some D).
Proof. destruct Hf. by eapply lookup_file. Qed.

Lemma root_file_keeps img' :
  keeps fs n sec off img img' →
  root_file fs img' base ext sec off (entry_on img' sec off) ∧ same_entry D (entry_on img' sec off).
Proof.
  intros Hk. pose proof root_file_in as Hin.
  assert (Hsame : same_entry D (entry_on img' sec off)).
  { rewrite (root_slot_entry _ _ _ Hin) at 1. by eapply keeps_entry. }
  split; [|done]. destruct Hf as [Hp Hs Hfind Hfile Hused Hshows]. destruct Hsame as (E1 & E2 & _).
  split; [done|done| | | |].
  - eapply keeps_first_slot; [done..|apply root_stop_same|done].
  - unfold is_file in *. by rewrite E2.
  - unfold name0 in *. by rewrite E1.
  - eapply keeps_first_slot; [done..|apply shows_same|done].
Qed.

(** [edit_size] on a file of the root directory. *)
Lemma edit_size_root size fuel :
  (dir_fuel fs n ≤ fuel)%nat →
  edit_size fs fuel img (path_of [] base ext) size =
    Ok (0, splice (entry_pos sec off + 28) (le_bytes 4 size) img).
Proof.
  intros Hfuel. destruct Hf as [Hp Hs _ _ _ Hshows].
  destruct (parent_of_path [] (spell base ext)) as [_ E]; [apply Hp|done|].
  unfold edit_size, path_of. res_step E. rewrite path_at_name.
  rewrite (locate_ok Hv _ _ _ _ _ (parent_root fs n img)) by (done || by eapply ascii_component).
  rewrite Hshows. cbn [fmap option_fmap option_map]. res_steps.
  destruct (slot_pos_small Hv sec off 28 (proj1 root_file_slot)) as [-> ?]; [lia|].
  by rewrite u32_small by lia.
Qed.

Lemma size_edit_facts size :
  let img' := splice (entry_pos sec off + 28) (le_bytes 4 size) img in
  keeps fs n sec off img img' ∧ same_table fs img img' ∧
  DIR_FileSize (entry_on img' sec off) = u32 size ∧
  ∀ c, in_volume n c → cluster_data fs img' c = cluster_data fs img c.
Proof.
  intros img'. destruct root_file_slot as [Hs _].
  destruct (root_slot_region _ _ _ _ Hv root_file_in) as [Hlow _].
  assert (Hb : Forall is_byte (le_bytes 4 size)) by apply le_bytes_byte.
  assert (Hlen : 28 + lenZ (le_bytes 4 size) <= 32) by (rewrite length_le_bytes; lia).
  split_and!.
  - split; [by apply (vol_ok_splice_entry Hv Hs)|by apply (length_splice_entry Hv Hs)|].
    intros. pose proof (data_nonneg (vol_geo _ _ _ Hv)).
    apply (slice_splice_entry Hv Hs); rewrite ?length_le_bytes; lia.
  - intros d Hd. by apply (fat_get_splice_entry Hv Hs).
  - unfold img'. rewrite (entry_on_splice_same Hv Hs) by (done || lia).
    cbn [DIR_FileSize dir_entry_of_bytes]. change 4 with (lenZ (le_bytes 4 size)) at 1.
    rewrite slice_splice_same by lia. by rewrite le_le_bytes.
  - intros c Hc. pose proof (cluster_in_image Hv c Hc). pose proof (geo_spc _ _ Hv).
    pose proof (data_nonneg (vol_geo _ _ _ Hv)). unfold cluster_data.
    apply (slice_splice_entry Hv Hs); rewrite ?length_le_bytes; lia.
Qed.
End keeping.

(** ** Storing data *)

Section storing.
Context `{Platform} {fs : FAT16} {n : Z}.
Implicit Types (img : image) (c : Z) (l : list Z).

Lemma put_bytes_ok img c x buffer pos k :
  vol_ok fs n img → in_volume n c → 0 <= k → 0 <= pos → pos + k <= lenZ buffer →
  put_bytes fs img (cluster_sector fs c) x buffer pos k =
    Ok (splice (cluster_sector fs c * 512 + x) (slice pos k buffer) img).
Proof.
  intros Hv Hc Hk Hp Hb. pose proof (cluster_in_image Hv c Hc). pose proof (geo_spc _ _ Hv).
  unfold put_bytes. rewrite (geo_bps _ _ Hv), int_offset_ok by lia. res_steps.
  by rewrite (proj2 (Z.leb_le 0 _)), (proj2 (Z.leb_le _ (lenZ buffer))) by lia.
Qed.

Lemma clusters_disjoint c c' :
  geometry fs n → in_volume n c → in_volume n c' → c ≠ c' →
  cluster_sector fs c + SecPerClus fs <= cluster_sector fs c' ∨
  cluster_sector fs c' + SecPerClus fs <= cluster_sector fs c.
Proof.
  intros Hg Hc Hc' Hne. unfold cluster_sector. pose proof (geo_spc _ _ Hg).
  destruct (Z.lt_total c c') as [Hlt|[Heq|Hlt]]; [left|done|right].
  - assert ((c - 2 + 1) * SecPerClus fs <= (c' - 2) * SecPerClus fs)
      by (apply Z.mul_le_mono_nonneg_r; lia). lia.
  - assert ((c' - 2 + 1) * SecPerClus fs <= (c - 2) * SecPerClus fs)
      by (apply Z.mul_le_mono_nonneg_r; lia). lia.
Qed.

(** A write that stays inside cluster [c]. *)
Lemma data_write_facts img c x d sec off :
  vol_ok fs n img → in_volume n c → 0 <= x → x + lenZ d <= 512 * SecPerClus fs →
  Forall is_byte d →
  let img' := splice (cluster_sector fs c * 512 + x) d img in
  keeps fs n sec off img img' ∧ same_table fs img img' ∧
  cluster_data fs img' c = splice x d (cluster_data fs img c) ∧
  ∀ c', in_volume n c' → c' ≠ c → cluster_data fs img' c' = cluster_data fs img c'.
Proof.
  intros Hv Hc Hx Hd Hb img'. pose proof (cluster_in_image Hv c Hc). pose proof (geo_spc _ _ Hv).
  pose proof (data_nonneg (vol_geo _ _ _ Hv)).
  assert (Hlen : length img' = length img) by (apply length_splice; lia).
  split_and!.
  - split; [|done|].
    + destruct Hv as [Hg Hl Hbytes]. split; [done|by rewrite Hlen|].
      apply Forall_splice; (done || lia).
    + intros. apply slice_splice_disjoint; lia.
  - intros e He. pose proof (fat_region img e Hv He).
    unfold fat_get, img'. rewrite slice_splice_disjoint by lia. done.
  - unfold cluster_data, img'. rewrite slice_splice_inside by lia. f_equal. lia.
  - intros c' Hc' Hne. pose proof (clusters_disjoint c c' Hv Hc Hc' (not_eq_sym Hne)).
    pose proof (cluster_in_image Hv c' Hc').
    apply slice_splice_disjoint; lia.
Qed.

Lemma chain_data_ext img img' l :
  (∀ c, c ∈ l → cluster_data fs img' c = cluster_data fs img c) →
  chain_data fs img' l = chain_data fs img l.
Proof.
  induction l as [|c l IH]; intros Hl; [done|]. unfold chain_data in *. rewrite !bind_cons, IH.
  - by rewrite Hl by apply list_elem_of_here.
  - intros. apply Hl. by apply list_elem_of_further.
Qed.

Lemma chain_data_cons img c l :
  chain_data fs img (c :: l) = cluster_data fs img c ++ chain_data fs img l.
Proof. done. Qed.

Lemma same_table_chain {stop} img img' c l :
  vol_ok fs n img → same_table fs img img' → chain stop fs n img c l → chain stop fs n img' c l.
Proof.
  intros Hv Ht Hl. eapply chain_frame; [done|]. intros d Hd. apply Ht.
  pose proof (chain_indices _ _ _ Hv Hl) as Hi. rewrite Forall_forall in Hi. by apply Hi.
Qed.

(** Data written over the start of a list. *)
Lemma splice_0 d (l : list Z) : lenZ d <= lenZ l → splice 0 d l = d ++ drop (length d) l.
Proof.
  intros Hd. rewrite <- (take_drop (length d) l) at 1.
  rewrite <- (app_nil_l (take _ _ ++ _)).
  rewrite splice_app_mid; [done|done|]. rewrite length_take. lia.
Qed.

(** The counting loop at the start of [write_path]. *)
Lemma count_clusters_ok img c l cnt last0 fuel :
  vol_ok fs n img → file_chain fs n img c l → (length l < fuel)%nat →
  count_clusters fs fuel img c cnt last0 = Ok (cnt + lenZ l, last l).
Proof.
  intros Hv Hl. revert cnt last0 fuel. induction Hl as [c Hc Hend|c l Hc Hnext Hl IH];
    intros cnt last0 fuel Hfuel; (destruct fuel as [|fuel]; [lia|]); cbn [count_clusters];
    pose proof (in_volume_index c Hv Hc) as Hi;
    (assert ((1 <? c) && (c <? 65528) = true) as -> by (destruct Hi; unfold in_volume in Hc; lia));
    rewrite (fat_entry_ok (n := n)) by done; res_steps.
  - unfold file_end in Hend.
    assert ((fat_get fs img c <=? 1) || (65528 <=? fat_get fs img c) = true) as -> by lia.
    destruct fuel as [|fuel]; [cbn [length] in Hfuel; lia|]. cbn [count_clusters].
    assert ((1 <? fat_get fs img c) && (fat_get fs img c <? 65528) = false) as -> by lia.
    cbn [length last]. do 2 f_equal.
  - cbn [length] in *. rewrite IH by lia. destruct (chain_head _ _ _ Hl) as [l' ->].
    do 2 f_equal. cbn [length]. lia.
Qed.
End storing.

(** ** [write_path] on a file of the root directory *)

Section writing.
Context `{Platform} {fs : FAT16} {n : Z} {base ext : list Z} {sec off : Z} {fuel : nat}.
Context (Hfuel : (dir_fuel fs n ≤ fuel)%nat).
Implicit Types (img : image) (c : Z) (l : list Z).
Local Abbreviation path := (path_of [] base ext).

(** One [fwrite] followed by [edit_size], inside one cluster. *)
Lemma write_step img D c x buffer pos k size :
  vol_ok fs n img → root_file fs img base ext sec off D → in_volume n c →
  0 <= x → 0 <= k → x + k <= 512 * SecPerClus fs → 0 <= pos → pos + k <= lenZ buffer →
  Forall is_byte buffer →
  ∃ img1 img2,
    put_bytes fs img (cluster_sector fs c) x buffer pos k = Ok img1 ∧
    edit_size fs fuel img1 path size = Ok (0, img2) ∧
    keeps fs n sec off img img2 ∧ same_table fs img img2 ∧
    DIR_FileSize (entry_on img2 sec off) = u32 size ∧
    cluster_data fs img2 c = splice x (slice pos k buffer) (cluster_data fs img c) ∧
    (∀ c', in_volume n c' → c' ≠ c → cluster_data fs img2 c' = cluster_data fs img c').
Proof.
  intros Hv Hf Hc Hx Hk Hfit Hpos Hbuf Hb. eexists _, _.
  split; [by eapply put_bytes_ok|]. set (d := slice pos k buffer).
  assert (Hd : lenZ d = k) by (unfold d; rewrite length_slice; lia).
  destruct (data_write_facts img c x d sec off Hv Hc Hx) as (K1 & T1 & E1 & O1);
    [lia|by apply Forall_slice|].
  set (img1 := splice _ d img) in *. pose proof (keeps_vol _ _ _ _ _ _ K1) as Hv1.
  destruct (root_file_keeps Hv Hf img1 K1) as [Hf1 _].
  split; [by apply (edit_size_root Hv1 Hf1)|].
  destruct (size_edit_facts Hv1 Hf1 size) as (K2 & T2 & S2 & O2).
  split_and!; [by eapply keeps_trans|by eapply same_table_trans|done|by rewrite O2|].
  intros c' Hc' Hne. rewrite O2 by done. by apply O1.
Qed.

Lemma write_loop_S k img path_pass size fat first buffer pos off2 :
  write_loop fs fuel (S k) img path_pass size fat first buffer pos off2 =
    let length := if decide (k = O) then s32 (size mod (SecPerClus fs * BytsPerSec fs))
                  else SecPerClus fs * BytsPerSec fs in
    img1 ← put_bytes fs img first 0 buffer pos length;
    '(_, img2) ← edit_size fs fuel img1 path_pass (u32 (off2 + length));
    fat' ← fat_entry_by_cluster fs img2 fat;
    write_loop fs fuel k img2 path_pass size fat' (first_sector fs fat)
      buffer (pos + length) (off2 + length).
Proof. by destruct k. Qed.

(** The last round of the loop stores what does not fill a cluster. *)
Lemma write_loop_last img D c size buffer pos off2 :
  vol_ok fs n img → root_file fs img base ext sec off D → in_volume n c →
  0 <= pos → 0 <= size → Forall is_byte buffer →
  let stored := size mod (512 * SecPerClus fs) in
  pos + stored <= lenZ buffer →
  ∃ img', write_loop fs fuel 1 img path size (fat_get fs img c) (cluster_sector fs c) buffer pos off2 = Ok img' ∧
    keeps fs n sec off img img' ∧ same_table fs img img' ∧
    DIR_FileSize (entry_on img' sec off) = u32 (off2 + stored) ∧
    cluster_data fs img' c = slice pos stored buffer ++ drop (Z.to_nat stored) (cluster_data fs img c) ∧
    (∀ c', in_volume n c' → c' ≠ c → cluster_data fs img' c' = cluster_data fs img c').
Proof.
  intros Hv Hf Hc Hpos Hsz Hb stored Hbuf. pose proof (geo_spc _ _ Hv) as Hspc.
  set (bpc := 512 * SecPerClus fs) in *. pose proof (Z.mod_pos_bound size bpc ltac:(lia)) as Hmod.
  assert (Ebpc : SecPerClus fs * BytsPerSec fs = bpc) by (rewrite (geo_bps _ _ Hv); lia).
  rewrite write_loop_S, Ebpc, (decide_True (P := 0%nat = 0%nat)) by done. cbn zeta. fold stored. fold stored in Hmod.
  rewrite s32_small by lia.
  destruct (write_step img D c 0 buffer pos stored (u32 (off2 + stored)))
    as (img1 & img2 & -> & E2 & K & T & S & DC & DO); try done; try lia.
  res_steps. res_step E2.
  destruct (fat_entry_total (keeps_vol _ _ _ _ _ _ K) (fat_get fs img c)) as [v ->]. res_steps.
  exists img2. split_and!; try done.
  - rewrite S. unfold u32. by rewrite Z.mod_mod by lia.
  - rewrite DC, splice_0; [rewrite length_slice by lia; done|].
    pose proof (length_cluster_data Hv c Hc). rewrite length_slice; lia.
Qed.

(** The data of a chain whose first cluster was filled before the rest was
    stored. *)
Lemma chain_data_filled img img' c l buffer pos rest :
  vol_ok fs n img → in_volume n c →
  let bpc := 512 * SecPerClus fs in
  0 <= pos → 0 <= rest → pos + (bpc + rest) <= lenZ buffer →
  cluster_data fs img' c = splice 0 (slice pos bpc buffer) (cluster_data fs img c) →
  chain_data fs img' l = slice (pos + bpc) rest buffer ++ drop (Z.to_nat rest) (chain_data fs img l) →
  chain_data fs img' (c :: l) =
    slice pos (bpc + rest) buffer ++ drop (Z.to_nat (bpc + rest)) (chain_data fs img (c :: l)).
Proof.
  intros Hv Hc bpc Hpos Hrest Hbuf Ec El. pose proof (geo_spc _ _ Hv).
  pose proof (length_cluster_data Hv c Hc) as Hlc. fold bpc in Hlc.
  rewrite !chain_data_cons, Ec, El.
  rewrite splice_0 by (rewrite length_slice; lia).
  rewrite length_slice by lia. rewrite drop_ge by lia. rewrite app_nil_r.
  rewrite (slice_app pos bpc rest), <- app_assoc by lia. f_equal. f_equal.
  rewrite drop_app_ge by lia. f_equal. lia.
Qed.

(** The loop over whole clusters, along a chain. *)
Lemma write_loop_ok {stop} l : ∀ img D c size buffer pos off2,
  vol_ok fs n img → root_file fs img base ext sec off D → chain stop fs n img c (c :: l) →
  0 <= pos → 0 <= size → Forall is_byte buffer →
  let stored := 512 * SecPerClus fs * lenZ l + size mod (512 * SecPerClus fs) in
  pos + stored <= lenZ buffer →
  ∃ img', write_loop fs fuel (length (c :: l)) img path size (fat_get fs img c)
      (cluster_sector fs c) buffer pos off2 = Ok img' ∧
    keeps fs n sec off img img' ∧ same_table fs img img' ∧
    DIR_FileSize (entry_on img' sec off) = u32 (off2 + stored) ∧
    chain_data fs img' (c :: l) =
      slice pos stored buffer ++ drop (Z.to_nat stored) (chain_data fs img (c :: l)) ∧
    (∀ c', in_volume n c' → c' ∉ c :: l → cluster_data fs img' c' = cluster_data fs img c').
Proof.
  induction l as [|c' l IH]; intros img D c size buffer pos off2 Hv Hf Hch Hpos Hsz Hb stored Hbuf;
    assert (Hc : in_volume n c) by (by inversion Hch);
    pose proof (geo_spc _ _ Hv) as Hspc; set (bpc := 512 * SecPerClus fs) in *;
    pose proof (Z.mod_pos_bound size bpc ltac:(lia)) as Hmod;
    assert (Ebpc : SecPerClus fs * BytsPerSec fs = bpc) by (rewrite (geo_bps _ _ Hv); lia);
    cbn [length].
  - destruct (write_loop_last img D c size buffer pos off2) as (img' & E & K & T & S & DC & DO); try done.
    { fold bpc. unfold stored in Hbuf. cbn [length] in Hbuf. lia. }
    fold bpc in S, DC. assert (Estored : stored = size mod bpc) by (unfold stored; cbn [length]; lia).
    exists img'. rewrite Estored, !chain_data_cons, !app_nil_r. split_and!; try done.
    intros d Hd Hne. apply DO; [done|set_solver].
  - rewrite write_loop_S, Ebpc, (decide_False (P := S (length l) = 0%nat)) by done. cbn zeta.
    assert (Hnd : c ∉ c' :: l) by (pose proof (chain_NoDup _ _ _ Hch) as Hnd; by inversion Hnd).
    assert (Hrest : chain stop fs n img c' (c' :: l) ∧ fat_get fs img c = c').
    { inversion Hch as [|? ? _ _ Hr]; subst. by inversion Hr; subst. }
    destruct Hrest as [Hrest Efat].
    assert (Hc' : in_volume n c') by (by inversion Hrest).
    assert (Estored : stored = bpc + (bpc * lenZ l + size mod bpc)) by (unfold stored; cbn [length]; lia).
    assert (0 <= bpc * lenZ l) by (apply Z.mul_nonneg_nonneg; lia).
    destruct (write_step img D c 0 buffer pos bpc (u32 (off2 + bpc)))
      as (img1 & img2 & -> & E2 & K & T & S & DC & DO); try done; try lia.
    res_steps. res_step E2. pose proof (keeps_vol _ _ _ _ _ _ K) as Hv2. rewrite Efat.
    rewrite (fat_entry_ok (n := n)) by (done || by eapply in_volume_index; [apply Hv2|]). res_steps.
    rewrite (first_sector_ok (n := n)) by (done || apply Hv).
    destruct (root_file_keeps Hv Hf img2 K) as [Hf2 _].
    destruct (IH img2 (entry_on img2 sec off) c' size buffer (pos + bpc) (off2 + bpc))
      as (img' & E' & K' & T' & S' & D' & O'); try done; [by apply (same_table_chain img)|lia|lia|].
    exists img'. split; [exact E'|]. split_and!.
    + by eapply keeps_trans.
    + by eapply same_table_trans.
    + rewrite S'. f_equal. lia.
    + rewrite Estored. apply chain_data_filled; [done|done|done|lia|fold bpc; lia| |].
      * by rewrite O', DC.
      * rewrite D'. f_equal. f_equal. apply (chain_data_ext img img2). intros d Hd. apply DO; [|set_solver].
        pose proof (chain_in_volume _ _ _ Hrest) as Hall. rewrite Forall_forall in Hall. by apply Hall.
    + intros d Hd Hne. apply not_elem_of_cons in Hne as [Hne1 Hne2].
      rewrite O' by done. by apply DO.
Qed.

(** [write_path] up to the stores, once the file has been found: [path1] is
    what the first [find_root] leaves of the path. *)
Lemma write_path_opened path0 path1 ret img D l lc size offset buffer :
  vol_ok fs n img → copy_path path0 = Ok path0 →
  find_root fs img fuel uninit_dir path0 = Ok (ret, D, path1) →
  file_chain fs n img (DIR_FstClusLO D) l → last l = Some lc →
  0 < size → 0 <= offset → size + offset < 2 ^ 31 →
  let bpc := 512 * SecPerClus fs in
  let ClusterRequired := (size + offset - 1) / bpc + 1 - lenZ l in
  write_path fs fuel img path0 size offset buffer =
    (img1 ← alloc_loop fs fuel (Z.to_nat ClusterRequired) img lc;
     FatClusEntryVal ← fat_entry_by_cluster fs img1 lc;
     img2 ←
       (if 0 <? ClusterRequired then
          '(_, Dir, _) ← find_root fs img1 fuel uninit_dir path1;
          if offset mod bpc =? 0 then
            write_at_boundary fs fuel img1 path0 size offset (DIR_FileSize Dir) lc
              FatClusEntryVal (cluster_sector fs lc) buffer
          else
            write_after_fill fs fuel img1 path0 size offset FatClusEntryVal
              (cluster_sector fs lc) buffer
        else write_in_place fs fuel img1 path0 size offset (cluster_sector fs lc) buffer);
     Ok (size, img2)).
Proof.
  intros Hv Ec E Hc Hlast Hs Ho Hbig bpc req. pose proof (geo_spc _ _ Hv).
  pose proof (chain_length _ _ _ Hc) as Hlen. unfold write_path.
  assert (Ebpc : SecPerClus fs * BytsPerSec fs = bpc) by (rewrite (geo_bps _ _ Hv); unfold bpc; lia).
  rewrite Ebpc. res_step Ec. res_step E.
  rewrite (count_clusters_ok (n := n) _ _ l) by (done ||
    (unfold dir_fuel in Hfuel; assert (1 * n <= 16 * SecPerClus fs * n)
       by (apply Z.mul_le_mono_nonneg_r; lia); lia)).
  res_steps. rewrite Hlast.
  assert (Hlc : in_volume n lc).
  { pose proof (chain_in_volume _ _ _ Hc) as Hall. rewrite Forall_forall in Hall.
    apply Hall. by apply last_Some_elem_of. }
  destruct (fat_entry_total Hv lc) as [v ->]. res_steps.
  rewrite (proj2 (Z.eqb_neq bpc 0)) by (unfold bpc; lia). cbn [negb]. res_steps.
  assert (0 <= (size + offset - 1) / bpc < 2 ^ 31).
  { split; [apply Z.div_pos; unfold bpc; lia|].
    apply Z.div_lt_upper_bound; unfold bpc; [lia|]. nia. }
  assert ((size + offset - 1) / bpc + 1 < 2 ^ 31).
  { assert ((size + offset - 1) / bpc <= 2 ^ 31 - 2); [|lia].
    apply Z.div_le_upper_bound; unfold bpc; [lia|]. nia. }
  rewrite (u64_small (size + offset - 1)), (s32_small ((size + offset - 1) / bpc + 1)) by lia.
  rewrite (s32_small size) by lia. rewrite Z.add_0_l. fold req.
  rewrite Z.rem_mod_nonneg by (unfold bpc; lia).
  rewrite (first_sector_ok (n := n)) by (done || apply Hv). done.
Qed.

(** The data fits the clusters that are there. *)
Lemma write_path_fits path0 path1 ret img D l lc buffer offset :
  vol_ok fs n img → copy_path path0 = Ok path0 →
  find_root fs img fuel uninit_dir path0 = Ok (ret, D, path1) →
  file_chain fs n img (DIR_FstClusLO D) l → last l = Some lc →
  0 < lenZ buffer → 0 <= offset → lenZ buffer + offset < 2 ^ 31 →
  let bpc := 512 * SecPerClus fs in
  lenZ buffer + offset <= bpc * lenZ l →
  write_path fs fuel img path0 (lenZ buffer) offset buffer =
    (img1 ← put_bytes fs img (cluster_sector fs lc) (offset mod bpc) buffer 0 (lenZ buffer);
     '(_, img2) ← edit_size fs fuel img1 path0 (u32 (offset + lenZ buffer));
     Ok (lenZ buffer, img2)) ∧ in_volume n lc.
Proof.
  intros Hv Ecopy Eopen Hc Hlast Hb1 Ho Hbig bpc Hcap. pose proof (geo_spc _ _ Hv).
  rewrite (write_path_opened path0 path1 ret img D l lc) by (done || lia). fold bpc.
  assert (Hreq : (lenZ buffer + offset - 1) / bpc + 1 - lenZ l <= 0).
  { assert ((lenZ buffer + offset - 1) / bpc < lenZ l); [|lia].
    apply Z.div_lt_upper_bound; unfold bpc in *; lia. }
  replace (Z.to_nat _) with O by lia. cbn [alloc_loop]. res_steps.
  destruct (fat_entry_total Hv lc) as [v ->]. res_steps.
  rewrite (proj2 (Z.ltb_ge 0 _)) by done. split.
  - unfold write_in_place. rewrite (geo_bps _ _ Hv).
    replace (SecPerClus fs * 512) with bpc by (unfold bpc; lia).
    rewrite Z.rem_mod_nonneg by (unfold bpc; lia). rewrite (s32_small (lenZ buffer)) by lia.
    destruct (put_bytes _ _ _ _ _ _ _); res_steps; [|done..].
    by destruct (edit_size _ _ _ _ _) as [[? ?]| | |]; res_steps.
  - pose proof (chain_in_volume _ _ _ Hc) as Hall. rewrite Forall_forall in Hall.
    apply Hall. by apply last_Some_elem_of.
Qed.

(** In the root directory the path is left whole. *)
Lemma root_file_opened img D :
  vol_ok fs n img → root_file fs img base ext sec off D →
  copy_path path = Ok path ∧ find_root fs img fuel uninit_dir path = Ok (0, D, path).
Proof.
  intros Hv Hf. pose proof (root_file_lookup (n := n) Hf) as Hl. destruct Hf as [Hp Hshort _ _ _ _].
  destruct (parent_of_path [] (spell base ext)) as [Ec _]; [apply Hp|done|].
  destruct (find_root_path Hv [] base ext (Some D) uninit_dir fuel Hp Hl Hfuel) as (D' & E & HD).
  by rewrite (HD D eq_refl) in E.
Qed.

Lemma write_path_found img D l lc size offset buffer :
  vol_ok fs n img → root_file fs img base ext sec off D →
  file_chain fs n img (DIR_FstClusLO D) l → last l = Some lc →
  0 < size → 0 <= offset → size + offset < 2 ^ 31 →
  let bpc := 512 * SecPerClus fs in
  let ClusterRequired := (size + offset - 1) / bpc + 1 - lenZ l in
  write_path fs fuel img path size offset buffer =
    (img1 ← alloc_loop fs fuel (Z.to_nat ClusterRequired) img lc;
     FatClusEntryVal ← fat_entry_by_cluster fs img1 lc;
     img2 ←
       (if 0 <? ClusterRequired then
          '(_, Dir, _) ← find_root fs img1 fuel uninit_dir path;
          if offset mod bpc =? 0 then
            write_at_boundary fs fuel img1 path size offset (DIR_FileSize Dir) lc
              FatClusEntryVal (cluster_sector fs lc) buffer
          else
            write_after_fill fs fuel img1 path size offset FatClusEntryVal
              (cluster_sector fs lc) buffer
        else write_in_place fs fuel img1 path size offset (cluster_sector fs lc) buffer);
     Ok (size, img2)).
Proof.
  intros Hv Hf Hc Hlast. destruct (root_file_opened img D Hv Hf) as [Ec E]. by apply (write_path_opened path path _ img D l lc) with (1 := Hv) (3 := E).
Qed.

Lemma splice_app_r (a b d : list Z) x :
  0 <= x → x + lenZ d <= lenZ b → splice (lenZ a + x) d (a ++ b) = a ++ splice x d b.
Proof.
  intros Hx Hd. apply list_eq. intros i. rewrite lookup_splice by (rewrite ?length_app; lia).
  destruct (decide (i < length a)%nat).
  - rewrite !lookup_app_l by lia. rewrite decide_False; [done|lia].
  - rewrite !lookup_app_r by lia. rewrite lookup_splice by lia.
    repeat case_decide; try lia; f_equal; lia.
Qed.

(** A write inside the last cluster of a chain, seen on the whole chain. *)
Lemma chain_data_last {stop} img img' c l l0 lc x d :
  vol_ok fs n img → chain stop fs n img c l → l = l0 ++ [lc] →
  0 <= x → x + lenZ d <= 512 * SecPerClus fs →
  cluster_data fs img' lc = splice x d (cluster_data fs img lc) →
  (∀ c', c' ∈ l → in_volume n c' → c' ≠ lc → cluster_data fs img' c' = cluster_data fs img c') →
  chain_data fs img' l = splice (512 * SecPerClus fs * (lenZ l - 1) + x) d (chain_data fs img l).
Proof.
  intros Hv Hc -> Hx Hd Hlast Hother. pose proof (chain_in_volume _ _ _ Hc) as Hvol.
  pose proof (chain_NoDup _ _ _ Hc) as Hnd.
  apply Forall_app in Hvol as [Hvol0 Hvol1]. apply NoDup_app in Hnd as (_ & Hnd & _).
  pose proof (length_chain_data Hv _ Hvol0) as Hl0.
  assert (Hlc : in_volume n lc) by (by inversion Hvol1).
  pose proof (length_cluster_data Hv lc Hlc).
  unfold chain_data in *. rewrite !bind_app. cbn [mbind list_bind]. rewrite !app_nil_r, Hlast.
  rewrite length_app. cbn [length].
  replace (512 * SecPerClus fs * (Z.of_nat (length l0 + 1) - 1) + x)
    with (lenZ (l0 ≫= cluster_data fs img) + x) by lia.
  rewrite splice_app_r by lia. f_equal.
  apply (chain_data_ext img img' l0). intros d0 Hd0. apply Hother.
  - apply elem_of_app. by left.
  - rewrite Forall_forall in Hvol0. by apply Hvol0.
  - intros ->. apply (Hnd _ Hd0), list_elem_of_here.
Qed.

Lemma write_in_place_ok img D l lc buffer offset :
  vol_ok fs n img → root_file fs img base ext sec off D →
  file_chain fs n img (DIR_FstClusLO D) l → last l = Some lc →
  0 < lenZ buffer → Forall is_byte buffer → 0 <= offset →
  let bpc := 512 * SecPerClus fs in
  lenZ buffer + offset <= bpc * lenZ l → offset mod bpc + lenZ buffer <= bpc →
  lenZ buffer + offset < 2 ^ 31 →
  ∃ img', fat16_write fs fuel img path (lenZ buffer) offset buffer = Ok (lenZ buffer, img') ∧
    keeps fs n sec off img img' ∧ same_table fs img img' ∧
    DIR_FileSize (entry_on img' sec off) = offset + lenZ buffer ∧
    chain_data fs img' l = splice (bpc * (lenZ l - 1) + offset mod bpc) buffer (chain_data fs img l) ∧
    (∀ c, in_volume n c → c ≠ lc → cluster_data fs img' c = cluster_data fs img c).
Proof.
  intros Hv Hf Hc Hlast Hb1 Hb Ho bpc Hcap Hfit Hbig. pose proof (geo_spc _ _ Hv).
  unfold fat16_write. destruct (root_file_opened img D Hv Hf) as [Ec E].
  destruct (write_path_fits path path 0 img D l lc buffer offset) as [-> Hlc]; try (done || lia). fold bpc.
  pose proof (Z.mod_pos_bound offset bpc ltac:(unfold bpc; lia)).
  destruct (write_step img D lc (offset mod bpc) buffer 0 (lenZ buffer) (u32 (offset + lenZ buffer)))
    as (img1 & img2 & -> & E2 & K & T & S & DC & DO); try (done || lia).
  res_steps. res_step E2. exists img2. split_and!; try done.
  - rewrite S. rewrite !u32_small by (rewrite ?u32_small; lia). done.
  - rewrite slice_all in DC. apply last_Some in Hlast as [l0 ->].
    eapply (chain_data_last img); [done|done|done|lia|done|done|]. intros. by apply DO.
Qed.

(** A write that needs no new cluster always goes to the last cluster of
    the file, at the offset modulo the cluster size, and sets the file's size
    to the end of the written range. That is the right place exactly when the
    offset lies in the last cluster; a write further in front is misplaced,
    and any overwrite of the middle of a file truncates it. Directory, tables
    and other files keep their contents. *)
Theorem fat16_write_in_place img D l lc buffer offset :
  vol_ok fs n img → root_file fs img base ext sec off D →
  file_chain fs n img (DIR_FstClusLO D) l → last l = Some lc →
  0 < lenZ buffer → Forall is_byte buffer → 0 <= offset →
  let bpc := 512 * SecPerClus fs in
  lenZ buffer + offset <= bpc * lenZ l → offset mod bpc + lenZ buffer <= bpc →
  lenZ buffer + offset < 2 ^ 31 →
  ∃ img', fat16_write fs fuel img path (lenZ buffer) offset buffer = Ok (lenZ buffer, img') ∧
    keeps fs n sec off img img' ∧ same_table fs img img' ∧
    DIR_FileSize (entry_on img' sec off) = offset + lenZ buffer ∧
    chain_data fs img' l = splice (bpc * (lenZ l - 1) + offset mod bpc) buffer (chain_data fs img l) ∧
    (∀ c, in_volume n c → c ≠ lc → cluster_data fs img' c = cluster_data fs img c).
Proof. apply write_in_place_ok. Qed.

(** What is written inside the last cluster of a file is read back: a
    read of the same range returns the bytes written. *)
Theorem write_then_read img D l lc buffer offset :
  vol_ok fs n img → root_file fs img base ext sec off D →
  file_chain fs n img (DIR_FstClusLO D) l → last l = Some lc →
  0 < lenZ buffer → Forall is_byte buffer →
  let bpc := 512 * SecPerClus fs in
  let total := lenZ buffer + offset in
  bpc * (lenZ l - 1) <= offset → total <= bpc * lenZ l → total < 2 ^ 31 - 512 →
  512 * sectors_of total <= malloc_usable total →
  ∃ img', fat16_write fs fuel img path (lenZ buffer) offset buffer = Ok (lenZ buffer, img') ∧
    fat16_read fs fuel img' path (lenZ buffer) offset = Ok (lenZ buffer, buffer).
Proof.
  intros Hv Hf Hc Hlast Hb1 Hb bpc total Hlow Hcap Hbig Hm. pose proof (geo_spc _ _ Hv).
  assert (Hl1 : 1 <= lenZ l) by (destruct (chain_head _ _ _ Hc) as [? ->]; cbn [length]; lia).
  assert (0 <= bpc * (lenZ l - 1)) by (apply Z.mul_nonneg_nonneg; unfold bpc; lia).
  assert (Hmod : offset mod bpc = offset - bpc * (lenZ l - 1)).
  { symmetry. apply (Z.mod_unique_pos _ _ (lenZ l - 1)); unfold total in *; lia. }
  destruct (write_in_place_ok img D l lc buffer offset) as (img' & Hw & K & T & S & DC & _);
    try (done || (fold bpc; unfold total in *; lia)).
  exists img'. split; [done|]. destruct (root_file_keeps Hv Hf img' K) as [Hf' (_ & _ & Eclus)].
  pose proof (keeps_vol _ _ _ _ _ _ K) as Hv'.
  pose proof (same_table_chain img img' _ _ Hv T Hc) as Hc'. rewrite <- Eclus in Hc'.
  unfold fat16_read. fold total in Hm.
  rewrite (read_path_found (stop := file_end) Hv' [] base ext (entry_on img' sec off) l)
    by (done || apply Hf' || (by eapply root_file_lookup) || (unfold total, bpc in *; lia)).
  change (lenZ buffer + offset) with total. rewrite (proj2 (Z.leb_le _ _)) by done.
  rewrite S. rewrite (proj2 (Z.ltb_lt _ _)) by lia. do 2 f_equal.
  fold bpc in DC. rewrite DC, Hmod. replace (bpc * (lenZ l - 1) + _) with offset by lia.
  apply slice_splice_same. lia.
Qed.

(** What the last store of the loop leaves out: nothing, or a whole block
    when the data ends on a block boundary. *)
Lemma stored_bytes s b f :
  0 < b → (s - 1) / b = f →
  b * f + s mod b = if decide (s mod b = 0) then s - b else s.
Proof.
  intros Hb <-. pose proof (Z.div_mod s b ltac:(lia)). pose proof (Z.mod_pos_bound s b Hb).
  case_decide as E.
  - assert ((s - 1) / b = s / b - 1) as ->; [|lia].
    symmetry. apply (Z.div_unique_pos _ _ _ (b - 1)); lia.
  - assert ((s - 1) / b = s / b) as ->; [|lia].
    symmetry. apply (Z.div_unique_pos _ _ _ (s mod b - 1)); lia.
Qed.

Lemma blocks_bounds s b f :
  512 <= b → 1 <= f → s < 2 ^ 31 → (s - 1) / b = f → b < s ∧ f + 1 < 2 ^ 31.
Proof.
  intros Hb Hf Hs E. pose proof (Z.div_mod (s - 1) b ltac:(lia)).
  pose proof (Z.mod_pos_bound (s - 1) b ltac:(lia)).
  assert (b * 1 <= b * f) by (apply Z.mul_le_mono_nonneg_l; lia).
  assert (512 * f <= b * f) by (apply Z.mul_le_mono_nonneg_r; lia). lia.
Qed.

(** Linking new clusters behind a chain leaves the entry of a file alone. *)
Lemma root_file_linked img D c fl :
  vol_ok fs n img → root_file fs img base ext sec off D → in_volume n c → free_run fs n img c fl →
  let img1 := link_all fs c fl img in
  keeps fs n sec off img img1 ∧ root_file fs img1 base ext sec off D ∧ entry_on img1 sec off = D.
Proof.
  intros Hv Hf Hc Hr. destruct (link_all_facts img c fl Hv Hc Hr) as (Hv1 & Hl1 & _ & Hdata1 & _).
  assert (K1 : keeps fs n sec off img (link_all fs c fl img)) by (split; [done|done|intros; by apply Hdata1]).
  destruct (root_file_keeps Hv Hf _ K1) as [Hf1 _]. destruct (root_file_slot Hv Hf) as [Hs HD].
  assert (HD1 : entry_on (link_all fs c fl img) sec off = D).
  { rewrite HD. unfold entry_on, BYTES_PER_DIR. rewrite Hdata1; [done|apply Hs|lia]. }
  by rewrite HD1 in Hf1.
Qed.

(** A new file: one cluster, size 0, and more data than fits a cluster. *)
Lemma write_new_file_ok img D fl buffer :
  vol_ok fs n img → root_file fs img base ext sec off D → DIR_FileSize D = 0 →
  file_chain fs n img (DIR_FstClusLO D) [DIR_FstClusLO D] → Forall is_byte buffer →
  lenZ buffer < 2 ^ 31 → fl ≠ [] → free_run fs n img (DIR_FstClusLO D) fl →
  let bpc := 512 * SecPerClus fs in
  (lenZ buffer - 1) / bpc = lenZ fl →
  let stored := bpc * lenZ fl + lenZ buffer mod bpc in
  ∃ img', fat16_write fs fuel img path (lenZ buffer) 0 buffer = Ok (lenZ buffer, img') ∧
    vol_ok fs n img' ∧ file_chain fs n img' (DIR_FstClusLO D) (DIR_FstClusLO D :: fl) ∧
    DIR_FileSize (entry_on img' sec off) = stored ∧
    slice 0 stored (chain_data fs img' (DIR_FstClusLO D :: fl)) = slice 0 stored buffer.
Proof.
  intros Hv Hf H0 Hc Hb Hbig Hne Hr bpc Hcount stored. set (c := DIR_FstClusLO D) in *.
  pose proof (geo_spc _ _ Hv). assert (Hbpc : 512 <= bpc) by (unfold bpc; lia).
  assert (Hfl : 1 <= lenZ fl) by (destruct fl; [done|cbn [length]; lia]).
  pose proof (blocks_bounds (lenZ buffer) bpc (lenZ fl) Hbpc Hfl Hbig Hcount).
  pose proof (stored_bytes (lenZ buffer) bpc (lenZ fl) ltac:(lia) Hcount) as Hst. fold stored in Hst.
  assert (Hstored : 0 <= stored <= lenZ buffer) by (rewrite Hst; case_decide; lia).
  assert (Hcv : in_volume n c) by (by inversion Hc).
  destruct (link_all_facts img c fl Hv Hcv Hr) as (Hv1 & Hl1 & Hfat1 & Hdata1 & Hch1 & _).
  destruct (root_file_linked img D c fl Hv Hf Hcv Hr) as (_ & Hf1 & _).
  set (img1 := link_all fs c fl img) in *. unfold fat16_write.
  rewrite (write_path_found img D [c] c) by (done || lia). fold bpc.
  rewrite Z.add_0_r, Hcount. cbn [length]. change (Z.of_nat 1) with 1.
  replace (lenZ fl + 1 - 1) with (lenZ fl) by lia.
  rewrite Nat2Z.id, (alloc_loop_ok (n := n)); [|done|done|done|done|].
  2:{ unfold dir_fuel in Hfuel. assert (1 * n <= 16 * SecPerClus fs * n)
        by (apply Z.mul_le_mono_nonneg_r; [destruct (vol_geo _ _ _ Hv)|]; lia). lia. }
  res_steps. fold img1.
  rewrite (fat_entry_ok (n := n)) by (done || by eapply in_volume_index; [apply Hv|]). res_steps.
  rewrite (proj2 (Z.ltb_lt _ _)) by lia.
  destruct (find_root_path Hv1 [] base ext (Some D) uninit_dir fuel (rf_path _ _ _ _ _ _ _ Hf)
    (root_file_lookup (n := n) Hf1) Hfuel) as (D' & E & HD').
  rewrite (HD' D eq_refl) in E. res_step E. rewrite Z.mod_0_l by lia. cbn [Z.eqb].
  unfold write_at_boundary. rewrite H0. cbn [Z.eqb negb].
  assert (Ecnt : ClustReqCnt_of fs (lenZ buffer) = lenZ fl + 1).
  { unfold ClustReqCnt_of. rewrite (geo_bps _ _ Hv), u64_small by lia.
    replace (SecPerClus fs * 512) with bpc by (unfold bpc; lia). rewrite Hcount.
    apply s32_small. lia. }
  rewrite Ecnt. replace (Z.to_nat (lenZ fl + 1)) with (length (c :: fl)) by (cbn [length]; lia).
  destruct (write_loop_ok (stop := file_end) fl img1 D c (lenZ buffer) buffer 0 0)
    as (img' & -> & K & T & S & DC & DO); try (done || lia).
  { fold bpc. fold stored. lia. }
  fold bpc in S, DC. fold stored in S, DC. res_steps. exists img'. split; [done|]. split_and!.
  - by destruct K.
  - by eapply same_table_chain.
  - rewrite S, Z.add_0_l. apply u32_small. lia.
  - rewrite DC. unfold slice at 1. rewrite drop_0.
    rewrite take_app_length'; [done|]. rewrite length_slice; lia.
Qed.

(** Writing a file for the first time, with more data than one cluster
    holds, appends the next free clusters to its chain (in ascending order,
    closing it with 0xffff), stores the data along the chain and sets the
    size, provided the data does not end on a cluster boundary. *)
Theorem fat16_write_new_file img D fl buffer :
  vol_ok fs n img → root_file fs img base ext sec off D → DIR_FileSize D = 0 →
  file_chain fs n img (DIR_FstClusLO D) [DIR_FstClusLO D] → Forall is_byte buffer →
  lenZ buffer < 2 ^ 31 → fl ≠ [] → free_run fs n img (DIR_FstClusLO D) fl →
  let bpc := 512 * SecPerClus fs in
  (lenZ buffer - 1) / bpc = lenZ fl → lenZ buffer mod bpc ≠ 0 →
  ∃ img', fat16_write fs fuel img path (lenZ buffer) 0 buffer = Ok (lenZ buffer, img') ∧
    vol_ok fs n img' ∧ file_chain fs n img' (DIR_FstClusLO D) (DIR_FstClusLO D :: fl) ∧
    DIR_FileSize (entry_on img' sec off) = lenZ buffer ∧
    slice 0 (lenZ buffer) (chain_data fs img' (DIR_FstClusLO D :: fl)) = buffer.
Proof.
  intros Hv Hf H0 Hc Hb Hbig Hne Hr bpc Hcount Hmod.
  destruct (write_new_file_ok img D fl buffer) as (img' & Hw & Hv' & Hch & Hsize & Hdata); try done.
  fold bpc in Hsize, Hdata. pose proof (geo_spc _ _ Hv).
  assert (E : bpc * lenZ fl + lenZ buffer mod bpc = lenZ buffer).
  { rewrite stored_bytes by (done || (unfold bpc; lia)). by rewrite decide_False. }
  rewrite E in Hsize, Hdata. exists img'. split_and!; try done. by rewrite Hdata, slice_all.
Qed.

(** When the data fills its clusters exactly, the last of them is not
    written: the length of the last store is the size modulo the cluster size,
    which is 0. The call still returns the full size, and the size recorded
    for the file is one cluster short. *)
Theorem fat16_write_drops_last_cluster img D fl buffer :
  vol_ok fs n img → root_file fs img base ext sec off D → DIR_FileSize D = 0 →
  file_chain fs n img (DIR_FstClusLO D) [DIR_FstClusLO D] → Forall is_byte buffer →
  lenZ buffer < 2 ^ 31 → fl ≠ [] → free_run fs n img (DIR_FstClusLO D) fl →
  let bpc := 512 * SecPerClus fs in
  (lenZ buffer - 1) / bpc = lenZ fl → lenZ buffer mod bpc = 0 →
  ∃ img', fat16_write fs fuel img path (lenZ buffer) 0 buffer = Ok (lenZ buffer, img') ∧
    DIR_FileSize (entry_on img' sec off) = lenZ buffer - bpc.
Proof.
  intros Hv Hf H0 Hc Hb Hbig Hne Hr bpc Hcount Hmod.
  destruct (write_new_file_ok img D fl buffer) as (img' & Hw & Hv' & Hch & Hsize & Hdata); try done.
  fold bpc in Hsize. pose proof (geo_spc _ _ Hv).
  exists img'. split; [done|]. rewrite Hsize, stored_bytes by (done || (unfold bpc; lia)).
  by rewrite decide_True.
Qed.
End writing.
