(* ===== verification/Append.v ===== *)
(** * Appending to a file

    [write_path] of lab4/simple_fat16_new.c when the data does not fit the
    clusters a file has: the clusters are allocated first and the data is then
    stored in one of three ways. This file shows that all three do the same. *)

From Stdlib Require Import Lia.
From stdpp Require Import base numbers option sets list.
From S2P Require Import Prelude Bytes CString Names Volume Directory Namespace FileIO.
Local Open Scope Z_scope.

(** ** Longer chains *)

Section chains.
Context `{Platform} {fs : FAT16} {n : Z}.
Implicit Types (img : image) (c f : Z) (l fl : list Z).

Lemma free_run_above img c fl : free_run fs n img c fl →
  Forall (λ f, c < f ∧ in_volume n f ∧ fat_get fs img f = 0) fl.
Proof.
  induction 1 as [c|c f l Hf (Hlt & Hz & _) _ IH]; [apply Forall_nil_2|].
  apply Forall_cons_2; [done|]. forall_impl IH. intuition lia.
Qed.

(** A chain whose last cluster has become the head of another one. *)
Lemma chain_extend img img' c l0 lc l1 :
  file_chain fs n img c (l0 ++ [lc]) → file_chain fs n img' lc l1 →
  (∀ d, d ∈ l0 → fat_get fs img' d = fat_get fs img d) →
  file_chain fs n img' c (l0 ++ l1).
Proof.
  intros Hc H1. revert c Hc. induction l0 as [|x l0 IH]; intros c Hc Hd.
  - inversion Hc as [? ? ?|? ? ? ? Hr]; subst; [done|by inversion Hr].
  - inversion Hc as [? ? ? E|? ? Hx Hne Hr]; subst; [by destruct l0|].
    cbn [app]. pose proof (Hd x (list_elem_of_here _ _)) as E.
    apply chain_more; rewrite ?E; [done..|]. apply IH; [done|].
    intros d Hin. apply Hd. by apply list_elem_of_further.
Qed.

(** All clusters of a chain but the last are in use. *)
Lemma chain_used img c l0 lc d :
  file_chain fs n img c (l0 ++ [lc]) → d ∈ l0 → fat_get fs img d ≠ 0.
Proof.
  revert c. induction l0 as [|x l0 IH]; intros c Hc Hd; [by inversion Hd|].
  inversion Hc as [? ? ? E|? ? Hx Hne Hr]; subst; [by destruct l0|].
  apply elem_of_cons in Hd as [->|Hd]; [|by eapply IH].
  unfold file_end in Hne. lia.
Qed.

(** All clusters of a directory are in use. *)
Lemma dir_chain_used img c l d : dir_chain fs n img c l → d ∈ l → fat_get fs img d ≠ 0.
Proof.
  unfold dir_end. induction 1 as [c Hc Hend|c l Hc Hne Hl IH]; intros Hd.
  - apply list_elem_of_singleton in Hd as ->. lia.
  - apply elem_of_cons in Hd as [->|Hd]; [|by apply IH].
    assert (in_volume n (fat_get fs img c)) as [Hv0 _] by by inversion Hl. lia.
Qed.

(** The free clusters [fl] appended behind the last cluster of a chain. *)
Lemma link_chain img c l0 lc fl :
  vol_ok fs n img → file_chain fs n img c (l0 ++ [lc]) → free_run fs n img lc fl →
  file_chain fs n (link_all fs lc fl img) c (l0 ++ lc :: fl) ∧ NoDup (l0 ++ lc :: fl) ∧
  Forall (in_volume n) (l0 ++ lc :: fl).
Proof.
  intros Hv Hc Hr. pose proof (chain_in_volume _ _ _ Hc) as Hvol.
  apply Forall_app in Hvol as [Hvol0 Hvol1].
  assert (Hlc : in_volume n lc) by (by inversion Hvol1).
  destruct (link_all_facts img lc fl Hv Hlc Hr) as (Hv1 & _ & Hfat & _ & Hch & _).
  assert (Hch' : file_chain fs n (link_all fs lc fl img) c (l0 ++ lc :: fl)).
  { eapply chain_extend; [exact Hc|exact Hch|]. intros d Hd. rewrite Forall_forall in Hvol0.
    apply Hfat; [eapply in_volume_index; [apply Hv|by apply Hvol0]|]. intros Hin.
    pose proof (chain_NoDup _ _ _ Hc) as (_ & Hnd & _)%NoDup_app.
    apply elem_of_cons in Hin as [->|Hin]; [by apply (Hnd _ Hd), list_elem_of_here|].
    pose proof (free_run_above _ _ _ Hr) as Hz. rewrite Forall_forall in Hz.
    apply (chain_used _ _ _ _ _ Hc Hd). by apply Hz. }
  split_and!; [done|by eapply chain_NoDup|by eapply chain_in_volume].
Qed.
End chains.

(** ** The three ways of storing *)

(** What a write that extends a file leaves as it was: all table entries and
    all clusters but [touched], and of the root directory all but one size. *)
Record extends (fs : FAT16) (n sec off : Z) (touched : list Z) (img img' : image) : Prop := {
  ext_keeps : keeps fs n sec off img img';
  ext_table : ∀ d, fat_index fs d → d ∉ touched → fat_get fs img' d = fat_get fs img d;
  ext_data : ∀ c, in_volume n c → c ∉ touched → cluster_data fs img' c = cluster_data fs img c
}.

Section appending.
Context `{Platform} {fs : FAT16} {n : Z} {base ext : list Z} {sec off : Z} {fuel : nat}.
Context (Hfuel : (dir_fuel fs n ≤ fuel)%nat).
Implicit Types (img : image) (c : Z) (l : list Z).
Local Abbreviation path := (path_of [] base ext).
Local Abbreviation bpc := (512 * SecPerClus fs).

(** How much of a given size the store reaches: data that ends on a cluster
    boundary loses its last cluster. *)
Local Definition reached (size : Z) : Z := if decide (size mod bpc = 0) then size - bpc else size.

Lemma slice_join k m (l : list Z) :
  0 <= k → 0 <= m → slice 0 k l ++ slice k m l = take (Z.to_nat (k + m)) l.
Proof.
  intros. unfold slice. change (Z.to_nat 0) with O. rewrite drop_0, take_take_drop. f_equal. lia.
Qed.

Local Lemma reached_bounds size : 0 < bpc → 0 < size → 0 <= reached size <= size.
Proof.
  intros Hp Hs. unfold reached. case_decide as E; [|lia].
  apply Z.div_exact in E; [|lia]. assert (1 <= size / bpc) by nia. nia.
Qed.

(** The loop writes [buffer] from [pos] on over the clusters [f :: fl]. *)
Lemma write_loop_rest img D f fl buffer pos off2 :
  vol_ok fs n img → root_file fs img base ext sec off D → file_chain fs n img f (f :: fl) →
  0 <= pos → Forall is_byte buffer → 0 <= off2 →
  let size := lenZ buffer - pos in
  0 < size → (size - 1) / bpc = lenZ fl → off2 + size < 2 ^ 31 →
  ∃ img' rest, write_loop fs fuel (length (f :: fl)) img path size (fat_get fs img f)
      (cluster_sector fs f) buffer pos off2 = Ok img' ∧
    keeps fs n sec off img img' ∧ same_table fs img img' ∧
    DIR_FileSize (entry_on img' sec off) = off2 + reached size ∧
    chain_data fs img' (f :: fl) = slice pos (reached size) buffer ++ rest ∧
    (∀ c, in_volume n c → c ∉ f :: fl → cluster_data fs img' c = cluster_data fs img c).
Proof.
  intros Hv Hf Hc Hpos Hb Ho size Hs Hcnt Hbig. pose proof (geo_spc _ _ Hv).
  pose proof (stored_bytes Hfuel size bpc (lenZ fl) ltac:(lia) Hcnt) as Est. fold (reached size) in Est.
  pose proof (reached_bounds size ltac:(lia) Hs).
  destruct (write_loop_ok (sec := sec) (off := off) (base := base) (ext := ext) Hfuel (stop := file_end)
    fl img D f size buffer pos off2)
    as (img' & E & K & T & S & DC & DO); try (done || lia).
  rewrite Est in S, DC. exists img', (drop (Z.to_nat (reached size)) (chain_data fs img (f :: fl))).
  split_and!; [done|done|done| |done|done].
  rewrite S. apply u32_small. lia.
Qed.

Context {img : image} {D : DIR_ENTRY} {l0 fl : list Z} {lc : Z} {buffer : list Z}.
Context (Hv : vol_ok fs n img) (Hf : root_file fs img base ext sec off D).
Context (Hc : file_chain fs n img (DIR_FstClusLO D) (l0 ++ [lc])).
Context (Hr : free_run fs n img lc fl) (Hb : Forall is_byte buffer).
Local Abbreviation offset := (DIR_FileSize D).
Context (Hlow : offset = 0 ∧ l0 = [] ∨ bpc * lenZ l0 < offset) (Hhigh : offset <= bpc * (lenZ l0 + 1)).
Context (Hlast : (lenZ buffer + offset - 1) / bpc = lenZ l0 + lenZ fl) (Hfl : fl ≠ []).
Context (Hbig : lenZ buffer + offset < 2 ^ 31).
Local Abbreviation kept := (reached (lenZ buffer + offset)).

Local Lemma bpc_pos : 512 <= bpc.
Proof. pose proof (geo_spc _ _ Hv). lia. Qed.

Local Lemma fl_pos : 1 <= lenZ fl.
Proof. destruct fl; [done|cbn [length]; lia]. Qed.

(** The data ends in the last of the new clusters. *)
Local Lemma total_bounds :
  bpc * (lenZ l0 + lenZ fl) < lenZ buffer + offset <= bpc * (lenZ l0 + lenZ fl + 1).
Proof.
  pose proof bpc_pos. pose proof (Z.div_mod (lenZ buffer + offset - 1) bpc ltac:(lia)) as E.
  pose proof (Z.mod_pos_bound (lenZ buffer + offset - 1) bpc ltac:(lia)).
  rewrite Hlast in E. lia.
Qed.

Local Lemma offset_pos : 0 <= offset.
Proof.
  pose proof bpc_pos. assert (0 <= bpc * lenZ l0) by (apply Z.mul_nonneg_nonneg; lia).
  destruct Hlow as [[-> _]|]; lia.
Qed.

Local Lemma buffer_pos : 0 < lenZ buffer.
Proof.
  pose proof total_bounds. pose proof fl_pos. pose proof bpc_pos.
  assert (bpc * (lenZ l0 + 1) <= bpc * (lenZ l0 + lenZ fl)) by (apply Z.mul_le_mono_nonneg_l; lia). lia.
Qed.

(** The same is lost of what is left when whole clusters have been stored. *)
Local Lemma reached_rest size q : size = lenZ buffer + offset - bpc * q → reached size = kept - bpc * q.
Proof.
  intros ->. unfold reached. pose proof bpc_pos.
  assert (E : (lenZ buffer + offset - bpc * q) mod bpc = (lenZ buffer + offset) mod bpc).
  { replace (lenZ buffer + offset - bpc * q) with (lenZ buffer + offset + (- q) * bpc) by lia.
    apply Z.mod_add. lia. }
  rewrite E. case_decide; lia.
Qed.

Local Lemma div_of q x : bpc * q <= x < bpc * (q + 1) → x / bpc = q.
Proof. intros. symmetry. apply (Z.div_unique_pos _ _ _ (x - bpc * q)); lia. Qed.

Let img1 := link_all fs lc fl img.

Local Lemma linked :
  vol_ok fs n img1 ∧ keeps fs n sec off img img1 ∧ root_file fs img1 base ext sec off D ∧
  entry_on img1 sec off = D ∧
  (∀ d, fat_index fs d → d ∉ lc :: fl → fat_get fs img1 d = fat_get fs img d) ∧
  (∀ c, in_volume n c → cluster_data fs img1 c = cluster_data fs img c) ∧
  file_chain fs n img1 lc (lc :: fl) ∧ dir_chain fs n img1 lc (lc :: fl).
Proof.
  pose proof (chain_in_volume _ _ _ Hc) as Hvol. apply Forall_app in Hvol as [_ Hvol1].
  assert (Hlc : in_volume n lc) by (by inversion Hvol1).
  destruct (link_all_facts img lc fl Hv Hlc Hr) as (Hv1 & Hl1 & Hfat1 & Hdata1 & Hch1 & Hdch1).
  fold img1 in Hv1, Hl1, Hfat1, Hdata1, Hch1, Hdch1.
  destruct (root_file_linked Hfuel img D lc fl Hv Hf Hlc Hr) as (K1 & Hf1 & HD1).
  split_and!; try done. intros c Hcv. unfold cluster_data.
  pose proof (cluster_in_image Hv c Hcv). pose proof (geo_spc _ _ Hv).
  pose proof (data_nonneg (vol_geo _ _ _ Hv)). apply Hdata1; lia.
Qed.

(** [fat16_write] up to the stores: the clusters [fl] have been linked. *)
Local Lemma write_linked :
  fat16_write fs fuel img path (lenZ buffer) offset buffer =
    (img2 ←
       (if offset mod bpc =? 0 then
          write_at_boundary fs fuel img1 path (lenZ buffer) offset offset lc
            (fat_get fs img1 lc) (cluster_sector fs lc) buffer
        else
          write_after_fill fs fuel img1 path (lenZ buffer) offset (fat_get fs img1 lc)
            (cluster_sector fs lc) buffer);
     Ok (lenZ buffer, img2)).
Proof.
  destruct linked as (Hv1 & K1 & Hf1 & HD1 & Hfat1 & _ & Hch1 & _).
  pose proof offset_pos. pose proof buffer_pos. pose proof fl_pos.
  assert (Hlc : in_volume n lc) by (by inversion Hch1).
  unfold fat16_write. rewrite (write_path_found Hfuel img D (l0 ++ [lc]) lc)
    by (done || lia || apply last_snoc).
  rewrite Hlast, length_app. cbn [length].
  replace (lenZ l0 + lenZ fl + 1 - Z.of_nat (length l0 + 1)) with (lenZ fl) by lia.
  rewrite Nat2Z.id, (alloc_loop_ok (n := n)); [|done|done|done|done|].
  2:{ pose proof (geo_spc _ _ Hv). unfold dir_fuel in Hfuel. assert (1 * n <= 16 * SecPerClus fs * n)
        by (apply Z.mul_le_mono_nonneg_r; [destruct (vol_geo _ _ _ Hv)|]; lia). lia. }
  res_steps. fold img1.
  rewrite (fat_entry_ok (n := n)) by (done || by eapply in_volume_index; [apply Hv|]). res_steps.
  rewrite (proj2 (Z.ltb_lt _ _)) by lia.
  destruct (find_root_path Hv1 [] base ext (Some D) uninit_dir fuel (rf_path _ _ _ _ _ _ _ Hf)
    (root_file_lookup (n := n) Hf1) Hfuel) as (D' & E & HD').
  rewrite (HD' D eq_refl) in E. by res_step E.
Qed.

(** The outcome that the three cases share, seen on the new chain. *)
Local Definition appended (img' : image) : Prop :=
  keeps fs n sec off img1 img' ∧ same_table fs img1 img' ∧
  DIR_FileSize (entry_on img' sec off) = kept ∧
  (∀ c, in_volume n c → c ∉ lc :: fl → cluster_data fs img' c = cluster_data fs img1 c) ∧
  ∃ rest, chain_data fs img' (lc :: fl) =
    take (Z.to_nat (offset - bpc * lenZ l0)) (cluster_data fs img1 lc) ++ slice 0 (kept - offset) buffer ++ rest.

Local Lemma boundary_new : offset = 0 →
  ∃ img', write_at_boundary fs fuel img1 path (lenZ buffer) offset offset lc
    (fat_get fs img1 lc) (cluster_sector fs lc) buffer = Ok img' ∧ appended img'.
Proof.
  intros E0. destruct linked as (Hv1 & K1 & Hf1 & HD1 & Hfat1 & Hdata1 & Hch1 & _).
  pose proof bpc_pos. pose proof buffer_pos. pose proof fl_pos.
  assert (El0 : lenZ l0 = 0).
  { destruct Hlow as [[_ ->]|Hlt]; [done|]. rewrite E0 in Hlt.
    assert (0 <= bpc * lenZ l0) by (apply Z.mul_nonneg_nonneg; lia). lia. }
  pose proof total_bounds as Ht. pose proof Hlast as Hlast'.
  pose proof Hbig as Hbig'. rewrite E0, El0, Z.add_0_r in Ht, Hlast'. rewrite E0, Z.add_0_r in Hbig'.
  rewrite Z.add_0_l in Hlast'.
  unfold write_at_boundary, appended. rewrite E0. change (negb (0 =? 0)) with false. cbn iota.
  assert (Ecnt : ClustReqCnt_of fs (lenZ buffer) = lenZ fl + 1).
  { unfold ClustReqCnt_of. rewrite (geo_bps _ _ Hv), u64_small by lia.
    replace (SecPerClus fs * 512) with bpc by lia. rewrite Hlast'. apply s32_small.
    assert (512 * lenZ fl <= bpc * lenZ fl) by (apply Z.mul_le_mono_nonneg_r; lia). lia. }
  rewrite Ecnt. replace (Z.to_nat (lenZ fl + 1)) with (length (lc :: fl)) by (cbn [length]; lia).
  destruct (write_loop_rest img1 D lc fl buffer 0 0) as (img' & rest & E & K & T & S & DC & DO);
    rewrite ?Z.sub_0_r; try (done || lia).
  rewrite Z.sub_0_r in E, S, DC. rewrite Z.add_0_r. exists img'. split; [done|]. split_and!; [done|done|by rewrite S|done|].
  exists rest. rewrite DC, El0. by replace (Z.to_nat (0 - bpc * 0)) with O by lia.
Qed.

(** The first of the new clusters is the head of a chain of its own. *)
Local Lemma new_head : ∃ f fl', fl = f :: fl' ∧ fat_get fs img1 lc = f ∧
  file_chain fs n img1 f (f :: fl') ∧ in_volume n f ∧ (lc ∉ f :: fl') ∧ in_volume n lc.
Proof.
  destruct linked as (_ & _ & _ & _ & _ & _ & Hch1 & _). pose proof (chain_NoDup _ _ _ Hch1) as Hnd.
  destruct fl as [|f fl'] eqn:E; [done|]. exists f, fl'.
  inversion Hch1 as [|? ? Hlc _ Hrest]; subst. apply NoDup_cons in Hnd as [Hnd _].
  assert (fat_get fs img1 lc = f) as Ef by by inversion Hrest. rewrite Ef in Hrest.
  split_and!; try done. by inversion Hrest.
Qed.

Local Lemma clusters_required size :
  0 < size < 2 ^ 31 → (size - 1) / bpc + 1 = lenZ fl → ClustReqCnt_of fs size = lenZ fl.
Proof.
  intros Hs E. pose proof bpc_pos. unfold ClustReqCnt_of. rewrite (geo_bps _ _ Hv), u64_small by lia.
  replace (SecPerClus fs * 512) with bpc by lia. rewrite E. apply s32_small.
  assert ((size - 1) / bpc <= size - 1) by (apply Z.div_le_upper_bound; nia). lia.
Qed.

Local Lemma boundary_old : offset ≠ 0 → offset mod bpc = 0 →
  ∃ img', write_at_boundary fs fuel img1 path (lenZ buffer) offset offset lc
    (fat_get fs img1 lc) (cluster_sector fs lc) buffer = Ok img' ∧ appended img'.
Proof.
  intros Hne E0. destruct linked as (Hv1 & K1 & Hf1 & HD1 & Hfat1 & Hdata1 & Hch1 & _).
  destruct new_head as (f & fl' & Efl & Ef & Hch & Hfv & Hnot & Hlc).
  pose proof bpc_pos. pose proof buffer_pos. pose proof offset_pos. pose proof total_bounds as Ht.
  assert (Eo : offset = bpc * (lenZ l0 + 1)).
  { apply Z.div_exact in E0; [|lia]. destruct (decide (offset = bpc * (lenZ l0 + 1))) as [|]; [done|].
    destruct Hlow as [[? _]|]; [done|]. rewrite (div_of (lenZ l0)) in E0; lia. }
  assert (Elen : lenZ fl = lenZ fl' + 1) by (rewrite Efl; cbn [length]; lia).
  assert (Hcnt : (lenZ buffer - 1) / bpc = lenZ fl').
  { apply div_of. lia. }
  pose proof (reached_rest (lenZ buffer) (lenZ l0 + 1) ltac:(lia)) as Em.
  destruct (write_loop_rest img1 D f fl' buffer 0 offset) as (img' & rest & E & K & T & S & DC & DO);
    rewrite ?Z.sub_0_r; try (done || lia).
  rewrite Z.sub_0_r in E, S, DC.
  unfold write_at_boundary, appended. rewrite (proj2 (Z.eqb_neq _ _)) by done. cbn [negb].
  rewrite !(fat_entry_ok (n := n)) by (done || by eapply in_volume_index; [apply Hv|]). res_steps.
  rewrite Ef, !(fat_entry_ok (n := n)) by (done || by eapply in_volume_index; [apply Hv|]). res_steps.
  rewrite (first_sector_ok (n := n)) by (done || apply Hv).
  rewrite clusters_required by lia. rewrite Efl, Nat2Z.id.
  exists img'. split; [done|]. split_and!; [done|done|rewrite S, Em; lia| |].
  - intros c Hcv Hn. apply DO; [done|]. set_solver.
  - exists rest. rewrite chain_data_cons, DC. rewrite DO by done.
    pose proof (length_cluster_data Hv1 lc Hlc). rewrite take_ge by lia.
    rewrite Em. by replace (kept - bpc * (lenZ l0 + 1)) with (kept - offset) by lia.
Qed.

(** A file that does not fill its clusters ends inside the last one. *)
Local Lemma inside_last : offset mod bpc ≠ 0 →
  bpc * lenZ l0 < offset < bpc * (lenZ l0 + 1) ∧ offset mod bpc = offset - bpc * lenZ l0.
Proof.
  intros E0. pose proof bpc_pos.
  assert (Hlt : bpc * lenZ l0 < offset < bpc * (lenZ l0 + 1)).
  { split.
    - destruct Hlow as [[E _]|]; [|done]. destruct E0. rewrite E. apply Z.mod_0_l. lia.
    - destruct (decide (offset = bpc * (lenZ l0 + 1))) as [E|]; [|lia]. destruct E0.
      rewrite E, Z.mul_comm. apply Z.mod_mul. lia. }
  split; [done|]. symmetry. apply (Z.mod_unique_pos _ _ (lenZ l0)); lia.
Qed.

Local Lemma after_fill : offset mod bpc ≠ 0 →
  ∃ img', write_after_fill fs fuel img1 path (lenZ buffer) offset
    (fat_get fs img1 lc) (cluster_sector fs lc) buffer = Ok img' ∧ appended img'.
Proof.
  intros E0. destruct linked as (Hv1 & K1 & Hf1 & HD1 & Hfat1 & Hdata1 & Hch1 & _).
  destruct new_head as (f & fl' & Efl & Ef & Hch & Hfv & Hnot & Hlc).
  pose proof bpc_pos. pose proof buffer_pos. pose proof offset_pos. pose proof total_bounds as Ht.
  destruct (inside_last E0) as [Hlt Er]. set (r := offset - bpc * lenZ l0) in *.
  assert (Elen : lenZ fl = lenZ fl' + 1) by (rewrite Efl; cbn [length]; lia).
  set (k := bpc - r). assert (Hk : 0 < k < lenZ buffer).
  { unfold k, r. assert (bpc * (lenZ l0 + 1) <= bpc * (lenZ l0 + lenZ fl)) by (apply Z.mul_le_mono_nonneg_l; lia). lia. }
  assert (Hcnt : (lenZ buffer - k - 1) / bpc = lenZ fl') by (apply div_of; unfold k, r; lia).
  pose proof (reached_rest (lenZ buffer - k) (lenZ l0 + 1) ltac:(unfold k, r; lia)) as Em.
  pose proof (reached_bounds (lenZ buffer - k) ltac:(lia) ltac:(lia)) as Hm.
  destruct (write_step (base := base) (ext := ext) (sec := sec) (off := off) Hfuel img1 D lc r buffer 0 k (u32 (offset + k)))
    as (img2 & img3 & E2 & E3 & K & T & S & DC & DO); try (done || (unfold k, r; lia)).
  destruct (root_file_keeps Hv1 Hf1 img3 K) as [Hf3 _].
  pose proof (keeps_vol _ _ _ _ _ _ K) as Hv3.
  pose proof (same_table_chain img1 img3 _ _ Hv1 T Hch) as Hch3.
  destruct (write_loop_rest img3 (entry_on img3 sec off) f fl' buffer k (offset + k))
    as (img' & rest & E & K' & T' & S' & DC' & DO'); try (done || lia).
  unfold write_after_fill, appended. rewrite (geo_bps _ _ Hv).
  replace (SecPerClus fs * 512) with bpc by lia.
  rewrite Z.rem_mod_nonneg, Er by lia. fold k. rewrite E2. res_steps. res_step E3.
  rewrite Ef, !(fat_entry_ok (n := n)) by (done || by eapply in_volume_index; [apply Hv|]). res_steps.
  rewrite (first_sector_ok (n := n)) by (done || apply Hv).
  rewrite u64_small, clusters_required by lia. rewrite Efl, Nat2Z.id.
  exists img'. split; [done|]. split_and!; [by eapply keeps_trans|by eapply same_table_trans| | |].
  - rewrite S', Em. unfold k, r. lia.
  - intros c Hcv Hn. rewrite DO' by (done || set_solver). apply DO; [done|set_solver].
  - exists rest. rewrite chain_data_cons, DC', DO', DC by done.
    pose proof (length_cluster_data Hv1 lc Hlc) as Hlen.
    assert (Hd : lenZ (slice 0 k buffer) = k) by (rewrite length_slice; lia).
    pose proof (take_splice r (slice 0 k buffer) (cluster_data fs img1 lc) ltac:(unfold r; lia)
      ltac:(unfold k, r in *; lia)) as Htk.
    rewrite take_ge in Htk by (rewrite length_splice; unfold k, r in *; lia).
    rewrite Htk. fold r. rewrite <- !app_assoc. f_equal. rewrite app_assoc. f_equal.
    rewrite slice_join by lia. unfold slice. change (Z.to_nat 0) with O. rewrite drop_0. f_equal.
    rewrite Em. unfold k, r. lia.
Qed.

Local Lemma stored :
  ∃ img', fat16_write fs fuel img path (lenZ buffer) offset buffer = Ok (lenZ buffer, img') ∧
    appended img'.
Proof.
  rewrite write_linked.
  assert (∃ img', (if offset mod bpc =? 0 then
      write_at_boundary fs fuel img1 path (lenZ buffer) offset offset lc
        (fat_get fs img1 lc) (cluster_sector fs lc) buffer
    else write_after_fill fs fuel img1 path (lenZ buffer) offset (fat_get fs img1 lc)
        (cluster_sector fs lc) buffer) = Ok img' ∧ appended img') as (img' & E & Ha).
  { destruct (Z.eqb_spec (offset mod bpc) 0) as [E0|E0]; [|by apply after_fill].
    destruct (decide (offset = 0)); [by apply boundary_new|by apply boundary_old]. }
  exists img'. by res_step E.
Qed.

(** The whole chain: the data stands behind what the file held, as far as it
    is stored. *)
Lemma write_append_any :
  ∃ img', fat16_write fs fuel img path (lenZ buffer) offset buffer = Ok (lenZ buffer, img') ∧
    extends fs n sec off (lc :: fl) img img' ∧
    file_chain fs n img' (DIR_FstClusLO D) (l0 ++ lc :: fl) ∧
    dir_chain fs n img' lc (lc :: fl) ∧
    DIR_FileSize (entry_on img' sec off) = kept ∧ offset <= kept ∧
    ∃ rest, chain_data fs img' (l0 ++ lc :: fl) =
      take (Z.to_nat offset) (chain_data fs img (l0 ++ [lc])) ++ slice 0 (kept - offset) buffer ++ rest.
Proof.
  destruct stored as (img' & Hw & K & T & S & DO & rest & DC). exists img'. split; [exact Hw|].
  destruct linked as (Hv1 & K1 & _ & _ & Hfat1 & Hdata1 & _ & Hdch1).
  destruct (link_chain img _ l0 lc fl Hv Hc Hr) as (Hch1 & Hnd & Hvol). fold img1 in Hch1.
  pose proof bpc_pos. apply Forall_app in Hvol as [Hvol0 Hvol1]. apply NoDup_app in Hnd as (_ & Hnd & _).
  pose proof total_bounds. pose proof fl_pos.
  split_and!; [|by apply (same_table_chain img1)|by apply (same_table_chain img1)|done| |].
  - split; [by eapply keeps_trans|..].
    + intros d Hd Hn. rewrite T by done. by apply Hfat1.
    + intros c Hcv Hn. rewrite DO by done. by apply Hdata1.
  - unfold reached. assert (bpc * (lenZ l0 + 1) <= bpc * (lenZ l0 + lenZ fl)) by (apply Z.mul_le_mono_nonneg_l; lia).
    pose proof buffer_pos. case_decide as E; [|lia]. apply Z.div_exact in E; [|lia]. rewrite E in *.
    assert (lenZ l0 + lenZ fl < (lenZ buffer + offset) / bpc) by nia. nia.
  - exists rest. rewrite Forall_forall in Hvol0. unfold chain_data in *.
    rewrite !bind_app, DC, bind_cons, app_nil_r.
    assert (E0 : l0 ≫= cluster_data fs img' = l0 ≫= cluster_data fs img).
    { apply (chain_data_ext img img' l0). intros d Hd. rewrite DO; [|by apply Hvol0|by apply Hnd].
      apply Hdata1. by apply Hvol0. }
    pose proof (length_chain_data Hv l0 ltac:(by apply Forall_forall)) as Hlen. unfold chain_data in Hlen.
    rewrite E0, take_app_ge by (destruct Hlow as [[-> ->]|]; cbn in *; lia).
    rewrite <- app_assoc. f_equal. f_equal. rewrite Hdata1 by by inversion Hvol1. f_equal.
    pose proof offset_pos. lia.
Qed.

(** Data that does not end on a cluster boundary is stored whole. *)
Lemma write_append_ok :
  (lenZ buffer + offset) mod bpc ≠ 0 →
  ∃ img', fat16_write fs fuel img path (lenZ buffer) offset buffer = Ok (lenZ buffer, img') ∧
    extends fs n sec off (lc :: fl) img img' ∧
    file_chain fs n img' (DIR_FstClusLO D) (l0 ++ lc :: fl) ∧
    dir_chain fs n img' lc (lc :: fl) ∧
    DIR_FileSize (entry_on img' sec off) = offset + lenZ buffer ∧
    ∃ rest, chain_data fs img' (l0 ++ lc :: fl) =
      take (Z.to_nat offset) (chain_data fs img (l0 ++ [lc])) ++ buffer ++ rest.
Proof.
  intros Hmod. destruct write_append_any as (img' & Hw & He & Hch & Hdch & Es & _ & rest & Hd).
  unfold reached in Es, Hd. rewrite decide_False in Es, Hd by done.
  replace (lenZ buffer + offset - offset) with (lenZ buffer) in Hd by lia. rewrite slice_all in Hd.
  exists img'. split_and!; [done..|lia|by exists rest].
Qed.
End appending.

(** ** Property *)

Section properties.
Context `{Platform} {fs : FAT16} {n : Z} {base ext : list Z} {sec off : Z} {fuel : nat}.
Context (Hfuel : (dir_fuel fs n ≤ fuel)%nat).
Local Abbreviation bpc := (512 * SecPerClus fs).

End properties.
