(* ===== verification/Nested.v ===== *)
(** * Files in subdirectories

    FileIO and Append describe writes to files of the root directory, whose
    entries lie outside the data area. The entry of a file further down is in
    a cluster of its directory, and the path that write_path of
    lab4/simple_fat16_new.c hands on has been cut by the first lookup. *)

From Stdlib Require Import Lia.
From stdpp Require Import base numbers option sets list.
From S2P Require Import Prelude Bytes CString Names Volume Directory Namespace FileIO Append.
Local Open Scope Z_scope.

(** ** Searching on *)

Section snoc.
Context `{Platform} {fs : FAT16} {n : Z} {img : image}.

(** A search for less that would have accepted what a search for more found. *)
Lemma first_slot_stronger P Q stop es sec off e :
  (∀ x, Q x = true → P x = true) → Q e = true →
  first_slot P stop es = Some (sec, off, e) → first_slot Q stop es = Some (sec, off, e).
Proof.
  intros HQP HQ. induction es as [|[[s o] x] es IH]; cbn [first_slot]; [done|].
  destruct (P x) eqn:EP; [intros [= -> -> ->]; by rewrite HQ|].
  destruct (Q x) eqn:EQ; [by rewrite (HQP x EQ) in EP|]. case_goal; [done|apply IH].
Qed.

Lemma wanted_last name e : is_dir e = true → wanted name true e = true → wanted name false e = true.
Proof. unfold wanted. intros ->. by rewrite !orb_true_r. Qed.

Lemma wanted_weaker name x : wanted name false x = true → wanted name true x = true.
Proof. unfold wanted. destruct (named name x), (is_file x), (is_dir x); done. Qed.

Lemma wanted_names name last e : wanted name last e = true → named name e = true.
Proof. unfold wanted. by intros [? _]%andb_prop. Qed.

(** A directory found by its path, and one more name looked up in it. *)
Lemma walk_snoc P names D name r :
  walk fs n img P names (Some D) → is_dir D = true → walk fs n img D [name] r →
  walk fs n img P (names ++ [name]) r.
Proof.
  intros Hw Hdir Hlast. remember (Some D) as q eqn:Eq. revert Eq.
  induction Hw as [P name0 rest l0 Hl0 Hf|P name0 l0 s o x Hl0 Hf|P name0 rest l0 s o x q Hl0 Hne Hf Hw IH];
    intros Eq; [done|..].
  - injection Eq as ->. cbn [app]. eapply walk_down; [exact Hl0|done| |exact Hlast].
    eapply first_slot_stronger; [apply wanted_weaker| |exact Hf].
    apply wanted_last; [done|]. by apply first_slot_Some in Hf as [_ ?].
  - cbn [app]. eapply walk_down; [exact Hl0|by destruct rest|exact Hf|]. by apply IH.
Qed.

Lemma lookup_snoc names D name r :
  lookup fs n img names (Some D) → is_dir D = true → walk fs n img D [name] r →
  lookup fs n img (names ++ [name]) r.
Proof.
  intros Hlook Hdir Hlast. remember (Some D) as q eqn:Eq.
  destruct Hlook as [| |x rest s o y Hf H0 Hfile|x s o y Hf H0 Hd|x rest s o y q Hf H0 Hd Hne Hw]; try done.
  - injection Eq as ->. unfold is_file, is_dir, ATTR_ARCHIVE, ATTR_DIRECTORY in *. lia.
  - injection Eq as ->. cbn [app]. eapply lookup_down; [exact Hf|done..].
  - cbn [app]. subst q. eapply lookup_down; [exact Hf|done|done|by destruct rest|by eapply walk_snoc].
Qed.
End snoc.

Lemma rows_of_snoc ds d base ext :
  rows_of (ds ++ [d]) base ext = rows_of ds d [] ++ [fat_name base ext].
Proof. unfold rows_of. by rewrite fmap_app. Qed.

(** ** A file below a directory *)

(** The file [base.ext] in the directory that [ds ++ [d]] denotes, whose
    clusters are [dl]: its entry is the one lookup finds, and the one listed
    under the user's spelling. *)
Record sub_file `{Platform} (fs : FAT16) (n : Z) (img : image) (ds : list (list Z)) (d base ext : list Z)
    (dl : list Z) (sec off : Z) (D : DIR_ENTRY) : Prop := {
  sf_path : ascii_path (ds ++ [d]) base ext;
  sf_short : short_path (path_of (ds ++ [d]) base ext);
  sf_dir : ascii_path ds d [];
  sf_parent : ∃ P, lookup fs n img (rows_of ds d []) (Some P) ∧ is_dir P = true ∧
    dir_chain fs n img (DIR_FstClusLO P) dl;
  sf_find : first_slot (wanted (fat_name base ext) true) true (dir_slots fs img dl) = Some (sec, off, D);
  sf_file : is_file D = true;
  sf_shows : first_slot (shows (spell base ext)) true (dir_slots fs img dl) = Some (sec, off, D)
}.

Section sub_file.
Context `{Platform} {fs : FAT16} {n : Z} {img : image} (Hv : vol_ok fs n img).
Context {ds : list (list Z)} {d base ext dl : list Z} {sec off : Z} {D : DIR_ENTRY}.
Context (Hf : sub_file fs n img ds d base ext dl sec off D).

Lemma sub_file_lookup : lookup fs n img (rows_of (ds ++ [d]) base ext) (Some D).
Proof.
  destruct Hf as [_ _ _ (P & Hl & Hd & Hc) Hfind _ _]. rewrite rows_of_snoc. eapply lookup_snoc; [done..|]. by eapply walk_found.
Qed.

Lemma sub_file_parent : parent_slots fs n img (ds ++ [d]) (dir_slots fs img dl) true.
Proof. destruct Hf as [_ _ Hp (P & Hl & Hd & Hc) _ _ _]. by eapply parent_dir. Qed.

Lemma sub_file_in : (sec, off, D) ∈ dir_slots fs img dl.
Proof. by apply (first_slot_Some _ _ _ _ _ _ (sf_find _ _ _ _ _ _ _ _ _ _ _ Hf)). Qed.

Lemma sub_file_slot : slot_ok fs img sec off ∧ D = entry_on img sec off.
Proof. exact (parent_slot Hv _ _ _ _ _ _ sub_file_parent sub_file_in). Qed.

Lemma sub_file_opened fuel :
  (dir_fuel fs n ≤ fuel)%nat →
  copy_path (path_of (ds ++ [d]) base ext) = Ok (path_of (ds ++ [d]) base ext) ∧
  find_root fs img fuel uninit_dir (path_of (ds ++ [d]) base ext) =
    Ok (0, D, cut_path ((ds ++ [d]) ++ [spell base ext])).
Proof.
  intros Hfuel. pose proof Hf as [Hp Hs _ _ _ _ _].
  destruct (parent_of_path (ds ++ [d]) (spell base ext)) as [Ec _]; [apply Hp|done|].
  destruct (find_root_path Hv _ base ext (Some D) uninit_dir fuel Hp sub_file_lookup Hfuel) as (D' & E & HD).
  by rewrite (HD D eq_refl) in E.
Qed.

Lemma edit_size_sub size fuel :
  (dir_fuel fs n ≤ fuel)%nat →
  edit_size fs fuel img (path_of (ds ++ [d]) base ext) size =
    Ok (0, splice (entry_pos sec off + 28) (le_bytes 4 size) img).
Proof.
  intros Hfuel. pose proof Hf as [Hp Hs _ _ _ _ Hshows].
  destruct (parent_of_path (ds ++ [d]) (spell base ext)) as [_ E]; [apply Hp|done|].
  unfold edit_size, path_of. res_step E. rewrite path_at_name.
  rewrite (locate_ok Hv _ _ _ _ _ sub_file_parent) by (done || by eapply ascii_component).
  rewrite Hshows. cbn [fmap option_fmap option_map]. res_steps.
  destruct (slot_pos_small Hv sec off 28 (proj1 sub_file_slot)) as [-> ?]; [lia|].
  by rewrite u32_small by lia.
Qed.
End sub_file.

(** ** Images whose directories differ in sizes only *)

(** Of all directories that lookup can reach in [img], [img'] has the same
    clusters, and entries that differ at most in size and times. *)
Record same_dirs `{Platform} (fs : FAT16) (n : Z) (img img' : image) : Prop := {
  sd_root s o x : (s, o, x) ∈ root_slots fs img → same_entry x (entry_on img' s o);
  sd_chain P l c : reachable_entry fs n img P → is_dir P = true →
    dir_chain fs n img (DIR_FstClusLO P) l → c ∈ l → fat_get fs img' c = fat_get fs img c;
  sd_slots P l s o x : reachable_entry fs n img P → is_dir P = true →
    dir_chain fs n img (DIR_FstClusLO P) l → (s, o, x) ∈ dir_slots fs img l →
    same_entry x (entry_on img' s o)
}.

Section same_dirs.
Context `{Platform} {fs : FAT16} {n : Z} {img : image} (Hv : vol_ok fs n img).
Context {img' : image} (Hsd : same_dirs fs n img img').

(** The entries at the same places of the other image. *)
Definition moved (img' : image) (s : slot) : slot := (s.1.1, s.1.2, entry_on img' s.1.1 s.1.2).

Lemma dir_slots_map l : dir_slots fs img' l = moved img' <$> dir_slots fs img l.
Proof.
  unfold dir_slots. induction l as [|c l IH]; [done|]. rewrite !bind_cons, fmap_app, IH. f_equal.
  unfold cluster_slots. rewrite <- list_fmap_compose. by apply list_fmap_ext.
Qed.

Lemma root_slots_moved : root_slots fs img' = moved img' <$> root_slots fs img.
Proof. unfold root_slots. rewrite <- list_fmap_compose. by apply list_fmap_ext. Qed.

Lemma first_slot_moved P stop es :
  (∀ s o x, (s, o, x) ∈ es → same_entry x (entry_on img' s o)) →
  (∀ e1 e2, same_entry e1 e2 → P e1 = P e2) →
  first_slot P stop (moved img' <$> es) = moved img' <$> first_slot P stop es.
Proof.
  intros Hes HP. induction es as [|[[s o] x] es IH]; [done|].
  cbn [fmap list_fmap first_slot moved fst snd].
  pose proof (Hes s o x (list_elem_of_here _ _)) as Hs.
  rewrite <- (HP _ _ Hs). destruct (P x); [done|].
  assert (name0 (entry_on img' s o) = name0 x) as ->.
  { unfold name0. by destruct Hs as [-> _]. }
  case_goal; [done|]. apply IH. intros. apply Hes. by apply list_elem_of_further.
Qed.

Lemma wanted_same name last e1 e2 : same_entry e1 e2 → wanted name last e1 = wanted name last e2.
Proof. intros (H1 & H2 & _). unfold wanted, named, is_file, is_dir. by rewrite H1, H2. Qed.

Lemma is_dir_same e1 e2 : same_entry e1 e2 → is_dir e1 = true → is_dir e2 = true.
Proof. intros (_ & H2 & _). unfold is_dir. by rewrite H2. Qed.

Definition same_result (r r' : option DIR_ENTRY) : Prop :=
  match r, r' with
  | Some e, Some e' => same_entry e e' ∧ reachable_entry fs n img e
  | None, None => True
  | _, _ => False
  end.

Lemma dir_chain_same P P' l :
  reachable_entry fs n img P → is_dir P = true → same_entry P P' →
  dir_chain fs n img (DIR_FstClusLO P) l →
  dir_chain fs n img' (DIR_FstClusLO P') l ∧
  (∀ Q stop, (∀ e1 e2, same_entry e1 e2 → Q e1 = Q e2) →
     first_slot Q stop (dir_slots fs img' l) = moved img' <$> first_slot Q stop (dir_slots fs img l)) ∧
  ∀ s o x, (s, o, x) ∈ dir_slots fs img l →
    same_entry x (entry_on img' s o) ∧ reachable_entry fs n img x.
Proof.
  intros Hr Hd Hs Hc. split_and!.
  - destruct Hs as (_ & _ & ->). eapply chain_frame; [done|]. intros c. by apply (sd_chain _ _ _ _ Hsd P l).
  - intros Q stop HQ. rewrite dir_slots_map. apply first_slot_moved; [|done].
    intros s o x. by apply (sd_slots _ _ _ _ Hsd P l).
  - intros s o x Hin. split; [by apply (sd_slots _ _ _ _ Hsd P l)|by eapply reach_sub].
Qed.

Lemma walk_same P names r :
  walk fs n img P names r → reachable_entry fs n img P → is_dir P = true →
  ∀ P', same_entry P P' → ∃ r', walk fs n img' P' names r' ∧ same_result r r'.
Proof.
  intros Hw. induction Hw as [P name rest l Hl Hf|P name l s o e Hl Hf|P name rest l s o e r Hl Hne Hf Hw IH];
    intros Hr Hd P' Hs; destruct (dir_chain_same P P' l Hr Hd Hs Hl) as (Hl' & Hfirst & Hent).
  - exists None. split; [|done]. eapply walk_missing; [exact Hl'|].
    by rewrite Hfirst, Hf by apply wanted_same.
  - pose proof (first_slot_Some _ _ _ _ _ _ Hf) as [Hin _]. destruct (Hent s o e Hin).
    exists (Some (entry_on img' s o)). split; [|done]. eapply walk_found; [exact Hl'|].
    by rewrite Hfirst, Hf by apply wanted_same.
  - pose proof (first_slot_Some _ _ _ _ _ _ Hf) as [Hin Hwant]. destruct (Hent s o e Hin) as [He Hre].
    destruct (IH Hre (wanted_dir _ _ Hwant) _ He) as (r' & Hw' & Hsame). exists r'. split; [|done].
    eapply walk_down; [exact Hl'|done| |exact Hw']. by rewrite Hfirst, Hf by apply wanted_same.
Qed.

Lemma lookup_same names r :
  lookup fs n img names r → ∃ r', lookup fs n img' names r' ∧ same_result r r'.
Proof.
  assert (Hfirst : ∀ name, first_slot (root_stop name) false (root_slots fs img') =
    moved img' <$> first_slot (root_stop name) false (root_slots fs img)).
  { intros name. rewrite root_slots_moved. apply first_slot_moved; [apply Hsd|]. apply root_stop_same. }
  assert (Hent : ∀ name s o e, first_slot (root_stop name) false (root_slots fs img) = Some (s, o, e) →
    first_slot (root_stop name) false (root_slots fs img') = Some (s, o, entry_on img' s o) ∧
    same_entry e (entry_on img' s o) ∧ reachable_entry fs n img e ∧
    name0 (entry_on img' s o) = name0 e ∧ is_file (entry_on img' s o) = is_file e ∧
    is_dir (entry_on img' s o) = is_dir e).
  { intros name s o e Hf. apply first_slot_Some in Hf as Hin. destruct Hin as [Hin _].
    pose proof (sd_root _ _ _ _ Hsd s o e Hin) as Hs. rewrite Hfirst, Hf.
    split; [done|]. split; [done|]. split; [by eapply reach_root|].
    destruct Hs as (E1 & E2 & _). unfold name0, is_file, is_dir. by rewrite E1, E2. }
  intros Hl. destruct Hl as [name rest Hf|name rest s o e Hf H0|name rest s o e Hf H0 Ha
    |name s o e Hf H0 Ha|name rest s o e r Hf H0 Ha Hne Hw].
  - exists None. split; [|done]. apply lookup_end. by rewrite Hfirst, Hf.
  - destruct (Hent _ _ _ _ Hf) as (E & _ & _ & En & _). exists None. split; [|done].
    eapply lookup_free; [exact E|by rewrite En].
  - destruct (Hent _ _ _ _ Hf) as (E & ? & ? & En & Ef & _). exists (Some (entry_on img' s o)).
    split; [|done]. eapply lookup_file; [exact E|by rewrite En|by rewrite Ef].
  - destruct (Hent _ _ _ _ Hf) as (E & ? & ? & En & _ & Ed). exists (Some (entry_on img' s o)).
    split; [|done]. eapply lookup_dir; [exact E|by rewrite En|by rewrite Ed].
  - destruct (Hent _ _ _ _ Hf) as (E & Hs & Hre & En & _ & Ed).
    destruct (walk_same e rest r Hw Hre Ha _ Hs) as (r' & Hw' & Hsame). exists r'. split; [|done].
    eapply lookup_down; [exact E|by rewrite En|by rewrite Ed|done|done].
Qed.

(** The file is still there, with its new entry. *)
Lemma sub_file_same ds d base ext dl sec off D :
  sub_file fs n img ds d base ext dl sec off D →
  sub_file fs n img' ds d base ext dl sec off (entry_on img' sec off) ∧
  same_entry D (entry_on img' sec off).
Proof.
  intros Hf. pose proof (sub_file_in Hf) as Hin.
  destruct Hf as [Hp Hs Hpd (P & Hl & Hd & Hc) Hfind Hfile Hshows].
  destruct (lookup_same _ _ Hl) as ([P'|] & Hl' & Hsame); [|done]. destruct Hsame as [HP Hre].
  destruct (dir_chain_same P P' dl Hre Hd HP Hc) as (Hc' & Hfirst & Hent).
  destruct (Hent _ _ _ Hin) as [He _]. split; [|done]. split.
  - done.
  - done.
  - done.
  - exists P'. split_and!; [done|by eapply is_dir_same|done].
  - rewrite Hfirst, Hfind by apply wanted_same. done.
  - destruct He as (_ & E & _). unfold is_file in *. by rewrite E.
  - rewrite Hfirst, Hshows by apply shows_same. done.
Qed.
End same_dirs.

(** ** A write inside a cluster of the file, and the size in its entry *)

Section nested_write.
Context `{Platform} {fs : FAT16} {n : Z}.
Implicit Types (img : image) (c : Z) (l : list Z).
Local Abbreviation bpc := (512 * SecPerClus fs).

(** The slots of a directory lie inside its clusters. *)
Lemma dir_slot_region img l s o x :
  (s, o, x) ∈ dir_slots fs img l → geometry fs n →
  ∃ c, c ∈ l ∧ cluster_sector fs c * 512 <= entry_pos s o ∧
    entry_pos s o + 32 <= cluster_sector fs c * 512 + bpc.
Proof.
  intros Hin Hg. apply list_elem_of_bind in Hin as (c & Hin & Hc). exists c. split; [done|].
  apply list_elem_of_fmap in Hin as (k & [= -> -> ->] & Hk). apply elem_of_seqZ in Hk.
  pose proof (geo_spc _ _ Hg). pose proof (Z.mod_pos_bound k 16).
  assert (0 <= k / 16 < SecPerClus fs).
  { split; [apply Z.div_pos; lia|]. apply Z.div_lt_upper_bound; lia. }
  unfold entry_pos. lia.
Qed.

Lemma slot_beside_cluster img l s o x c :
  vol_ok fs n img → (s, o, x) ∈ dir_slots fs img l → Forall (in_volume n) l → in_volume n c → c ∉ l →
  entry_pos s o + 32 <= cluster_sector fs c * 512 ∨ cluster_sector fs c * 512 + bpc <= entry_pos s o.
Proof.
  intros Hv Hin Hl Hc Hn. destruct (dir_slot_region img l s o x Hin Hv) as (c' & Hc' & H1 & H2).
  rewrite Forall_forall in Hl. assert (c ≠ c') by (by intros ->).
  destruct (clusters_disjoint c c' Hv Hc (Hl c' Hc')) as [?|?]; [done|lia|lia].
Qed.

(** The size stored in one entry: the others stay, this one keeps the rest. *)
Lemma size_write_entry img sec off size s o :
  vol_ok fs n img → slot_ok fs img sec off → slot_ok fs img s o →
  let img' := splice (entry_pos sec off + 28) (le_bytes 4 size) img in
  same_entry (entry_on img s o) (entry_on img' s o) ∧
  (entry_pos s o ≠ entry_pos sec off → entry_on img' s o = entry_on img s o).
Proof.
  intros Hv Hs Hs' img'. assert (Hb : Forall is_byte (le_bytes 4 size)) by apply le_bytes_byte.
  assert (Hlen : 28 + lenZ (le_bytes 4 size) <= 32) by (rewrite length_le_bytes; lia).
  assert (Hne : entry_pos s o ≠ entry_pos sec off → entry_on img' s o = entry_on img s o).
  { intros Hp. by apply (entry_on_splice_other Hv Hs). }
  split; [|done]. destruct (decide (entry_pos s o = entry_pos sec off)) as [E|E]; [|by rewrite Hne].
  assert (entry_on img' s o = entry_on img' sec off) as -> by (unfold entry_on; by rewrite E).
  assert (entry_on img s o = entry_on img sec off) as -> by (unfold entry_on; by rewrite E).
  unfold img'. rewrite (entry_on_splice_same Hv Hs) by (done || lia).
  destruct Hs. pose proof (data_nonneg (vol_geo _ _ _ Hv)).
  assert (Hf : ∀ a w, 0 <= a → 0 <= w → a + w <= 28 →
    slice a w (splice 28 (le_bytes 4 size) (slice (entry_pos sec off) 32 img)) =
    slice a w (slice (entry_pos sec off) 32 img)).
  { intros a w Ha Hw Haw. apply slice_splice_disjoint; rewrite ?length_slice; lia. }
  unfold same_entry, entry_on, BYTES_PER_DIR. cbn [dir_entry_of_bytes DIR_Name DIR_Attr DIR_FstClusLO].
  by rewrite !Hf by lia.
Qed.

(** The directories of [img0] after data has been stored in a cluster that
    belongs to none of them, ... *)
Lemma same_dirs_data img0 img c x data :
  vol_ok fs n img0 → vol_ok fs n img → length img = length img0 → same_dirs fs n img0 img →
  in_volume n c → not_a_directory fs n img0 [c] → 0 <= x → x + lenZ data <= bpc →
  same_dirs fs n img0 (splice (cluster_sector fs c * 512 + x) data img).
Proof.
  intros Hv0 Hv Hlen [R F S] Hc Hnd Hx Hd. pose proof (cluster_in_image Hv c Hc). pose proof (geo_spc _ _ Hv).
  pose proof (data_nonneg (vol_geo _ _ _ Hv)).
  assert (Hsame : ∀ s o, 0 <= entry_pos s o →
    entry_pos s o + 32 <= cluster_sector fs c * 512 ∨ cluster_sector fs c * 512 + bpc <= entry_pos s o →
    entry_on (splice (cluster_sector fs c * 512 + x) data img) s o = entry_on img s o).
  { intros s o Hp Hb. unfold entry_on, BYTES_PER_DIR. by rewrite slice_splice_disjoint by lia. }
  split.
  - intros s o e Hin. pose proof (root_slot_ok Hv0 _ _ _ Hin) as [].
    destruct (root_slot_region img0 _ _ _ Hv0 Hin) as [? _]. rewrite Hsame by lia. by apply R.
  - intros P l c' HP Hdir Hl Hc'. rewrite <- (F P l c' HP Hdir Hl Hc').
    pose proof (chain_indices _ _ _ Hv0 Hl) as Hi. rewrite Forall_forall in Hi.
    pose proof (fat_region img c' Hv (Hi c' Hc')).
    unfold fat_get. by rewrite slice_splice_disjoint by lia.
  - intros P l s o e HP Hdir Hl Hin. pose proof (dir_slot_ok Hv0 _ _ _ _ _ Hl Hin) as [].
    pose proof (chain_in_volume _ _ _ Hl) as Hvol.
    assert (Hcl : c ∉ l) by (intros Hcl; apply (Hnd P l HP Hdir Hl c Hcl); by left).
    pose proof (slot_beside_cluster img0 l s o e c Hv0 Hin Hvol Hc Hcl) as Hbeside.
    rewrite Hsame by lia. by apply (S P l).
Qed.

(** ... after the size in one entry has been changed, ... *)
Lemma same_dirs_size img0 img sec off size :
  vol_ok fs n img0 → vol_ok fs n img → length img = length img0 → same_dirs fs n img0 img →
  slot_ok fs img sec off →
  same_dirs fs n img0 (splice (entry_pos sec off + 28) (le_bytes 4 size) img).
Proof.
  intros Hv0 Hv Hlen [R F S] Hs. set (img' := splice _ _ img).
  assert (Hok : ∀ s o, slot_ok fs img0 s o → slot_ok fs img s o)
    by (intros s o []; split; rewrite ?Hlen; done).
  assert (Hsame : ∀ s o e, slot_ok fs img0 s o → same_entry e (entry_on img s o) → same_entry e (entry_on img' s o)).
  { intros s o e Hso (E1 & E2 & E3). destruct (size_write_entry img sec off size s o Hv Hs (Hok _ _ Hso)) as [(F1 & F2 & F3) _].
    unfold same_entry. fold img' in F1, F2, F3. split_and!; congruence. }
  split.
  - intros s o e Hin. apply Hsame; [by eapply root_slot_ok|by apply R].
  - intros P l c HP Hdir Hl Hc. rewrite <- (F P l c HP Hdir Hl Hc).
    pose proof (chain_indices _ _ _ Hv0 Hl) as Hi. rewrite Forall_forall in Hi.
    apply (fat_get_splice_entry Hv Hs); [lia|rewrite length_le_bytes; lia|by apply Hi].
  - intros P l s o e HP Hdir Hl Hin. apply Hsame; [by eapply dir_slot_ok|by apply (S P l)].
Qed.

Lemma same_entry_refl e : same_entry e e.
Proof. done. Qed.

Lemma same_dirs_refl img : vol_ok fs n img → same_dirs fs n img img.
Proof.
  intros Hv. split; [|done|].
  - intros s o x Hin. by rewrite (root_slot_entry _ _ _ Hin) at 1.
  - intros P l s o x _ _ _ Hin. by rewrite (dir_slot_entry _ _ _ _ Hin) at 1.
Qed.

(** ... and after free clusters have been linked behind one that belongs to
    none of them. *)
Lemma same_dirs_link img c fl :
  vol_ok fs n img → in_volume n c → free_run fs n img c fl → not_a_directory fs n img [c] →
  same_dirs fs n img (link_all fs c fl img).
Proof.
  intros Hv Hc Hr Hnd. destruct (link_all_facts img c fl Hv Hc Hr) as (Hv1 & Hl1 & Hfat & Hdata & _).
  split.
  - intros s o e Hin. rewrite (root_slot_entry _ _ _ Hin) at 1. pose proof (root_slot_ok Hv _ _ _ Hin) as [].
    unfold entry_on, BYTES_PER_DIR. by rewrite Hdata by lia.
  - intros P l x HP Hdir Hl Hx. pose proof (chain_indices _ _ _ Hv Hl) as Hi. rewrite Forall_forall in Hi.
    apply Hfat; [by apply Hi|]. intros [->|Hfl]%elem_of_cons.
    + apply (Hnd P l HP Hdir Hl c Hx). by left.
    + pose proof (free_run_above _ _ _ Hr) as Hz. rewrite Forall_forall in Hz.
      apply (dir_chain_used img _ l x Hl Hx). by apply Hz.
  - intros P l s o e HP Hdir Hl Hin. rewrite (dir_slot_entry _ _ _ _ Hin) at 1.
    pose proof (dir_slot_ok Hv _ _ _ _ _ Hl Hin) as []. unfold entry_on, BYTES_PER_DIR. by rewrite Hdata by lia.
Qed.

(** What a write to a file below a directory with the clusters [dl] changes
    beside its last cluster [lc]: one size in one entry of the directory. *)
Record sub_written (dl : list Z) (lc sec off : Z) (img img' : image) : Prop := {
  sw_vol : vol_ok fs n img';
  sw_len : length img' = length img;
  sw_table : same_table fs img img';
  sw_root : ∀ o k, FirstRootDirSecNum fs * 512 <= o → 0 <= k → o + k <= FirstDataSector fs * 512 →
    slice o k img' = slice o k img;
  sw_data : ∀ c, in_volume n c → c ≠ lc → c ∉ dl → cluster_data fs img' c = cluster_data fs img c;
  sw_slots : ∀ s o e, (s, o, e) ∈ dir_slots fs img dl → entry_pos s o ≠ entry_pos sec off →
    entry_on img' s o = e
}.

Lemma sub_file_reached img ds d base ext dl sec off D :
  vol_ok fs n img → sub_file fs n img ds d base ext dl sec off D →
  ∃ P, reachable_entry fs n img P ∧ is_dir P = true ∧ dir_chain fs n img (DIR_FstClusLO P) dl.
Proof.
  intros Hv [_ _ _ (P & Hl & Hd & Hc) _ _ _]. exists P. split_and!; [|done..].
  destruct (lookup_frame Hv (img' := img)) with (names := rows_of ds d []) (r := Some P) as [_ Hr]; try done.
  by apply Hr.
Qed.

(** From here on [img0] is the image that the call found, with the file in
    it, and the others come after it. *)
Context {img0 : image} {ds : list (list Z)} {d base ext dl : list Z} {sec off : Z} {D : DIR_ENTRY} {fuel : nat}.
Context (Hv0 : vol_ok fs n img0) (Hf0 : sub_file fs n img0 ds d base ext dl sec off D).
Context (Hfuel : (dir_fuel fs n ≤ fuel)%nat).
Local Abbreviation path := (path_of (ds ++ [d]) base ext).

Record after (img : image) : Prop := {
  af_vol : vol_ok fs n img;
  af_len : length img = length img0;
  af_dirs : same_dirs fs n img0 img
}.

Lemma after_start : after img0.
Proof. split; [done|done|by apply same_dirs_refl]. Qed.

Lemma after_file img : after img →
  sub_file fs n img ds d base ext dl sec off (entry_on img sec off) ∧ same_entry D (entry_on img sec off).
Proof. intros [_ _ Hsd]. exact (sub_file_same Hsd _ _ _ _ _ _ _ _ Hf0). Qed.

Lemma dir_in_volume : Forall (in_volume n) dl.
Proof. destruct (sub_file_reached _ _ _ _ _ _ _ _ _ Hv0 Hf0) as (P & _ & _ & Hc). by eapply chain_in_volume. Qed.

Lemma not_dir_cluster c : not_a_directory fs n img0 [c] → c ∉ dl.
Proof.
  destruct (sub_file_reached _ _ _ _ _ _ _ _ _ Hv0 Hf0) as (P & HP & Hd & Hc).
  intros Hnd Hin. apply (Hnd P dl HP Hd Hc c Hin). by left.
Qed.

(** The data is stored ... *)
Lemma sub_data_step img lc x data :
  after img → in_volume n lc → not_a_directory fs n img0 [lc] →
  0 <= x → x + lenZ data <= bpc → Forall is_byte data →
  let img1 := splice (cluster_sector fs lc * 512 + x) data img in
  sub_written dl lc sec off img img1 ∧ after img1 ∧
  cluster_data fs img1 lc = splice x data (cluster_data fs img lc).
Proof.
  intros [Hv Hlen Hsd] Hlc Hnd Hx Hd Hb img1.
  destruct (data_write_facts img lc x data sec off Hv Hlc Hx Hd Hb) as ([Kv Kl _] & T & DC & DO).
  fold img1 in Kv, Kl, T, DC, DO. pose proof (cluster_in_image Hv lc Hlc). pose proof (geo_spc _ _ Hv).
  pose proof (data_nonneg (vol_geo _ _ _ Hv)).
  split_and!; [|split; [done|by rewrite Kl|by apply same_dirs_data]|done].
  split; try done.
  - intros. apply slice_splice_disjoint; lia.
  - intros c Hc Hne _. by apply DO.
  - intros s o e He _. rewrite (dir_slot_entry _ _ _ _ He). unfold entry_on, img1, BYTES_PER_DIR.
    pose proof (slot_beside_cluster img dl s o e lc Hv He dir_in_volume Hlc (not_dir_cluster lc Hnd)).
    destruct (dir_slot_region img dl s o e He Hv) as (c' & Hc' & ? & _).
    pose proof dir_in_volume as Hvol. rewrite Forall_forall in Hvol.
    pose proof (cluster_in_image Hv c' (Hvol c' Hc')). by rewrite slice_splice_disjoint by lia.
Qed.

(** ... and the size entered. *)
Lemma sub_size_step img lc size :
  after img → in_volume n lc → lc ∉ dl →
  let img' := splice (entry_pos sec off + 28) (le_bytes 4 size) img in
  sub_written dl lc sec off img img' ∧ after img' ∧ DIR_FileSize (entry_on img' sec off) = u32 size ∧
  cluster_data fs img' lc = cluster_data fs img lc.
Proof.
  intros Ha Hlc Hn img'. destruct (after_file img Ha) as [Hf _]. destruct Ha as [Hv Hlen Hsd].
  destruct (sub_file_slot Hv Hf) as [Hs HD]. pose proof (sub_file_in Hf) as Hin.
  assert (Hb : Forall is_byte (le_bytes 4 size)) by apply le_bytes_byte.
  assert (Hl : 28 + lenZ (le_bytes 4 size) <= 32) by (rewrite length_le_bytes; lia).
  destruct (dir_slot_region img dl _ _ _ Hin Hv) as (c0 & Hc0 & Hlow & Hhigh).
  pose proof dir_in_volume as Hvol. rewrite Forall_forall in Hvol.
  pose proof (cluster_in_image Hv c0 (Hvol c0 Hc0)). pose proof (geo_spc _ _ Hv).
  pose proof (data_nonneg (vol_geo _ _ _ Hv)).
  assert (Hother : ∀ c, in_volume n c → c ≠ c0 → cluster_data fs img' c = cluster_data fs img c).
  { intros c Hc Hne. pose proof (cluster_in_image Hv c Hc). unfold cluster_data.
    apply (slice_splice_entry Hv Hs); rewrite ?length_le_bytes; try lia.
    destruct (clusters_disjoint c c0 Hv Hc (Hvol c0 Hc0) Hne); lia. }
  split_and!; [..|apply Hother; [done|by intros ->]].
  - split; [by apply (vol_ok_splice_entry Hv Hs)|by apply (length_splice_entry Hv Hs)|..].
    + intros c Hc. by apply (fat_get_splice_entry Hv Hs).
    + intros. apply (slice_splice_entry Hv Hs); rewrite ?length_le_bytes; lia.
    + intros c Hc _ Hnc. apply Hother; [done|]. by intros ->.
    + intros s o e He Hne. rewrite (dir_slot_entry _ _ _ _ He).
      assert (slot_ok fs img s o) as Hso by (by apply (parent_slot Hv _ _ _ _ _ _ (sub_file_parent Hf) He)).
      by apply (size_write_entry img sec off size).
  - split; [by apply (vol_ok_splice_entry Hv Hs)| |by apply same_dirs_size].
    rewrite <- Hlen. by apply (length_splice_entry Hv Hs).
  - unfold img'. rewrite (entry_on_splice_same Hv Hs) by (done || lia).
    cbn [DIR_FileSize dir_entry_of_bytes]. change 4 with (lenZ (le_bytes 4 size)) at 1.
    destruct Hs. rewrite slice_splice_same by (rewrite ?length_slice, ?length_le_bytes; lia). by rewrite le_le_bytes.
Qed.

Lemma sub_written_trans lc img1 img2 img3 :
  sub_written dl lc sec off img1 img2 → sub_written dl lc sec off img2 img3 →
  sub_written dl lc sec off img1 img3.
Proof.
  intros [V1 L1 T1 R1 D1 S1] [V2 L2 T2 R2 D2 S2].
  split; [done|congruence|by eapply same_table_trans|..].
  - intros. by rewrite R2, R1.
  - intros. by rewrite D2, D1.
  - intros s o e He Hne. pose proof (S1 s o e He Hne) as E1. apply S2; [|done].
    rewrite (dir_slots_map (img := img1)). apply list_elem_of_fmap. exists (s, o, e).
    split; [|done]. unfold moved. cbn [fst snd]. by rewrite E1.
Qed.

(** One [fwrite] followed by [edit_size], inside one cluster. *)
Lemma sub_write_step img lc x buffer pos k size :
  after img → in_volume n lc → not_a_directory fs n img0 [lc] →
  0 <= x → 0 <= k → x + k <= bpc → 0 <= pos → pos + k <= lenZ buffer → Forall is_byte buffer →
  ∃ img1 img2,
    put_bytes fs img (cluster_sector fs lc) x buffer pos k = Ok img1 ∧
    edit_size fs fuel img1 path size = Ok (0, img2) ∧
    sub_written dl lc sec off img img2 ∧ after img2 ∧
    DIR_FileSize (entry_on img2 sec off) = u32 size ∧
    cluster_data fs img2 lc = splice x (slice pos k buffer) (cluster_data fs img lc).
Proof.
  intros Ha Hlc Hnd Hx Hk Hfit Hpos Hbuf Hb. pose proof (af_vol _ Ha) as Hv. eexists _, _.
  split; [by eapply put_bytes_ok|].
  assert (Hd : lenZ (slice pos k buffer) = k) by (rewrite length_slice; lia).
  destruct (sub_data_step img lc x (slice pos k buffer)) as (W1 & Ha1 & DC1);
    try done; [lia|by apply Forall_slice|].
  destruct (after_file _ Ha1) as [Hf1 _].
  split; [by apply (edit_size_sub (af_vol _ Ha1) Hf1)|].
  destruct (sub_size_step _ lc size Ha1 Hlc (not_dir_cluster lc Hnd)) as (W2 & Ha2 & S2 & DC2).
  split_and!; [by eapply sub_written_trans|done|done|]. etrans; [exact DC2|exact DC1].
Qed.

(** The loop over clusters when one is enough. *)
Lemma sub_write_loop_one img lc buffer fat off2 :
  after img → in_volume n lc → not_a_directory fs n img0 [lc] →
  0 < lenZ buffer < bpc → Forall is_byte buffer →
  ∃ img', write_loop fs fuel 1 img path (lenZ buffer) fat (cluster_sector fs lc) buffer 0 off2 = Ok img' ∧
    sub_written dl lc sec off img img' ∧ after img' ∧
    DIR_FileSize (entry_on img' sec off) = u32 (off2 + lenZ buffer) ∧
    cluster_data fs img' lc = splice 0 buffer (cluster_data fs img lc).
Proof.
  intros Ha Hlc Hnd Hlen Hb. pose proof (geo_spc _ _ (af_vol _ Ha)).
  rewrite write_loop_S, (decide_True (P := 0%nat = 0%nat)) by done.
  cbn zeta. rewrite (geo_bps _ _ (af_vol _ Ha)). replace (SecPerClus fs * 512) with bpc by lia.
  rewrite Z.mod_small, s32_small by lia.
  destruct (sub_write_step img lc 0 buffer 0 (lenZ buffer) (u32 (off2 + lenZ buffer)))
    as (img1 & img' & -> & E2 & W & Ha' & HS & DC); try (done || lia).
  res_steps. res_step E2.
  destruct (fat_entry_total (sw_vol _ _ _ _ _ _ W) fat) as [v ->]. res_steps. cbn [write_loop].
  exists img'. rewrite slice_all in DC. split_and!; try done.
  rewrite HS. unfold u32. by rewrite Z.mod_mod by lia.
Qed.
End nested_write.

(** ** The path that has been cut *)

Section cut.
Context `{Platform} {fs : FAT16} {n : Z}.

Lemma chain_second stop img c c2 l : chain stop fs n img c (c :: c2 :: l) → fat_get fs img c = c2.
Proof. intros Hc. inversion Hc as [|? ? _ _ Hrest]; subst. by inversion Hrest. Qed.

Lemma c_str_idemp b : c_str (c_str b) = c_str b.
Proof. apply c_str_no_nul. unfold c_str, no_nul. forall_impl (take_while_Forall (λ c, negb (c =? 0)) b). lia. Qed.

Lemma path_split_c_str b :
  path_split b = '(rows, k, s) ← path_split (c_str b); Ok (rows, k, s ++ drop (length (c_str b)) b).
Proof.
  unfold path_split, depth. rewrite c_str_idemp.
  destruct (strtok_run _ _ _) as [toks s']. destruct (convert_names _ _) as [rows| | |]; res_steps; [|done..].
  by rewrite (drop_ge (c_str b)), app_nil_r by done.
Qed.

(** A second lookup with what the first one leaves of the path finds the first
    directory of the path, not the file. *)
Lemma find_root_cut img d0 cs R Root fuel :
  vol_ok fs n img → ascii_path [] d0 [] → lookup fs n img [fat_name d0 []] (Some R) →
  (dir_fuel fs n ≤ fuel)%nat →
  ∃ path', find_root fs img fuel Root (cut_path (d0 :: cs)) = Ok (0, R, path').
Proof.
  intros Hv Hp Hl Hfuel. pose proof (ascii_rows _ _ _ Hp) as Hrows.
  pose proof (path_split_plain [] d0 [] Hp) as Hs.
  pose proof (plain_component _ _ _ (ascii_plain _ _ _ Hp)) as Hc. cbn [app] in Hc.
  apply Forall_cons in Hc as [Hc _]. cbn [spell] in Hc.
  assert (Hs' : ∃ path', path_split (cut_path (d0 :: cs)) = Ok ([fat_name d0 []], 1 + lenZ (@nil Z), path')).
  { eexists. rewrite path_split_c_str, c_str_cut_path by done.
    change (path_of [] d0 []) with (ch_slash :: d0 ++ []) in Hs. rewrite app_nil_r in Hs. by rewrite Hs. }
  destruct Hs' as (path' & Hs').
  destruct (find_root_lookup Hv Root (cut_path (d0 :: cs)) (fat_name d0 []) [] path' (Some R) fuel Hs' Hrows Hl Hfuel)
    as (R' & E & HR). rewrite (HR R eq_refl) in E. by exists path'.
Qed.
End cut.

(** ** Properties *)

Section properties.
Context `{Platform} {fs : FAT16} {n : Z} {img : image} {fuel : nat}.
Context {ds : list (list Z)} {d base ext dl : list Z} {sec off : Z} {D : DIR_ENTRY}.
Context (Hv : vol_ok fs n img) (Hf : sub_file fs n img ds d base ext dl sec off D).
Context (Hfuel : (dir_fuel fs n ≤ fuel)%nat).
Local Abbreviation path := (path_of (ds ++ [d]) base ext).
Local Abbreviation bpc := (512 * SecPerClus fs).

Lemma not_a_directory_one l c : not_a_directory fs n img l → c ∈ l → not_a_directory fs n img [c].
Proof. intros Hnd Hc P l' HP Hd Hl' x Hx ->%list_elem_of_singleton. by apply (Hnd P l' HP Hd Hl' c). Qed.

Lemma sub_write_in_place_ok l lc buffer offset :
  file_chain fs n img (DIR_FstClusLO D) l → last l = Some lc →
  not_a_directory fs n img l → 0 < lenZ buffer → Forall is_byte buffer → 0 <= offset →
  lenZ buffer + offset <= bpc * lenZ l → offset mod bpc + lenZ buffer <= bpc →
  lenZ buffer + offset < 2 ^ 31 →
  ∃ img', fat16_write fs fuel img path (lenZ buffer) offset buffer = Ok (lenZ buffer, img') ∧
    sub_written (n := n) (fs := fs) dl lc sec off img img' ∧
    sub_file fs n img' ds d base ext dl sec off (entry_on img' sec off) ∧
    same_entry D (entry_on img' sec off) ∧
    DIR_FileSize (entry_on img' sec off) = offset + lenZ buffer ∧
    file_chain fs n img' (DIR_FstClusLO D) l ∧ same_dirs fs n img img' ∧
    chain_data fs img' l = splice (bpc * (lenZ l - 1) + offset mod bpc) buffer (chain_data fs img l).
Proof.
  intros Hc Hlast Hnd Hb1 Hb Ho Hcap Hfit Hbig. pose proof (geo_spc _ _ Hv).
  unfold fat16_write. destruct (sub_file_opened Hv Hf fuel Hfuel) as [Ecopy Eopen].
  destruct (write_path_fits Hfuel path (cut_path ((ds ++ [d]) ++ [spell base ext])) 0 img D l lc buffer offset)
    as [-> Hlc]; try (done || lia).
  pose proof (Z.mod_pos_bound offset bpc ltac:(lia)).
  assert (Hin : lc ∈ l) by (by apply last_Some_elem_of).
  destruct (sub_write_step Hv Hf Hfuel img lc (offset mod bpc) buffer 0 (lenZ buffer) (u32 (offset + lenZ buffer)))
    as (img1 & img' & -> & E2 & W & Ha & HS & DC); try (done || lia); [by apply after_start|by eapply not_a_directory_one|].
  destruct (after_file Hf img' Ha) as [Hf' Hs].
  res_steps. res_step E2. exists img'. split_and!; try done.
  - rewrite HS, !u32_small by (rewrite ?u32_small; lia). done.
  - by apply (same_table_chain img img' _ _ Hv (sw_table _ _ _ _ _ _ W)).
  - apply Ha.
  - rewrite slice_all in DC. apply last_Some in Hlast as [l0 ->].
    eapply (chain_data_last Hfuel img); [done|done|done|lia|done|done|]. intros c Hc' Hcv Hne.
    apply (sw_data _ _ _ _ _ _ W); [done|done|].
    apply (not_dir_cluster Hv Hf). by eapply not_a_directory_one.
Qed.

(** Reading what the clusters of the file hold up to its end. *)
Lemma sub_read_written img1 l data offset D1 :
  vol_ok fs n img1 → sub_file fs n img1 ds d base ext dl sec off D1 →
  file_chain fs n img1 (DIR_FstClusLO D1) l → 0 < lenZ data → 0 <= offset →
  let total := lenZ data + offset in
  DIR_FileSize D1 = total → total <= bpc * lenZ l → total < 2 ^ 31 - 512 →
  512 * sectors_of total <= malloc_usable total → slice offset (lenZ data) (chain_data fs img1 l) = data →
  fat16_read fs fuel img1 path (lenZ data) offset = Ok (lenZ data, data).
Proof.
  intros Hv1 Hf1 Hc Hd Ho total S Hcap Hbig Hm DC. unfold fat16_read. fold total in Hm.
  rewrite (read_path_found (stop := file_end) Hv1 (ds ++ [d]) base ext D1 l)
    by (done || apply Hf1 || (by eapply sub_file_lookup) || (unfold total in *; lia)).
  change (lenZ data + offset) with total. rewrite (proj2 (Z.leb_le _ _)) by done.
  rewrite S, DC. by rewrite (proj2 (Z.ltb_lt _ _)) by lia.
Qed.

(** C4: what is written inside the last cluster of a file in a subdirectory,
    however deep, is what a read of the same range returns; the size says so, and
    the table, the root directory, the other entries of the directory and the
    clusters of all other files are as they were. *)
Theorem sub_write_then_read l lc buffer offset :
  file_chain fs n img (DIR_FstClusLO D) l → last l = Some lc →
  not_a_directory fs n img l → 0 < lenZ buffer → Forall is_byte buffer →
  let total := lenZ buffer + offset in
  bpc * (lenZ l - 1) <= offset → total <= bpc * lenZ l → total < 2 ^ 31 - 512 →
  512 * sectors_of total <= malloc_usable total →
  ∃ img', fat16_write fs fuel img path (lenZ buffer) offset buffer = Ok (lenZ buffer, img') ∧
    fat16_read fs fuel img' path (lenZ buffer) offset = Ok (lenZ buffer, buffer) ∧
    DIR_FileSize (entry_on img' sec off) = total ∧
    sub_written (n := n) (fs := fs) dl lc sec off img img'.
Proof.
  intros Hc Hlast Hnd Hb1 Hb total Hlow Hcap Hbig Hm. pose proof (geo_spc _ _ Hv).
  assert (Hl1 : 1 <= lenZ l) by (destruct (chain_head _ _ _ Hc) as [? ->]; cbn [length]; lia).
  assert (0 <= bpc * (lenZ l - 1)) by (apply Z.mul_nonneg_nonneg; lia).
  assert (Hmod : offset mod bpc = offset - bpc * (lenZ l - 1)).
  { symmetry. apply (Z.mod_unique_pos _ _ (lenZ l - 1)); unfold total in *; lia. }
  destruct (sub_write_in_place_ok l lc buffer offset)
    as (img' & Hw & W & Hf' & (_ & _ & Eclus) & S & Hc' & _ & DC); try (done || (unfold total in *; lia)).
  exists img'. rewrite <- Eclus in Hc'. split_and!; [done| |unfold total; lia|done].
  apply (sub_read_written img' l _ _ _ (sw_vol _ _ _ _ _ _ W) Hf' Hc'); try (done || (unfold total in *; lia)).
  rewrite DC, Hmod. replace (bpc * (lenZ l - 1) + _) with offset by lia.
  apply slice_splice_same. lia.
Qed.

Section boundary.
Context {d0 : list Z} {rest : list (list Z)} {R : DIR_ENTRY} {l0 : list Z} {lc f : Z} {buffer : list Z}.
Context (Eds : ds ++ [d] = d0 :: rest) (Hp0 : ascii_path [] d0 []).
Context (HR : lookup fs n img [fat_name d0 []] (Some R)) (HR0 : DIR_FileSize R = 0).
Context (Hc : file_chain fs n img (DIR_FstClusLO D) (l0 ++ [lc])).
Context (Hnd : not_a_directory fs n img (l0 ++ [lc])).
Context (Hfv : in_volume n f) (Hr : free_run fs n img lc [f]).
Context (Hlen : 0 < lenZ buffer < bpc) (Hb : Forall is_byte buffer).
Local Abbreviation offset := (bpc * (lenZ l0 + 1)).
Context (Hbig : lenZ buffer + offset < 2 ^ 31).
Local Abbreviation img1 := (link_all fs lc [f] img).

Local Lemma last_cluster : in_volume n lc ∧ not_a_directory fs n img [lc].
Proof.
  assert (Hin : lc ∈ l0 ++ [lc]) by (apply elem_of_app; right; by left).
  split; [|by eapply not_a_directory_one].
  pose proof (chain_in_volume _ _ _ Hc) as Hall. rewrite Forall_forall in Hall. by apply Hall.
Qed.

Local Lemma linked_after : after (fs := fs) (n := n) (img0 := img) img1.
Proof.
  destruct last_cluster as [Hlc Hnd1]. destruct (link_all_facts img lc [f] Hv Hlc Hr) as (Hv1 & Hl1 & _).
  split; [done|done|by apply same_dirs_link].
Qed.

(** The call up to the loop, which begins at the old last cluster. *)
Local Lemma boundary_opened :
  fat16_write fs fuel img path (lenZ buffer) offset buffer =
    (img2 ← write_loop fs fuel 1 img1 path (lenZ buffer) f (cluster_sector fs lc) buffer 0 offset;
     Ok (lenZ buffer, img2)).
Proof.
  destruct last_cluster as [Hlc _]. pose proof (geo_spc _ _ Hv).
  destruct (link_all_facts img lc [f] Hv Hlc Hr) as (Hv1 & _ & _ & Hdata1 & Hch1 & _).
  destruct (sub_file_opened Hv Hf fuel Hfuel) as [Ecopy Eopen].
  unfold fat16_write. rewrite (write_path_opened Hfuel path _ 0 img D (l0 ++ [lc]) lc _ _ _ Hv Ecopy Eopen Hc)
    by (rewrite ?last_snoc; done || lia).
  assert (Ediv : (lenZ buffer + offset - 1) / bpc = lenZ l0 + 1)
    by (symmetry; apply (Z.div_unique_pos _ _ _ (lenZ buffer - 1)); lia).
  rewrite Ediv, length_app. cbn [length].
  replace (Z.to_nat (lenZ l0 + 1 + 1 - Z.of_nat (length l0 + 1))) with (length [f]) by (cbn [length]; lia).
  rewrite (alloc_loop_ok (n := n)); [|done|done|done|done|].
  2:{ unfold dir_fuel in Hfuel. assert (1 * n <= 16 * SecPerClus fs * n)
        by (apply Z.mul_le_mono_nonneg_r; [destruct (vol_geo _ _ _ Hv)|]; lia). lia. }
  res_steps.
  pose proof (chain_second _ _ _ _ _ Hch1) as Efat.
  rewrite (fat_entry_ok (n := n)), Efat by (done || by eapply in_volume_index; [apply Hv|]). res_steps.
  rewrite (proj2 (Z.ltb_lt _ _)) by lia.
  destruct (lookup_frame Hv (img' := img1) Hdata1) with (names := [fat_name d0 []]) (r := Some R) as [HR1 _]; [|done|].
  { intros P l HP Hd Hl x Hx. by apply (sd_chain _ _ _ _ (af_dirs _ linked_after) P l). }
  destruct (find_root_cut img1 d0 (rest ++ [spell base ext]) R uninit_dir fuel Hv1 Hp0 HR1 Hfuel) as (path' & E).
  rewrite Eds at 1. cbn [app]. res_step E.
  assert (offset mod bpc = 0) as -> by (rewrite Z.mul_comm; apply Z.mod_mul; lia).
  cbn [Z.eqb]. unfold write_at_boundary. rewrite HR0. cbn [Z.eqb negb].
  assert (Ecnt : ClustReqCnt_of fs (lenZ buffer) = 1).
  { unfold ClustReqCnt_of. rewrite (geo_bps _ _ Hv), u64_small by lia.
    replace (SecPerClus fs * 512) with bpc by lia. rewrite Z.div_small by lia. by apply s32_small. }
  by rewrite Ecnt.
Qed.

(** A write that begins where the last cluster of a file in a subdirectory
    ends. The second [find_root] is given the path as the first one has left it,
    cut behind its first directory, and returns the entry of that directory,
    whose size is 0: [write_path] takes the file for a new one. A cluster is
    appended, but the data goes to the old last cluster, over what the file held
    there; the new one keeps what an earlier file has left in it. *)
Theorem sub_append_overwrites :
  ∃ img', fat16_write fs fuel img path (lenZ buffer) offset buffer = Ok (lenZ buffer, img') ∧
    file_chain fs n img' (DIR_FstClusLO D) (l0 ++ [lc; f]) ∧
    DIR_FileSize (entry_on img' sec off) = offset + lenZ buffer ∧
    cluster_data fs img' lc = splice 0 buffer (cluster_data fs img lc) ∧
    cluster_data fs img' f = cluster_data fs img f.
Proof.
  destruct last_cluster as [Hlc Hnd1]. pose proof linked_after as Ha1. pose proof (geo_spc _ _ Hv).
  destruct (link_all_facts img lc [f] Hv Hlc Hr) as (Hv1 & _ & _ & Hdata1 & Hch1 & _).
  rewrite boundary_opened.
  destruct (sub_write_loop_one Hv Hf Hfuel img1 lc buffer f offset) as (img' & E & W & Ha & HS & DC); try done.
  res_step E. pose proof (chain_NoDup _ _ _ Hch1) as [Hne _]%NoDup_cons.
  assert (Hdata : ∀ c, in_volume n c → cluster_data fs img1 c = cluster_data fs img c).
  { intros c Hcv. unfold cluster_data. pose proof (cluster_in_image Hv c Hcv).
    pose proof (data_nonneg (vol_geo _ _ _ Hv)). apply Hdata1; lia. }
  exists img'. split_and!; [done|..].
  - destruct (link_chain img _ l0 lc [f] Hv Hc Hr) as [Hch _].
    by apply (same_table_chain img1 img' _ _ Hv1 (sw_table _ _ _ _ _ _ W)).
  - rewrite HS. apply u32_small. lia.
  - by rewrite DC, Hdata.
  - rewrite <- (Hdata f Hfv). apply (sw_data _ _ _ _ _ _ W); [done|set_solver|].
    intros Hin. destruct (sub_file_reached _ _ _ _ _ _ _ _ _ Hv Hf) as (P & _ & _ & HPc).
    apply (dir_chain_used img _ dl f HPc Hin). pose proof (free_run_above _ _ _ Hr) as Hz.
    rewrite Forall_forall in Hz. apply Hz. by left.
Qed.
End boundary.
End properties.
