(* ===== verification/FileSystem.v ===== *)
(** * Sessions with the file system

    The operations table [fat16_oper] of lab4/simple_fat16_new.c: requests as
    libfuse hands them over, and sessions as sequences of requests on a mounted
    volume. The theorems put the components together: a volume stays well
    formed whatever is asked for, and what is created, written and read in
    turn is what was written. *)

From Stdlib Require Import Lia.
From stdpp Require Import base numbers option list.
From S2P Require Import Prelude Bytes CString Names Volume Directory Namespace FileIO.
Local Open Scope Z_scope.

(** ** Requests *)

Inductive request :=
  | Getattr (path : list Z)
  | Readdir (path : list Z)
  | Read (path : list Z) (size offset : Z)
  | Mknod (path : list Z)
  | Unlink (path : list Z)
  | Utimens (path : list Z)
  | Write (path : list Z) (size offset : Z) (buffer : list Z).

(** The return value and what the handler stored for the caller. *)
Inductive reply :=
  | Attributes (ret : Z) (st : option stat)
  | Listing (ret : Z) (names : list (list Z))
  | Contents (ret : Z) (data : list Z)
  | Code (ret : Z).

Section sessions.
Context `{Platform} (fs : FAT16) (fuel : nat).

Definition fat16_utimens (path : list Z) : Z := 0.

(** [fat16_oper]. *)
Definition serve (img : image) (r : request) : res (reply * image) :=
  match r with
  | Getattr path => '(ret, st) ← fat16_getattr fs img fuel path; Ok (Attributes ret st, img)
  | Readdir path => '(ret, names) ← fat16_readdir fs img fuel path; Ok (Listing ret names, img)
  | Read path size offset =>
    '(ret, data) ← fat16_read fs fuel img path size offset; Ok (Contents ret data, img)
  | Mknod path => '(ret, img') ← fat16_mknod fs fuel img path; Ok (Code ret, img')
  | Unlink path => '(ret, img') ← fat16_unlink fs fuel img path; Ok (Code ret, img')
  | Utimens path => Ok (Code (fat16_utimens path), img)
  | Write path size offset buffer =>
    '(ret, img') ← fat16_write fs fuel img path size offset buffer; Ok (Code ret, img')
  end.

Fixpoint serve_all (img : image) (rs : list request) : res (list reply * image) :=
  match rs with
  | [] => Ok ([], img)
  | r :: rs =>
    '(a, img1) ← serve img r;
    '(more, img2) ← serve_all img1 rs;
    Ok (a :: more, img2)
  end.
End sessions.

(** *** Mounting

    The private data of the session, a pointer to the [FAT16] that
    [pre_init_fat16] allocates; [None] once it has been freed. *)

Definition fat16_init (private_data : option FAT16) : option FAT16 := private_data.

Definition fat16_destroy (data : option FAT16) : res (option FAT16) :=
  match data with
  | Some _ => Ok None
  | None => Undef Dangling
  end.

(** [fuse_main] calls [init] once, then the handlers, then [destroy] with what
    [init] has returned. *)
Definition fuse_main `{Platform} (fuel : nat) (img : image) (private_data : option FAT16)
    (rs : list request) : res (list reply * image * option FAT16) :=
  let data := fat16_init private_data in
  match data with
  | None => Undef Dangling
  | Some fs =>
    '(replies, img') ← serve_all fs fuel img rs;
    data' ← fat16_destroy data;
    Ok (replies, img', data')
  end.

(** [main] without [--test]: mount the image and serve. *)
Definition main `{Platform} (fuel : nat) (img : image) (rs : list request)
    : res (list reply * image) :=
  fs ← pre_init_fat16 img;
  '(replies, img', _) ← fuse_main fuel img (Some fs) rs;
  Ok (replies, img').

Lemma main_mounted `{Platform} fuel img fs rs :
  pre_init_fat16 img = Ok fs → main fuel img rs = serve_all fs fuel img rs.
Proof.
  intros E. unfold main, fuse_main. rewrite E. res_steps. cbn [fat16_init].
  by destruct (serve_all fs fuel img rs) as [[? ?]| | |].
Qed.

(** ** Well-formed volumes stay well formed *)

(** [injection] would evaluate the images. *)
Lemma ok_inj {A} (a b : A) : Ok a = Ok b → a = b.
Proof. by intros [= ->]. Qed.

Lemma ok_pair {A B} (a c : A) (b d : B) : Ok (a, b) = Ok (c, d) → a = c ∧ b = d.
Proof. by intros [= -> ->]. Qed.

(** Bytes come in as bytes. *)
Definition request_ok (r : request) : Prop :=
  match r with
  | Mknod path => Forall is_byte path
  | Write _ _ _ buffer => Forall is_byte buffer
  | _ => True
  end.

Section preservation.
Context `{Platform} {fs : FAT16} {n : Z}.
Implicit Types (img : image).

(** [img'] is well formed if [img] is, and has lost nothing at its end. *)
Definition grows (img img' : image) : Prop :=
  vol_ok fs n img → vol_ok fs n img' ∧ (length img ≤ length img')%nat.

Lemma grows_refl img : grows img img.
Proof. by split. Qed.

Lemma grows_trans img1 img2 img3 : grows img1 img2 → grows img2 img3 → grows img1 img3.
Proof. intros H1 H2 Hv. destruct (H1 Hv) as [Hv1 ?]. destruct (H2 Hv1). split; [done|lia]. Qed.

Lemma grows_splice off d img : Forall is_byte d → grows img (splice off d img).
Proof.
  intros Hd Hv. unfold splice. destruct d as [|x d]; [done|].
  set (dd := x :: d) in *. set (o := Z.to_nat off). set (l := resize _ _ _).
  assert (Hl : length l = Nat.max (length img) (o + length dd)) by apply length_resize.
  assert (Hlen : length (take o l ++ dd ++ drop (o + length dd) l) = length l).
  { rewrite !length_app, length_take, length_drop. lia. }
  rewrite Hlen. split; [|lia]. destruct Hv as [Hg Hn Hb]. split; [done|lia|].
  assert (Forall is_byte l) by (apply Forall_resize; [by unfold is_byte|done]).
  repeat apply Forall_app_2; auto using Forall_take, Forall_drop.
Qed.

Hint Resolve grows_refl grows_splice le_bytes_byte : core.

Lemma ClusterIsEmpty_grows img c v ret img' : ClusterIsEmpty fs img c v = Ok (ret, img') → grows img img'.
Proof.
  unfold ClusterIsEmpty. intros ([? ?] & _ & Hr)%bind_ok. apply bind_ok in Hr as (x & _ & Hr).
  destruct (negb (x =? 0)); [by apply ok_pair in Hr as [<- <-]|].
  apply bind_ok in Hr as (pos & _ & Hr). apply bind_ok in Hr as (? & _ & Hr).
  apply ok_pair in Hr as [<- <-]. auto.
Qed.

Lemma freeCluster_grows img c ret img' : freeCluster fs img c = Ok (ret, img') → grows img img'.
Proof.
  unfold freeCluster. intros ([[? ?] ?] & _ & Hr)%bind_ok.
  apply bind_ok in Hr as (pos1 & _ & Hr). apply bind_ok in Hr as (pos2 & _ & Hr).
  apply ok_pair in Hr as [<- <-]. eapply grows_trans; apply grows_splice; auto.
Qed.

Lemma free_chain_grows k img c img' : free_chain k fs img c = Ok img' → grows img img'.
Proof.
  revert img c. induction k as [|k IH]; intros img c; cbn [free_chain]; [done|].
  intros ([next img1] & H1 & Hr)%bind_ok. apply freeCluster_grows in H1.
  destruct (_ && _); [|by apply ok_inj in Hr as <-]. eapply grows_trans; [exact H1|by eapply IH].
Qed.

Lemma edit_size_grows fuel img path size ret img' :
  edit_size fs fuel img path size = Ok (ret, img') → grows img img'.
Proof.
  unfold edit_size. intros ([[? ?] ?] & _ & Hr)%bind_ok. apply bind_ok in Hr as (found & _ & Hr).
  destruct found as [[sec off]|]; apply ok_pair in Hr as [<- <-]; auto.
Qed.

Lemma fat16_unlink_grows fuel img path ret img' :
  fat16_unlink fs fuel img path = Ok (ret, img') → grows img img'.
Proof.
  unfold fat16_unlink. intros (? & _ & Hr)%bind_ok. apply bind_ok in Hr as ([[r D] ?] & _ & Hr).
  destruct (r =? 1); [by apply ok_pair in Hr as [<- <-]|].
  apply bind_ok in Hr as (img1 & H1 & Hr). apply free_chain_grows in H1.
  apply bind_ok in Hr as ([[? ?] ?] & _ & Hr). apply bind_ok in Hr as (found & _ & Hr).
  destruct found as [[sec off]|]; apply ok_pair in Hr as [<- <-]; [|done].
  eapply grows_trans; [exact H1|]. apply grows_splice, Forall_cons_2; [by unfold is_byte|apply Forall_nil_2].
Qed.

(** The rows that [path_split] produces for a string of bytes consist of bytes. *)
Lemma splice_bytes off d l : Forall is_byte d → Forall is_byte l → Forall is_byte (splice off d l).
Proof.
  intros Hd Hl. unfold splice. destruct d as [|x d]; [done|].
  assert (Forall is_byte (resize (Nat.max (length l) (Z.to_nat off + length (x :: d))) 0 l))
    by (apply Forall_resize; [by unfold is_byte|done]).
  repeat apply Forall_app_2; auto using Forall_take, Forall_drop.
Qed.

Lemma fill_spaces_bytes k hi out : Forall is_byte out → Forall is_byte (fill_spaces k hi out).
Proof. apply splice_bytes, Forall_replicate. by unfold is_byte. Qed.

Lemma one_byte c : is_byte c → Forall is_byte [c].
Proof. intros. apply Forall_cons_2; [done|apply Forall_nil_2]. Qed.

Lemma convert_name_bytes cs j k nl el flag out flag' row :
  Forall is_byte cs → Forall is_byte out →
  convert_name cs j k nl el flag out = Ok (flag', row) → Forall is_byte row.
Proof.
  assert (Hdot : Forall is_byte [ch_dot]) by by apply one_byte.
  intros Hcs. revert j k nl el flag out. induction Hcs as [|c cs Hc _ IH];
    intros j k nl el flag out Ho; cbn [convert_name].
  { intros [<- <-]%ok_pair. by apply fill_spaces_bytes. }
  destruct (c =? ch_dot).
  - case_goal; [intros [<- <-]%ok_pair; auto using fill_spaces_bytes, splice_bytes|].
    case_goal; [intros [<- <-]%ok_pair; auto using fill_spaces_bytes, splice_bytes|].
    case_goal; [|done]. case_goal; [done|]. by apply IH, fill_spaces_bytes.
  - case_goal; [by apply IH|]. case_goal; [by intros [<- <-]%ok_pair|].
    intros (? & _ & Hr)%bind_ok. revert Hr.
    assert (Hnew : is_byte (if is_lower c then c - 32 else c)).
    { unfold is_lower, is_byte in *. case_goal; lia. }
    destruct flag; by apply IH, splice_bytes; [apply one_byte|].
Qed.

Lemma convert_names_bytes toks flag rows :
  Forall (λ t, ∀ p, t = Some p → Forall is_byte p) toks →
  convert_names toks flag = Ok rows → Forall (Forall is_byte) rows.
Proof.
  intros Ht. revert flag rows. induction Ht as [|t toks Ht _ IH]; intros flag rows; cbn [convert_names].
  { intros <-%ok_inj. apply Forall_nil_2. }
  destruct t as [p|]; [|done]. intros ([f row] & H1 & Hr)%bind_ok.
  apply bind_ok in Hr as (more & H2 & <-%ok_inj). apply Forall_cons_2; [|by eapply IH].
  eapply convert_name_bytes; [by apply Ht|apply uninit_bytes|exact H1].
Qed.

Lemma strtok_run_bytes sep k s :
  Forall is_byte s → Forall (λ t, ∀ p, t = Some p → Forall is_byte p) (strtok_run sep k s).1.
Proof.
  assert (Htd : ∀ f l, Forall is_byte l →
    Forall is_byte (take_while f l) ∧ Forall is_byte (drop_while f l)).
  { intros f l Hl. rewrite <- (take_drop_while f l) in Hl. by apply Forall_app in Hl. }
  assert (Hnone : ∀ m, Forall (λ t : option (list Z), ∀ p, t = Some p → Forall is_byte p)
    (replicate m None)) by (intros; by apply Forall_replicate).
  revert s. induction k as [|k IH]; intros s Hs; cbn [strtok_run]; [apply Forall_nil_2|].
  destruct (Htd (Z.eqb sep) s Hs) as [_ H1]. set (s1 := drop_while (Z.eqb sep) s) in *.
  destruct (Htd (λ c, negb (sep =? c)) s1 H1) as [H2 H3]. revert H3.
  destruct s1 as [|c s1]; [intros _; apply Hnone|].
  destruct (drop_while (λ c, negb (sep =? c)) (c :: s1)) as [|x s3].
  - intros _. apply Forall_cons_2; [by intros p [= <-]|apply Hnone].
  - intros [_ H4]%Forall_cons. specialize (IH s3 H4). destruct (strtok_run sep k s3) as [ts s3'].
    apply Forall_cons_2; [by intros p [= <-]|exact IH].
Qed.

Lemma path_split_bytes path rows d p :
  Forall is_byte path → path_split path = Ok (rows, d, p) → Forall (Forall is_byte) rows.
Proof.
  intros Hp. unfold path_split.
  pose proof (strtok_run_bytes ch_slash (S (Z.to_nat (depth path))) (c_str path)) as Ht.
  destruct (strtok_run _ _ _) as [toks s']. cbn [fst] in Ht.
  intros (rows' & H1 & Hr)%bind_ok. injection Hr as <- _ _.
  eapply convert_names_bytes; [|exact H1]. apply Forall_take, Ht.
  unfold c_str. rewrite <- (take_drop_while (λ c, negb (c =? 0)) path) in Hp.
  by apply Forall_app in Hp as [? _].
Qed.

Lemma entry_info_all_bytes row attr c size :
  Forall is_byte row → is_byte attr → Forall is_byte (entry_info row attr c size).
Proof.
  intros Hr Ha. unfold entry_info. repeat (apply Forall_app_2); auto using one_byte.
  apply Forall_replicate. by unfold is_byte.
Qed.

Lemma mknod_create_grows fuel img path place ret img' :
  Forall is_byte path → mknod_create fs fuel img path place = Ok (ret, img') → grows img img'.
Proof.
  intros Hp. unfold mknod_create. destruct place as [[sec off]|]; [|by intros [<- <-]%ok_pair].
  intros ([[rows j] p] & H1 & Hr)%bind_ok. apply path_split_bytes in H1; [|done].
  apply bind_ok in Hr as (c & _ & Hr). apply bind_ok in Hr as (row & H2 & Hr).
  assert (Hrow : Forall is_byte row).
  { destruct (decide (1 <= j)); [|done]. destruct (rows !! _) as [r|] eqn:E; [|done].
    apply ok_inj in H2 as <-. by eapply (Forall_lookup_1 _ rows). }
  apply bind_ok in Hr as ([? img1] & H3 & Hr). unfold dir_entry_create in H3.
  apply bind_ok in H3 as (pos & _ & [_ <-]%ok_pair).
  apply bind_ok in Hr as ([? img2] & H4 & Hr). apply ClusterIsEmpty_grows in H4.
  apply bind_ok in Hr as (? & _ & [<- <-]%ok_pair).
  eapply grows_trans; [|exact H4]. apply grows_splice, entry_info_all_bytes; [|by unfold is_byte, ATTR_ARCHIVE].
  by apply Forall_slice.
Qed.

Lemma fat16_mknod_grows fuel img path ret img' :
  Forall is_byte path → fat16_mknod fs fuel img path = Ok (ret, img') → grows img img'.
Proof.
  intros Hp. unfold fat16_mknod. intros ([[? ?] prt] & _ & Hr)%bind_ok.
  apply bind_ok in Hr as (p3 & H3 & Hr).
  assert (Hp3 : Forall is_byte p3).
  { unfold copy_path in H3. apply bind_ok in H3 as (? & _ & <-%ok_inj). unfold c_str.
    rewrite <- (take_drop_while (λ c, negb (c =? 0)) path) in Hp. by apply Forall_app in Hp as [? _]. }
  destruct (strcmp_eq prt _).
  - apply bind_ok in Hr as ([[? ?] ?] & _ & Hr). by eapply mknod_create_grows.
  - apply bind_ok in Hr as ([[ret' D] ?] & _ & Hr).
    destruct (negb (ret' =? 0)); [by apply ok_pair in Hr as [<- <-]|].
    apply bind_ok in Hr as (cu & _ & Hr). apply bind_ok in Hr as (place & _ & Hr).
    by eapply mknod_create_grows.
Qed.

(** *** Writing *)

Lemma link_next_grows k img c b img' : link_next fs k img c b = Ok img' → grows img img'.
Proof.
  revert img b. induction k as [|k IH]; intros img b; cbn [link_next]; [done|].
  intros ([taken img1] & H1 & Hr)%bind_ok. apply ClusterIsEmpty_grows in H1.
  destruct (taken =? 0); [by apply ok_inj in Hr as <-|]. eapply grows_trans; [exact H1|by eapply IH].
Qed.

Lemma alloc_loop_grows fuel k img c img' : alloc_loop fs fuel k img c = Ok img' → grows img img'.
Proof.
  revert img c. induction k as [|k IH]; intros img c; cbn [alloc_loop]; [by intros <-%ok_inj|].
  intros (img1 & H1 & Hr)%bind_ok. apply link_next_grows in H1.
  apply bind_ok in Hr as (c' & _ & Hr). eapply grows_trans; [exact H1|].
  destruct k as [|k]; [|by eapply IH].
  apply bind_ok in Hr as ([? img2] & H2 & <-%ok_inj). by eapply ClusterIsEmpty_grows.
Qed.

Lemma put_bytes_grows img sector offset buffer pos length img' :
  Forall is_byte buffer → put_bytes fs img sector offset buffer pos length = Ok img' → grows img img'.
Proof.
  intros Hb. unfold put_bytes. intros (base & _ & Hr)%bind_ok. apply bind_ok in Hr as (? & _ & <-%ok_inj).
  by apply grows_splice, Forall_slice.
Qed.

(** One store followed by the update of the size. *)
Lemma store_grows fuel img sector offset buffer pos length path size img1 ret img2 :
  Forall is_byte buffer → put_bytes fs img sector offset buffer pos length = Ok img1 →
  edit_size fs fuel img1 path size = Ok (ret, img2) → grows img img2.
Proof.
  intros Hb H1 H2. eapply grows_trans; [by eapply put_bytes_grows|by eapply edit_size_grows].
Qed.

Lemma write_loop_grows fuel k img path size fat first buffer pos off img' :
  Forall is_byte buffer → write_loop fs fuel k img path size fat first buffer pos off = Ok img' →
  grows img img'.
Proof.
  intros Hb. revert img fat first pos off. induction k as [|k IH]; intros img fat first pos off;
    cbn [write_loop]; [by intros <-%ok_inj|].
  intros (img1 & H1 & Hr)%bind_ok. apply bind_ok in Hr as ([? img2] & H2 & Hr).
  apply bind_ok in Hr as (fat' & _ & Hr).
  eapply grows_trans; [by eapply store_grows|by eapply IH].
Qed.

Lemma fat16_write_grows fuel img path size offset buffer ret img' :
  Forall is_byte buffer → fat16_write fs fuel img path size offset buffer = Ok (ret, img') →
  grows img img'.
Proof.
  intros Hb. unfold fat16_write, write_path. intros (path_pass & _ & Hr)%bind_ok.
  apply bind_ok in Hr as ([[? D] path1] & _ & Hr). apply bind_ok in Hr as ([cnt last] & _ & Hr).
  destruct last as [c|]; [|done].
  apply bind_ok in Hr as (? & _ & Hr). apply bind_ok in Hr as (? & _ & Hr).
  apply bind_ok in Hr as (img1 & H1 & Hr). apply alloc_loop_grows in H1.
  apply bind_ok in Hr as (fat & _ & Hr). apply bind_ok in Hr as (img2 & H2 & [<- <-]%ok_pair).
  eapply grows_trans; [exact H1|]. revert H2. case_goal.
  - intros ([[? D2] ?] & _ & Hr)%bind_ok. revert Hr. case_goal.
    + unfold write_at_boundary. case_goal; [|by apply write_loop_grows].
      intros (v & _ & Hr)%bind_ok. apply bind_ok in Hr as (f & _ & Hr). by eapply write_loop_grows.
    + unfold write_after_fill. intros (i1 & S1 & Hr)%bind_ok. apply bind_ok in Hr as ([? i2] & S2 & Hr).
      apply bind_ok in Hr as (f & _ & Hr). eapply grows_trans; [by eapply store_grows|by eapply write_loop_grows].
  - unfold write_in_place. intros (i1 & S1 & Hr)%bind_ok.
    apply bind_ok in Hr as ([? i2] & S2 & <-%ok_inj). by eapply store_grows.
Qed.

(** *** Requests and sessions *)

Lemma serve_grows fuel img r a img' :
  request_ok r → serve fs fuel img r = Ok (a, img') → grows img img'.
Proof.
  intros Hr. destruct r; cbn [serve request_ok] in *; intros H1.
  1-3: apply bind_ok in H1 as ([? ?] & _ & [<- <-]%ok_pair); apply grows_refl.
  - apply bind_ok in H1 as ([? ?] & H1 & [<- <-]%ok_pair). by eapply fat16_mknod_grows.
  - apply bind_ok in H1 as ([? ?] & H1 & [<- <-]%ok_pair). by eapply fat16_unlink_grows.
  - apply ok_pair in H1 as [<- <-]. apply grows_refl.
  - apply bind_ok in H1 as ([? ?] & H1 & [<- <-]%ok_pair). by eapply fat16_write_grows.
Qed.

(** Whatever sequence of requests a mounted volume is given, on whatever
    paths and with whatever contents of its table and directories: as long as
    the program has not failed, the volume is well formed (every later request
    finds the layout it was mounted with, inside the image), the image has not
    become shorter, and requests that only read leave it as it was. *)
Theorem sessions_preserve_volume fuel img rs replies img' :
  vol_ok fs n img → Forall request_ok rs → serve_all fs fuel img rs = Ok (replies, img') →
  vol_ok fs n img' ∧ (length img ≤ length img')%nat ∧ length replies = length rs ∧
  (Forall (λ r, match r with Mknod _ | Unlink _ | Write _ _ _ _ => False | _ => True end) rs → img' = img).
Proof.
  intros Hv Hrs. revert img replies Hv.
  induction Hrs as [|r rs Hr _ IH]; intros img replies Hv; cbn [serve_all].
  { intros [<- <-]%ok_pair. by split_and!. }
  intros ([a img1] & H1 & H2)%bind_ok. apply bind_ok in H2 as ([more img2] & H2 & [<- <-]%ok_pair).
  destruct (serve_grows _ _ _ _ _ Hr H1 Hv) as [Hv1 ?]. destruct (IH img1 more Hv1 H2) as (?&?&?&Hro).
  split_and!; [done|lia|cbn [length]; lia|]. intros [Hread Hreads]%Forall_cons.
  rewrite (Hro Hreads). destruct r; try done; cbn [serve] in H1;
    first [by apply ok_pair in H1 as [_ <-]|by apply bind_ok in H1 as ([? ?] & _ & [_ <-]%ok_pair)].
Qed.
End preservation.

(** ** Creating, writing, reading *)

(** A name that [path_decode] gives back as it was typed. *)
Record listed_name (base ext : list Z) : Prop := {
  ln_base : base ≠ [];
  ln_base_chars : Forall name_char base;
  ln_ext_chars : Forall name_char ext;
  ln_base_length : (length base ≤ 8)%nat;
  ln_ext_length : (length ext ≤ 3)%nat
}.

Section composition.
Context `{Platform} {fs : FAT16} {n : Z} {fuel : nat} (Hfuel : (dir_fuel fs n ≤ fuel)%nat).
Context {img : image} (Hv : vol_ok fs n img).
Context {base ext : list Z} (Hp : ascii_path [] base ext) (Hname : listed_name base ext).
Context (Hshort : short_path (path_of [] base ext)).
Let path := path_of [] base ext.
Let row := fat_name base ext.

(** A name that is free: not in the directory, not listed under the spelling,
    with an entry and a cluster to spare. *)
Context {sec off : Z} {e : DIR_ENTRY} {c : Z}.
Context (Habsent : lookup fs n img [row] None).
Context (Hunlisted : first_slot (shows (spell base ext)) false (root_slots fs img) = None).
Context (Hentry : first_slot is_free false (root_slots fs img) = Some (sec, off, e)).
Context (Hfree : lowest_free fs img c) (Hc : in_volume n c).

Let img1 := created fs img sec off row c.
Let D := new_entry row c.

Local Lemma row_ascii : ascii_row row.
Proof. apply ascii_row_fat_name; apply Hp. Qed.

Local Lemma place_ok : slot_ok fs img sec off.
Proof. eapply root_slot_ok; [exact Hv|]. by apply (first_slot_Some _ _ _ _ _ _ Hentry). Qed.

Lemma created_fields : D = mkDIR row ATTR_ARCHIVE 0 0 0 0 0 0
  (update_time localtime_now) (update_year localtime_now) c 0.
Proof.
  apply new_entry_fields; [apply row_ascii|].
  destruct (vol_geo _ _ _ Hv). unfold in_volume in Hc. lia.
Qed.

(** The new file is one, found by its name and listed under its spelling. *)
Lemma created_root_file : root_file fs img1 base ext sec off D.
Proof.
  destruct (new_entry_found Hv row c row_ascii Hc) as (Hfile & H0 & Hstop). split; try done; [|unfold D; lia|].
  - eapply (created_first_slot Hv); eauto using row_ascii.
    intros. by eapply (absent_stops_free (img := img)).
  - eapply (created_first_slot Hv); eauto using row_ascii; [|by rewrite Hunlisted].
    fold D. rewrite created_fields. apply bool_decide_true. unfold shown_name. cbn [DIR_Name].
    destruct Hname. unfold row. rewrite path_decode_encode by done. apply c_str_no_nul, component_no_nul.
    by apply (ascii_component [] base ext).
Qed.

Lemma created_chain : file_chain fs n img1 (DIR_FstClusLO D) [DIR_FstClusLO D].
Proof.
  rewrite created_fields. cbn [DIR_FstClusLO]. apply chain_last; [done|].
  destruct (created_fat Hv place_ok row_ascii Hc c) as [E _]; [by eapply in_volume_index; [apply Hv|]|].
  fold img1 in E. rewrite E, decide_True by done. right. lia.
Qed.

(** A session that creates a file under a free name, writes up to one
    cluster into it and reads it back gets what it wrote. *)
Theorem create_write_read buffer :
  0 < lenZ buffer <= 512 * SecPerClus fs → Forall is_byte buffer →
  512 * sectors_of (lenZ buffer) <= malloc_usable (lenZ buffer) →
  ∃ img', serve_all fs fuel img
      [Mknod path; Write path (lenZ buffer) 0 buffer; Read path (lenZ buffer) 0] =
    Ok ([Code 0; Code (lenZ buffer); Contents (lenZ buffer) buffer], img').
Proof.
  intros Hb Hbytes Hm. pose proof (geo_spc _ _ Hv).
  pose proof (created_vol_ok Hv place_ok row_ascii Hc) as Hv1. fold img1 in Hv1.
  pose proof created_root_file as Hf. pose proof created_chain as Hch.
  destruct (write_in_place_ok (base := base) (ext := ext) (sec := sec) (off := off) Hfuel img1 D [DIR_FstClusLO D] (DIR_FstClusLO D) buffer 0)
    as (img2 & Hw & K & T & S & DC & _); try (done || (cbn [length]; rewrite ?Z.mod_0_l by lia; lia)).
  destruct (root_file_keeps Hv1 Hf img2 K) as [Hf2 (_ & _ & Eclus)].
  pose proof (same_table_chain img1 img2 _ _ Hv1 T Hch) as Hch2. rewrite <- Eclus in Hch2 at 1.
  pose proof (keeps_vol _ _ _ _ _ _ K) as Hv2.
  exists img2. cbn [serve_all serve]. unfold path.
  rewrite (mknod_root_ok Hv _ _ _ _ _ _ _ Hp Hshort Hentry Hfree Hc Hfuel). res_steps.
  change (created fs img sec off (fat_name base ext) c) with img1. rewrite Hw. res_steps. unfold fat16_read.
  rewrite (read_path_found (stop := file_end) Hv2 [] base ext (entry_on img2 sec off) [DIR_FstClusLO D])
    by (done || apply Hf2 || (by eapply root_file_lookup) || (cbn [length]; lia)).
  rewrite !Z.add_0_r, (proj2 (Z.leb_le _ _)), S, Z.add_0_l, (proj2 (Z.ltb_lt _ _)) by (done || lia).
  res_steps. do 5 f_equal. rewrite DC. cbn [length]. rewrite Z.mod_0_l by lia.
  replace (512 * SecPerClus fs * (Z.of_nat 1 - 1) + 0) with 0 by lia.
  f_equal. apply slice_splice_same. lia.
Qed.
End composition.
