(* ===== verification/Flat.v ===== *)
(** * A volume as a list of files

    What a caller of lab4/simple_fat16_new.c sees who only uses files of the
    root directory: a list of entries, each with a name, its contents and the
    clusters that hold it. [flat_serve] is an executable specification of the
    requests on that list; it answers where the program keeps its promises and
    is undefined elsewhere. [represents] relates such a list to an image. *)

From Stdlib Require Import Lia.
From stdpp Require Import base numbers option sets list.
From S2P Require Import Prelude Bytes CString Names Volume Directory Namespace FileIO Append FileSystem.
Local Open Scope Z_scope.

(** ** The abstract volume *)

(** Base and extension as the user types them. *)
Abbreviation fname := (list Z * list Z)%type.

(** An entry of the root directory. A subdirectory is kept as a name only:
    its clusters and those of the files below it are [reserved]. *)
Record aentry := AEntry {
  a_name : fname;
  a_dir : bool;
  a_data : list Z;
  a_chain : list Z;
  a_time : Z * Z
}.

Record flat := Flat { slots : list (option aentry); reserved : list Z }.

Definition chains (es : list (option aentry)) : list Z := es ≫= from_option a_chain [].
Definition used (A : flat) : list Z := reserved A ++ chains (slots A).
Definition with_slot (i : nat) (o : option aentry) (A : flat) : flat :=
  Flat (<[i := o]> (slots A)) (reserved A).

Definition has_name (x : fname) (o : option aentry) : Prop := a_name <$> o = Some x.

#[global] Instance has_name_dec x o : Decision (has_name x o).
Proof. unfold has_name. apply _. Defined.

Definition find_entry (x : fname) (es : list (option aentry)) : option (nat * aentry) :=
  '(i, o) ← list_find (has_name x) es; a ← o; Some (i, a).
Definition hole (es : list (option aentry)) : option nat :=
  fst <$> list_find (λ o, o = None) es.

(** The requests on the files of the root directory. *)
Inductive op :=
  | Create (x : fname)
  | WriteAt (x : fname) (offset : Z) (data : list Z)
  | ReadAt (x : fname) (size offset : Z)
  | Delete (x : fname)
  | Stat (x : fname)
  | ListAll
  | Touch (x : fname).

Definition root_path (x : fname) : list Z := path_of [] x.1 x.2.

Definition concrete (o : op) : request :=
  match o with
  | Create x => Mknod (root_path x)
  | WriteAt x offset data => Write (root_path x) (lenZ data) offset data
  | ReadAt x size offset => Read (root_path x) size offset
  | Delete x => Unlink (root_path x)
  | Stat x => Getattr (root_path x)
  | ListAll => Readdir [ch_slash]
  | Touch x => Utimens (root_path x)
  end.

Section specification.
Context `{Platform} (fs : FAT16) (n : Z).

Abbreviation bpc := (512 * SecPerClus fs).

Definition free_clusters (A : flat) : list Z := filter (λ c, c ∉ used A) (seqZ 2 n).

(** The time a new entry gets, and a time as it is reported. *)
Definition clock : Z * Z := (update_time localtime_now, update_year localtime_now).
Definition reported_time (t : Z * Z) : Z :=
  mktime (tm_of_entry (mkDIR [] 0 0 0 0 0 0 0 t.1 t.2 0 0)).

Definition stat_of (a : aentry) : stat :=
  let size := lenZ (a_data a) in
  mkStat (BS_VollID (Bpb fs)) bpc (Z.lor (if a_dir a then S_IFDIR else S_IFREG) 493)
    size ((size + bpc - 1) / bpc) (reported_time (a_time a)).

(** Contents and clusters after a write: inside the last cluster the file is
    cut where the data ends; at its end it grows by the next free clusters. *)
Definition write_file (A : flat) (a : aentry) (offset : Z) (d : list Z)
    : option (list Z * list Z) :=
  let size := lenZ (a_data a) in
  let total := lenZ d + offset in
  let spare := bpc * (lenZ (a_chain a) - 1) in
  if decide (0 < lenZ d ∧ 0 <= offset ∧ total < 2 ^ 31) then
    if decide (spare <= offset ∧ offset <= size ∧ total <= spare + bpc) then
      Some (take (Z.to_nat offset) (a_data a) ++ d, a_chain a)
    else if decide (offset = size ∧ spare + bpc < total ∧ total mod bpc ≠ 0 ∧
        (size = 0 ∧ lenZ (a_chain a) = 1 ∨ spare < size)) then
      let k := (total - 1) / bpc + 1 - lenZ (a_chain a) in
      let fl := take (Z.to_nat k)
        (filter (λ c, default 0 (last (a_chain a)) < c) (free_clusters A)) in
      if decide (lenZ fl = k) then Some (a_data a ++ d, a_chain a ++ fl) else None
    else None
  else None.

(** What a read returns: whole within the contents, nothing behind them. *)
Definition read_file (a : aentry) (size offset : Z) : option (Z * list Z) :=
  let total := size + offset in
  if decide (0 <= size ∧ 0 <= offset ∧ total <= bpc * lenZ (a_chain a) ∧ total < 2 ^ 31 - 512 ∧
             512 * sectors_of total <= malloc_usable total) then
    if decide (lenZ (a_data a) <= offset) then Some (0, [])
    else if decide (total <= lenZ (a_data a)) then Some (size, slice offset size (a_data a))
    else None
  else None.

Definition find_file (x : fname) (A : flat) : option (nat * aentry) :=
  '(i, a) ← find_entry x (slots A); if a_dir a then None else Some (i, a).

Definition flat_serve (A : flat) (o : op) : option (reply * flat) :=
  match o with
  | Create x =>
    match find_entry x (slots A), hole (slots A), free_clusters A with
    | None, Some i, c :: _ =>
      Some (Code 0, with_slot i (Some (AEntry x false [] [c] clock)) A)
    | _, _, _ => None
    end
  | WriteAt x offset d =>
    '(i, a) ← find_file x A;
    '(data, chain) ← write_file A a offset d;
    Some (Code (lenZ d), with_slot i (Some (AEntry x false data chain (a_time a))) A)
  | ReadAt x size offset =>
    '(_, a) ← find_file x A;
    '(ret, data) ← read_file a size offset;
    Some (Contents ret data, A)
  | Delete x =>
    match find_entry x (slots A) with
    | None => Some (Code 1, A)
    | Some (i, a) => if a_dir a then None else Some (Code 0, with_slot i None A)
    end
  | Stat x =>
    match find_entry x (slots A) with
    | None => Some (Attributes (- ENOENT) None, A)
    | Some (_, a) => Some (Attributes 0 (Some (stat_of a)), A)
    end
  | ListAll => Some (Listing 0 (omap (fmap (λ a, spell (a_name a).1 (a_name a).2)) (slots A)), A)
  | Touch x => Some (Code 0, A)
  end.

Fixpoint flat_run (A : flat) (ops : list op) : option (list reply * flat) :=
  match ops with
  | [] => Some ([], A)
  | o :: ops =>
    '(r, A1) ← flat_serve A o;
    '(rs, A2) ← flat_run A1 ops;
    Some (r :: rs, A2)
  end.
End specification.

(** ** Representation *)

(** A name in ASCII that is listed as it was typed and whose path fits the
    blocks the program allocates for it. *)
Record valid_name `{Platform} (x : fname) : Prop := {
  vn_path : ascii_path [] x.1 x.2;
  vn_listed : listed_name x.1 x.2;
  vn_short : short_path (root_path x)
}.

Definition op_ok `{Platform} (o : op) : Prop :=
  match o with
  | Create x | ReadAt x _ _ | Delete x | Stat x | Touch x => valid_name x
  | WriteAt x _ d => valid_name x ∧ Forall is_byte d
  | ListAll => True
  end.

Section representation.
Context `{Platform} (fs : FAT16) (n : Z).

Record entry_rep (img : image) (e : DIR_ENTRY) (a : aentry) : Prop := {
  er_valid : valid_name (a_name a);
  er_name : DIR_Name e = fat_name (a_name a).1 (a_name a).2;
  er_size : DIR_FileSize e = lenZ (a_data a);
  er_time : (DIR_WrtTime e, DIR_WrtDate e) = a_time a;
  er_kind : if a_dir a then is_dir e = true ∧ a_chain a = []
    else is_file e = true ∧ file_chain fs n img (DIR_FstClusLO e) (a_chain a) ∧
      lenZ (a_data a) <= 512 * SecPerClus fs * lenZ (a_chain a) ∧
      take (length (a_data a)) (chain_data fs img (a_chain a)) = a_data a
}.

Definition slot_rep (img : image) (s : slot) (o : option aentry) : Prop :=
  match o with Some a => entry_rep img s.2 a | None => is_free s.2 = true end.

Record represents (img : image) (A : flat) : Prop := {
  rep_vol : vol_ok fs n img;
  rep_slots : Forall2 (slot_rep img) (root_slots fs img) (slots A);
  rep_names i j a b : slots A !! i = Some (Some a) → slots A !! j = Some (Some b) →
    a_name a = a_name b → i = j;
  rep_end i j s a : root_slots fs img !! i = Some s → name0 s.2 = 0 →
    slots A !! j = Some (Some a) → (j < i)%nat;
  rep_used : NoDup (used A);
  rep_free c : in_volume n c → fat_get fs img c = 0 ↔ c ∉ used A
}.
End representation.

(** ** Names *)

Section names.
Context `{Platform}.
Implicit Types (x y : fname).

(** The loop of [path_decode] only appends. *)
Lemma decode_loop_prefix i cs out r : decode_loop i cs out = Ok r → ∃ t, r = out ++ t.
Proof.
  revert i out. induction cs as [|c cs IH]; intros i out; cbn [decode_loop].
  { intros <-%ok_inj. exists []. by rewrite app_nil_r. }
  destruct (c =? ch_space); [apply IH|]. intros (? & _ & Hr)%bind_ok.
  apply IH in Hr as [t ->]. rewrite <- app_assoc. case_goal; rewrite <- ?app_assoc; by eexists.
Qed.

Lemma shown_fat_name x e :
  valid_name x → DIR_Name e = fat_name x.1 x.2 → shown_name e = spell x.1 x.2.
Proof.
  intros [Hp [] _] E. unfold shown_name. rewrite E, path_decode_encode by done.
  apply c_str_no_nul, component_no_nul. by apply (ascii_component [] x.1 x.2).
Qed.

Lemma spell_inj x y : valid_name x → valid_name y → spell x.1 x.2 = spell y.1 y.2 → x = y.
Proof.
  intros [Hx Lx _] [Hy Ly _]. destruct x as [b e], y as [b' e']. cbn [fst snd] in *.
  assert (Hdot : ∀ b e, listed_name b e → ch_dot ∉ b).
  { intros b0 t0 [_ Hb _ _ _] Hin. rewrite Forall_forall in Hb. by apply Hb in Hin as (_ & ? & _). }
  pose proof (Hdot _ _ Lx) as H1. pose proof (Hdot _ _ Ly) as H2. clear Hdot Hx Hy Lx Ly.
  assert (Hlone : ∀ b b' e : list Z, ch_dot ∉ b → b ≠ b' ++ ch_dot :: e).
  { intros b0 b1 e0 Hn ->. apply Hn, elem_of_app. right. apply list_elem_of_here. }
  assert (Hsplit : ∀ b b' e e' : list Z, ch_dot ∉ b → ch_dot ∉ b' →
    b ++ ch_dot :: e = b' ++ ch_dot :: e' → b = b' ∧ e = e').
  { clear. induction b as [|c b IH]; intros [|c' b'] e e' Hb Hb' E; cbn [app] in E.
    - by injection E.
    - injection E as <- _. by destruct Hb'; apply list_elem_of_here.
    - injection E as -> _. by destruct Hb; apply list_elem_of_here.
    - injection E as -> E. rewrite not_elem_of_cons in Hb, Hb'. destruct (IH b' e e') as [-> ->]; tauto. }
  unfold spell. destruct e as [|c e], e' as [|c' e'].
  - by intros ->.
  - intros E. by destruct (Hlone _ _ _ H1 E).
  - intros E. by destruct (Hlone _ _ _ H2 (eq_sym E)).
  - intros E. by apply Hsplit in E as [-> ->].
Qed.

Lemma fat_name_inj x y :
  valid_name x → valid_name y → fat_name x.1 x.2 = fat_name y.1 y.2 → x = y.
Proof.
  intros Hx Hy E. apply spell_inj; [done|done|].
  set (e := mkDIR (fat_name y.1 y.2) 0 0 0 0 0 0 0 0 0 0 0).
  by rewrite <- (shown_fat_name x e), (shown_fat_name y e).
Qed.

Lemma valid_row x : valid_name x → ascii_row (fat_name x.1 x.2).
Proof. intros [Hp _ _]. apply ascii_row_fat_name; apply Hp. Qed.

Lemma named_range x e :
  valid_name x → DIR_Name e = fat_name x.1 x.2 → 0 < name0 e < 128.
Proof.
  intros Hx E. apply (named_ascii (fat_name x.1 x.2)); [by apply valid_row|].
  by apply bool_decide_eq_true.
Qed.

(** A free entry is not found and not listed under any name. *)
Lemma free_not_named x e : valid_name x → is_free e = true → named (fat_name x.1 x.2) e = false.
Proof.
  intros Hx He. destruct (named _ e) eqn:E; [|done]. apply bool_decide_eq_true in E.
  pose proof (named_range x e Hx E). unfold is_free in He. lia.
Qed.

Lemma free_not_shown x e :
  valid_name x → length (DIR_Name e) = 11%nat → is_free e = true →
  shows (spell x.1 x.2) e = false.
Proof.
  intros Hx Hlen He. apply bool_decide_eq_false. destruct Hx as [[_ _ Ha _] [Hne _ _ _ _] _].
  assert (Hsp : ∃ c s, spell x.1 x.2 = c :: s ∧ 0 < c < 128).
  { destruct x.1 as [|c b]; [done|]. apply Forall_cons in Ha as [Hc _].
    unfold spell. destruct x.2; by eexists _, _. }
  destruct Hsp as (c & s & -> & Hc). unfold shown_name, is_free, name0 in *.
  destruct (DIR_Name e) as [|d row]; [done|]. change (byte_at (d :: row) 0) with d in He.
  unfold path_decode. change (byte_at (d :: row) 0) with d.
  assert (Hd : d = 0 ∨ d = 229) by lia.
  assert ((d =? ch_dot) = false) as -> by (destruct Hd as [-> | ->]; done). cbn [andb].
  change (take 11 (d :: row)) with (d :: take 10 row). cbn [decode_loop].
  assert ((d =? ch_space) = false) as -> by (destruct Hd as [-> | ->]; done).
  assert (is_upper d = false) as -> by (destruct Hd as [-> | ->]; done).
  change (0 =? 8) with false. cbn iota. change (lenZ ([] ++ [d]) <=? 13) with true. res_steps.
  destruct (decode_loop _ _ _) as [r| | |] eqn:E; res_steps; try done.
  apply decode_loop_prefix in E as [t ->]. destruct (require _ _); res_steps; try done.
  unfold c_str. cbn [app take_while]. destruct Hd as [-> | ->]; cbn; [done|].
  intros [= <- _]. lia.
Qed.
End names.

(** ** The directory and the abstract slots *)

Lemma first_slot_at P es i (s : slot) :
  es !! i = Some s → P s.2 = true → (∀ j t, (j < i)%nat → es !! j = Some t → P t.2 = false) →
  first_slot P false es = Some s.
Proof.
  revert i. induction es as [|[[sec off] e] es IH]; intros i Hi Hs Hj; [done|].
  cbn [first_slot andb]. destruct i as [|i].
  - injection Hi as <-. cbn [snd] in Hs. by rewrite Hs.
  - pose proof (Hj O (sec, off, e) ltac:(lia) eq_refl) as E. cbn [snd] in E. rewrite E. apply (IH i); [done..|].
    intros j t Hlt Ht. by apply (Hj (S j) t ltac:(lia)).
Qed.

Lemma first_slot_none P stop es :
  (∀ j (s : slot), es !! j = Some s → P s.2 = false) → first_slot P stop es = None.
Proof.
  induction es as [|[[sec off] e] es IH]; intros Hall; [done|]. cbn [first_slot].
  pose proof (Hall O (sec, off, e) eq_refl) as E. cbn [snd] in E. rewrite E.
  destruct (_ && _); [done|]. apply IH. intros j s Hs. by apply (Hall (S j)).
Qed.

Lemma find_entry_Some x es i a :
  find_entry x es = Some (i, a) → es !! i = Some (Some a) ∧ a_name a = x.
Proof.
  unfold find_entry. destruct (list_find _ es) as [[j o]|] eqn:E; [|done]. cbn.
  apply list_find_Some in E as (Hj & Hx & _). destruct o as [b|]; [|done].
  intros [= <- <-]. split; [done|]. by injection Hx.
Qed.

Lemma find_entry_None x es j b :
  find_entry x es = None → es !! j = Some (Some b) → a_name b ≠ x.
Proof.
  unfold find_entry. destruct (list_find _ es) as [[k o]|] eqn:E; cbn.
  - apply list_find_Some in E as (_ & Hx & _). by destruct o.
  - apply list_find_None in E. rewrite Forall_lookup in E. intros _ Hb Hx.
    apply (E _ _ Hb). unfold has_name. by rewrite <- Hx.
Qed.

Lemma hole_Some es i : hole es = Some i →
  es !! i = Some None ∧ ∀ j, (j < i)%nat → ∃ a, es !! j = Some (Some a).
Proof.
  unfold hole. destruct (list_find _ es) as [[k o]|] eqn:E; [|done]. intros [= <-].
  apply list_find_Some in E as (Hk & -> & Hj). split; [done|]. intros j Hlt.
  destruct (es !! j) as [[a|]|] eqn:Ej; [by exists a|by destruct (Hj j None)|].
  apply lookup_ge_None in Ej. apply lookup_lt_Some in Hk. cbn in *. lia.
Qed.

Section finding.
Context `{Platform} {fs : FAT16} {n : Z} {img : image} {A : flat} (Hrep : represents fs n img A).
Local Abbreviation es := (root_slots fs img).

Lemma rep_slot i o : slots A !! i = Some o → ∃ s, es !! i = Some s ∧ slot_rep fs n img s o.
Proof. intros Hi. exact (Forall2_lookup_r _ _ _ _ _ (rep_slots _ _ _ _ Hrep) Hi). Qed.

Lemma rep_slot_of i s : es !! i = Some s → ∃ o, slots A !! i = Some o ∧ slot_rep fs n img s o.
Proof. intros Hi. exact (Forall2_lookup_l _ _ _ _ _ (rep_slots _ _ _ _ Hrep) Hi). Qed.

Lemma slot_facts i s : es !! i = Some s →
  s.2 = entry_on img s.1.1 s.1.2 ∧ length (DIR_Name s.2) = 11%nat ∧ s ∈ es ∧
  slot_ok fs img s.1.1 s.1.2.
Proof.
  intros Hi. apply list_elem_of_lookup_2 in Hi. destruct s as [[sec off] e]. cbn [fst snd].
  split_and!; [by eapply root_slot_entry| |done|].
  - by eapply (root_slot_name (rep_vol _ _ _ _ Hrep)).
  - by eapply (root_slot_ok (rep_vol _ _ _ _ Hrep)).
Qed.

(** Before the entry named [x] no slot is taken for it. *)
Lemma no_other P x i a :
  valid_name x → slots A !! i = Some (Some a) → a_name a = x →
  (∀ e b, entry_rep fs n img e b → a_name b ≠ x → P e = false) →
  (∀ e, length (DIR_Name e) = 11%nat → name0 e = 229 → P e = false) →
  ∀ j t, (j < i)%nat → es !! j = Some t → P t.2 = false.
Proof.
  intros Hx Hi Ha Hother Hdel j t Hlt Ht. destruct (rep_slot_of j t Ht) as ([b|] & Hj & Hb).
  - apply (Hother t.2 b); [done|]. intros E.
    assert (j = i) by (eapply (rep_names _ _ _ _ Hrep); [done..|congruence]). lia.
  - destruct (slot_facts j t Ht) as (_ & Hlen & _). apply Hdel; [done|].
    cbn in Hb. unfold is_free in Hb. destruct (Z.eqb_spec (name0 t.2) 0) as [E|E]; [|lia].
    pose proof (rep_end _ _ _ _ Hrep _ _ _ _ Ht E Hi). lia.
Qed.

Lemma stop_other x e b :
  valid_name x → entry_rep fs n img e b → a_name b ≠ x → root_stop (fat_name x.1 x.2) e = false.
Proof.
  intros Hx [Hb E _ _ _] Hne. unfold root_stop. pose proof (named_range _ _ Hb E).
  assert (named (fat_name x.1 x.2) e = false) as ->.
  { apply bool_decide_eq_false. rewrite E. intros E'. by apply Hne, fat_name_inj. }
  rewrite orb_false_r. lia.
Qed.

Lemma stop_same x e b :
  valid_name x → entry_rep fs n img e b → a_name b = x → root_stop (fat_name x.1 x.2) e = true.
Proof.
  intros Hx [Hb E _ _ Hk] <-. unfold root_stop, named. rewrite bool_decide_true by done.
  destruct (a_dir b); destruct Hk as [-> _]; by rewrite ?orb_true_r.
Qed.

Lemma shows_other x e b :
  valid_name x → entry_rep fs n img e b → a_name b ≠ x → shows (spell x.1 x.2) e = false.
Proof.
  intros Hx [Hb E _ _ _] Hne. apply bool_decide_eq_false.
  rewrite (shown_fat_name _ _ Hb E). intros E'. by apply Hne, spell_inj.
Qed.

Context {x : fname} (Hx : valid_name x).

Lemma rep_found i a : find_entry x (slots A) = Some (i, a) →
  ∃ s, es !! i = Some s ∧ entry_rep fs n img s.2 a ∧ a_name a = x ∧
    first_slot (root_stop (fat_name x.1 x.2)) false es = Some s ∧
    first_slot (shows (spell x.1 x.2)) false es = Some s.
Proof.
  intros [Hi Ha]%find_entry_Some. destruct (rep_slot i _ Hi) as (s & Hs & Hr). cbn in Hr.
  exists s. split_and!; [done..| |].
  - apply (first_slot_at _ _ i); [done|by eapply stop_same|].
    eapply no_other; [done..|intros; by eapply stop_other|].
    intros e _ E. unfold root_stop. rewrite E, free_not_named; [done|done|].
    unfold is_free. by rewrite E.
  - apply (first_slot_at _ _ i); [done| |].
    + apply bool_decide_eq_true. rewrite <- Ha. destruct Hr. by apply shown_fat_name.
    + eapply no_other; [done..|intros; by eapply shows_other|].
      intros e Hlen E. apply free_not_shown; [done|done|]. unfold is_free. by rewrite E.
Qed.

Lemma rep_root_file i a : find_file x A = Some (i, a) →
  slots A !! i = Some (Some a) ∧ a_name a = x ∧ a_dir a = false ∧
  ∃ sec off e, es !! i = Some (sec, off, e) ∧ entry_rep fs n img e a ∧
    root_file fs img x.1 x.2 sec off e.
Proof.
  unfold find_file. destruct (find_entry x (slots A)) as [[j b]|] eqn:E; [|done]. cbn.
  destruct (a_dir b) eqn:Hd; [done|]. intros [= <- <-].
  destruct (find_entry_Some _ _ _ _ E) as [Hi Ha]. split_and!; [done..|].
  destruct (rep_found j b E) as ([[sec off] e] & Hs & Hr & _ & Hf & Hsh). cbn [snd] in Hr.
  exists sec, off, e. split_and!; [done..|].
  destruct Hr as [Hv En _ _ Hk]. rewrite Hd in Hk. destruct Hk as (Hfile & _).
  split; [apply Hx|apply Hx|done|done| |done]. pose proof (named_range _ _ Hv En). lia.
Qed.

Lemma rep_lookup_found i a : find_entry x (slots A) = Some (i, a) →
  ∃ s, es !! i = Some s ∧ entry_rep fs n img s.2 a ∧
    lookup fs n img (rows_of [] x.1 x.2) (Some s.2).
Proof.
  intros E. destruct (rep_found i a E) as ([[sec off] e] & Hs & Hr & _ & Hf & _). cbn [snd] in *.
  exists (sec, off, e). split_and!; [done..|]. destruct Hr as [Hv En _ _ Hk].
  pose proof (named_range _ _ Hv En). unfold rows_of. cbn [fmap list_fmap app snd].
  destruct (a_dir a); destruct Hk as (Hk & _).
  - eapply lookup_dir; [done|lia|done].
  - eapply lookup_file; [done|lia|done].
Qed.

Lemma rep_absent : find_entry x (slots A) = None →
  lookup fs n img (rows_of [] x.1 x.2) None ∧ first_slot (shows (spell x.1 x.2)) false es = None.
Proof.
  intros E. split.
  - unfold rows_of. cbn [fmap list_fmap app].
    destruct (first_slot (root_stop (fat_name x.1 x.2)) false es) as [[[sec off] e]|] eqn:Ef;
      [|by apply lookup_end].
    eapply lookup_free; [exact Ef|]. apply first_slot_Some in Ef as [Hin Hstop].
    apply list_elem_of_lookup in Hin as [j Hj]. destruct (rep_slot_of j _ Hj) as ([b|] & Hb & Hr).
    + cbn in Hr. rewrite (stop_other x e b) in Hstop; [done|done|done|].
      by eapply find_entry_None.
    + cbn in Hr. unfold root_stop in Hstop. rewrite free_not_named, orb_false_r in Hstop by done. lia.
  - apply first_slot_none. intros j s Hj. destruct (rep_slot_of j _ Hj) as ([b|] & Hb & Hr); cbn in Hr.
    + eapply shows_other; [done..|]. by eapply find_entry_None.
    + destruct (slot_facts j s Hj) as (_ & Hlen & _). by apply free_not_shown.
Qed.

Lemma rep_hole i : hole (slots A) = Some i →
  ∃ s, es !! i = Some s ∧ first_slot is_free false es = Some s.
Proof.
  intros [Hi Hlt]%hole_Some. destruct (rep_slot i _ Hi) as (s & Hs & Hr). exists s. split; [done|].
  apply (first_slot_at _ _ i); [done..|]. intros j t Hj Ht.
  destruct (Hlt j Hj) as [a Ha]. destruct (rep_slot_of j t Ht) as (o & Ho & Hra).
  rewrite Ha in Ho. injection Ho as <-. cbn in Hra. destruct Hra as [Hv En _ _ _].
  pose proof (named_range _ _ Hv En). unfold is_free. lia.
Qed.
End finding.

(** ** Changing one slot *)

Definition own (o : option aentry) : list Z := from_option a_chain [] o.

Lemma chains_split es i o :
  es !! i = Some o → chains es ≡ₚ own o ++ chains (<[i := None]> es).
Proof.
  intros Hi. rewrite <- (take_drop_middle es i o Hi) at 1.
  pose proof (lookup_lt_Some _ _ _ Hi) as Hlt.
  rewrite insert_take_drop by done. unfold chains. rewrite !bind_app, !bind_cons.
  cbn [from_option app]. fold (own o). by rewrite Permutation_app_swap_app.
Qed.

Lemma chains_insert es i o o' :
  es !! i = Some o → chains (<[i := o']> es) ≡ₚ own o' ++ chains (<[i := None]> es).
Proof.
  intros Hi. rewrite (chains_split (<[i := o']> es) i o').
  - by rewrite list_insert_insert_eq.
  - apply list_lookup_insert_eq. by eapply lookup_lt_Some.
Qed.

Lemma elem_of_chains es i a c : es !! i = Some (Some a) → c ∈ a_chain a → c ∈ chains es.
Proof.
  intros Hi Hc. apply list_elem_of_bind. exists (Some a). split; [done|].
  by eapply list_elem_of_lookup_2.
Qed.

(** The clusters of all but slot [i]. *)
Definition others (i : nat) (A : flat) : list Z := reserved A ++ chains (<[i := None]> (slots A)).

Lemma used_split A i o : slots A !! i = Some o → used A ≡ₚ own o ++ others i A.
Proof.
  intros Hi. unfold used, others. rewrite (chains_split _ _ _ Hi). apply Permutation_app_swap_app.
Qed.

Lemma used_with_slot A i o o' :
  slots A !! i = Some o → used (with_slot i o' A) ≡ₚ own o' ++ others i A.
Proof.
  intros Hi. unfold used, others, with_slot. cbn [slots reserved].
  rewrite (chains_insert _ _ _ o' Hi). apply Permutation_app_swap_app.
Qed.

Lemma elem_of_others A i j a c :
  j ≠ i → slots A !! j = Some (Some a) → c ∈ a_chain a → c ∈ others i A.
Proof.
  intros Hne Hj Hc. apply elem_of_app. right. eapply elem_of_chains; [|exact Hc].
  by rewrite list_lookup_insert_ne.
Qed.

Section update.
Context `{Platform} {fs : FAT16} {n : Z} {img : image} {A : flat} (Hrep : represents fs n img A).
Context {i : nat} {sec off : Z} {e : DIR_ENTRY} {o : option aentry}.
Context (Hs : root_slots fs img !! i = Some (sec, off, e)) (Ho : slots A !! i = Some o).

Lemma others_not_own c : c ∈ own o → c ∉ others i A.
Proof.
  pose proof (rep_used _ _ _ _ Hrep) as Hnd. rewrite (used_split _ _ _ Ho) in Hnd.
  apply NoDup_app in Hnd as (_ & Hnd & _). apply Hnd.
Qed.

Lemma others_used c : c ∈ others i A → c ∈ used A.
Proof. intros Hc. rewrite (used_split _ _ _ Ho). apply elem_of_app. by right. Qed.

(** What an operation on slot [i] has to establish; it may change the
    clusters [touched] and their table entries. *)
Record slot_update (img' : image) (touched : list Z) (o' : option aentry) : Prop := {
  up_vol : vol_ok fs n img';
  up_other j t : j ≠ i → root_slots fs img !! j = Some t →
    entry_on img' t.1.1 t.1.2 = entry_on img t.1.1 t.1.2;
  up_table c : in_volume n c → c ∉ touched → fat_get fs img' c = fat_get fs img c;
  up_data c : in_volume n c → c ∉ touched → cluster_data fs img' c = cluster_data fs img c;
  up_touched c : c ∈ touched → c ∉ others i A;
  up_own c : c ∉ touched → c ∈ own o ↔ c ∈ own o';
  up_nodup : NoDup (own o');
  up_new c : c ∈ own o' → c ∉ others i A;
  up_free c : in_volume n c → c ∈ touched → fat_get fs img' c = 0 ↔ c ∉ own o';
  up_slot : slot_rep fs n img' (sec, off, entry_on img' sec off) o';
  up_stop : o' = None → name0 (entry_on img' sec off) ≠ 0;
  up_end k t : o' ≠ None → root_slots fs img !! k = Some t → name0 t.2 = 0 → (i ≤ k)%nat;
  up_name a j b : o' = Some a → j ≠ i → slots A !! j = Some (Some b) → a_name b ≠ a_name a
}.

Context {img' : image} {touched : list Z} {o' : option aentry}.
Context (Hup : slot_update img' touched o').

Lemma updated_slot j t' : root_slots fs img' !! j = Some t' →
  ∃ t, root_slots fs img !! j = Some t ∧ t'.1 = t.1 ∧ t'.2 = entry_on img' t.1.1 t.1.2 ∧
    (j ≠ i → t' = t).
Proof.
  rewrite (root_slots_map img img'), list_lookup_fmap.
  destruct (root_slots fs img !! j) as [t|] eqn:Et; [|done]. destruct (slot_facts Hrep j t Et) as (E & _).
  intros Et'. exists t. destruct t as [[s x] d]. cbn [fst snd fmap option_fmap option_map] in *.
  injection Et' as <-. split_and!; [done..|]. intros Hne.
  pose proof (up_other _ _ _ Hup j _ Hne Et) as E'. cbn [fst snd] in E'. by rewrite E', <- E.
Qed.

Lemma untouched j a c :
  j ≠ i → slots A !! j = Some (Some a) → c ∈ a_chain a → c ∉ touched.
Proof.
  intros Hne Hj Hc Ht. apply (up_touched _ _ _ Hup c Ht). by eapply elem_of_others.
Qed.

Lemma entry_rep_other j t a :
  j ≠ i → slots A !! j = Some (Some a) → entry_rep fs n img t a → entry_rep fs n img' t a.
Proof.
  intros Hne Hj [H1 H2 H3 H4 Hk]. split; try done. destruct (a_dir a); [done|].
  destruct Hk as (Hfile & Hc & Hlen & Hd).
  pose proof (chain_in_volume _ _ _ Hc) as Hvol. rewrite Forall_forall in Hvol.
  split_and!; [done| |done|].
  - eapply chain_frame; [exact Hc|]. intros c Hin. apply (up_table _ _ _ Hup); [by apply Hvol|].
    by eapply untouched.
  - rewrite <- Hd at 2. f_equal. apply chain_data_ext. intros c Hin.
    apply (up_data _ _ _ Hup); [by apply Hvol|]. by eapply untouched.
Qed.

Lemma slot_updated : represents fs n img' (with_slot i o' A).
Proof.
  pose proof (lookup_lt_Some _ _ _ Ho) as Hlt.
  assert (Hget : ∀ j, slots (with_slot i o' A) !! j = if decide (j = i) then Some o' else slots A !! j).
  { intros j. cbn [with_slot slots]. case_decide as E; [subst; by apply list_lookup_insert_eq|].
    by apply list_lookup_insert_ne. }
  split.
  - apply Hup.
  - apply Forall2_same_length_lookup. split.
    + cbn [with_slot slots]. rewrite length_insert, (root_slots_map img img'), length_fmap.
      by eapply Forall2_length, Hrep.
    + intros j t' o2 Ht' Ho2. destruct (updated_slot j t' Ht') as (t & Ht & E1 & E2 & E3).
      rewrite Hget in Ho2. case_decide as E.
      * subst j. injection Ho2 as <-. rewrite Hs in Ht. injection Ht as <-. cbn [fst snd] in *.
        pose proof (up_slot _ _ _ Hup) as Hnew. destruct t' as [p d]. cbn [fst snd] in *. by subst.
      * rewrite (E3 E). destruct (rep_slot_of Hrep j t Ht) as (o3 & Ho3 & Hr).
        rewrite Ho2 in Ho3. injection Ho3 as <-. destruct o2 as [a|]; [|done].
        by eapply entry_rep_other.
  - intros j k a b. rewrite !Hget. intros Hj Hk Eab. destruct (decide (j = i)) as [->|], (decide (k = i)) as [->|]; [done|..].
    + destruct (up_name _ _ _ Hup a k b); congruence.
    + destruct (up_name _ _ _ Hup b j a); congruence.
    + by eapply (rep_names _ _ _ _ Hrep).
  - intros k j t' a Ht' H0 Hj. destruct (updated_slot k t' Ht') as (t & Ht & E1 & E2 & E3).
    destruct (decide (k = i)) as [->|Hk].
    + exfalso. rewrite Hs in Ht. injection Ht as <-. cbn [fst snd] in *. rewrite E2 in H0.
      destruct o' as [a'|] eqn:Eo; [|by apply (up_stop _ _ _ Hup)].
      pose proof (up_slot _ _ _ Hup) as [Hval Hname _ _ _]. cbn [snd] in *.
      pose proof (named_range _ _ Hval Hname). lia.
    + rewrite (E3 Hk) in H0. rewrite Hget in Hj. case_decide as E.
      * subst j. assert (i ≤ k)%nat; [|lia]. apply (up_end _ _ _ Hup k t); [|done|done].
        intros ->. discriminate.
      * by eapply (rep_end _ _ _ _ Hrep).
  - rewrite (used_with_slot _ _ _ o' Ho). pose proof (rep_used _ _ _ _ Hrep) as Hnd.
    rewrite (used_split _ _ _ Ho) in Hnd. apply NoDup_app in Hnd as (_ & _ & Hnd).
    apply NoDup_app. split_and!; [apply Hup|apply Hup|done].
  - intros c Hc. rewrite (used_with_slot _ _ _ o' Ho). rewrite not_elem_of_app.
    destruct (decide (c ∈ touched)) as [Hin|Hout].
    + rewrite (up_free _ _ _ Hup c Hc Hin). pose proof (up_touched _ _ _ Hup c Hin). tauto.
    + rewrite (up_table _ _ _ Hup c Hc Hout), (rep_free _ _ _ _ Hrep c Hc).
      rewrite (used_split _ _ _ Ho), not_elem_of_app. by rewrite (up_own _ _ _ Hup c Hout).
Qed.
End update.
