(* ===== verification/NestedLife.v ===== *)
(** * The life of a file in a subdirectory

    The handlers of lab4/simple_fat16_new.c one after the other on a file that
    does not lie in the root directory: it is created, written, read, deleted
    and asked for. The steps between are the frames of Nested for a write, and
    those below for an entry that comes or goes. *)

From Stdlib Require Import Lia.
From stdpp Require Import base numbers option sets list.
From S2P Require Import Prelude Bytes CString Names Volume Directory Namespace FileIO Append Nested FileSystem Flat.
Local Open Scope Z_scope.

(** ** An entry that a search for other names does not see *)

(** The entry is unused or bears this name. *)
Definition covered (name : list Z) (e : DIR_ENTRY) : bool := is_free e || named name e.

(** Two images whose directories differ in one entry, which in both bears
    the name or is unused, and which does not end a directory in the second. *)
Record entry_changed `{Platform} (fs : FAT16) (n : Z) (name : list Z) (sec off : Z) (img img' : image) : Prop := {
  ec_vol : vol_ok fs n img;
  ec_fat c : fat_index fs c → fat_get fs img' c = fat_get fs img c;
  ec_other s o : slot_ok fs img s o → entry_pos s o ≠ entry_pos sec off → entry_on img' s o = entry_on img s o;
  ec_below : FirstDataSector fs * 512 <= entry_pos sec off;
  ec_before : covered name (entry_on img sec off) = true;
  ec_after : covered name (entry_on img' sec off) = true;
  ec_goes_on : name0 (entry_on img' sec off) ≠ 0;
  ec_file : is_dir (entry_on img' sec off) = false
}.

Arguments ec_vol {_ _ _ _ _ _ _ _} _.
Arguments ec_fat {_ _ _ _ _ _ _ _} _.
Arguments ec_other {_ _ _ _ _ _ _ _} _.
Arguments ec_below {_ _ _ _ _ _ _ _} _.
Arguments ec_goes_on {_ _ _ _ _ _ _ _} _.
Arguments ec_file {_ _ _ _ _ _ _ _} _.

Lemma entry_on_pos img s o s' o' : entry_pos s o = entry_pos s' o' → entry_on img s o = entry_on img s' o'.
Proof. intros E. unfold entry_on. by rewrite E. Qed.

Lemma dir_slots_other {fs : FAT16} img img' l s o e :
  (s, o, e) ∈ dir_slots fs img l → (s, o, entry_on img' s o) ∈ dir_slots fs img' l.
Proof.
  intros Hin. rewrite (dir_slots_map (img := img) (img' := img')). by apply (list_elem_of_fmap_2 (moved img')) in Hin.
Qed.

Section entry_changed.
Context `{Platform} {fs : FAT16} {n : Z} {name : list Z} {sec off : Z} {img img' : image}.
Context (Hec : entry_changed fs n name sec off img img').

Lemma covered_wanted x last e : ascii_row x → x ≠ name → covered name e = true → wanted x last e = false.
Proof.
  intros Hx Hne Hc. destruct (wanted x last e) eqn:E; [|done]. apply wanted_named in E.
  pose proof (named_ascii _ _ Hx E). unfold covered, is_free in Hc. apply orb_true_iff in Hc as [Hc|Hc]; [lia|].
  apply bool_decide_eq_true in E, Hc. congruence.
Qed.

Lemma changed_root : root_slots fs img' = root_slots fs img.
Proof.
  rewrite (root_slots_moved (img := img) (img' := img')). rewrite <- (list_fmap_id (root_slots fs img)) at 2.
  apply list_fmap_ext. intros i [[s o] e] Hin%list_elem_of_lookup_2. unfold moved. cbn [fst snd id].
  f_equal. rewrite (root_slot_entry _ _ _ Hin).
  destruct (root_slot_region img s o e (ec_vol Hec) Hin) as [Hlt _].
  apply (ec_other Hec); [by eapply root_slot_ok; [apply Hec|]|].
  pose proof (ec_below Hec). lia.
Qed.

(** The slots of a directory: as before, or the one that has changed. *)
Lemma changed_slot c l s o e :
  dir_chain fs n img c l → (s, o, e) ∈ dir_slots fs img l →
  entry_on img' s o = e ∨
  entry_on img' s o = entry_on img' sec off ∧ covered name e = true.
Proof.
  intros Hc Hin. pose proof (dir_slot_ok (ec_vol Hec) _ _ _ _ _ Hc Hin) as Hs.
  pose proof (dir_slot_entry _ _ _ _ Hin) as ->.
  destruct (decide (entry_pos s o = entry_pos sec off)) as [E|E]; [right|left; by apply (ec_other Hec)].
  rewrite !(entry_on_pos _ _ _ _ _ E). split; [done|apply Hec].
Qed.

Lemma changed_chain c l : dir_chain fs n img c l → dir_chain fs n img' c l.
Proof.
  intros Hc. eapply chain_frame; [done|]. intros x Hx. apply (ec_fat Hec).
  pose proof (chain_indices _ _ _ (ec_vol Hec) Hc) as Hi. rewrite Forall_forall in Hi. by apply Hi.
Qed.

Lemma changed_chain_back c l : dir_chain fs n img' c l → dir_chain fs n img c l.
Proof.
  intros Hc. eapply chain_frame; [done|]. intros x Hx. symmetry. apply (ec_fat Hec).
  pose proof (chain_in_volume _ _ _ Hc) as Hi. rewrite Forall_forall in Hi.
  eapply in_volume_index; [apply (ec_vol Hec)|by apply Hi].
Qed.

(** A search that finds something else than the entry finds it again. *)
Lemma changed_search Q c l s o e :
  (∀ x, covered name x = true → Q x = false) → dir_chain fs n img c l →
  first_slot Q true (dir_slots fs img l) = Some (s, o, e) →
  first_slot Q true (dir_slots fs img' l) = Some (s, o, e).
Proof.
  intros HQ Hc. rewrite (dir_slots_map (img := img) (img' := img')).
  assert (Hall : ∀ s o x, (s, o, x) ∈ dir_slots fs img l →
    entry_on img' s o = x ∨ entry_on img' s o = entry_on img' sec off ∧ covered name x = true)
    by (intros; by eapply changed_slot).
  induction (dir_slots fs img l) as [|[[s1 o1] x] es IH]; [done|].
  cbn [fmap list_fmap first_slot moved fst snd].
  destruct (Hall s1 o1 x (list_elem_of_here _ _)) as [->|[-> Hx]].
  - destruct (Q x); [done|]. destruct (_ && _); [done|]. apply IH. intros. apply Hall. by apply list_elem_of_further.
  - rewrite (HQ x Hx), (HQ (entry_on img' sec off)) by apply Hec.
    pose proof (ec_goes_on Hec). cbn [andb]. case_goal; [done|].
    rewrite (proj2 (Z.eqb_neq (name0 (entry_on img' sec off)) 0)) by done.
    apply IH. intros. apply Hall. by apply list_elem_of_further.
Qed.

Lemma changed_walk P names D :
  walk fs n img P names (Some D) → Forall ascii_row names → name ∉ names → walk fs n img' P names (Some D).
Proof.
  intros Hw. remember (Some D) as r eqn:Er. revert Er.
  induction Hw as [|P x l s o e Hl Hf|P x rest l s o e r Hl Hne Hf Hw IH]; [done|..];
    intros Er [Hx Hrows]%Forall_cons [Hn Hnot]%not_elem_of_cons; subst.
  - eapply walk_found; [by apply changed_chain|]. eapply changed_search; [|done..].
    intros. by apply covered_wanted.
  - eapply walk_down; [by apply changed_chain|done| |by apply IH]. eapply changed_search; [|done..].
    intros. by apply covered_wanted.
Qed.

Lemma changed_lookup names D :
  lookup fs n img names (Some D) → Forall ascii_row names → name ∉ names → lookup fs n img' names (Some D).
Proof.
  intros Hl. remember (Some D) as r eqn:Er.
  destruct Hl as [x rest Hf|x rest s o e Hf H0|x rest s o e Hf H0 Ha|x s o e Hf H0 Ha|x rest s o e r Hf H0 Ha Hne Hw];
    try done; intros [Hx Hrows]%Forall_cons [Hn Hnot]%not_elem_of_cons; subst.
  - eapply lookup_file; [by rewrite changed_root|done..].
  - eapply lookup_dir; [by rewrite changed_root|done..].
  - eapply lookup_down; [by rewrite changed_root|done..|by apply changed_walk].
Qed.

(** No directory comes with it. *)
Lemma changed_reach e : reachable_entry fs n img' e → is_dir e = true → reachable_entry fs n img e.
Proof.
  intros Hr. induction Hr as [s o e Hin|D l s o e Hr IH Hd Hc Hin]; intros He.
  - rewrite changed_root in Hin. by eapply reach_root.
  - specialize (IH Hd). apply changed_chain_back in Hc. rewrite (dir_slots_map (img := img) (img' := img')) in Hin.
    apply list_elem_of_fmap in Hin as ([[s1 o1] x] & [= -> -> ->] & Hin). cbn [fst snd] in *.
    destruct (changed_slot _ _ _ _ _ Hc Hin) as [E|[E _]]; rewrite E in He |- *; [by eapply reach_sub|].
    pose proof (ec_file Hec). congruence.
Qed.

Lemma changed_not_a_directory l : not_a_directory fs n img l → not_a_directory fs n img' l.
Proof. intros Hnd D l' Hr Hd Hc. apply (Hnd D l'); [by apply changed_reach|done|by apply changed_chain_back]. Qed.
End entry_changed.

(** After a write no directory has come either. *)
Section written_back.
Context `{Platform} {fs : FAT16} {n : Z} {img img' : image}.
Context (Hv : vol_ok fs n img) (Hsd : same_dirs fs n img img') (Ht : same_table fs img img').

Lemma same_dirs_chain_back c l : dir_chain fs n img' c l → dir_chain fs n img c l.
Proof.
  intros Hc. eapply chain_frame; [done|]. intros x Hx. symmetry. apply Ht.
  pose proof (chain_in_volume _ _ _ Hc) as Hi. rewrite Forall_forall in Hi.
  eapply in_volume_index; [apply Hv|by apply Hi].
Qed.

Lemma same_dirs_reach e' :
  reachable_entry fs n img' e' → ∃ e, reachable_entry fs n img e ∧ same_entry e e'.
Proof.
  intros Hr. induction Hr as [s o e' Hin|D' l s o e' Hr (D & HD & Hs) Hd Hc Hin].
  - rewrite (root_slots_moved (img := img) (img' := img')) in Hin.
    apply list_elem_of_fmap in Hin as ([[s1 o1] x] & [= -> -> ->] & Hin). exists x.
    split; [by eapply reach_root|by apply Hsd].
  - apply same_dirs_chain_back in Hc. pose proof Hs as (_ & Ha & Ec). rewrite Ec in Hc.
    assert (HdD : is_dir D = true) by (unfold is_dir in *; by rewrite <- Ha).
    rewrite (dir_slots_map (img := img) (img' := img')) in Hin.
    apply list_elem_of_fmap in Hin as ([[s1 o1] x] & [= -> -> ->] & Hin). exists x.
    split; [by eapply reach_sub|by apply (sd_slots _ _ _ _ Hsd D l)].
Qed.

Lemma same_dirs_not_a_directory l : not_a_directory fs n img l → not_a_directory fs n img' l.
Proof.
  intros Hnd D' l' Hr Hd Hc. destruct (same_dirs_reach D' Hr) as (D & HD & (_ & Ha & Ec)).
  apply (Hnd D l' HD); [unfold is_dir in *; by rewrite <- Ha|]. rewrite <- Ec. by apply same_dirs_chain_back.
Qed.
End written_back.

(** ** Creating the file *)

(** Room for the file [base.ext] in the directory that [ds ++ [d]] denotes, with
    the clusters [dl]: no entry bears the name, the first unused one is at
    [sec], [off] - not the last one of a sector, which fat16_mknod misses -, the
    lowest free cluster is [f], to which no directory leads, deleted ones
    included, and the directories on the path have other names than the file. *)
Record sub_room `{Platform} (fs : FAT16) (n : Z) (img : image) (ds : list (list Z)) (d base ext dl : list Z)
    (sec off f : Z) : Prop := {
  sr_path : ascii_path (ds ++ [d]) base ext;
  sr_name : valid_name (base, ext);
  sr_short : short_path (path_of (ds ++ [d]) base ext);
  sr_dir : ascii_path ds d [];
  sr_parent : ∃ P, lookup fs n img (rows_of ds d []) (Some P) ∧ is_dir P = true ∧
    dir_chain fs n img (DIR_FstClusLO P) dl;
  sr_other : fat_name base ext ∉ rows_of ds d [];
  sr_new s o e : (s, o, e) ∈ dir_slots fs img dl →
    named (fat_name base ext) e = false ∧ shows (spell base ext) e = false;
  sr_slot : ∃ e, first_slot is_free false (dir_slots fs img dl) = Some (sec, off, e);
  sr_off : off ≠ 480;
  sr_cluster : lowest_free fs img f;
  sr_volume : in_volume n f;
  sr_unled : not_a_directory fs n (fat_set fs f 65535 img) [f]
}.

Arguments sr_path {_ _ _ _ _ _ _ _ _ _ _ _} _.
Arguments sr_parent {_ _ _ _ _ _ _ _ _ _ _ _} _.
Arguments sr_new {_ _ _ _ _ _ _ _ _ _ _ _} _.
Arguments sr_slot {_ _ _ _ _ _ _ _ _ _ _ _} _.
Arguments sr_cluster {_ _ _ _ _ _ _ _ _ _ _ _} _.

Section create.
Context `{Platform} {fs : FAT16} {n : Z} {img : image}.
Context {ds : list (list Z)} {d base ext dl : list Z} {sec off f : Z}.
Context (Hv : vol_ok fs n img) (Hroom : sub_room fs n img ds d base ext dl sec off f).
Local Abbreviation path := (path_of (ds ++ [d]) base ext).
Local Abbreviation row := (fat_name base ext).
Local Abbreviation img1 := (created fs img sec off row f).
Local Abbreviation marked := (fat_set fs f 65535 img).

Lemma room_index : fat_index fs f.
Proof. eapply in_volume_index; [apply Hv|apply Hroom]. Qed.

Lemma room_row : ascii_row row.
Proof. apply ascii_row_fat_name; apply (sr_path Hroom). Qed.

Lemma room_slots : parent_slots fs n img (ds ++ [d]) (dir_slots fs img dl) true.
Proof. destruct (sr_parent Hroom) as (P & Hl & Hd & Hc). by eapply parent_dir; [apply Hroom|..]. Qed.

Lemma room_in : ∃ e, (sec, off, e) ∈ dir_slots fs img dl ∧ is_free e = true.
Proof.
  destruct (sr_slot Hroom) as [e He]. exists e. by apply first_slot_Some in He.
Qed.

Lemma room_slot : slot_ok fs img sec off.
Proof.
  destruct room_in as (e & Hin & _). destruct (sr_parent Hroom) as (P & _ & _ & Hc).
  by eapply dir_slot_ok.
Qed.

Lemma mknod_sub fuel : (dir_fuel fs n ≤ fuel)%nat → fat16_mknod fs fuel img path = Ok (0, img1).
Proof.
  intros Hfuel.   destruct (sr_slot Hroom) as [e He].
  apply (mknod_ok Hv (ds ++ [d]) base ext (dir_slots fs img dl) true sec off e);
    try apply Hroom; [by apply room_slots|done|right; apply Hroom|done].
Qed.

(** The entry comes into the image in which [f] is marked already. *)
Lemma created_changed : entry_changed fs n row sec off marked img1.
Proof.
  pose proof room_index as Hi. pose proof room_slot as Hs. pose proof room_row as Hrow.
  assert (Hf : in_volume n f) by apply Hroom.
  assert (Hlen : length marked = length img) by by apply (length_fat_set (n := n)).
  assert (Hsame : ∀ s o, slot_ok fs marked s o → entry_on marked s o = entry_on img s o).
  { intros s o []. by apply (entry_on_fat_set Hf). }
  assert (Hs1 : slot_ok fs marked sec off) by (destruct Hs; split; rewrite ?Hlen; done).
  destruct (new_entry_found Hv row f Hrow Hf) as (Hfile & H0 & _).
  split.
  - by apply vol_ok_fat_set.
  - intros c Hc. destruct (created_fat Hv Hs Hrow Hf c Hc) as [-> _].
    rewrite (fat_get_set (n := n)) by done. done.
  - intros s o Hso Hne. rewrite Hsame by done. apply (created_other Hv Hs Hrow Hf); [|done].
    destruct Hso; split; rewrite <- ?Hlen; done.
  - destruct room_in as (e & Hin & _). destruct (sr_parent Hroom) as (P & _ & _ & Hc).
    destruct (dir_slot_region img dl _ _ _ Hin Hv) as (c & Hc1 & Hlow & _).
    pose proof (chain_in_volume _ _ _ Hc) as Hvol. rewrite Forall_forall in Hvol.
    pose proof (in_cluster_bounds c Hv (Hvol c Hc1)). lia.
  - rewrite Hsame by done. destruct room_in as (e & Hin & He).
    rewrite <- (dir_slot_entry _ _ _ _ Hin). unfold covered. by rewrite He.
  - rewrite (created_entry Hv Hs Hrow Hf). rewrite new_entry_fields.
    + unfold covered. apply orb_true_iff. right. by apply bool_decide_eq_true.
    + apply Hrow.
    + destruct (vol_geo _ _ _ Hv). unfold in_volume in Hf. lia.
  - rewrite (created_entry Hv Hs Hrow Hf). lia.
  - rewrite (created_entry Hv Hs Hrow Hf). revert Hfile. unfold is_file, is_dir.
    intros ->%Z.eqb_eq. done.
Qed.

(** The directory is found after the creation, and it holds the file. *)
Lemma created_parent :
  ∃ P, lookup fs n img1 (rows_of ds d []) (Some P) ∧ is_dir P = true ∧
    dir_chain fs n img1 (DIR_FstClusLO P) dl.
Proof.
  destruct (sr_parent Hroom) as (P & Hl & Hd & Hc). exists P.
  pose proof created_changed as Hec. pose proof room_index as Hi.
  assert (Hz : fat_get fs img f = 0) by apply (sr_cluster Hroom).
  assert (Hkeep : ∀ c l x, dir_chain fs n img c l → x ∈ l → fat_get fs marked x = fat_get fs img x).
  { intros c l x Hcl Hx. pose proof (chain_indices _ _ _ Hv Hcl) as Hin. rewrite Forall_forall in Hin.
    rewrite (fat_get_set (n := n)) by (done || by apply Hin). rewrite decide_False; [done|].
    intros ->. by apply (dir_chain_used img c l f Hcl Hx). }
  destruct (lookup_frame Hv (img' := marked)) with (names := rows_of ds d []) (r := Some P) as [Hl1 _].
  - intros. by apply (slice_fat_set (n := n)).
  - intros D l _ _ Hcl x Hx. by eapply Hkeep.
  - done.
  - split_and!; [|done|].
    + apply (changed_lookup Hec); [done| |apply Hroom]. apply ascii_rows, Hroom.
    + apply (changed_chain Hec). eapply chain_frame; [done|]. intros x Hx. by eapply Hkeep.
Qed.

Lemma new_sub_entry :
  DIR_Name (new_entry row f) = row ∧ is_file (new_entry row f) = true ∧
  DIR_FstClusLO (new_entry row f) = f ∧ DIR_FileSize (new_entry row f) = 0.
Proof.
  assert (Hf : in_volume n f) by apply Hroom. rewrite new_entry_fields; [done|apply room_row|].
  destruct (vol_geo _ _ _ Hv). unfold in_volume in Hf. lia.
Qed.

(** A search for what only the new entry has stops there. *)
Lemma created_search Q :
  (∀ s o e, (s, o, e) ∈ dir_slots fs img dl → Q e = false) → Q (new_entry row f) = true →
  first_slot Q true (dir_slots fs img1 dl) = Some (sec, off, new_entry row f).
Proof.
  intros HQ Hnew. destruct (sr_slot Hroom) as [e0 He0].
  destruct (sr_parent Hroom) as (P & _ & _ & Hc).
  pose proof room_slot as Hs. pose proof room_row as Hrow. assert (Hf : in_volume n f) by apply Hroom.
  assert (Hall : ∀ s o e, (s, o, e) ∈ dir_slots fs img dl → slot_ok fs img s o ∧ e = entry_on img s o ∧ Q e = false)
    by (intros s o e Hin; split_and!; [by eapply dir_slot_ok|by eapply dir_slot_entry|by eapply HQ]).
  rewrite (dir_slots_map (img := img) (img' := img1)). clear HQ Hc.
  assert (Ee0 : is_free (entry_on img sec off) = true).
  { apply first_slot_Some in He0 as [Hin He]. by destruct (Hall _ _ _ Hin) as (_ & <- & _). }
  induction (dir_slots fs img dl) as [|[[s o] e] es IH]; [done|].
  cbn [fmap list_fmap first_slot moved fst snd] in *.
  destruct (Hall s o e (list_elem_of_here _ _)) as (Hso & He & HQe).
  destruct (is_free e) eqn:Ee.
  - injection He0 as -> -> ->. by rewrite (created_entry Hv Hs Hrow Hf), Hnew.
  - assert (entry_pos s o ≠ entry_pos sec off).
    { intros E. rewrite He, (entry_on_pos _ _ _ _ _ E) in Ee. congruence. }
    rewrite (created_other Hv Hs Hrow Hf) by done. rewrite <- He, HQe. unfold is_free in Ee.
    apply orb_false_iff in Ee as [Ez _]. rewrite Ez. cbn [andb].
    apply IH; [done|]. intros s1 o1 e1 Hin. apply Hall. by apply list_elem_of_further.
Qed.

Lemma created_sub_file : sub_file fs n img1 ds d base ext dl sec off (new_entry row f).
Proof.
  destruct new_sub_entry as (En & Efile & _ & _).
  assert (Hnamed : named row (new_entry row f) = true) by by apply bool_decide_eq_true.
  split; try apply Hroom.
  - apply created_parent.
  - apply created_search; [|unfold wanted; by rewrite Hnamed, Efile].
    intros s o e Hin. unfold wanted. by destruct (sr_new Hroom s o e Hin) as [-> _].
  - done.
  - apply created_search.
    + intros s o e Hin. by apply (sr_new Hroom s o e Hin).
    + apply bool_decide_eq_true. apply (shown_fat_name (base, ext)); [apply Hroom|done].
Qed.

Lemma created_sub_chain : file_chain fs n img1 (DIR_FstClusLO (new_entry row f)) [f].
Proof.
  destruct new_sub_entry as (_ & _ & -> & _).
  assert (Hf : in_volume n f) by apply Hroom. apply chain_last; [done|].
  destruct (created_fat Hv room_slot room_row Hf f room_index) as [-> _].
  rewrite decide_True by done. unfold file_end. lia.
Qed.

Lemma created_not_a_directory : not_a_directory fs n img1 [f].
Proof. apply (changed_not_a_directory created_changed), Hroom. Qed.
End create.

(** ** Deleting it *)

Section delete.
Context `{Platform} {fs : FAT16} {n : Z} {img : image}.
Context {ds : list (list Z)} {d base ext dl l : list Z} {sec off : Z} {D : DIR_ENTRY}.
Context (Hv : vol_ok fs n img) (Hf : sub_file fs n img ds d base ext dl sec off D).
Context (Hc : file_chain fs n img (DIR_FstClusLO D) l) (Hnd : not_a_directory fs n img l).
Context (Hother : fat_name base ext ∉ rows_of ds d []).
Local Abbreviation path := (path_of (ds ++ [d]) base ext).
Local Abbreviation row := (fat_name base ext).
Local Abbreviation freed := (fat_free_all fs l img).
Local Abbreviation img3 := (deleted fs l sec off img).

Lemma unlink_sub fuel : (dir_fuel fs n ≤ fuel)%nat → fat16_unlink fs fuel img path = Ok (0, img3).
Proof.
  intros Hfuel.   eapply (unlink_ok Hv); [apply Hf|apply Hf|by eapply sub_file_lookup|done|by eapply sub_file_parent|done|apply Hf|done].
Qed.

Lemma deleted_sub_facts :
  vol_ok fs n img3 ∧ name0 (entry_on img3 sec off) = 229 ∧
  (∀ o k, FirstRootDirSecNum fs * 512 <= o → 0 <= k →
    o + k <= entry_pos sec off ∨ entry_pos sec off < o → slice o k img3 = slice o k img) ∧
  (∀ x, fat_index fs x → fat_get fs img3 x = if decide (x ∈ l) then 0 else fat_get fs img x).
Proof.
  destruct (deleted_facts Hv l (dir_slots fs img dl) (ds ++ [d]) true sec off D) as (Hv3 & H0 & Hs & Hfat);
    [by eapply chain_indices|by eapply sub_file_parent|by eapply sub_file_in|].
  split_and!; [done..|]. intros x Hx. by apply Hfat.
Qed.

Lemma deleted_changed : entry_changed fs n row sec off freed img3.
Proof.
  destruct deleted_sub_facts as (Hv3 & H0 & Hs3 & Hfat3).
  destruct (fat_free_all_facts img l Hv) as (Hvf & Hlen & Hfat & _ & Hdata); [exact (chain_indices _ _ _ Hv Hc)|].
  destruct (sub_file_slot Hv Hf) as [Hs HD].
  assert (Hsf : slot_ok fs freed sec off) by (destruct Hs; split; rewrite ?Hlen; done).
  assert (Hnamed : named row D = true).
  { destruct Hf as [_ _ _ _ Hfind _ _]. apply first_slot_Some in Hfind as [_ Hw]. by eapply wanted_named. }
  split.
  - done.
  - intros c Hci. by rewrite Hfat3, Hfat.
  - intros s o Hso Hne. by apply (entry_on_splice_other Hvf Hsf).
  - destruct (sub_file_reached _ _ _ _ _ _ _ _ _ Hv Hf) as (P & _ & _ & HPc).
    destruct (dir_slot_region img dl _ _ _ (sub_file_in Hf) Hv) as (c & Hc1 & Hlow & _).
    pose proof (chain_in_volume _ _ _ HPc) as Hvol. rewrite Forall_forall in Hvol.
    pose proof (in_cluster_bounds c Hv (Hvol c Hc1)). lia.
  - assert (entry_on freed sec off = D) as ->; [|unfold covered; by rewrite Hnamed, orb_true_r].
    rewrite HD. unfold entry_on, BYTES_PER_DIR. rewrite Hdata; [done|apply Hs|lia].
  - unfold covered, is_free. by rewrite H0.
  - lia.
  - destruct Hf as [_ _ _ _ _ Hfile _]. apply Z.eqb_eq in Hfile. unfold is_dir.
    assert (DIR_Attr (entry_on img3 sec off) = DIR_Attr D) as ->; [|by rewrite Hfile].
    rewrite HD. unfold entry_on, BYTES_PER_DIR. cbn [dir_entry_of_bytes DIR_Attr].
    destruct Hs. pose proof (data_nonneg (vol_geo _ _ _ Hv)).
    rewrite !slice_slice by lia. f_equal. apply Hs3; lia.
Qed.

Lemma deleted_other s o : slot_ok fs img s o → entry_pos s o ≠ entry_pos sec off →
  entry_on img3 s o = entry_on img s o.
Proof.
  intros Hso Hne. destruct (fat_free_all_facts img l Hv) as (_ & Hlen & _ & _ & Hdata);
    [exact (chain_indices _ _ _ Hv Hc)|].
  rewrite (ec_other deleted_changed); [|destruct Hso; split; rewrite ?Hlen; done|done].
  unfold entry_on, BYTES_PER_DIR. rewrite Hdata; [done|apply Hso|lia].
Qed.

(** The path denotes nothing any more, when no other entry bears the name. *)
Lemma deleted_lookup :
  (∀ s o e, (s, o, e) ∈ dir_slots fs img dl → entry_pos s o ≠ entry_pos sec off → named row e = false) →
  lookup fs n img3 (rows_of (ds ++ [d]) base ext) None.
Proof.
  intros Hnone. pose proof deleted_changed as Hec. destruct Hf as [Hp _ Hpd (P & Hl & Hd & HPc) _ _ _].
  destruct (fat_free_all_facts img l Hv) as (Hvf & _ & Hfat & _ & Hdata); [exact (chain_indices _ _ _ Hv Hc)|].
  assert (Hkeep : ∀ P l', reachable_entry fs n img P → is_dir P = true → dir_chain fs n img (DIR_FstClusLO P) l' →
    ∀ x, x ∈ l' → fat_get fs freed x = fat_get fs img x).
  { intros P' l' Hr Hd' Hc' x Hx. pose proof (chain_indices _ _ _ Hv Hc') as Hi. rewrite Forall_forall in Hi.
    rewrite Hfat by by apply Hi. rewrite decide_False; [done|]. by apply (Hnd P' l'). }
  destruct (lookup_frame Hv (img' := freed) Hdata Hkeep _ _ Hl) as [Hl1 Hreach].
  assert (HPf : dir_chain fs n freed (DIR_FstClusLO P) dl).
  { eapply chain_frame; [exact HPc|]. apply (Hkeep P); [by apply Hreach|done..]. }
  rewrite rows_of_snoc. eapply lookup_snoc; [|exact Hd|].
  - apply (changed_lookup Hec); [done|by apply ascii_rows|done].
  - eapply walk_missing; [by apply (changed_chain Hec)|]. apply first_slot_none.
    rewrite (dir_slots_map (img := img) (img' := img3)). intros j s Hin%list_elem_of_lookup_2.
    apply list_elem_of_fmap in Hin as ([[s1 o1] x] & -> & Hin). cbn [moved fst snd].
    destruct deleted_sub_facts as (_ & H0 & Hs3 & _).
    destruct (wanted row _ _) eqn:E; [|done]. apply wanted_named in E.
    destruct (decide (entry_pos s1 o1 = entry_pos sec off)) as [Epos|Hne].
    + rewrite (entry_on_pos _ _ _ _ _ Epos) in E.
      assert (Hrow : ascii_row row) by (apply ascii_row_fat_name; apply Hp).
      pose proof (named_ascii _ _ Hrow E). lia.
    + rewrite <- (Hnone s1 o1 x Hin Hne), <- E. f_equal. rewrite (dir_slot_entry _ _ _ _ Hin).
      apply deleted_other; [by eapply dir_slot_ok|done].
Qed.
End delete.

(** ** Creating and writing *)

(** The image after the two calls: the file is there with the data, and all
    else is as before. *)
Record filled `{Platform} (fs : FAT16) (n : Z) (img : image) (ds : list (list Z)) (d base ext dl : list Z)
    (sec off f : Z) (buffer : list Z) (img2 : image) : Prop := {
  fi_vol : vol_ok fs n img2;
  fi_file : sub_file fs n img2 ds d base ext dl sec off (entry_on img2 sec off);
  fi_chain : file_chain fs n img2 (DIR_FstClusLO (entry_on img2 sec off)) [f];
  fi_dirs : not_a_directory fs n img2 [f];
  fi_size : DIR_FileSize (entry_on img2 sec off) = lenZ buffer;
  fi_data : slice 0 (lenZ buffer) (chain_data fs img2 [f]) = buffer;
  fi_table c : fat_index fs c → fat_get fs img2 c = if decide (c = f) then 65535 else fat_get fs img c;
  fi_root o k : FirstRootDirSecNum fs * 512 <= o → 0 <= k → o + k <= FirstDataSector fs * 512 →
    slice o k img2 = slice o k img;
  fi_others s o e : (s, o, e) ∈ dir_slots fs img dl → entry_pos s o ≠ entry_pos sec off → entry_on img2 s o = e;
  fi_clusters c : in_volume n c → c ≠ f → c ∉ dl → cluster_data fs img2 c = cluster_data fs img c
}.

Section life.
Context `{Platform} {fs : FAT16} {n : Z} {img : image} {fuel : nat}.
Context {ds : list (list Z)} {d base ext dl : list Z} {sec off f : Z} {buffer : list Z}.
Context (Hv : vol_ok fs n img) (Hroom : sub_room fs n img ds d base ext dl sec off f).
Context (Hfuel : (dir_fuel fs n ≤ fuel)%nat).
Context (Hlen : 0 < lenZ buffer <= 512 * SecPerClus fs) (Hb : Forall is_byte buffer).
Local Abbreviation path := (path_of (ds ++ [d]) base ext).
Local Abbreviation img1 := (created fs img sec off (fat_name base ext) f).

(** A cluster beside the directory does not contain the new entry. *)
Lemma room_beside c :
  in_volume n c → c ∉ dl →
  entry_pos sec off + 32 <= cluster_sector fs c * 512 ∨
  cluster_sector fs c * 512 + 512 * SecPerClus fs <= entry_pos sec off.
Proof.
  intros Hc Hn. destruct (room_in Hroom) as (e & Hin & _).
  destruct (sr_parent Hroom) as (P & _ & _ & Hdl).
  pose proof (chain_in_volume _ _ _ Hdl) as Hvol. by apply (slot_beside_cluster img dl sec off e c Hv Hin Hvol Hc).
Qed.

Lemma written_new :
  ∃ img2, fat16_write fs fuel img1 path (lenZ buffer) 0 buffer = Ok (lenZ buffer, img2) ∧
    filled fs n img ds d base ext dl sec off f buffer img2.
Proof.
  pose proof (geo_spc _ _ Hv). pose proof (room_slot Hv Hroom) as Hs. pose proof (room_row Hroom) as Hrow.
  pose proof Hroom as [_ _ _ _ (P & _ & _ & Hdl) _ _ _ _ _ Hf _].
  pose proof (created_vol_ok Hv Hs Hrow Hf) as Hv1.
  pose proof (created_not_a_directory Hv Hroom) as Hnd.
  destruct (sub_write_in_place_ok Hv1 (created_sub_file Hv Hroom) Hfuel [f] f buffer 0)
    as (img2 & Hwrite & W & Hf2 & (_ & _ & Eclus) & S & Hc & Hsd & DC);
    try (done || (cbn [length]; rewrite ?Z.mod_0_l by lia; lia)); [by apply (created_sub_chain Hv Hroom)|].
  exists img2. split; [done|]. rewrite <- Eclus in Hc. split; try done.
  - apply W.
  - by apply (same_dirs_not_a_directory Hv1 Hsd (sw_table _ _ _ _ _ _ W)).
  - rewrite DC. cbn [length]. rewrite Z.mod_0_l by lia.
    replace (512 * SecPerClus fs * (Z.of_nat 1 - 1) + 0) with 0 by lia. by apply slice_splice_same.
  - intros c Hc1. rewrite (sw_table _ _ _ _ _ _ W c Hc1). by apply (created_fat Hv Hs Hrow Hf).
  - intros o k Ho Hk Hend. pose proof (ec_below (created_changed Hv Hroom)).
    rewrite (sw_root _ _ _ _ _ _ W) by done. apply (created_slice Hv Hs Hrow Hf); (done || lia).
  - intros s o e Hin Hne. rewrite (sw_slots _ _ _ _ _ _ W _ _ _ (dir_slots_other img img1 _ _ _ _ Hin) Hne).
    rewrite (created_other Hv Hs Hrow Hf); [|by eapply dir_slot_ok|done].
    by rewrite <- (dir_slot_entry _ _ _ _ Hin).
  - intros c Hc1 Hne Hcdl. rewrite (sw_data _ _ _ _ _ _ W) by done. unfold cluster_data.
    pose proof (room_beside c Hc1 Hcdl). pose proof (cluster_in_image Hv c Hc1).
    pose proof (data_nonneg (vol_geo _ _ _ Hv)). apply (created_slice Hv Hs Hrow Hf); lia.
Qed.

Context {img2 : image} (Hfilled : filled fs n img ds d base ext dl sec off f buffer img2).
Local Abbreviation img3 := (deleted fs [f] sec off img2).

Lemma filled_deleted :
  lookup fs n img3 (rows_of (ds ++ [d]) base ext) None.
Proof.
  destruct Hfilled as [Hv2 Hf2 Hc2 Hnd2 _ _ _ _ Hothers _].
  apply (deleted_lookup Hv2 Hf2 Hc2 Hnd2); [apply Hroom|]. intros s o e Hin Hne.
  pose proof (dir_slots_other img2 img _ _ _ _ Hin) as Hin0.
  rewrite (dir_slot_entry _ _ _ _ Hin), (Hothers _ _ _ Hin0 Hne).
  by apply (sr_new Hroom s o).
Qed.

Lemma filled_served :
  512 * sectors_of (lenZ buffer) <= malloc_usable (lenZ buffer) →
  serve_all fs fuel img2 [Read path (lenZ buffer) 0; Unlink path; Getattr path] =
    Ok ([Contents (lenZ buffer) buffer; Code 0; Attributes (- ENOENT) None], img3).
Proof.
  intros Hm. pose proof filled_deleted as Hnone. destruct Hfilled as [Hv2 Hf2 Hc2 Hnd2 S DC _ _ _ _].
  pose proof (sr_path Hroom) as Hp. pose proof (geo_spc _ _ Hv).
  destruct (deleted_sub_facts Hv2 Hf2 Hc2) as (Hv3 & _).
  assert (Hread : fat16_read fs fuel img2 path (lenZ buffer) 0 = Ok (lenZ buffer, buffer)).
  { apply (sub_read_written Hfuel img2 [f] buffer 0 _ Hv2 Hf2 Hc2); rewrite ?Z.add_0_r;
    try (done || (cbn [length]; lia)). }
  cbn [serve_all serve]. res_step Hread.
  rewrite (unlink_sub Hv2 Hf2 Hc2 Hnd2 fuel Hfuel). res_steps. unfold fat16_getattr.
  rewrite path_of_not_root by apply Hp.
  destruct (find_root_path Hv3 (ds ++ [d]) base ext None uninit_dir fuel Hp Hnone Hfuel) as (D' & E & _).
  by res_step E.
Qed.

(** What is left is what was there. *)
Lemma filled_restored :
  vol_ok fs n img3 ∧
  (∀ c, in_volume n c → fat_get fs img3 c = fat_get fs img c) ∧
  (∀ o k, FirstRootDirSecNum fs * 512 <= o → 0 <= k → o + k <= FirstDataSector fs * 512 →
    slice o k img3 = slice o k img) ∧
  (∀ s o e, (s, o, e) ∈ dir_slots fs img dl → entry_pos s o ≠ entry_pos sec off → entry_on img3 s o = e) ∧
  (∀ c, in_volume n c → c ≠ f → c ∉ dl → cluster_data fs img3 c = cluster_data fs img c).
Proof.
  destruct Hfilled as [Hv2 Hf2 Hc2 Hnd2 _ _ Htable Hroot Hothers Hclusters].
  destruct (deleted_sub_facts Hv2 Hf2 Hc2) as (Hv3 & _ & Hs3 & Hfat3). split_and!; [done|..].
  - intros c Hc. pose proof (in_volume_index c Hv Hc) as Hi. rewrite Hfat3, Htable by done.
    destruct (sr_cluster Hroom) as (_ & Hz & _).
    case_decide as E1; [by apply list_elem_of_singleton in E1 as ->|].
    rewrite decide_False; [done|]. intros ->. apply E1. by left.
  - intros o k Ho Hk Hend. pose proof (ec_below (created_changed Hv Hroom)).
    rewrite Hs3 by (done || lia). by apply Hroot.
  - intros s o e Hin Hne. rewrite (deleted_other Hv2 Hf2 Hc2); [by apply Hothers| |done].
    destruct (sub_file_reached _ _ _ _ _ _ _ _ _ Hv2 Hf2) as (P & _ & _ & HPc).
    by eapply (dir_slot_ok Hv2), dir_slots_other.
  - intros c Hc Hne Hcdl. pose proof (room_beside c Hc Hcdl). pose proof (cluster_in_image Hv c Hc).
    pose proof (geo_spc _ _ Hv). pose proof (data_nonneg (vol_geo _ _ _ Hv)).
    rewrite <- Hclusters by done. unfold cluster_data. apply Hs3; lia.
Qed.
End life.

(** ** Property *)

(** C10: A file is created in a subdirectory, written, read and deleted, and asked
    for in the end: the replies are those of a file that comes and goes, what was
    written is read, and the volume is as it was - the table, the root directory,
    the other entries of the directory and the data of all other clusters. *)
Theorem sub_file_life `{Platform} fs n img fuel ds d base ext dl sec off f buffer :
  vol_ok fs n img → sub_room fs n img ds d base ext dl sec off f → (dir_fuel fs n ≤ fuel)%nat →
  0 < lenZ buffer <= 512 * SecPerClus fs → Forall is_byte buffer →
  512 * sectors_of (lenZ buffer) <= malloc_usable (lenZ buffer) →
  let path := path_of (ds ++ [d]) base ext in
  ∃ img', serve_all fs fuel img
      [Mknod path; Write path (lenZ buffer) 0 buffer; Read path (lenZ buffer) 0; Unlink path; Getattr path] =
      Ok ([Code 0; Code (lenZ buffer); Contents (lenZ buffer) buffer; Code 0; Attributes (- ENOENT) None], img') ∧
    vol_ok fs n img' ∧
    (∀ c, in_volume n c → fat_get fs img' c = fat_get fs img c) ∧
    (∀ o k, FirstRootDirSecNum fs * 512 <= o → 0 <= k → o + k <= FirstDataSector fs * 512 →
      slice o k img' = slice o k img) ∧
    (∀ s o e, (s, o, e) ∈ dir_slots fs img dl → entry_pos s o ≠ entry_pos sec off → entry_on img' s o = e) ∧
    (∀ c, in_volume n c → c ≠ f → c ∉ dl → cluster_data fs img' c = cluster_data fs img c).
Proof.
  intros Hv Hroom Hfuel Hlen Hb Hm path.
  destruct (written_new Hv Hroom Hfuel Hlen Hb) as (img2 & Hwrite & Hfilled).
  exists (deleted fs [f] sec off img2). split; [|by eapply filled_restored].
  assert (Hfirst : ∀ p rs, p = path → serve_all fs fuel img (Mknod p :: Write p (lenZ buffer) 0 buffer :: rs) =
    ('(more, img3) ← serve_all fs fuel img2 rs; Ok (Code 0 :: Code (lenZ buffer) :: more, img3))).
  { intros p rs ->. cbn [serve_all serve]. subst path. rewrite (mknod_sub Hv Hroom fuel Hfuel). res_steps.
    res_step Hwrite. by destruct (serve_all fs fuel img2 rs) as [[]| | |]. }
  rewrite Hfirst by done. subst path. rewrite (filled_served Hv Hroom Hfuel Hlen Hfilled Hm). by res_steps.
Qed.
