(* ===== verification/FlatSim.v ===== *)
(** * Requests on files, seen on the list of files

    Every request on files of the root directory that the specification of
    Flat.v answers is answered alike by the code of
    lab4/simple_fat16_new.c, and the image represents the new list; so whole
    sessions are sessions on the list, and on a map from names to contents. *)

From Stdlib Require Import Lia.
From stdpp Require Import base numbers option gmap sets list.
From S2P Require Import Prelude Bytes CString Names Volume Directory Namespace FileIO Append FileSystem Flat.
Local Open Scope Z_scope.

(** ** Free clusters *)

Lemma filter_head (P : Z → Prop) `{!∀ c, Decision (P c)} m k c l :
  filter P (seqZ m k) = c :: l → P c ∧ m <= c < m + k ∧ ∀ d, m <= d < c → ¬ P d.
Proof.
  destruct (decide (0 <= k)); [|by rewrite seqZ_nil by lia].
  replace k with (Z.of_nat (Z.to_nat k)) by lia. generalize (Z.to_nat k) as j. intros j.
  revert m. induction j as [|j IH]; intros m; [done|].
  rewrite seqZ_cons, filter_cons by lia. replace (Z.pred (Z.of_nat (S j))) with (Z.of_nat j) by lia.
  destruct (decide (P m)).
  - intros [= <- _]. split_and!; (done || lia).
  - intros (HP & Hc & Hd)%IH. split_and!; [done|lia|lia|]. intros d Hlt.
    destruct (decide (d = m)) as [->|]; [done|]. apply Hd. lia.
Qed.

Section free.
Context `{Platform} {fs : FAT16} {n : Z} {img : image} {A : flat} (Hrep : represents fs n img A).

Lemma lowest_free_cluster c l :
  free_clusters n A = c :: l → in_volume n c ∧ lowest_free fs img c ∧ c ∉ used A.
Proof.
  intros (Hu & Hc & Hd)%filter_head. assert (Hv : in_volume n c) by (unfold in_volume; lia).
  split_and!; [done| |done]. split_and!; [lia|by apply (rep_free _ _ _ _ Hrep)|].
  intros d Hlt E. apply (Hd d); [lia|]. apply (rep_free _ _ _ _ Hrep); [unfold in_volume; lia|done].
Qed.

(** The clusters picked in ascending order are those the program links. *)
Lemma free_run_from lc j m c0 k :
  2 <= m → m + Z.of_nat j <= n + 2 → c0 < m ∨ c0 = lc → lc <= c0 → (m <= lc → c0 = lc) →
  (∀ d, c0 < d < m → fat_get fs img d ≠ 0) →
  free_run fs n img c0 (take k (filter (λ c, lc < c ∧ c ∉ used A) (seqZ m (Z.of_nat j)))).
Proof.
  revert m c0 k. induction j as [|j IH]; intros m c0 k Hm Hn Hlt Hlc Hskip Hd.
  { destruct k; apply free_run_nil. }
  assert (Hv : in_volume n m) by (unfold in_volume; lia).
  rewrite seqZ_cons, filter_cons by lia. replace (Z.pred (Z.of_nat (S j))) with (Z.of_nat j) by lia.
  destruct (decide (lc < m ∧ m ∉ used A)) as [[Hl Hu]|Hn'].
  - destruct k as [|k]; [apply free_run_nil|]. cbn [take]. apply free_run_cons; [done|..].
    + split_and!; [lia| |done]. by apply (rep_free _ _ _ _ Hrep).
    + apply IH; [lia..|]. intros d ?. lia.
  - apply IH; [lia|lia|lia|lia|lia|]. intros d Hdm. destruct (decide (d = m)) as [->|]; [|apply Hd; lia].
    rewrite (rep_free _ _ _ _ Hrep) by done. intros Hu. apply Hn'. split; [lia|done].
Qed.

Lemma free_run_clusters lc k : in_volume n lc →
  free_run fs n img lc (take k (filter (λ c, lc < c) (free_clusters n A))).
Proof.
  intros Hlc. unfold free_clusters. rewrite list_filter_filter.
  unfold in_volume in Hlc. replace n with (Z.of_nat (Z.to_nat n)) at 2 by lia.
  apply free_run_from; lia.
Qed.

Lemma free_run_unused lc fl c : free_run fs n img lc fl → c ∈ fl → c ∉ used A.
Proof.
  intros Hr%free_run_above Hc. rewrite Forall_forall in Hr. destruct (Hr c Hc) as (_ & Hv & H0).
  by apply (rep_free _ _ _ _ Hrep).
Qed.
End free.

(** ** The requests *)

Section places.
Context `{Platform} {fs : FAT16} {n : Z} {img : image}.

Lemma root_slot_pos k sec off e :
  root_slots fs img !! k = Some (sec, off, e) →
  entry_pos sec off = FirstRootDirSecNum fs * 512 + 32 * Z.of_nat k.
Proof.
  unfold root_slots. rewrite list_lookup_fmap.
  destruct (seqZ 0 _ !! k) as [j|] eqn:Hj; [|done]. apply lookup_seqZ in Hj as [-> _].
  rewrite Z.add_0_l. intros [= <- <- _]. unfold entry_pos.
  pose proof (Z.div_mod (Z.of_nat k) 16). lia.
Qed.

Lemma root_slot_apart j k t s :
  root_slots fs img !! j = Some t → root_slots fs img !! k = Some s → j ≠ k →
  entry_pos t.1.1 t.1.2 ≠ entry_pos s.1.1 s.1.2.
Proof.
  intros Hj Hk Hne. destruct t as [[a b] x], s as [[c d] y]. cbn [fst snd].
  rewrite (root_slot_pos _ _ _ _ Hj), (root_slot_pos _ _ _ _ Hk). lia.
Qed.
End places.

(** What belongs to subdirectories is left alone: the reserved clusters with their
    table entries, and the entries of the directories themselves. *)
Record undisturbed (fs : FAT16) (n : Z) (A A' : flat) (img img' : image) : Prop := {
  ud_reserved : reserved A' = reserved A;
  ud_table c : in_volume n c → c ∈ reserved A → fat_get fs img' c = fat_get fs img c;
  ud_data c : in_volume n c → c ∈ reserved A → cluster_data fs img' c = cluster_data fs img c;
  ud_dirs i a s : slots A !! i = Some (Some a) → a_dir a = true → root_slots fs img !! i = Some s →
    slots A' !! i = Some (Some a) ∧ root_slots fs img' !! i = Some s
}.

Lemma undisturbed_refl fs n A img : undisturbed fs n A A img img.
Proof. by split. Qed.

Lemma undisturbed_trans fs n A1 A2 A3 img1 img2 img3 :
  undisturbed fs n A1 A2 img1 img2 → undisturbed fs n A2 A3 img2 img3 → undisturbed fs n A1 A3 img1 img3.
Proof.
  intros [R1 T1 D1 S1] [R2 T2 D2 S2]. rewrite R1 in T2, D2. split.
  - congruence.
  - intros c Hc Hin. by rewrite T2, T1.
  - intros c Hc Hin. by rewrite D2, D1.
  - intros i a s Ha Hd Hs. destruct (S1 i a s Ha Hd Hs). by apply S2.
Qed.

Section requests.
Context `{Platform} {fs : FAT16} {n : Z} {fuel : nat} (Hfuel : (dir_fuel fs n ≤ fuel)%nat).
Context {img : image} {A : flat} (Hrep : represents fs n img A).

Local Lemma Hv : vol_ok fs n img.
Proof. apply Hrep. Qed.

Lemma update_undisturbed i sec off img' touched o o' :
  (∀ a, o = Some a → a_dir a = false) → slots A !! i = Some o →
  slot_update (fs := fs) (n := n) (img := img) (A := A) (i := i) (sec := sec) (off := off) (o := o)
    img' touched o' →
  undisturbed fs n A (with_slot i o' A) img img'.
Proof.
  intros Hfile Ho Hup.
  assert (Hn : ∀ c, c ∈ reserved A → c ∉ touched).
  { intros c Hin Ht. apply (up_touched _ _ _ Hup c Ht). apply elem_of_app. by left. }
  split; [done|..].
  - intros c Hc Hin. by apply (up_table _ _ _ Hup), Hn.
  - intros c Hc Hin. by apply (up_data _ _ _ Hup), Hn.
  - intros j a s Ha Hd Hs. assert (Hne : j ≠ i).
    { intros ->. rewrite Ho in Ha. injection Ha as ->. by rewrite (Hfile a eq_refl) in Hd. }
    split; [cbn [with_slot slots]; by rewrite list_lookup_insert_ne|].
    rewrite (root_slots_map img img'), list_lookup_fmap, Hs. destruct (slot_facts Hrep j s Hs) as (E & _).
    destruct s as [[p q] e]. cbn [fst snd fmap option_fmap option_map] in *.
    pose proof (up_other _ _ _ Hup j _ Hne Hs) as E'. cbn [fst snd] in E'. by rewrite E', <- E.
Qed.

(** A request is served on the image as on the list. *)
Definition simulated (o : op) : Prop := ∀ r A', flat_serve fs n A o = Some (r, A') →
  ∃ img', serve fs fuel img (concrete o) = Ok (r, img') ∧ represents fs n img' A' ∧
    undisturbed fs n A A' img img'.

Lemma simulated_reading o r :
  flat_serve fs n A o = Some (r, A) → serve fs fuel img (concrete o) = Ok (r, img) → simulated o.
Proof.
  intros E Hs r' A' E'. rewrite E in E'. injection E' as <- <-. exists img. split_and!; [done..|apply undisturbed_refl].
Qed.

(** *** Creating *)

Lemma created_cluster_data sec off e row c d :
  (sec, off, e) ∈ root_slots fs img → ascii_row row → in_volume n c → in_volume n d →
  cluster_data fs (created fs img sec off row c) d = cluster_data fs img d.
Proof.
  intros Hin Hrow Hc Hd. pose proof Hv as Hv0. pose proof (root_slot_ok Hv _ _ _ Hin) as Hs.
  destruct (root_slot_region _ _ _ _ Hv Hin) as [Hlow _].
  pose proof (cluster_in_image Hv d Hd). pose proof (geo_spc _ _ Hv).
  pose proof (data_nonneg (vol_geo _ _ _ Hv)).
  pose proof (length_entry_info row ATTR_ARCHIVE c 0 ltac:(apply Hrow)) as Hl.
  unfold cluster_data, created.
  rewrite (slice_fat_set (n := n)); [|..|lia|lia].
  - apply (slice_splice_entry Hv Hs); lia.
  - apply (vol_ok_splice_entry Hv Hs); [lia|lia|].
    apply entry_info_bytes; [by apply ascii_row_bytes|by unfold is_byte, ATTR_ARCHIVE].
  - by eapply in_volume_index; [apply Hv|].
Qed.

Lemma create_update i sec off e c x l :
  valid_name x → root_slots fs img !! i = Some (sec, off, e) → slots A !! i = Some None →
  hole (slots A) = Some i → find_entry x (slots A) = None → free_clusters n A = c :: l →
  slot_update (fs := fs) (n := n) (img := img) (A := A) (i := i) (sec := sec) (off := off) (o := None)
    (created fs img sec off (fat_name x.1 x.2) c) [c] (Some (AEntry x false [] [c] clock)).
Proof.
  intros Hx Hs Hi Hh Hnone Hfree.
  destruct (lowest_free_cluster Hrep c l Hfree) as (Hc & Hlow & Hu).
  destruct (slot_facts Hrep i _ Hs) as (_ & _ & Hin & Hok). cbn [fst snd] in Hok.
  pose proof (valid_row x Hx) as Hrow. pose proof Hv as Hv0.
  pose proof (created_vol_ok Hv Hok Hrow Hc) as Hv1.
  assert (Hidx : ∀ d, in_volume n d → fat_index fs d) by (intros; by eapply in_volume_index; [apply Hv|]).
  assert (Hno : c ∉ others i A) by (intros Hin'; by apply Hu, (others_used Hi)).
  pose proof (created_entry Hv Hok Hrow Hc) as He.
  assert (He' : new_entry (fat_name x.1 x.2) c = mkDIR (fat_name x.1 x.2) ATTR_ARCHIVE 0 0 0 0 0 0
    (update_time localtime_now) (update_year localtime_now) c 0).
  { apply new_entry_fields; [apply Hrow|]. destruct (vol_geo _ _ _ Hv). unfold in_volume in Hc. lia. }
  split; try done.
  - intros j t Hne Ht. destruct (slot_facts Hrep j t Ht) as (_ & _ & _ & Hokt).
    apply (created_other Hv Hok Hrow Hc); [done|]. exact (root_slot_apart _ _ _ _ Ht Hs Hne).
  - intros d Hd Hn. destruct (created_fat Hv Hok Hrow Hc d (Hidx d Hd)) as [-> _].
    rewrite decide_False; [done|]. set_solver.
  - intros d Hd Hn. by eapply created_cluster_data.
  - by intros d ->%list_elem_of_singleton.
  - intros d Hn. split; [by intros ?%elem_of_nil|done].
  - apply NoDup_singleton.
  - intros d ->%list_elem_of_singleton. done.
  - intros d Hd ->%list_elem_of_singleton. destruct (created_fat Hv Hok Hrow Hc c (Hidx c Hd)) as [-> _].
    rewrite decide_True by done. split; [done|]. intros Hn. destruct Hn. cbn. apply list_elem_of_here.
  - rewrite He, He'. split; try done. cbn [a_dir a_chain a_data snd DIR_FstClusLO].
    split_and!; [done| |cbn [length]; pose proof (geo_spc _ _ Hv); lia|done].
    apply chain_last; [done|]. destruct (created_fat Hv Hok Hrow Hc c (Hidx c Hc)) as [-> _].
    rewrite decide_True by done. right. lia.
  - intros k t _ Ht H0. apply hole_Some in Hh as [_ Hlt]. destruct (decide (i ≤ k)%nat); [done|].
    destruct (Hlt k ltac:(lia)) as [b Hb]. pose proof (rep_end _ _ _ _ Hrep _ _ _ _ Ht H0 Hb). lia.
  - intros a j b [= <-] Hne Hj. by eapply find_entry_None.
Qed.

Lemma simulate_create x : valid_name x → simulated (Create x).
Proof.
  intros Hx r A'. cbn [flat_serve].
  destruct (find_entry x (slots A)) as [|] eqn:Hf; [done|].
  destruct (hole (slots A)) as [i|] eqn:Hh; [|done].
  destruct (free_clusters n A) as [|c l] eqn:Hfree; [done|]. intros [= <- <-].
  destruct (rep_hole Hrep i Hh) as ([[sec off] e] & Hs & Hfirst).
  pose proof (hole_Some _ _ Hh) as [Hi _].
  pose proof (create_update i sec off e c x l Hx Hs Hi Hh Hf Hfree) as Hup.
  exists (created fs img sec off (fat_name x.1 x.2) c). cbn [concrete serve].
  destruct (lowest_free_cluster Hrep c l Hfree) as (Hc & Hlow & _).
  unfold root_path. rewrite (mknod_root_ok Hv _ _ _ _ e c) by (done || apply Hx). res_steps.
  split_and!; [done|by eapply (slot_updated Hrep)|eapply update_undisturbed; [|exact Hi|exact Hup]]. done.
Qed.

(** *** Writing *)

(** A write to the file in slot [i] changes no other entry, and of its own only
    the size. *)
Lemma keeps_slots i sec off e img' :
  root_slots fs img !! i = Some (sec, off, e) → keeps fs n sec off img img' →
  (∀ j t, j ≠ i → root_slots fs img !! j = Some t →
    entry_on img' t.1.1 t.1.2 = entry_on img t.1.1 t.1.2) ∧
  same_entry e (entry_on img' sec off) ∧
  (DIR_WrtTime (entry_on img' sec off), DIR_WrtDate (entry_on img' sec off)) =
    (DIR_WrtTime e, DIR_WrtDate e).
Proof.
  intros Hs K. destruct (slot_facts Hrep i _ Hs) as (He & _ & Hin & Hok). cbn [fst snd] in *.
  destruct (root_slot_region _ _ _ _ Hv Hin) as [Hd _]. pose proof Hv as Hv0.
  pose proof (data_nonneg (vol_geo _ _ _ Hv)). destruct Hok as [_ _ _ Hlow _].
  split_and!.
  - intros j t Hne Ht. destruct (slot_facts Hrep j t Ht) as (_ & _ & Hin' & Hok').
    destruct t as [[s o] x]. cbn [fst snd] in *.
    destruct (root_slot_region _ _ _ _ Hv Hin') as [Hd' _]. destruct Hok' as [_ _ _ Hlow' _].
    pose proof (root_slot_pos _ _ _ _ Hs). pose proof (root_slot_pos _ _ _ _ Ht).
    unfold entry_on, BYTES_PER_DIR. f_equal. apply (keeps_root _ _ _ _ _ _ K); lia.
  - rewrite He at 1. by eapply keeps_entry.
  - assert (Hf : ∀ a w, 0 <= a → 0 <= w → a + w <= 28 →
      slice a w (slice (entry_pos sec off) 32 img') = slice a w (slice (entry_pos sec off) 32 img)).
    { intros a w ???. rewrite !slice_slice by lia. apply (keeps_root _ _ _ _ _ _ K); lia. }
    rewrite He. unfold entry_on, BYTES_PER_DIR. cbn [dir_entry_of_bytes DIR_WrtTime DIR_WrtDate].
    by rewrite !Hf by lia.
Qed.

Lemma write_update i sec off e x a img' touched data chain :
  root_slots fs img !! i = Some (sec, off, e) → slots A !! i = Some (Some a) →
  entry_rep fs n img e a → a_name a = x → a_dir a = false → keeps fs n sec off img img' →
  (∀ c, in_volume n c → c ∉ touched →
    fat_get fs img' c = fat_get fs img c ∧ cluster_data fs img' c = cluster_data fs img c) →
  (∀ c, c ∈ touched → c ∈ chain ∧ fat_get fs img' c ≠ 0) →
  (∀ c, c ∈ a_chain a → c ∈ chain) → (∀ c, c ∈ chain → c ∈ a_chain a ∨ c ∈ touched ∧ c ∉ used A) →
  DIR_FileSize (entry_on img' sec off) = lenZ data → file_chain fs n img' (DIR_FstClusLO e) chain →
  lenZ data <= 512 * SecPerClus fs * lenZ chain →
  take (length data) (chain_data fs img' chain) = data →
  slot_update (fs := fs) (n := n) (img := img) (A := A) (i := i) (sec := sec) (off := off)
    (o := Some a) img' touched (Some (AEntry x false data chain (a_time a))).
Proof.
  intros Hs Hi Ha Hx Hd K Hout Hin Hold Hnew Hsize Hch Hcap Htake.
  destruct (keeps_slots i sec off e img' Hs K) as (Hother & (E1 & E2 & E3) & Et).
  assert (Hno : ∀ c, c ∈ chain → c ∉ others i A).
  { intros c [Hc|[_ Hc]]%Hnew; [by apply (others_not_own Hrep Hi)|].
    intros Hc'. by apply Hc, (others_used Hi). }
  destruct Ha as [Hval En Es Etm Hk]. rewrite Hd in Hk. destruct Hk as (Hfile & _).
  split; cbn [own from_option a_chain].
  - by destruct K.
  - done.
  - intros c Hc Hn. by apply Hout.
  - intros c Hc Hn. by apply Hout.
  - intros c Hc. by apply Hno, Hin.
  - intros c Hn. split; [by apply Hold|]. intros [|[? _]]%Hnew; done.
  - by eapply chain_NoDup.
  - done.
  - intros c Hc Ht. apply Hin in Ht as [Hc1 Hc2]. tauto.
  - split; cbn [snd a_name a_data a_time a_dir a_chain].
    + by rewrite <- Hx.
    + by rewrite E1, <- Hx.
    + done.
    + by rewrite Et.
    + unfold is_file in *. by rewrite E2, E3.
  - done.
  - intros k t _ Ht H0. pose proof (rep_end _ _ _ _ Hrep _ _ _ _ Ht H0 Hi). lia.
  - intros b j b' [= <-] Hne Hj E. cbn [a_name] in E. apply Hne.
    eapply (rep_names _ _ _ _ Hrep); [exact Hj|exact Hi|congruence].
Qed.

Lemma write_in_place_update x i sec off e a d offset :
  root_slots fs img !! i = Some (sec, off, e) → slots A !! i = Some (Some a) →
  entry_rep fs n img e a → a_name a = x → a_dir a = false →
  root_file fs img x.1 x.2 sec off e → Forall is_byte d →
  let bpc := 512 * SecPerClus fs in
  let spare := bpc * (lenZ (a_chain a) - 1) in
  0 < lenZ d → lenZ d + offset < 2 ^ 31 → 0 <= offset →
  spare <= offset → offset <= lenZ (a_data a) → lenZ d + offset <= spare + bpc →
  ∃ img' touched, fat16_write fs fuel img (root_path x) (lenZ d) offset d = Ok (lenZ d, img') ∧
    slot_update (fs := fs) (n := n) (img := img) (A := A) (i := i) (sec := sec) (off := off)
      (o := Some a) img' touched
      (Some (AEntry x false (take (Z.to_nat offset) (a_data a) ++ d) (a_chain a) (a_time a))).
Proof.
  intros Hs Hi Ha Hx Hd Hf Hb bpc spare Hpos Hbig Ho H1 H2 H3. pose proof (geo_spc _ _ Hv).
  pose proof (er_kind _ _ _ _ _ Ha) as Hk. rewrite Hd in Hk. destruct Hk as (_ & Hch & Hcap & Hdata).
  destruct (last (a_chain a)) as [lc|] eqn:Hlast.
  2:{ apply last_None in Hlast. rewrite Hlast in Hch. inversion Hch. }
  assert (Emod : offset mod bpc = offset - spare).
  { symmetry. apply (Z.mod_unique_pos _ _ (lenZ (a_chain a) - 1)); unfold spare, bpc in *; lia. }
  destruct (write_in_place_ok (base := x.1) (ext := x.2) (sec := sec) (off := off) Hfuel
    img e (a_chain a) lc d offset) as (img' & Hw & K & T & S & DC & DO);
    try (done || apply Hv || (fold bpc; unfold spare in *; lia)).
  fold bpc in DC. rewrite Emod in DC. fold spare in DC.
  replace (spare + (offset - spare)) with offset in DC by lia.
  pose proof (length_chain_data Hv _ (chain_in_volume _ _ _ Hch)) as Hlen. fold bpc in Hlen.
  exists img', [lc]. split; [exact Hw|].
  assert (Hlc : lc ∈ a_chain a) by by apply last_Some_elem_of.
  pose proof (chain_in_volume _ _ _ Hch) as Hvol. rewrite Forall_forall in Hvol.
  assert (Hidx : ∀ c, in_volume n c → fat_index fs c) by (intros; by eapply in_volume_index; [apply Hv|]).
  assert (Esize : lenZ (take (Z.to_nat offset) (a_data a) ++ d) = offset + lenZ d).
  { rewrite length_app, length_take. lia. }
  eapply write_update; try done.
  - intros c Hc Hn. split; [by apply T, Hidx|]. apply DO; [done|]. intros ->. by destruct Hn; apply list_elem_of_here.
  - intros c ->%list_elem_of_singleton. split; [done|]. rewrite T by by apply Hidx, Hvol.
    rewrite (rep_free _ _ _ _ Hrep) by by apply Hvol. intros Hn. apply Hn.
    rewrite (used_split _ _ _ Hi). apply elem_of_app. by left.
  - intros c Hc. by left.
  - by rewrite Esize.
  - by apply (same_table_chain img img' _ _ Hv).
  - rewrite Esize. fold bpc. unfold spare in *. lia.
  - rewrite DC. replace (length _) with (Z.to_nat (offset + lenZ d)) by lia.
    rewrite take_splice by (unfold spare in *; lia). f_equal.
    rewrite <- Hdata, take_take. f_equal. lia.
Qed.

Lemma write_append_update x i sec off e a d fl :
  root_slots fs img !! i = Some (sec, off, e) → slots A !! i = Some (Some a) →
  entry_rep fs n img e a → a_name a = x → a_dir a = false →
  root_file fs img x.1 x.2 sec off e → Forall is_byte d →
  let bpc := 512 * SecPerClus fs in
  let spare := bpc * (lenZ (a_chain a) - 1) in
  let offset := lenZ (a_data a) in
  let total := lenZ d + offset in
  free_run fs n img (default 0 (last (a_chain a))) fl →
  lenZ fl = (total - 1) / bpc + 1 - lenZ (a_chain a) → spare + bpc < total →
  total mod bpc ≠ 0 → total < 2 ^ 31 →
  offset = 0 ∧ lenZ (a_chain a) = 1 ∨ spare < offset →
  ∃ img' touched, fat16_write fs fuel img (root_path x) (lenZ d) offset d = Ok (lenZ d, img') ∧
    slot_update (fs := fs) (n := n) (img := img) (A := A) (i := i) (sec := sec) (off := off)
      (o := Some a) img' touched
      (Some (AEntry x false (a_data a ++ d) (a_chain a ++ fl) (a_time a))).
Proof.
  intros Hs Hi Ha Hx Hd Hf Hb bpc spare offset total Hr Hfl Hmore Hmod Hbig Hlow.
  pose proof (geo_spc _ _ Hv).
  pose proof (er_kind _ _ _ _ _ Ha) as Hk. rewrite Hd in Hk. destruct Hk as (_ & Hch & Hcap & Hdata).
  pose proof (er_size _ _ _ _ _ Ha) as Esize. fold offset in Esize.
  destruct (last (a_chain a)) as [lc|] eqn:Hlast.
  2:{ apply last_None in Hlast. rewrite Hlast in Hch. inversion Hch. }
  cbn [default id] in Hr. apply last_Some in Hlast as [l0 El].
  assert (Elen : lenZ (a_chain a) = lenZ l0 + 1) by (rewrite El, length_app; cbn [length]; lia).
  assert (Espare : spare = bpc * lenZ l0) by (unfold spare; rewrite Elen; f_equal; lia).
  clearbody spare. rewrite Elen in Hfl, Hlow, Hcap. rewrite El in Hch, Hdata. fold bpc in Hcap.
  pose proof (length_chain_data Hv _ (chain_in_volume _ _ _ Hch)) as Hlen. fold bpc in Hlen.
  rewrite length_app in Hlen. cbn [length] in Hlen.
  assert (Hne : fl ≠ []).
  { intros ->. cbn [length] in Hfl. assert (lenZ l0 + 1 <= (total - 1) / bpc); [|lia].
    apply Z.div_le_lower_bound; unfold bpc in *; lia. }
  destruct (write_append_ok (base := x.1) (ext := x.2) (sec := sec) (off := off) (buffer := d) Hfuel
    Hv Hf Hch Hr Hb) as (img' & Hw & [K T DO] & Hch' & Hdch & Es & rest & DC);
    rewrite ?Esize; try (done || (fold bpc; unfold total in *; lia)).
  { destruct Hlow as [[? E]|]; [left|right; fold bpc; lia].
    split; [done|]. destruct l0; [done|cbn [length] in E; lia]. }
  rewrite Esize in Hw, Es, DC. exists img', (lc :: fl). split; [exact Hw|].
  assert (Hlc : lc ∈ l0 ++ [lc]) by (apply elem_of_app; right; apply list_elem_of_here).
  assert (Hidx : ∀ c, in_volume n c → fat_index fs c) by (intros; by eapply in_volume_index; [apply Hv|]).
  rewrite El, <- app_assoc. cbn [app].
  eapply write_update; try done.
  - intros c Hc Hn. split; [by apply T; [apply Hidx|]|by apply DO].
  - intros c Hc. split; [apply elem_of_app; by right|]. by eapply dir_chain_used.
  - rewrite El. intros c. rewrite !elem_of_app, elem_of_cons. set_solver.
  - rewrite El. intros c. rewrite !elem_of_app, !elem_of_cons.
    intros [Hc|[-> |Hc]]; [by left; left|left; right; by left|]. right. split; [by right|].
    by eapply (free_run_unused Hrep).
  - rewrite Es, length_app. unfold offset. lia.
  - rewrite !length_app. cbn [length]. fold bpc.
    assert (total <= bpc * ((total - 1) / bpc + 1)).
    { pose proof (Z.div_mod (total - 1) bpc ltac:(unfold bpc; lia)).
      pose proof (Z.mod_pos_bound (total - 1) bpc ltac:(unfold bpc; lia)). lia. }
    replace (Z.of_nat (length l0 + S (length fl))) with ((total - 1) / bpc + 1) by lia.
    unfold total, offset in *. lia.
  - unfold offset in DC. rewrite Nat2Z.id, Hdata in DC. rewrite DC, app_assoc. by apply take_app_length'.
Qed.

Lemma simulate_write x offset d : valid_name x → Forall is_byte d → simulated (WriteAt x offset d).
Proof.
  intros Hx Hb r A'. cbn [flat_serve].
  destruct (find_file x A) as [[i a]|] eqn:Hfind; [|done]. cbn [mbind option_bind].
  destruct (rep_root_file Hrep Hx i a Hfind) as (Hi & Ha & Hd & sec & off & e & Hs & Hr & Hf).
  destruct (write_file _ _ _ _ _ _) as [[data chain]|] eqn:Hw; [|done]. cbn [mbind option_bind].
  intros [= <- <-]. unfold write_file in Hw.
  assert (∃ img' touched, fat16_write fs fuel img (root_path x) (lenZ d) offset d = Ok (lenZ d, img') ∧
    slot_update (fs := fs) (n := n) (img := img) (A := A) (i := i) (sec := sec) (off := off)
      (o := Some a) img' touched (Some (AEntry x false data chain (a_time a))))
    as (img' & touched & E & Hup).
  { destruct (decide _) as [(Hpos & Ho & Hbig)|] in Hw; [|done].
    destruct (decide _) as [(H1 & H2 & H3)|] in Hw.
    - injection Hw as <- <-. by apply (write_in_place_update x i sec off e).
    - destruct (decide _) as [(-> & H2 & H3 & H4)|] in Hw; [|done].
      destruct (decide _) as [Hk|] in Hw; [|done]. injection Hw as <- <-.
      eapply (write_append_update x i sec off e); try done.
      apply (free_run_clusters Hrep). destruct Hr as [_ _ _ _ Hkind]. rewrite Hd in Hkind.
      destruct Hkind as (_ & Hch & _). pose proof (chain_in_volume _ _ _ Hch) as Hvol.
      rewrite Forall_forall in Hvol. destruct (last (a_chain a)) as [lc|] eqn:Hlast.
      + by apply Hvol, last_Some_elem_of.
      + apply last_None in Hlast. rewrite Hlast in Hch. inversion Hch. }
  exists img'. cbn [concrete serve]. rewrite E. res_steps.
  split_and!; [done|by eapply (slot_updated Hrep)|eapply update_undisturbed; [|exact Hi|exact Hup]]. by intros ? [= <-].
Qed.

(** *** Reading, attributes, listing *)

Lemma simulate_read x size offset : valid_name x → simulated (ReadAt x size offset).
Proof.
  intros Hx r A'. cbn [flat_serve].
  destruct (find_file x A) as [[i a]|] eqn:Hfind; [|done]. cbn [mbind option_bind].
  destruct (rep_root_file Hrep Hx i a Hfind) as (Hi & Ha & Hd & sec & off & e & Hs & Hr & Hf).
  destruct (read_file _ _ _ _) as [[ret data]|] eqn:Hrd; [|done]. cbn [mbind option_bind].
  intros [= <- <-]. exists img.
  split; [|split; [done|apply undisturbed_refl]].
  destruct Hr as [_ _ Es _ Hk]. rewrite Hd in Hk. destruct Hk as (_ & Hch & Hcap & Hdata).
  unfold read_file in Hrd. destruct (decide _) as [(H1 & H2 & H3 & H4 & H5)|] in Hrd; [|done].
  cbn [concrete serve]. unfold fat16_read, root_path.
  rewrite (read_path_found Hv [] x.1 x.2 e (a_chain a)) by
    (done || apply Hx || by eapply root_file_lookup).
  rewrite (proj2 (Z.leb_le _ _)), Es by done. revert Hrd.
  destruct (decide (lenZ (a_data a) <= offset)) as [Hend|Hend].
  - intros [= <- <-]. by rewrite (proj2 (Z.ltb_ge _ _)).
  - destruct (decide (size + offset <= lenZ (a_data a))) as [Hin|]; [|done]. intros [= <- <-].
    rewrite (proj2 (Z.ltb_lt _ _)) by lia. res_steps. do 3 f_equal.
    rewrite <- Hdata at 1. unfold slice. rewrite skipn_firstn_comm, take_take. f_equal. lia.
Qed.

Lemma round_up size blk : 0 <= size → 0 < blk →
  (if negb (size `rem` blk =? 0) then size `quot` blk + 1 else size `quot` blk) =
  (size + blk - 1) / blk.
Proof.
  intros. rewrite Z.rem_mod_nonneg, Z.quot_div_nonneg by lia.
  pose proof (Z.div_mod size blk ltac:(lia)). pose proof (Z.mod_pos_bound size blk ltac:(lia)).
  destruct (Z.eqb_spec (size mod blk) 0); cbn [negb].
  - apply (Z.div_unique_pos _ _ _ (blk - 1)); lia.
  - apply (Z.div_unique_pos _ _ _ (size mod blk - 1)); lia.
Qed.

Lemma simulate_stat x : valid_name x → simulated (Stat x).
Proof.
  intros Hx. pose proof (vn_path _ Hx) as Hp. pose proof (geo_spc _ _ Hv).
  destruct (find_entry x (slots A)) as [[i a]|] eqn:Hfind; eapply simulated_reading;
    cbn [flat_serve]; rewrite ?Hfind; try done; cbn [concrete serve]; unfold fat16_getattr, root_path;
    rewrite path_of_not_root by apply Hp.
  - destruct (rep_lookup_found Hrep Hx i a Hfind) as (s & Hs & Hr & Hl).
    destruct (find_root_path Hv [] x.1 x.2 (Some s.2) uninit_dir fuel Hp Hl Hfuel) as (D & E & HD).
    rewrite (HD s.2 eq_refl) in E. res_step E. cbn [found Z.eqb]. destruct Hr as [_ _ Es Et Hk].
    unfold BYTES_PER_SECTOR.
    rewrite (proj2 (Z.eqb_neq (512 * SecPerClus fs) 0)) by lia. res_steps.
    rewrite round_up by (rewrite ?Es; lia). unfold stat_of. rewrite Es, <- Et. do 5 f_equal.
    f_equal. destruct (a_dir a); destruct Hk as (Hk & _).
    + unfold is_dir in Hk. by rewrite Hk.
    + unfold is_file in Hk. apply Z.eqb_eq in Hk. by rewrite Hk.
  - destruct (rep_absent Hrep Hx Hfind) as [Hl _].
    destruct (find_root_path Hv [] x.1 x.2 None uninit_dir fuel Hp Hl Hfuel) as (D & E & _).
    by res_step E.
Qed.

Lemma listing_rep (es : list slot) (os : list (option aentry)) :
  Forall2 (slot_rep fs n img) es os →
  (∀ i j s a, es !! i = Some s → name0 s.2 = 0 → os !! j = Some (Some a) → (j < i)%nat) →
  listing false es = omap (fmap (λ a, spell (a_name a).1 (a_name a).2)) os.
Proof.
  induction 1 as [|[[sec off] e] o es os Ho Hes IH]; intros Hend; [done|].
  assert (Hend' : ∀ i j s a, es !! i = Some s → name0 s.2 = 0 → os !! j = Some (Some a) → (j < i)%nat).
  { intros i j s a Hi H0 Hj. pose proof (Hend (S i) (S j) s a Hi H0 Hj). lia. }
  unfold listing in *. cbn [until_free].
  destruct (Z.eqb_spec (name0 e) 0) as [H0|H0].
  - assert (Hnone : ∀ j a, (o :: os) !! j ≠ Some (Some a)).
    { intros j a Hj. pose proof (Hend O j _ a eq_refl H0 Hj). lia. }
    cbn [filter list_filter fmap list_fmap]. clear -Hnone. induction (o :: os) as [|o' os' IH]; [done|].
    destruct o' as [a|]; [by destruct (Hnone O a)|]. apply IH. intros j a. apply (Hnone (S j)).
  - specialize (IH Hend'). destruct o as [a|]; cbn [slot_rep snd] in Ho.
    + destruct Ho as [Hval En _ _ Hk]. pose proof (named_range _ _ Hval En).
      rewrite filter_cons_True.
      2:{ unfold listed. rewrite (proj2 (Z.eqb_neq (name0 e) 229)) by lia.
          destruct (a_dir a); destruct Hk as (-> & _); by rewrite ?orb_true_r. }
      cbn [fmap list_fmap omap list_omap option_fmap option_map].
      rewrite (shown_fat_name _ _ Hval En). by f_equal.
    + rewrite filter_cons_False; [exact IH|]. unfold listed. unfold is_free in Ho.
      rewrite (proj2 (Z.eqb_eq (name0 e) 229)) by lia. by rewrite andb_false_r.
Qed.

Lemma simulate_list : simulated ListAll.
Proof.
  eapply simulated_reading; [done|]. cbn [concrete serve].
  rewrite (fat16_readdir_root Hv). res_steps. do 3 f_equal.
  apply listing_rep; [apply Hrep|intros; by eapply (rep_end _ _ _ _ Hrep)].
Qed.

(** *** Deleting *)

Lemma unlink_root_ok x sec off e l :
  root_file fs img x.1 x.2 sec off e → file_chain fs n img (DIR_FstClusLO e) l →
  fat16_unlink fs fuel img (root_path x) =
    Ok (0, splice (entry_pos sec off + 0) [229] (fat_free_all fs l img)).
Proof.
  intros Hf Hc. pose proof (root_file_lookup (n := n) Hf) as Hl. destruct (root_file_slot Hv Hf) as [Hs _].
  destruct Hf as [Hp Hshort _ _ _ Hshows]. unfold root_path.
  destruct (parent_of_path [] (spell x.1 x.2)) as [Ec E]; [apply Hp|done|].
  destruct (find_root_path Hv [] x.1 x.2 (Some e) uninit_dir fuel Hp Hl Hfuel) as (D' & E' & HD).
  rewrite (HD e eq_refl) in E'. unfold path_of in *.
  unfold fat16_unlink. res_step Ec. res_step E'. cbn [found Z.eqb].
  pose proof (chain_length _ _ _ Hc) as Hlen. pose proof (geo_spc _ _ Hv).
  rewrite (free_chain_ok (n := n) img _ l) by
    (done || apply Hv || (unfold dir_fuel in Hfuel;
     assert (1 * n <= 16 * SecPerClus fs * n) by (apply Z.mul_le_mono_nonneg_r; lia); lia)).
  res_steps. res_step E. rewrite path_at_name.
  destruct (fat_free_all_facts img l Hv (chain_indices _ _ _ Hv Hc)) as (Hv1&_&_&_&Hdata).
  rewrite (locate_ok Hv1 _ _ _ _ _ (parent_root fs n _)) by (done || by eapply ascii_component).
  rewrite (root_slots_frame Hdata), Hshows. cbn [fmap option_fmap option_map]. res_steps.
  destruct (slot_pos_small Hv sec off 0 Hs) as [Epos ?]; [lia|].
  rewrite !Z.add_0_r in *. by rewrite Epos, u32_small by lia.
Qed.

Lemma delete_update i sec off e a :
  root_slots fs img !! i = Some (sec, off, e) → slots A !! i = Some (Some a) →
  file_chain fs n img (DIR_FstClusLO e) (a_chain a) →
  slot_update (fs := fs) (n := n) (img := img) (A := A) (i := i) (sec := sec) (off := off)
    (o := Some a) (splice (entry_pos sec off + 0) [229] (fat_free_all fs (a_chain a) img))
    (a_chain a) None.
Proof.
  intros Hs Hi Hc. destruct (slot_facts Hrep i _ Hs) as (He & _ & Hin & Hok). cbn [fst snd] in *.
  destruct (fat_free_all_facts img (a_chain a) Hv (chain_indices _ _ _ Hv Hc)) as (Hv1&Hlen&Hget&_&Hdata).
  set (img1 := fat_free_all fs (a_chain a) img) in *. pose proof (geo_spc _ _ Hv).
  assert (Hok1 : ∀ s o, slot_ok fs img s o → slot_ok fs img1 s o)
    by (intros s o []; split; rewrite ?Hlen; done).
  assert (Hb : Forall is_byte [229]) by (apply Forall_cons_2; [by unfold is_byte|apply Forall_nil_2]).
  assert (Hd : 0 + lenZ [229] <= 32) by (cbn [length]; lia).
  assert (Hidx : ∀ c, in_volume n c → fat_index fs c) by (intros; by eapply in_volume_index; [apply Hv|]).
  assert (Hfat : ∀ c, in_volume n c →
    fat_get fs (splice (entry_pos sec off + 0) [229] img1) c =
      if decide (c ∈ a_chain a) then 0 else fat_get fs img c).
  { intros c Hcv. destruct (fat_get_splice_entry Hv1 (Hok1 _ _ Hok) (a := 0) (d := [229]) ltac:(lia) Hd c) as [-> _];
      [by apply Hidx|]. by apply Hget, Hidx. }
  assert (En : name0 (entry_on (splice (entry_pos sec off + 0) [229] img1) sec off) = 229).
  { rewrite (entry_on_splice_same Hv1 (Hok1 _ _ Hok)) by (done || lia).
    unfold name0. cbn [DIR_Name dir_entry_of_bytes]. destruct Hok.
    pose proof (data_nonneg (vol_geo _ _ _ Hv)).
    by rewrite byte_at_slice, byte_at_splice by (rewrite ?length_slice; cbn [length]; lia). }
  split; cbn [own from_option]; try done.
  - apply (vol_ok_splice_entry Hv1 (Hok1 _ _ Hok)); [lia|exact Hd|exact Hb].
  - intros j t Hne Ht. destruct (slot_facts Hrep j t Ht) as (_ & _ & _ & Hokt).
    pose proof (root_slot_apart _ _ _ _ Ht Hs Hne). cbn [fst snd] in *.
    rewrite (entry_on_splice_other Hv1 (Hok1 _ _ Hok)) by (done || lia || by apply Hok1).
    unfold entry_on, BYTES_PER_DIR. f_equal. destruct Hokt. apply Hdata; lia.
  - intros c Hcv Hn. rewrite Hfat by done. by rewrite decide_False.
  - intros c Hcv Hn. pose proof (cluster_in_image Hv c Hcv). pose proof (data_nonneg (vol_geo _ _ _ Hv)).
    destruct (root_slot_region _ _ _ _ Hv Hin) as [Hlow _]. unfold cluster_data.
    rewrite (slice_splice_entry Hv1 (Hok1 _ _ Hok)) by lia. apply Hdata; lia.
  - intros c Hn. by apply (others_not_own Hrep Hi).
  - intros c Hn. split; [done|]. by intros ?%elem_of_nil.
  - apply NoDup_nil_2.
  - by intros c ?%elem_of_nil.
  - intros c Hcv Hn. rewrite Hfat, decide_True by done. split; [|done]. intros _. apply not_elem_of_nil.
  - unfold slot_rep, is_free. cbn [snd]. by rewrite En.
  - intros _. by rewrite En.
Qed.

Lemma simulate_delete x : valid_name x → simulated (Delete x).
Proof.
  intros Hx. pose proof (vn_path _ Hx) as Hp.
  destruct (find_entry x (slots A)) as [[i a]|] eqn:Hfind.
  - intros r A'. cbn [flat_serve]. rewrite Hfind. destruct (a_dir a) eqn:Hd; [done|].
    intros [= <- <-].
    destruct (rep_root_file Hrep Hx i a) as (Hi & Ha & _ & sec & off & e & Hs & Hr & Hf).
    { unfold find_file. rewrite Hfind. cbn. by rewrite Hd. }
    destruct Hr as [_ _ _ _ Hk]. rewrite Hd in Hk. destruct Hk as (_ & Hch & _).
    pose proof (delete_update i sec off e a Hs Hi Hch) as Hup. eexists.
    cbn [concrete serve]. rewrite (unlink_root_ok x sec off e (a_chain a)) by done. res_steps.
    split_and!; [done|by eapply (slot_updated Hrep)|eapply update_undisturbed; [|exact Hi|exact Hup]]. by intros ? [= <-].
  - eapply simulated_reading; cbn [flat_serve]; rewrite ?Hfind; [done|].
    destruct (rep_absent Hrep Hx Hfind) as [Hl _]. cbn [concrete serve].
    destruct (parent_of_path [] (spell x.1 x.2)) as [Ec _]; [apply Hp|apply Hx|].
    destruct (find_root_path Hv [] x.1 x.2 None uninit_dir fuel Hp Hl Hfuel) as (D & E & _).
    unfold fat16_unlink, root_path, path_of in *. res_step Ec. by res_step E.
Qed.

Lemma simulate_touch x : simulated (Touch x).
Proof. by eapply simulated_reading. Qed.

Lemma simulate_op o : op_ok o → simulated o.
Proof.
  destruct o; cbn [op_ok]; intros Ho.
  - by apply simulate_create.
  - destruct Ho. by apply simulate_write.
  - by apply simulate_read.
  - by apply simulate_delete.
  - by apply simulate_stat.
  - by apply simulate_list.
  - by apply simulate_touch.
Qed.
End requests.

(** ** Sessions *)

Lemma simulate_run `{Platform} {fs : FAT16} {n : Z} {fuel : nat} ops img A replies A' :
  (dir_fuel fs n ≤ fuel)%nat → represents fs n img A → Forall op_ok ops →
  flat_run fs n A ops = Some (replies, A') →
  ∃ img', serve_all fs fuel img (concrete <$> ops) = Ok (replies, img') ∧
    represents fs n img' A' ∧ undisturbed fs n A A' img img'.
Proof.
  intros Hfuel Hrep Hops. revert img A replies Hrep.
  induction Hops as [|o ops Ho _ IH]; intros img A replies Hrep; cbn [flat_run].
  { intros [= <- <-]. exists img. split_and!; [done..|apply undisturbed_refl]. }
  destruct (flat_serve fs n A o) as [[r A1]|] eqn:E1; [|done]. cbn [mbind option_bind].
  destruct (flat_run fs n A1 ops) as [[rs A2]|] eqn:E2; [|done]. intros [= <- <-].
  destruct (simulate_op Hfuel Hrep o Ho r A1 E1) as (img1 & S1 & R1 & U1).
  destruct (IH img1 A1 rs R1 E2) as (img2 & S2 & R2 & U2).
  exists img2. rewrite fmap_cons. cbn [serve_all]. rewrite S1. res_steps. rewrite S2. res_steps.
  split_and!; [done|done|by eapply undisturbed_trans].
Qed.

(** ** Files as a map from names to contents *)

Definition contents (A : flat) : gmap fname (list Z) :=
  list_to_map (omap (λ o, a ← o; if a_dir a then None else Some (a_name a, a_data a)) (slots A)).

(** One request, seen on the map. *)
Definition map_step (m : gmap fname (list Z)) (o : op) (r : reply) (m' : gmap fname (list Z)) : Prop :=
  match o with
  | Create x => m !! x = None ∧ r = Code 0 ∧ m' = <[x := []]> m
  | WriteAt x offset d => ∃ old, m !! x = Some old ∧ 0 <= offset <= lenZ old ∧
      r = Code (lenZ d) ∧ m' = <[x := take (Z.to_nat offset) old ++ d]> m
  | ReadAt x size offset => m' = m ∧ ∃ data, m !! x = Some data ∧
      r = if decide (lenZ data <= offset) then Contents 0 [] else Contents size (slice offset size data)
  | Delete x => r = Code (if m !! x is Some _ then 0 else 1) ∧ m' = delete x m
  | Stat x => m' = m ∧ ∀ data, m !! x = Some data →
      ∃ st, r = Attributes 0 (Some st) ∧ st_size st = lenZ data ∧ st_mode st = Z.lor S_IFREG 493
  | ListAll => m' = m ∧ ∃ names, r = Listing 0 names ∧
      ∀ x data, m !! x = Some data → spell x.1 x.2 ∈ names
  | Touch _ => m' = m ∧ r = Code 0
  end.

Inductive map_run : gmap fname (list Z) → list op → list reply → gmap fname (list Z) → Prop :=
  | map_done m : map_run m [] [] m
  | map_next m1 m2 m3 o r ops rs :
      map_step m1 o r m2 → map_run m2 ops rs m3 → map_run m1 (o :: ops) (r :: rs) m3.

(** Names are unique, directories included. *)
Definition names_unique (es : list (option aentry)) : Prop :=
  ∀ i j a b, es !! i = Some (Some a) → es !! j = Some (Some b) → a_name a = a_name b → i = j.

Section contents.
Implicit Types (A : flat) (x : fname).

Lemma contents_lookup A x d : names_unique (slots A) →
  contents A !! x = Some d ↔
  ∃ i a, slots A !! i = Some (Some a) ∧ a_name a = x ∧ a_dir a = false ∧ a_data a = d.
Proof.
  intros Hu. unfold contents. rewrite <- elem_of_list_to_map.
  - rewrite list_elem_of_omap. split.
    + intros (o & Ho & E). apply list_elem_of_lookup in Ho as [i Hi]. destruct o as [a|]; [|done].
      cbn in E. destruct (a_dir a) eqn:Hd; [done|]. injection E as <- <-. by exists i, a.
    + intros (i & a & Hi & <- & Hd & <-). exists (Some a). split; [by eapply list_elem_of_lookup_2|].
      cbn. by rewrite Hd.
  - revert Hu. generalize (slots A). clear. intros es. induction es as [|o es IH]; intros Hu; [apply NoDup_nil_2|].
    assert (Hu' : names_unique es).
    { intros i j a b Hi Hj E. by injection (Hu (S i) (S j) a b Hi Hj E). }
    cbn [omap list_omap]. destruct o as [a|]; cbn; [|by apply IH]. destruct (a_dir a); cbn; [by apply IH|].
    apply NoDup_cons. split; [|by apply IH]. intros Hin.
    apply list_elem_of_fmap in Hin as ([y v] & E & Hin). cbn in E. subst y.
    apply list_elem_of_omap in Hin as (o & Ho & E). apply list_elem_of_lookup in Ho as [j Hj].
    destruct o as [b|]; [|done]. cbn in E. destruct (a_dir b); [done|]. injection E as E _.
    by pose proof (Hu O (S j) a b eq_refl Hj (eq_sym E)).
Qed.

Lemma contents_None A x : names_unique (slots A) → find_entry x (slots A) = None → contents A !! x = None.
Proof.
  intros Hu Hn. apply eq_None_not_Some. intros [d Hd]. apply contents_lookup in Hd as (i & a & Hi & Ha & _); [|done].
  by eapply find_entry_None.
Qed.

Lemma contents_file A x i a :
  names_unique (slots A) → find_file x A = Some (i, a) →
  slots A !! i = Some (Some a) ∧ a_name a = x ∧ contents A !! x = Some (a_data a).
Proof.
  intros Hu. unfold find_file. destruct (find_entry x (slots A)) as [[j b]|] eqn:E; [|done]. cbn.
  destruct (a_dir b) eqn:Hd; [done|]. intros [= <- <-]. apply find_entry_Some in E as [Hj Hb].
  split_and!; [done..|]. apply contents_lookup; [done|]. by exists j, b.
Qed.

(** Replacing what is in a slot by a file of that name, or by one of a new
    name, and clearing it. *)
Lemma contents_insert A i o a :
  names_unique (slots A) → slots A !! i = Some o → a_dir a = false →
  (∀ j b, j ≠ i → slots A !! j = Some (Some b) → a_name b ≠ a_name a) →
  (∀ b, o = Some b → a_name b = a_name a) →
  contents (with_slot i (Some a) A) = <[a_name a := a_data a]> (contents A) ∧
  names_unique (slots (with_slot i (Some a) A)).
Proof.
  intros Hu Ho Hd Hother Hsame. pose proof (lookup_lt_Some _ _ _ Ho) as Hlt.
  assert (Hget : ∀ j, slots (with_slot i (Some a) A) !! j =
    if decide (j = i) then Some (Some a) else slots A !! j).
  { intros j. cbn [with_slot slots]. case_decide; [subst; by apply list_lookup_insert_eq|].
    by apply list_lookup_insert_ne. }
  assert (Hu' : names_unique (slots (with_slot i (Some a) A))).
  { intros j k b c. rewrite !Hget. intros Hj Hk E.
    destruct (decide (j = i)) as [->|], (decide (k = i)) as [->|]; [done|..].
    - destruct (Hother k c); congruence.
    - destruct (Hother j b); congruence.
    - by eapply Hu. }
  split; [|done]. apply map_eq. intros x. apply option_eq. intros d.
  rewrite contents_lookup, lookup_insert_Some, contents_lookup by done. split.
  - intros (j & b & Hj & Hb & Hbd & <-). rewrite Hget in Hj. case_decide as E.
    + injection Hj as <-. by left.
    + right. split; [|by exists j, b]. rewrite <- Hb. intros E'. by apply (Hother j b E Hj).
  - intros [[<- <-]|(Hne & j & b & Hj & Hb & Hbd & <-)].
    + exists i, a. rewrite Hget, decide_True by done. done.
    + exists j, b. rewrite Hget. case_decide as E; [|done]. subst j. rewrite Ho in Hj.
      injection Hj as ->. destruct Hne. rewrite <- Hb. symmetry. by apply Hsame.
Qed.

Lemma contents_delete A i a :
  names_unique (slots A) → slots A !! i = Some (Some a) →
  contents (with_slot i None A) = delete (a_name a) (contents A) ∧
  names_unique (slots (with_slot i None A)).
Proof.
  intros Hu Ho. pose proof (lookup_lt_Some _ _ _ Ho) as Hlt.
  assert (Hget : ∀ j, slots (with_slot i None A) !! j =
    if decide (j = i) then Some None else slots A !! j).
  { intros j. cbn [with_slot slots]. case_decide; [subst; by apply list_lookup_insert_eq|].
    by apply list_lookup_insert_ne. }
  assert (Hu' : names_unique (slots (with_slot i None A))).
  { intros j k b c. rewrite !Hget. repeat case_decide; try done. by apply Hu. }
  split; [|done]. apply map_eq. intros x. apply option_eq. intros d.
  rewrite contents_lookup, lookup_delete_Some, contents_lookup by done. split.
  - intros (j & b & Hj & Hb & Hbd & <-). rewrite Hget in Hj. case_decide as E; [done|].
    split; [|by exists j, b]. intros Ha. apply E. eapply Hu; [done..|congruence].
  - intros (Hne & j & b & Hj & Hb & Hbd & <-). exists j, b. rewrite Hget.
    case_decide as E; [|done]. subst j. rewrite Ho in Hj. injection Hj as ->. by destruct Hne.
Qed.
End contents.

Section map_refinement.
Context `{Platform} {fs : FAT16} {n : Z} {A : flat} (Hu : names_unique (slots A)).

Lemma contents_find x data : contents A !! x = Some data →
  ∃ i a, find_entry x (slots A) = Some (i, a) ∧ a_dir a = false ∧ a_data a = data.
Proof.
  intros Hd. destruct (find_entry x (slots A)) as [[i a]|] eqn:E.
  - apply contents_lookup in Hd as (j & b & Hj & Hb & Hbd & <-); [|done].
    apply find_entry_Some in E as [Hi Ha]. assert (i = j) as -> by (eapply Hu; [done..|congruence]).
    rewrite Hi in Hj. injection Hj as ->. by exists j, b.
  - by rewrite contents_None in Hd.
Qed.

Lemma write_file_data a offset d data chain :
  write_file fs n A a offset d = Some (data, chain) →
  0 <= offset <= lenZ (a_data a) ∧ data = take (Z.to_nat offset) (a_data a) ++ d.
Proof.
  unfold write_file. destruct (decide _) as [(Hpos & Ho & _)|]; [|done].
  destruct (decide _) as [(_ & H1 & _)|]; [by intros [= <- _]|].
  destruct (decide _) as [(-> & _)|]; [|done]. destruct (decide _); [|done]. intros [= <- _].
  split; [lia|]. f_equal. by rewrite take_ge by lia.
Qed.

(** The specification by lists implements the one by maps. *)
Lemma flat_map_step o r A' : flat_serve fs n A o = Some (r, A') →
  map_step (contents A) o r (contents A') ∧ names_unique (slots A').
Proof.
  destruct o as [x|x offset d|x size offset|x|x| |x]; cbn [flat_serve map_step].
  - destruct (find_entry x (slots A)) as [|] eqn:Hf; [done|].
    destruct (hole (slots A)) as [i|] eqn:Hh; [|done].
    destruct (free_clusters n A) as [|c l]; [done|]. intros [= <- <-].
    apply hole_Some in Hh as [Hi _].
    destruct (contents_insert A i None (AEntry x false [] [c] clock) Hu Hi eq_refl) as [-> Hu'];
      [intros j b _ Hj; by eapply find_entry_None|done|]. split; [|done].
    split_and!; [by apply contents_None|done|done].
  - destruct (find_file x A) as [[i a]|] eqn:Hf; [|done]. cbn [mbind option_bind].
    destruct (write_file _ _ _ _ _ _) as [[data chain]|] eqn:Hw; [|done]. intros [= <- <-].
    destruct (contents_file A x i a Hu Hf) as (Hi & <- & Hx).
    apply write_file_data in Hw as [Ho ->].
    destruct (contents_insert A i (Some a) (AEntry (a_name a) false
      (take (Z.to_nat offset) (a_data a) ++ d) chain (a_time a)) Hu Hi eq_refl) as [-> Hu'].
    + intros j b Hne Hj E. apply Hne. by eapply Hu.
    + by intros b [= <-].
    + split; [|done]. by exists (a_data a).
  - destruct (find_file x A) as [[i a]|] eqn:Hf; [|done]. cbn [mbind option_bind].
    destruct (contents_file A x i a Hu Hf) as (Hi & <- & Hx).
    destruct (read_file _ _ _ _) as [[ret data]|] eqn:Hr; [|done]. intros [= <- <-].
    split; [|done]. split; [done|]. exists (a_data a). split; [done|]. unfold read_file in Hr.
    destruct (decide _) in Hr; [|done]. destruct (decide (lenZ (a_data a) <= offset)).
    + by injection Hr as <- <-.
    + destruct (decide _) in Hr; [|done]. by injection Hr as <- <-.
  - destruct (find_entry x (slots A)) as [[i a]|] eqn:Hf.
    + destruct (a_dir a) eqn:Hd; [done|]. intros [= <- <-].
      destruct (contents_file A x i a Hu) as (Hi & <- & Hx).
      { unfold find_file. rewrite Hf. cbn. by rewrite Hd. }
      destruct (contents_delete A i a Hu Hi) as [-> Hu']. by rewrite Hx.
    + intros [= <- <-]. pose proof (contents_None A x Hu Hf) as Hn. rewrite Hn. split; [|done].
      split; [done|]. by rewrite delete_id.
  - intros E. destruct (find_entry x (slots A)) as [[i a]|] eqn:Hf; injection E as <- <-;
      (split; [|done]); (split; [done|]); intros data (j & b & E & Hd & <-)%contents_find;
      rewrite Hf in E; [|done]. injection E as -> ->.
    eexists. split; [done|]. unfold stat_of. by rewrite Hd.
  - intros [= <- <-]. split; [|done]. split; [done|]. eexists. split; [done|].
    intros x data (i & a & Hi & <- & _)%contents_lookup; [|done].
    apply list_elem_of_omap. exists (Some a). split; [by eapply list_elem_of_lookup_2|done].
  - by intros [= <- <-].
Qed.
End map_refinement.

Lemma flat_map_run `{Platform} {fs : FAT16} {n : Z} ops A rs A' :
  names_unique (slots A) → flat_run fs n A ops = Some (rs, A') →
  map_run (contents A) ops rs (contents A').
Proof.
  revert A rs. induction ops as [|o ops IH]; intros A rs Hu; cbn [flat_run].
  { intros [= <- <-]. apply map_done. }
  destruct (flat_serve fs n A o) as [[r A1]|] eqn:E1; [|done]. cbn [mbind option_bind].
  destruct (flat_run fs n A1 ops) as [[rs' A2]|] eqn:E2; [|done]. intros [= <- <-].
  destruct (flat_map_step Hu o r A1 E1) as [Hstep Hu1]. eapply map_next; [exact Hstep|by apply IH].
Qed.

(** A file that was created under a new name stays in its slot. *)
Lemma find_entry_with_slot x A i a :
  find_entry x (slots A) = None → slots A !! i = Some None → a_name a = x →
  find_entry x (slots (with_slot i (Some a) A)) = Some (i, a).
Proof.
  intros Hn Hi Ha. pose proof (lookup_lt_Some _ _ _ Hi) as Hlt.
  assert (Hother : ∀ j o, slots A !! j = Some o → ¬ has_name x o).
  { intros j [b|] Hj Hx; [|done]. injection Hx as Hx. by eapply find_entry_None. }
  unfold find_entry, with_slot. cbn [slots].
  assert (list_find (has_name x) (<[i:=Some a]> (slots A)) = Some (i, Some a)) as ->; [|done].
  apply list_find_Some. split_and!; [by apply list_lookup_insert_eq| |].
  - unfold has_name. cbn. by rewrite Ha.
  - intros j o Hj Hlt'. rewrite list_lookup_insert_ne in Hj by lia. by eapply Hother.
Qed.

Lemma with_slot_twice A i o o' : with_slot i o (with_slot i o' A) = with_slot i o A.
Proof. unfold with_slot. cbn [slots reserved]. by rewrite list_insert_insert_eq. Qed.

Lemma with_slot_same A i o : slots A !! i = Some o → with_slot i o A = A.
Proof. intros Hi. unfold with_slot. rewrite list_insert_id by done. by destruct A. Qed.

Definition writes (x : fname) (ws : list (Z * list Z)) : list op :=
  (λ '(offset, d), WriteAt x offset d) <$> ws.

(** Writes and the deletion of a file that was not there before. *)
Lemma flat_writes_delete `{Platform} {fs : FAT16} {n : Z} x A i a ws rs A' :
  find_entry x (slots A) = None → slots A !! i = Some None → a_name a = x → a_dir a = false →
  flat_run fs n (with_slot i (Some a) A) (writes x ws ++ [Delete x]) = Some (rs, A') → A' = A.
Proof.
  intros Hn Hi. revert a rs. induction ws as [|[offset d] ws IH]; intros a rs Ha Hd.
  - pose proof (find_entry_with_slot x A i a Hn Hi Ha) as Hf.
    cbn [writes fmap list_fmap app flat_run flat_serve]. rewrite Hf, Hd. cbn [mbind option_bind].
    intros [= _ <-]. rewrite with_slot_twice. by apply with_slot_same.
  - pose proof (find_entry_with_slot x A i a Hn Hi Ha) as Hf.
    unfold writes in *. rewrite fmap_cons. cbn [app flat_run flat_serve].
    unfold find_file at 1. rewrite Hf. cbn [mbind option_bind]. rewrite Hd. cbn [mbind option_bind].
    destruct (write_file _ _ _ _ _ _) as [[data chain]|]; [|done]. cbn [mbind option_bind].
    rewrite with_slot_twice. destruct (flat_run _ _ _ _) as [[rs1 A1]|] eqn:E; [|done].
    intros [= _ <-]. by eapply IH; [| |exact E].
Qed.

(** Room for a new file: an entry and a cluster. *)
Lemma flat_create_room `{Platform} {fs : FAT16} {n : Z} x A :
  find_entry x (slots A) = None → None ∈ slots A → lenZ (used A) < n →
  ∃ i c, flat_serve fs n A (Create x) =
    Some (Code 0, with_slot i (Some (AEntry x false [] [c] clock)) A) ∧ slots A !! i = Some None.
Proof.
  intros Hn Hhole Hroom. cbn [flat_serve]. rewrite Hn.
  destruct (hole (slots A)) as [i|] eqn:Hh.
  2:{ unfold hole in Hh. destruct (list_find _ _) as [[j o]|] eqn:E; [done|].
      apply list_find_None in E. rewrite Forall_forall in E. by destruct (E None Hhole). }
  destruct (free_clusters n A) as [|c l] eqn:Hf; [|exists i, c; split; [done|by apply hole_Some in Hh as [? _]]].
  exfalso. assert (seqZ 2 n ⊆+ used A) as Hsub.
  { apply NoDup_submseteq; [apply NoDup_seqZ|]. intros c Hc. destruct (decide (c ∈ used A)); [done|].
    assert (c ∈ free_clusters n A) as Hin by by apply list_elem_of_filter. rewrite Hf in Hin. by apply elem_of_nil in Hin. }
  apply submseteq_length in Hsub. rewrite length_seqZ in Hsub. lia.
Qed.

(** ** Properties *)

Section properties.
Context `{Platform} {fs : FAT16} {n : Z} {fuel : nat} (Hfuel : (dir_fuel fs n ≤ fuel)%nat).
Context {img : image} {A : flat} (Hrep : represents fs n img A).

(** C1: Whatever sequence of requests on files of the root directory the
    specification answers - creating, writing (also beyond the clusters a file
    has), reading, deleting, attributes, listing - the code answers with the
    same replies, the image it leaves represents the list that the
    specification leaves, and the entries of subdirectories, their clusters and
    those of the files in them stay as they are. *)
Theorem sessions_refine_lists ops replies A' :
  Forall op_ok ops → flat_run fs n A ops = Some (replies, A') →
  ∃ img', serve_all fs fuel img (concrete <$> ops) = Ok (replies, img') ∧
    represents fs n img' A' ∧ undisturbed fs n A A' img img'.
Proof.
  intros Hops Hrun. destruct (simulate_run ops img A replies A' Hfuel Hrep Hops Hrun) as (img' & ?&?&?).
  by exists img'.
Qed.

(** C2: To its users the file system is a map from names to contents: in a session
    the specification answers, every reply of the code and every state it
    leaves is that of the map - a write replaces the rest of the file from its
    offset on, what is read is what the map holds, deleting removes the name,
    and no request changes any other file. *)
Theorem sessions_refine_maps ops replies A' :
  Forall op_ok ops → flat_run fs n A ops = Some (replies, A') →
  ∃ img', serve_all fs fuel img (concrete <$> ops) = Ok (replies, img') ∧
    represents fs n img' A' ∧ map_run (contents A) ops replies (contents A').
Proof.
  intros Hops Hrun. destruct (simulate_run ops img A replies A' Hfuel Hrep Hops Hrun) as (img' & ?&?&_).
  exists img'. split_and!; [done..|]. eapply flat_map_run; [|done]. exact (rep_names _ _ _ _ Hrep).
Qed.

(** C15: Creating a file succeeds whenever the name is new, the root directory has
    an unused entry and the volume an unused cluster: the file is there
    afterwards, empty, and all others are as they were. *)
Theorem create_with_room x :
  valid_name x → find_entry x (slots A) = None → None ∈ slots A → lenZ (used A) < n →
  ∃ img' A', serve fs fuel img (Mknod (root_path x)) = Ok (Code 0, img') ∧
    represents fs n img' A' ∧ contents A' = <[x := []]> (contents A).
Proof.
  intros Hx Hn Hhole Hroom. destruct (flat_create_room (fs := fs) x A Hn Hhole Hroom) as (i & c & E & _).
  destruct (simulate_op Hfuel Hrep (Create x) Hx _ _ E) as (img' & Hs & Hr & _).
  destruct (flat_map_step (rep_names _ _ _ _ Hrep) _ _ _ E) as [(_ & _ & Hm) _].
  by exists img', (with_slot i (Some (AEntry x false [] [c] clock)) A).
Qed.

(** C9: Nothing leaks: after a file has been created under a new name, written to
    any number of times and deleted, the directory and the set of free clusters
    are what they were before. *)
Theorem created_and_deleted x ws rs A' :
  valid_name x → Forall (λ '(_, d), Forall is_byte d) ws → find_entry x (slots A) = None →
  flat_run fs n A (Create x :: writes x ws ++ [Delete x]) = Some (rs, A') →
  ∃ img', serve_all fs fuel img (concrete <$> Create x :: writes x ws ++ [Delete x]) = Ok (rs, img') ∧
    represents fs n img' A.
Proof.
  intros Hx Hws Hn Hrun.
  assert (A' = A) as ->.
  { cbn [flat_run flat_serve] in Hrun. rewrite Hn in Hrun.
    destruct (hole (slots A)) as [i|] eqn:Hh; [|done]. destruct (free_clusters n A) as [|c l]; [done|].
    cbn [mbind option_bind] in Hrun. destruct (flat_run _ _ _ _) as [[rs1 A1]|] eqn:E in Hrun; [|done].
    injection Hrun as _ <-. apply hole_Some in Hh as [Hi _].
    by eapply (flat_writes_delete x A i (AEntry x false [] [c] clock)); [done|done| | |exact E]. }
  destruct (λ Ho, simulate_run _ img A rs A Hfuel Hrep Ho Hrun) as (img' & Hs & Hr & _);
    [|by exists img'].
  apply Forall_cons_2; [exact Hx|]. apply Forall_app_2; [|apply Forall_cons_2; [exact Hx|apply Forall_nil_2]].
  apply Forall_fmap. forall_impl Hws. by destruct x0 as [? ?].
Qed.
End properties.
