(* ===== verification/FlatTree.v ===== *)
(** * Subdirectories under the requests on the root directory

    The abstract volume keeps of a subdirectory its name and its clusters only.
    Here: whatever a session on files of the root directory does, everything
    below its subdirectories is found, listed and read as before. *)

From Stdlib Require Import Lia.
From stdpp Require Import base numbers option list.
From S2P Require Import Prelude Bytes CString Names Volume Directory Namespace FileIO FileSystem Flat FlatSim.
Local Open Scope Z_scope.

(** ** What is below a directory *)

(** The entries that can be reached from the directory [D], itself included. *)
Inductive below (fs : FAT16) (n : Z) (img : image) : DIR_ENTRY → DIR_ENTRY → Prop :=
  | below_self D : below fs n img D D
  | below_down D l s e :
      is_dir D = true → dir_chain fs n img (DIR_FstClusLO D) l → s ∈ dir_slots fs img l →
      is_free s.2 = false → below fs n img s.2 e → below fs n img D e.

(** All their clusters are among [l]. *)
Definition tree_in (fs : FAT16) (n : Z) (l : list Z) (img : image) (D : DIR_ENTRY) : Prop :=
  ∀ e ch, below fs n img D e →
    is_dir e = true ∧ dir_chain fs n img (DIR_FstClusLO e) ch ∨
    is_file e = true ∧ file_chain fs n img (DIR_FstClusLO e) ch →
    Forall (λ c, c ∈ l) ch.

Section trees.
Context {fs : FAT16} {n : Z} {img img' : image} (Hv : vol_ok fs n img).
Context {l : list Z}.
Context (Htable : ∀ c, in_volume n c → c ∈ l → fat_get fs img' c = fat_get fs img c).
Context (Hdata : ∀ c, in_volume n c → c ∈ l → cluster_data fs img' c = cluster_data fs img c).

Lemma chain_kept stop c ch :
  chain stop fs n img c ch → Forall (λ c, c ∈ l) ch → chain stop fs n img' c ch.
Proof.
  intros Hc Hin. apply (chain_frame _ _ _ _ Hc). intros d Hd. rewrite Forall_forall in Hin.
  apply Htable; [|by apply Hin]. pose proof (chain_in_volume _ _ _ Hc) as Hvol. rewrite Forall_forall in Hvol. by apply Hvol.
Qed.

(** The entries of a cluster are a part of its data. *)
Lemma cluster_slots_data c :
  in_volume n c → cluster_data fs img' c = cluster_data fs img c →
  cluster_slots fs img' c = cluster_slots fs img c.
Proof.
  intros Hc E. unfold cluster_slots. apply list_fmap_ext. intros i k Hk. unfold cluster_slot. f_equal.
  apply list_elem_of_lookup_2, elem_of_seqZ in Hk. pose proof (geo_spc _ _ Hv).
  pose proof (cluster_in_image Hv c Hc). pose proof (data_nonneg (vol_geo _ _ _ Hv)).
  assert (Hpart : ∀ im, entry_on im (cluster_sector fs c + k / 16) (32 * (k mod 16)) =
    dir_entry_of_bytes (slice (32 * k) 32 (cluster_data fs im c))).
  { intros im. unfold entry_on, cluster_data, BYTES_PER_DIR. f_equal.
    rewrite slice_slice by lia. f_equal. unfold entry_pos. pose proof (Z.div_mod k 16). lia. }
  by rewrite !Hpart, E.
Qed.

Lemma dir_slots_data ch :
  Forall (in_volume n) ch → Forall (λ c, c ∈ l) ch → dir_slots fs img' ch = dir_slots fs img ch.
Proof.
  induction 1 as [|c ch Hc _ IH]; intros Hin; [done|]. apply Forall_cons in Hin as [Hin Hins].
  unfold dir_slots in *. rewrite !bind_cons, IH by done. f_equal. by apply cluster_slots_data, Hdata.
Qed.

Lemma dir_kept D ch :
  tree_in fs n l img D → is_dir D = true → dir_chain fs n img (DIR_FstClusLO D) ch →
  dir_chain fs n img' (DIR_FstClusLO D) ch ∧ dir_slots fs img' ch = dir_slots fs img ch.
Proof.
  intros Ht Hd Hc. assert (Hin : Forall (λ c, c ∈ l) ch) by (apply (Ht D ch); [apply below_self|by left]).
  split; [by apply chain_kept|]. apply dir_slots_data; [by eapply chain_in_volume|done].
Qed.

Lemma tree_down D ch s :
  tree_in fs n l img D → is_dir D = true → dir_chain fs n img (DIR_FstClusLO D) ch →
  s ∈ dir_slots fs img ch → is_free s.2 = false → tree_in fs n l img s.2.
Proof. intros Ht Hd Hc Hs Hf e ch' He. apply Ht. by eapply below_down. Qed.

Lemma wanted_not_free name last e : ascii_row name → wanted name last e = true → is_free e = false.
Proof.
  intros Hr. unfold wanted. intros [Hn _]%andb_true_iff. apply named_ascii in Hn; [|done]. unfold is_free. lia.
Qed.

Lemma walk_kept D names r :
  Forall ascii_row names → is_dir D = true → tree_in fs n l img D → walk fs n img D names r →
  walk fs n img' D names r ∧ ∀ e, r = Some e → tree_in fs n l img e.
Proof.
  intros Hrows Hd Ht Hw. induction Hw as [D name rest ch Hl Hf|D name ch sec off e Hl Hf
    |D name rest ch sec off e r Hl Hne Hf Hw IH];
    destruct (dir_kept D ch Ht Hd Hl) as [Hl' E]; apply Forall_cons in Hrows as [Hname Hrows].
  - split; [|done]. eapply walk_missing; [exact Hl'|]. by rewrite E.
  - split; [eapply walk_found; [exact Hl'|by rewrite E]|]. intros ? [= ->].
    apply first_slot_Some in Hf as [Hin Hwant].
    by eapply (tree_down D ch _ Ht Hd Hl Hin), wanted_not_free.
  - pose proof (first_slot_Some _ _ _ _ _ _ Hf) as [Hin Hwant].
    destruct IH as [Hw' Htree]; [done|by eapply wanted_dir|by eapply (tree_down D ch _ Ht Hd Hl Hin), wanted_not_free|].
    split; [|done]. eapply walk_down; [exact Hl'|done|by rewrite E|done].
Qed.
End trees.

(** ** Requests below a directory *)

Lemma find_entry_at A i a :
  names_unique (slots A) → slots A !! i = Some (Some a) → find_entry (a_name a) (slots A) = Some (i, a).
Proof.
  intros Hu Hi. destruct (find_entry (a_name a) (slots A)) as [[j b]|] eqn:E.
  - apply find_entry_Some in E as [Hj Hb]. assert (j = i) as -> by by eapply Hu. congruence.
  - by destruct (find_entry_None _ _ _ _ E Hi).
Qed.

Section requests.
Context `{Platform} {fs : FAT16} {n : Z} {fuel : nat} (Hfuel : (dir_fuel fs n ≤ fuel)%nat).
Context {img img' : image} {A A' : flat} (Hrep : represents fs n img A) (Hrep' : represents fs n img' A').
Context (Hud : undisturbed fs n A A' img img').
Context {d : list Z} {i : nat} {a : aentry} {s : slot}.
Context (Hi : find_entry (d, []) (slots A) = Some (i, a)) (Ha : a_dir a = true).
Context (Hs : root_slots fs img !! i = Some s) (Htree : tree_in fs n (reserved A) img s.2).

(** Both images have the same entry of the directory where the lookup starts. *)
Lemma directory_entry :
  first_slot (root_stop (fat_name d [])) false (root_slots fs img) = Some s ∧
  first_slot (root_stop (fat_name d [])) false (root_slots fs img') = Some s ∧
  name0 s.2 ≠ 0 ∧ is_dir s.2 = true.
Proof.
  pose proof (find_entry_Some _ _ _ _ Hi) as [Hslot Hname].
  destruct (rep_slot Hrep i _ Hslot) as (s1 & Hs1 & Hr1). rewrite Hs in Hs1. injection Hs1 as <-.
  cbn in Hr1. pose proof (er_valid _ _ _ _ _ Hr1) as Hx. rewrite Hname in Hx.
  destruct (rep_found Hrep Hx i a Hi) as (s2 & Hs2 & _ & _ & Hf & _). rewrite Hs in Hs2. injection Hs2 as <-.
  destruct (ud_dirs _ _ _ _ _ _ Hud i a s Hslot Ha Hs) as [Hslot' Hs'].
  pose proof (find_entry_at A' i a (rep_names _ _ _ _ Hrep') Hslot') as Hi'. rewrite Hname in Hi'.
  destruct (rep_found Hrep' Hx i a Hi') as (s3 & Hs3 & _ & _ & Hf' & _). rewrite Hs' in Hs3. injection Hs3 as <-.
  destruct Hr1 as [_ En _ _ Hk]. rewrite Hname in En. rewrite Ha in Hk. pose proof (named_range _ _ Hx En).
  cbn [fst snd] in *. split_and!; [done|done|lia|apply Hk].
Qed.

Lemma lookup_kept rest r :
  Forall ascii_row (fat_name d [] :: rest) → lookup fs n img (fat_name d [] :: rest) r →
  lookup fs n img' (fat_name d [] :: rest) r ∧ ∀ e, r = Some e → tree_in fs n (reserved A) img e.
Proof.
  intros Hrows Hl. destruct directory_entry as (Hf & Hf' & H0 & Hd). apply Forall_cons in Hrows as [_ Hrows].
  assert (Hfile : is_file s.2 = false).
  { unfold is_dir in Hd. unfold is_file. apply Z.eqb_eq in Hd. by rewrite Hd. }
  destruct s as [[sec off] e]. cbn [snd] in *. inversion Hl as [x y Hf1|x y sec1 off1 e1 Hf1 H01
    |x y sec1 off1 e1 Hf1 H01 Hk|x sec1 off1 e1 Hf1 H01 Hk|x y sec1 off1 e1 r1 Hf1 H01 Hk Hne Hw]; subst;
    rewrite Hf in Hf1; try discriminate Hf1; injection Hf1 as <- <- <-; try congruence.
  - split; [by eapply lookup_dir|]. by intros ? [= <-].
  - destruct (walk_kept (rep_vol _ _ _ _ Hrep) (ud_table _ _ _ _ _ _ Hud) (ud_data _ _ _ _ _ _ Hud) e rest r)
      as [Hw' Ht']; [done..|]. split; [by eapply lookup_down|done].
Qed.

Context {dirs : list (list Z)} {base ext : list Z} {rest : list (list Z)} {r : option DIR_ENTRY}.
Context (Hp : ascii_path dirs base ext) (Hrows : rows_of dirs base ext = fat_name d [] :: rest).
Context (Hl : lookup fs n img (rows_of dirs base ext) r).

Lemma below_lookup :
  lookup fs n img' (rows_of dirs base ext) r ∧ ∀ e, r = Some e → tree_in fs n (reserved A) img e.
Proof.
  pose proof (ascii_rows _ _ _ Hp) as Hr. revert Hr. rewrite Hrows in *. intros Hr. by apply lookup_kept.
Qed.

Lemma below_getattr : fat16_getattr fs img' fuel (path_of dirs base ext) = fat16_getattr fs img fuel (path_of dirs base ext).
Proof.
  destruct below_lookup as [Hl' _]. unfold fat16_getattr. rewrite !path_of_not_root by apply Hp.
  destruct (find_root_path (rep_vol _ _ _ _ Hrep) dirs base ext r uninit_dir fuel Hp Hl Hfuel) as (D & -> & HD).
  destruct (find_root_path (rep_vol _ _ _ _ Hrep') dirs base ext r uninit_dir fuel Hp Hl' Hfuel) as (D' & -> & HD').
  destruct r as [e|]; [|done]. by rewrite (HD e), (HD' e).
Qed.

Lemma below_readdir :
  match r with
  | None => True
  | Some e => is_dir e = true ∧ ∃ ch, dir_chain fs n img (DIR_FstClusLO e) ch
  end →
  fat16_readdir fs img' fuel (path_of dirs base ext) = fat16_readdir fs img fuel (path_of dirs base ext).
Proof.
  destruct below_lookup as [Hl' Ht]. intros Hr.
  pose proof (readdir_path_ok (rep_vol _ _ _ _ Hrep) dirs base ext r fuel Hp Hl Hfuel) as E.
  pose proof (readdir_path_ok (rep_vol _ _ _ _ Hrep') dirs base ext r fuel Hp Hl' Hfuel) as E'.
  destruct r as [e|]; [|congruence]. destruct Hr as (Hd & ch & Hc).
  destruct (dir_kept (rep_vol _ _ _ _ Hrep) (ud_table _ _ _ _ _ _ Hud) (ud_data _ _ _ _ _ _ Hud) e ch
    (Ht e eq_refl) Hd Hc) as [Hc' Es].
  by rewrite (E ch Hc), (E' ch Hc'), Es.
Qed.

Lemma below_read e ch size offset :
  r = Some e → is_file e = true → file_chain fs n img (DIR_FstClusLO e) ch → 0 <= size → 0 <= offset →
  size + offset <= 512 * SecPerClus fs * lenZ ch → size + offset < 2 ^ 31 - 512 →
  fat16_read fs fuel img' (path_of dirs base ext) size offset = fat16_read fs fuel img (path_of dirs base ext) size offset.
Proof.
  destruct below_lookup as [Hl' Ht]. intros Hr Hk Hc Hsz Ho Hcap Hbig. unfold fat16_read.
  pose proof Hl as Hl0. rewrite Hr in Hl0, Hl'.
  assert (Hin : Forall (λ c, c ∈ reserved A) ch) by (apply (Ht e Hr e ch); [apply below_self|by right]).
  pose proof (chain_kept (ud_table _ _ _ _ _ _ Hud) _ _ _ Hc Hin) as Hc'.
  rewrite (read_path_found (rep_vol _ _ _ _ Hrep) dirs base ext e ch) by done.
  rewrite (read_path_found (rep_vol _ _ _ _ Hrep') dirs base ext e ch) by done.
  rewrite (chain_data_ext img img' ch); [done|]. intros c Hcin. rewrite Forall_forall in Hin.
  pose proof (chain_in_volume _ _ _ Hc) as Hvol. rewrite Forall_forall in Hvol.
  apply (ud_data _ _ _ _ _ _ Hud); [by apply Hvol|by apply Hin].
Qed.
End requests.

(** ** Property *)

Section properties.
Context `{Platform} {fs : FAT16} {n : Z} {fuel : nat} (Hfuel : (dir_fuel fs n ≤ fuel)%nat).
Context {img : image} {A : flat} (Hrep : represents fs n img A).

(** C3: a session on files of the root directory that the specification answers
    disturbs nothing below a subdirectory: for every path that leads into one,
    attributes, listing and reads are answered after the session as before it.
    The clusters of what is below the directory are those that the abstract
    volume holds reserved. *)
Theorem subdirectories_stay ops replies A' d i a s :
  Forall op_ok ops → flat_run fs n A ops = Some (replies, A') →
  find_entry (d, []) (slots A) = Some (i, a) → a_dir a = true → root_slots fs img !! i = Some s →
  tree_in fs n (reserved A) img s.2 →
  ∃ img', serve_all fs fuel img (concrete <$> ops) = Ok (replies, img') ∧
    ∀ dirs base ext rest r,
      ascii_path dirs base ext → rows_of dirs base ext = fat_name d [] :: rest →
      lookup fs n img (rows_of dirs base ext) r →
      let path := path_of dirs base ext in
      fat16_getattr fs img' fuel path = fat16_getattr fs img fuel path ∧
      match r with
      | None => fat16_readdir fs img' fuel path = fat16_readdir fs img fuel path
      | Some e => ∀ ch,
          (is_dir e = true → dir_chain fs n img (DIR_FstClusLO e) ch →
             fat16_readdir fs img' fuel path = fat16_readdir fs img fuel path) ∧
          (is_file e = true → file_chain fs n img (DIR_FstClusLO e) ch → ∀ size offset, 0 <= size → 0 <= offset →
             size + offset <= 512 * SecPerClus fs * lenZ ch → size + offset < 2 ^ 31 - 512 →
             fat16_read fs fuel img' path size offset = fat16_read fs fuel img path size offset)
      end.
Proof.
  intros Hops Hrun Hi Ha Hs Ht.
  destruct (simulate_run ops img A replies A' Hfuel Hrep Hops Hrun) as (img' & E & Hrep' & Hud).
  exists img'. split; [done|]. intros dirs base ext rest r Hp Hrows Hl path. split.
  - by eapply (below_getattr Hfuel Hrep Hrep' Hud Hi Ha Hs Ht Hp Hrows Hl).
  - destruct r as [e|].
    + intros ch. split.
      * intros Hd Hc. eapply (below_readdir Hfuel Hrep Hrep' Hud Hi Ha Hs Ht Hp Hrows Hl). eauto.
      * intros Hk Hc size offset H1 H2 H3 H4.
        by eapply (below_read Hfuel Hrep Hrep' Hud Hi Ha Hs Ht Hp Hrows Hl e ch).
    + by eapply (below_readdir Hfuel Hrep Hrep' Hud Hi Ha Hs Ht Hp Hrows Hl).
Qed.
End properties.
