(* ===== verification/Shell.v ===== *)
(** * The shell: splitting a line, built-in commands, pipelines

    lab2/lab2.2/lab2_shell.c. A line is split with [strtok]; processes are
    represented by what matters to a pipeline, their table of open file
    descriptors. The kernel's choice of descriptor numbers is a parameter, and
    so is, for every line, which of the calls of pipe and fork succeed and what
    the compiled code leaves in the variables that the loop over a pipeline
    declares anew in every round. *)

From Stdlib Require Import Lia String.
From stdpp Require Import base numbers option gmap list.
From S2P Require Import Prelude Bytes CString.
Local Open Scope Z_scope.

(** ** Splitting *)

Definition MAX_CMD_ARG_NUM : Z := 32.
Definition MAX_COMMANDS : Z := 128.

Abbreviation ch_bar := 124 (only parsing).
Abbreviation ch_newline := 10 (only parsing).

(** The two pointer loops on one clip: [head] stops at [tail] and [tail] at
    [head], so one character is always left. *)
Fixpoint trim_head (s : list Z) : list Z :=
  match s with
  | c :: ((_ :: _) as s') => if c =? ch_space then trim_head s' else s
  | _ => s
  end.

Definition trim (s : list Z) : list Z := reverse (trim_head (reverse (trim_head s))).

(** The [do ... while] over the results of successive [strtok] calls;
    [string_clips] has [limit] elements and its terminating NULL is stored
    too. *)
Fixpoint split_loop (limit clip_num : Z) (clips : list (option (list Z))) : res (list (list Z)) :=
  match clips with
  | [] => OutOfFuel
  | None :: _ => Undef NullDeref
  | Some clip :: next =>
    _ ← require (clip_num + 1 <? limit) OutOfBounds;
    match next with
    | None :: _ => Ok [trim clip]
    | _ =>
      rest ← split_loop limit (clip_num + 1) next;
      Ok (trim clip :: rest)
    end
  end.

Definition split_string (limit : Z) (string : list Z) (sep : Z) : res (list (list Z)) :=
  split_loop limit 0 (strtok_run sep (length string + 2) string).1.

(** ** Built-in commands *)

Inductive builtin :=
  | Nothing
  | Chdir (dir : option (list Z))
  | PrintCwd
  | ExitShell.

#[global] Instance builtin_eq_dec : EqDecision builtin.
Proof. solve_decision. Defined.

(** [None] is the return value -1: not a built-in command. *)
Definition exec_builtin (argv : list (list Z)) : option builtin :=
  match argv with
  | [] => Some Nothing
  | cmd :: args =>
    if strcmp_eq cmd (chars "cd") then Some (Chdir (head args))
    else if strcmp_eq cmd (chars "pwd") then Some PrintCwd
    else if strcmp_eq cmd (chars "exit") then Some ExitShell
    else None
  end.

(** What a child does in [execute]: a built-in command and [exit(0)], or
    [execvp]. *)
Inductive child_run :=
  | RunBuiltin (b : builtin)
  | Exec (argv : list (list Z)).

Definition execute (argv : list (list Z)) : child_run :=
  match exec_builtin argv with
  | Some b => RunBuiltin b
  | None => Exec argv
  end.

(** ** Descriptors *)

Inductive filedesc :=
  | Inherited (fd : Z)
  | PipeRead (id : nat)
  | PipeWrite (id : nat).

#[global] Instance filedesc_eq_dec : EqDecision filedesc.
Proof. solve_decision. Defined.

Abbreviation fdtab := (gmap Z filedesc).

(** The kernel hands out a number that is not in use. *)
Class Kernel := {
  new_fd : fdtab → Z;
  new_fd_fresh t : t !! new_fd t = None
}.

Definition close (fd : Z) (t : fdtab) : fdtab := delete fd t.

Definition dup2 (old new : Z) (t : fdtab) : fdtab :=
  match t !! old with
  | Some d => <[new := d]> t
  | None => t
  end.

(** The local variables that the body of the loop over the commands of a
    pipeline declares: [int pipefd[2], ret, lastReadEnd]. *)
Record locals := Locals { pipefd0 : Z; pipefd1 : Z; ret : Z; lastReadEnd : Z }.

(** What the code finds in a round of the loop of [main]. [pipe_made] and
    [fork_made]: whether these calls succeed for the command with this number.
    The locals are indeterminate whenever the loop body is entered; [left] is
    what the compiled code finds in them, given what the last round has left. *)
Record round := Round {
  cwd_known : bool;
  pipe_made : nat → bool;
  fork_made : nat → bool;
  left : nat → locals → locals
}.

Section pipelines.
Context `{Kernel}.

Definition pipe (id : nat) (t : fdtab) : Z * Z * fdtab :=
  let r := new_fd t in
  let t1 := <[r := PipeRead id]> t in
  let w := new_fd t1 in
  (r, w, <[w := PipeWrite id]> t1).

(** ** Two commands *)

Definition child_first (r w : Z) (t : fdtab) : fdtab := close w (dup2 w 1 (close r t)).
Definition child_second (r w : Z) (t : fdtab) : fdtab := close r (dup2 r 0 (close w t)).

(** A child with this table, if there is one. *)
Definition fork_ (w : round) (i : nat) (child : fdtab) : option fdtab :=
  if fork_made w i then Some child else None.

(** The tables of the two children when they run their command, and of the
    shell afterwards. *)
Definition run_two (w : round) (t : fdtab) : list (option fdtab) * fdtab :=
  if negb (pipe_made w 0) then ([None; None], t)
  else
    let '(r, wr, t1) := pipe 0 t in
    ([fork_ w 0 (child_first r wr t1); fork_ w 1 (child_second r wr t1)], close r (close wr t1)).

(** ** Three and more commands *)

(** The call of pipe: the locals and the table. A failing call stores nothing
    in [pipefd]. *)
Definition pipe_locals (w : round) (i : nat) (v : locals) (t : fdtab) : locals * fdtab :=
  if pipe_made w i then
    let '(r, wr, t1) := pipe i t in (Locals r wr 0 (lastReadEnd v), t1)
  else (Locals (pipefd0 v) (pipefd1 v) (-1) (lastReadEnd v), t).

Definition child_of_many (i cmd_count : Z) (w lastReadEnd : Z) (t : fdtab) : fdtab :=
  let t1 := if i <? cmd_count - 1 then dup2 w 1 t else t in
  if 0 <? i then dup2 lastReadEnd 0 t1 else t1.

(** [k] rounds of the loop from round [i] on, with what is in the locals. *)
Fixpoint run_many (w : round) (k : nat) (i cmd_count : Z) (v : locals) (t : fdtab) :
    list (option fdtab) * fdtab :=
  match k with
  | O => ([], t)
  | S k =>
    let v := left w (Z.to_nat i) v in
    let '(v, t1) := if i <? cmd_count - 1 then pipe_locals w (Z.to_nat i) v t else (v, t) in
    if ret v <? 0 then
      let '(children, t') := run_many w k (i + 1) cmd_count v t1 in
      (None :: children, t')
    else
      let child := fork_ w (Z.to_nat i) (child_of_many i cmd_count (pipefd1 v) (lastReadEnd v) t1) in
      let t2 := if 0 <? i then close (lastReadEnd v) t1 else t1 in
      let v := if i <? cmd_count - 1 then Locals (pipefd0 v) (pipefd1 v) (ret v) (pipefd0 v) else v in
      let '(children, t') := run_many w k (i + 1) cmd_count v (close (pipefd1 v) t2) in
      (child :: children, t')
  end.

(** ** One line *)

(** What the shell does with a line: something in its own process, or
    children, each with its command and descriptors. A child whose command
    cannot be split dies without harm to the shell. *)
Inductive reaction :=
  | InShell (b : builtin)
  | Spawn (children : list (res child_run * fdtab)) (shell : fdtab).

Definition argv_of (command : list Z) : res (list (list Z)) :=
  split_string MAX_CMD_ARG_NUM command ch_space.

Definition run_command (command : list Z) : res child_run :=
  argv ← argv_of command;
  Ok (execute argv).

(** [strtok(cmdline, newline)] cuts the line at the first newline behind its
    first other character. *)
Definition strip_newline (line : list Z) : list Z := c_str (strtok_run ch_newline 1 line).2.

(** The commands whose child there is. *)
Definition spawned (commands : list (list Z)) (tabs : list (option fdtab)) : list (res child_run * fdtab) :=
  omap (λ '(command, tab), (λ tab, (run_command command, tab)) <$> tab) (zip commands tabs).

(** [v]: what the stack holds where the locals of the pipeline will be. *)
Definition shell_line (w : round) (v : locals) (t : fdtab) (line : list Z) : res reaction :=
  commands ← split_string MAX_COMMANDS (strip_newline line) ch_bar;
  match commands with
  | [] => Ok (InShell Nothing)
  | [command] =>
    argv ← argv_of command;
    match exec_builtin argv with
    | Some b => Ok (InShell b)
    | None => Ok (Spawn (omap (fmap (pair (Ok (execute argv)))) [fork_ w 0 t]) t)
    end
  | [_; _] =>
    let '(tabs, t') := run_two w t in
    Ok (Spawn (spawned commands tabs) t')
  | _ =>
    let '(tabs, t') := run_many w (length commands) 0 (lenZ commands) v t in
    Ok (Spawn (spawned commands tabs) t')
  end.

(** ** The loop *)

(** [fgets] with room for so many characters: through the first newline. *)
Fixpoint fgets (room : nat) (s : list Z) : list Z * list Z :=
  match room, s with
  | O, _ | _, [] => ([], s)
  | S room, c :: s =>
    if c =? ch_newline then ([c], s) else let '(line, rest) := fgets room s in (c :: line, rest)
  end.

(** The line of a round. At the end of the input [fgets] stores nothing, and its
    result is not looked at: [cmdline] is what the last round has left; [None]
    before the first. *)
Definition read_line (cmdline : option (list Z)) (input : list Z) : option (list Z) * list Z :=
  match input with
  | [] => (cmdline, [])
  | _ => let '(line, rest) := fgets 255 input in (Some (c_str line), rest)
  end.

(** The string in [cmdline] after a round: strtok and the trimming have put
    zeros behind the first command and, when it is the only one, behind its
    first word. Children cut their own copies. *)
Definition left_over (line : list Z) : list Z :=
  let s := strip_newline line in
  let bars := take_while (Z.eqb ch_bar) s in
  let first := take_while (λ c, negb (ch_bar =? c)) (drop (length bars) s) in
  let margin := take (length first - length (trim_head first)) first in
  let single := bool_decide (drop_while (Z.eqb ch_bar) (drop (length bars + length first) s) = []) in
  bars ++ margin ++
  (if single then take_while (λ c, negb (ch_space =? c)) (trim first) else trim first).

Definition table_of (r : reaction) (t : fdtab) : fdtab :=
  match r with InShell _ => t | Spawn _ shell => shell end.

Inductive ending := Running | Exited (status : Z).

(** So many rounds of [main], the first with number [i]: what the shell does in
    each. [world] is what it finds in them, [v] what is on the stack. *)
Fixpoint shell_main (world : nat → round) (v : nat → locals) (rounds i : nat) (t : fdtab)
    (cmdline : option (list Z)) (input : list Z) : res (list reaction * ending) :=
  match rounds with
  | O => Ok ([], Running)
  | S rounds =>
    if negb (cwd_known (world i)) then Ok ([], Exited 1)
    else
      let '(cmdline, input) := read_line cmdline input in
      line ← (match cmdline with Some line => Ok line | None => Undef Uninitialised end);
      r ← shell_line (world i) (v i) t line;
      match r with
      | InShell ExitShell => Ok ([r], Exited 0)
      | _ =>
        '(rs, e) ← shell_main world v rounds (S i) (table_of r t) (Some (left_over line)) input;
        Ok (r :: rs, e)
      end
  end.
End pipelines.

(** ** Splitting, as a specification *)

Definition join_sep (sep : Z) (parts : list (list Z)) : list Z :=
  match parts with
  | [] => []
  | p :: ps => p ++ concat ((λ q, sep :: q) <$> ps)
  end.

Definition part_of (sep : Z) (p : list Z) : Prop :=
  p ≠ [] ∧ Forall (λ c, negb (sep =? c) = true) p.

Lemma strtok_run_parts sep n p ps :
  Forall (part_of sep) (p :: ps) → (length ps < n)%nat →
  (strtok_run sep n (join_sep sep (p :: ps))).1 =
    (Some <$> p :: ps) ++ replicate (n - S (length ps)) None.
Proof.
  revert n p. induction ps as [|q ps IH]; intros [|n] p Hps Hn; cbn [length] in *; try lia;
    inversion Hps as [|? ? [Hne Hp] Hrest]; subst.
  - cbn [join_sep fmap list_fmap concat]. rewrite app_nil_r.
    pose proof (strtok_run_last sep n [] p (Forall_nil_2 _) Hne Hp) as E. cbn [app] in E.
    rewrite E. by rewrite Nat.sub_succ, Nat.sub_0_r.
  - change (join_sep sep (p :: q :: ps)) with ([] ++ p ++ sep :: join_sep sep (q :: ps)).
    rewrite strtok_run_more by (done || apply Forall_nil_2). cbn [fst].
    rewrite IH by (done || lia). done.
Qed.

Lemma length_join_sep sep p ps :
  Forall (part_of sep) (p :: ps) → (length ps < length (join_sep sep (p :: ps)))%nat.
Proof.
  intros Hps. inversion Hps as [|? ? [Hne _] Hrest]; subst. cbn [join_sep].
  rewrite length_app. assert (length ps ≤ length (concat ((λ q, sep :: q) <$> ps)))%nat.
  { clear. induction ps as [|q ps IH]; [done|]. cbn [fmap list_fmap concat].
    rewrite length_app. cbn [length]. lia. }
  destruct p; [done|]. cbn [length]. lia.
Qed.

Lemma split_loop_ok limit n (parts : list (list Z)) k :
  parts ≠ [] → (1 ≤ k)%nat →
  split_loop limit n ((Some <$> parts) ++ replicate k None) =
    if n + lenZ parts <? limit then Ok (trim <$> parts) else Undef OutOfBounds.
Proof.
  intros Hne Hk. revert n Hne. induction parts as [|p parts IH]; intros n Hne; [done|].
  destruct k as [|k]; [lia|]. clear Hne Hk.
  destruct parts as [|q parts].
  - cbn [fmap list_fmap app replicate split_loop length].
    change (Z.of_nat 1) with 1. destruct (n + 1 <? limit); by res_steps.
  - assert (E : split_loop limit n ((Some <$> p :: q :: parts) ++ replicate (S k) None) =
      (_ ← require (n + 1 <? limit) OutOfBounds;
       rest ← split_loop limit (n + 1) ((Some <$> q :: parts) ++ replicate (S k) None);
       Ok (trim p :: rest))) by done.
    rewrite E. destruct (Z.ltb_spec (n + 1) limit) as [Hlt|Hge]; res_steps.
    + rewrite IH by done. replace (n + 1 + lenZ (q :: parts)) with (n + lenZ (p :: q :: parts))
        by (cbn [length]; lia). by destruct (_ <? limit).
    + rewrite (proj2 (Z.ltb_ge _ _)); [done|]. cbn [length]. lia.
Qed.

Lemma split_string_parts limit sep parts :
  parts ≠ [] → Forall (part_of sep) parts →
  split_string limit (join_sep sep parts) sep =
    if lenZ parts <? limit then Ok (trim <$> parts) else Undef OutOfBounds.
Proof.
  intros Hne Hparts. destruct parts as [|p ps]; [done|]. unfold split_string.
  pose proof (length_join_sep _ _ _ Hparts).
  rewrite strtok_run_parts by (done || lia). rewrite split_loop_ok by (done || lia). done.
Qed.

Lemma trim_head_spaces k s c s' :
  s = c :: s' → c ≠ ch_space → trim_head (replicate k ch_space ++ s) = s.
Proof.
  intros -> Hc. induction k as [|k IH]; cbn [replicate app].
  - destruct s' as [|d s']; [done|]. cbn [trim_head]. by rewrite (proj2 (Z.eqb_neq _ _)).
  - destruct (replicate k ch_space ++ c :: s') as [|d x] eqn:E; [by destruct k|].
    cbn [trim_head]. by rewrite Z.eqb_refl.
Qed.

(** ** Pipelines *)

Section wiring.
Context `{Kernel}.

(** What child [i] of [n] should have as standard input and output. *)
Definition wired (t0 : fdtab) (n i : Z) (c : fdtab) : Prop :=
  c !! 0 = (if 0 <? i then Some (PipeRead (Z.to_nat (i - 1))) else t0 !! 0) ∧
  c !! 1 = (if i <? n - 1 then Some (PipeWrite (Z.to_nat i)) else t0 !! 1).

(** What an execution of a pipeline needs to come out right: pipes can be made
    and the loop finds its locals as the last round has left them. *)
Record sound (w : round) : Prop := {
  sound_pipe i : pipe_made w i = true;
  sound_left i v : left w i v = v
}.

(** It also holds the end from which its own output is read. *)
Definition holds_reader (i : Z) (c : fdtab) : Prop :=
  ∃ fd, c !! fd = Some (PipeRead (Z.to_nat i)).

Lemma pipe_fresh id t :
  ∃ r w, pipe id t = (r, w, <[w := PipeWrite id]> (<[r := PipeRead id]> t)) ∧
    t !! r = None ∧ t !! w = None ∧ r ≠ w.
Proof.
  unfold pipe. set (r := new_fd t). set (w := new_fd _). exists r, w.
  pose proof (new_fd_fresh (<[r := PipeRead id]> t)) as Hw. fold w in Hw.
  apply lookup_insert_None in Hw as [Hw Hne].
  split_and!; [done|apply new_fd_fresh|done|done].
Qed.

Lemma dup2_ok old new d t : t !! old = Some d → dup2 old new t = <[new := d]> t.
Proof. intros E. unfold dup2. by rewrite E. Qed.

Lemma free_not_std (t0 : fdtab) fd :
  is_Some (t0 !! 0) → is_Some (t0 !! 1) → t0 !! fd = None → fd ≠ 0 ∧ fd ≠ 1.
Proof. intros [? H0] [? H1] Hfd. split; intros ->; congruence. Qed.

(** The child of a middle round. *)
Lemma middle_child (t0 : fdtab) n i r w last id :
  1 <= i < n - 1 → r ≠ 0 ∧ r ≠ 1 → w ≠ 0 ∧ w ≠ 1 → last ≠ 0 ∧ last ≠ 1 → r ≠ w → last ≠ r →
  last ≠ w → id = Z.to_nat i →
  let c := child_of_many i n w last (<[w := PipeWrite id]> (<[r := PipeRead id]>
    (<[last := PipeRead (Z.to_nat (i - 1))]> t0))) in
  wired t0 n i c ∧ holds_reader i c.
Proof.
  intros Hi [] [] [] Hrw Hlr Hlw -> c. unfold c, child_of_many, wired, holds_reader.
  rewrite (proj2 (Z.ltb_lt i (n - 1))), (proj2 (Z.ltb_lt 0 i)) by lia.
  rewrite (dup2_ok w 1 (PipeWrite (Z.to_nat i))) by by simplify_map_eq.
  rewrite (dup2_ok last 0 (PipeRead (Z.to_nat (i - 1)))) by by simplify_map_eq.
  split; [split; by simplify_map_eq|]. exists r. by simplify_map_eq.
Qed.

Lemma last_child (t0 : fdtab) n i w last :
  1 <= i → i = n - 1 → last ≠ 0 ∧ last ≠ 1 →
  wired t0 n i (child_of_many i n w last (<[last := PipeRead (Z.to_nat (i - 1))]> t0)).
Proof.
  intros Hi -> []. unfold child_of_many, wired.
  rewrite Z.ltb_irrefl, (proj2 (Z.ltb_lt 0 _)) by lia.
  rewrite (dup2_ok last 0 (PipeRead (Z.to_nat (n - 1 - 1)))) by by simplify_map_eq.
  split; by simplify_map_eq.
Qed.

(** The child of round [i], when the fork succeeds. *)
Definition child_ok (w : round) (t0 : fdtab) (n i : Z) (child : option fdtab) : Prop :=
  if fork_made w (Z.to_nat i) then
    ∃ c, child = Some c ∧ wired t0 n i c ∧ (i < n - 1 → holds_reader i c)
  else child = None.

Lemma fork_child_ok w t0 n i c :
  wired t0 n i c → (i < n - 1 → holds_reader i c) → child_ok w t0 n i (fork_ w (Z.to_nat i) c).
Proof. intros. unfold child_ok, fork_. case_goal; eauto. Qed.

(** The rounds from the second on: the shell's table is the initial one plus
    the read end of the previous pipe. *)
Lemma run_many_ok (rd : round) (t0 : fdtab) n k : ∀ i v,
  sound rd → is_Some (t0 !! 0) → is_Some (t0 !! 1) → 1 <= i → i + Z.of_nat k = n → (1 ≤ k)%nat →
  t0 !! lastReadEnd v = None → pipefd1 v ≠ lastReadEnd v → t0 !! pipefd1 v = None → ret v = 0 →
  let t := <[lastReadEnd v := PipeRead (Z.to_nat (i - 1))]> t0 in
  ∃ cs, run_many rd k i n v t = (cs, t0) ∧ length cs = k ∧
    ∀ j c, cs !! j = Some c → child_ok rd t0 n (i + Z.of_nat j) c.
Proof.
  induction k as [|k IH]; intros i [p0 w rt last] Hrd H0 H1 Hi Hn Hk Hlast Hwl Hw Hrt t; [lia|].
  cbn [pipefd0 pipefd1 ret lastReadEnd] in *. subst rt.
  assert (Hl01 : last ≠ 0 ∧ last ≠ 1).
  { split; intros ->; [rewrite Hlast in H0|rewrite Hlast in H1]; by destruct H0, H1. }
  destruct Hl01 as [Hl0 Hl1]. cbn [run_many]. rewrite (sound_left _ Hrd).
  unfold pipe_locals. rewrite (sound_pipe _ Hrd). cbv zeta.
  destruct (Z.ltb_spec i (n - 1)) as [Hmore|Hend].
  - destruct (pipe_fresh (Z.to_nat i) t) as (r' & w' & -> & Hr' & Hw' & Hne).
    unfold t in Hr', Hw'. apply lookup_insert_None in Hr' as [Hr0 Hlr], Hw' as [Hw0 Hlw].
    cbn [pipefd0 pipefd1 ret lastReadEnd Z.ltb Z.compare]. rewrite (proj2 (Z.ltb_lt 0 i)) by lia.
    assert (Hnext : close w' (close last (<[w' := PipeWrite (Z.to_nat i)]>
      (<[r' := PipeRead (Z.to_nat i)]> t))) = <[r' := PipeRead (Z.to_nat (i + 1 - 1))]> t0).
    { replace (i + 1 - 1) with i by lia. unfold close, t.
      rewrite delete_insert_ne, delete_insert_id by (done || (rewrite lookup_delete_ne by done;
        rewrite lookup_insert_ne by done; by rewrite lookup_insert_ne by done)).
      rewrite delete_insert_ne by done. by rewrite delete_insert_id. }
    destruct (IH (i + 1) (Locals r' w' 0 r')) as (cs & E & Hlen & Hcs);
      [done|done|done|lia|lia|lia|done|done|done|done|].
    rewrite Hnext. cbn [lastReadEnd] in E. rewrite E. eexists (_ :: cs). split; [done|]. split; [cbn [length]; lia|].
    intros [|j] c; cbn [lookup list_lookup].
    + intros [= <-]. rewrite Z.add_0_r.
      destruct (middle_child t0 n i r' w' last (Z.to_nat i)) as [? ?];
        [lia|by apply (free_not_std t0)..|done|done|done|done|]. by apply fork_child_ok.
    + intros Hc. replace (i + Z.of_nat (S j)) with (i + 1 + Z.of_nat j) by lia. by apply Hcs.
  - assert (k = O) as -> by lia. cbn [pipefd0 pipefd1 ret lastReadEnd Z.ltb Z.compare run_many].
    rewrite (proj2 (Z.ltb_lt 0 i)) by lia.
    exists [fork_ rd (Z.to_nat i) (child_of_many i n w last t)]. split; [|split; [done|]].
    + f_equal. unfold close, t. rewrite delete_insert_id by done. by apply delete_id.
    + intros [|j] c; cbn [lookup list_lookup]; [|done]. intros [= <-]. rewrite Z.add_0_r.
      apply fork_child_ok; [apply last_child; [done|lia|done]|lia].
Qed.

(** From the first round on. *)
Lemma run_many_start (rd : round) (t0 : fdtab) (n : nat) v :
  sound rd → (2 ≤ n)%nat → is_Some (t0 !! 0) → is_Some (t0 !! 1) →
  ∃ cs, run_many rd n 0 (Z.of_nat n) v t0 = (cs, t0) ∧ length cs = n ∧
    ∀ i c, cs !! i = Some c → child_ok rd t0 (Z.of_nat n) (Z.of_nat i) c.
Proof.
  intros Hrd Hn H0 H1. destruct n as [|k]; [lia|]. cbn [run_many].
  rewrite (sound_left _ Hrd). unfold pipe_locals. rewrite (sound_pipe _ Hrd). cbv zeta.
  rewrite (proj2 (Z.ltb_lt 0 (Z.of_nat (S k) - 1))) by lia.
  destruct (pipe_fresh (Z.to_nat 0) t0) as (r' & w' & -> & Hr & Hw & Hne).
  cbn [pipefd0 pipefd1 ret lastReadEnd]. rewrite !Z.ltb_irrefl.
  destruct (free_not_std t0 r' H0 H1 Hr), (free_not_std t0 w' H0 H1 Hw).
  assert (Hnext : close w' (<[w' := PipeWrite (Z.to_nat 0)]> (<[r' := PipeRead (Z.to_nat 0)]> t0)) =
    <[r' := PipeRead (Z.to_nat (0 + 1 - 1))]> t0).
  { unfold close. rewrite delete_insert_id; [done|]. by rewrite lookup_insert_ne. }
  destruct (run_many_ok rd t0 (Z.of_nat (S k)) k (0 + 1) (Locals r' w' 0 r')) as (cs & E & Hlen & Hcs);
    [done|done|done|lia|lia|lia|done|done|done|done|].
  cbn [lastReadEnd] in E. rewrite Hnext, E. eexists (_ :: cs). split; [done|]. split; [cbn [length]; lia|].
  intros [|j] c; cbn [lookup list_lookup].
  - intros [= <-]. apply fork_child_ok; change (Z.of_nat 0) with 0.
    + unfold child_of_many, wired. rewrite (proj2 (Z.ltb_lt 0 (Z.of_nat (S k) - 1))) by lia.
      rewrite Z.ltb_irrefl, (dup2_ok w' 1 (PipeWrite (Z.to_nat 0))) by by simplify_map_eq.
      split; by simplify_map_eq.
    + intros _. unfold child_of_many, holds_reader. rewrite (proj2 (Z.ltb_lt 0 (Z.of_nat (S k) - 1))) by lia.
      rewrite Z.ltb_irrefl, (dup2_ok w' 1 (PipeWrite (Z.to_nat 0))) by by simplify_map_eq.
      exists r'. by simplify_map_eq.
  - intros Hc. replace (Z.of_nat (S j)) with (0 + 1 + Z.of_nat j) by lia. by apply Hcs.
Qed.

(** When no pipe can be made, every round finds a negative [ret], the last
    one too, which makes no pipe itself. *)
Lemma run_many_no_pipe (rd : round) n k : ∀ i v t,
  (∀ j, pipe_made rd j = false) → (∀ j v, left rd j v = v) → 0 <= i → i + Z.of_nat k = n →
  i < n - 1 ∨ ret v < 0 → run_many rd k i n v t = (replicate k None, t).
Proof.
  induction k as [|k IH]; intros i v t Hp Hl Hi Hn Hr; [done|]. cbn [run_many replicate].
  rewrite Hl. unfold pipe_locals. rewrite Hp. cbv zeta. destruct (Z.ltb_spec i (n - 1)) as [Hlt|Hge].
  - cbn [ret]. rewrite (proj2 (Z.ltb_lt (-1) 0)) by lia. rewrite IH; [done|done|done|lia|lia|right; cbn; lia].
  - destruct Hr as [|Hr]; [lia|]. rewrite (proj2 (Z.ltb_lt _ 0)) by done. rewrite IH; [done|done|done|lia|lia|by right].
Qed.

(** C29: in a pipeline of three or more commands every child reads from the
    pipe of its predecessor and writes to its own (the first and the last keep
    the shell's input and output), a command whose fork fails has no child, and
    the shell ends with exactly the descriptors it started with. This takes
    that pipes can be made and that the compiled loop keeps its locals from one
    round to the next. When no pipe can be made, no command is run, not even
    the last, which needs none, and no descriptor is touched. *)
Theorem pipeline_wiring (rd : round) (t0 : fdtab) (n : nat) v :
  (3 ≤ n)%nat → is_Some (t0 !! 0) → is_Some (t0 !! 1) → (∀ i v, left rd i v = v) →
  ((∀ i, pipe_made rd i = true) →
   ∃ children, run_many rd n 0 (Z.of_nat n) v t0 = (children, t0) ∧ length children = n ∧
     ∀ i, (i < n)%nat →
       if fork_made rd i then ∃ c, children !! i = Some (Some c) ∧ wired t0 (Z.of_nat n) (Z.of_nat i) c
       else children !! i = Some None) ∧
  ((∀ i, pipe_made rd i = false) → run_many rd n 0 (Z.of_nat n) v t0 = (replicate n None, t0)).
Proof.
  intros Hn H0 H1 Hl. split; intros Hp; [|apply run_many_no_pipe; (done || lia)].
  destruct (run_many_start rd t0 n v) as (cs & E & Hlen & Hcs); [done|lia|done..|].
  exists cs. split_and!; [done|done|]. intros i Hi.
  destruct (lookup_lt_is_Some_2 cs i) as [c Hc]; [lia|]. specialize (Hcs i c Hc). revert Hcs.
  unfold child_ok. rewrite Nat2Z.id, Hc. case_goal; [|by intros ->]. intros (c' & -> & Hw & _). eauto.
Qed.

(** Every child of such a pipeline but the last keeps open the end from
    which its own output is read: a producer never sees its reader go away. *)
Theorem pipeline_leaks_reader (rd : round) (t0 : fdtab) (n : nat) v i c :
  sound rd → (3 ≤ n)%nat → is_Some (t0 !! 0) → is_Some (t0 !! 1) →
  (run_many rd n 0 (Z.of_nat n) v t0).1 !! i = Some (Some c) → Z.of_nat i < Z.of_nat n - 1 →
  holds_reader (Z.of_nat i) c.
Proof.
  intros Hrd Hn H0 H1 Hc Hi. destruct (run_many_start rd t0 n v) as (cs & E & Hlen & Hcs); [done|lia|done..|].
  rewrite E in Hc. specialize (Hcs _ _ Hc). unfold child_ok in Hcs. revert Hcs. case_goal; [|done].
  intros (c' & [= <-] & _ & Hh). by apply Hh.
Qed.

(** With two commands the first child writes to the pipe and the second
    reads from it, neither holds any other end of it, and the shell keeps
    neither end. Without the pipe there is no child. *)
Theorem two_commands_wiring (rd : round) (t0 : fdtab) :
  is_Some (t0 !! 0) → is_Some (t0 !! 1) →
  run_two rd t0 =
    (if pipe_made rd 0 then [fork_ rd 0 (<[1 := PipeWrite 0]> t0); fork_ rd 1 (<[0 := PipeRead 0]> t0)]
     else [None; None], t0).
Proof.
  intros H0 H1. unfold run_two. destruct (pipe_made rd 0); cbn [negb]; [|done].
  destruct (pipe_fresh 0 t0) as (r & w & -> & Hr & Hw & Hne).
  destruct (free_not_std t0 r H0 H1 Hr), (free_not_std t0 w H0 H1 Hw).
  assert (E1 : close r (<[w := PipeWrite 0]> (<[r := PipeRead 0]> t0)) = <[w := PipeWrite 0]> t0).
  { unfold close. rewrite delete_insert_ne, delete_insert_id by done. done. }
  assert (E2 : close w (<[w := PipeWrite 0]> (<[r := PipeRead 0]> t0)) = <[r := PipeRead 0]> t0).
  { unfold close. rewrite delete_insert_id; [done|]. by rewrite lookup_insert_ne. }
  unfold child_first, child_second. rewrite E1, E2.
  rewrite (dup2_ok w 1 (PipeWrite 0)), (dup2_ok r 0 (PipeRead 0)) by by simplify_map_eq.
  unfold close. rewrite (delete_insert_ne _ w 1), (delete_insert_ne _ r 0) by done.
  by rewrite !delete_insert_id.
Qed.

(** C38: a line made of parts without the separator is split into exactly those
    parts, each without the spaces around it, as long as there is room for
    them and the terminating NULL; otherwise the store of that NULL, or of a
    part, lies outside the array. *)
Theorem split_string_correct limit sep parts :
  parts ≠ [] → Forall (part_of sep) parts →
  split_string limit (join_sep sep parts) sep =
    if lenZ parts <? limit then Ok (trim <$> parts) else Undef OutOfBounds.
Proof. apply split_string_parts. Qed.
End wiring.

(** Words without a space at either end. *)
Definition tight (w : list Z) : Prop :=
  (∃ c m, w = c :: m ∧ c ≠ ch_space) ∧ (∃ m d, w = m ++ [d] ∧ d ≠ ch_space).

(** The pointer loops remove exactly the spaces around a part; a part of
    spaces alone keeps one of them. *)
Theorem trim_correct a b w :
  tight w → trim (replicate a ch_space ++ w ++ replicate b ch_space) = w ∧
  trim (replicate (S a) ch_space) = [ch_space].
Proof.
  intros [(c & m & Ew & Hc) (m' & d & Ew' & Hd)]. unfold trim. split.
  - rewrite (trim_head_spaces a (w ++ replicate b ch_space) c (m ++ replicate b ch_space))
      by (done || by rewrite Ew).
    rewrite reverse_app, reverse_replicate.
    rewrite (trim_head_spaces b (reverse w) d (reverse m')) by (done || by rewrite Ew', reverse_snoc).
    apply reverse_involutive.
  - assert (E : trim_head (replicate (S a) ch_space) = [ch_space]).
    { induction a as [|a IH]; [done|]. exact IH. }
    by rewrite E.
Qed.

(** 128 one-letter commands, a line that [fgets(cmdline, 256, stdin)] accepts. *)
Definition line_of_128 : list Z :=
  concat (replicate 127 (chars "a|")) ++ chars "a".

(** A line of 128 commands fits the 255 characters that are read, but its
    pieces and the NULL behind them do not fit [commands[128]]. *)
Theorem shell_line_overflow `{Kernel} (rd : round) v (t : fdtab) :
  lenZ line_of_128 = 255 ∧ shell_line rd v t line_of_128 = Undef OutOfBounds.
Proof. split; vm_compute; reflexivity. Qed.

(** A line of spaces is cut into a part of one space, in which strtok finds no
    word; the shell follows the NULL. *)
Theorem blank_line_crashes `{Kernel} (rd : round) v (t : fdtab) :
  shell_line rd v t (chars "   " ++ [ch_newline]) = Undef NullDeref ∧ shell_line rd v t (chars "|" ++ [ch_newline]) = Undef NullDeref.
Proof. split; vm_compute; reflexivity. Qed.

(** ** Sessions *)

Section sessions.
Context `{Kernel}.

(** The shell has the descriptors after a line that it had before. *)
Lemma shell_line_table rd v (t0 : fdtab) line r :
  sound rd → is_Some (t0 !! 0) → is_Some (t0 !! 1) → shell_line rd v t0 line = Ok r → table_of r t0 = t0.
Proof.
  intros Hrd H0 H1. unfold shell_line. intros (cs & _ & E)%bind_ok. destruct cs as [|c [|d [|e cs]]].
  - by injection E as <-.
  - apply bind_ok in E as (argv & _ & E). destruct (exec_builtin argv); by injection E as <-.
  - rewrite two_commands_wiring in E by done. by injection E as <-.
  - destruct (run_many_start rd t0 (length (c :: d :: e :: cs)) v) as (ts & Er & _); [done|cbn; lia|done..|].
    rewrite Er in E. by injection E as <-.
Qed.

(** A line that fits the buffer. *)
Definition typed (l : list Z) : Prop := Forall (λ c, c ≠ ch_newline ∧ c ≠ 0) l ∧ (length l < 255)%nat.

Lemma fgets_line room l rest :
  Forall (λ c, c ≠ ch_newline ∧ c ≠ 0) l → (length l < room)%nat →
  fgets room (l ++ ch_newline :: rest) = (l ++ [ch_newline], rest).
Proof.
  revert room. induction l as [|c l IH]; intros [|room] Hl Hr; cbn [length app fgets] in *; try lia; [done|].
  apply Forall_cons in Hl as [[Hc _] Hl]. rewrite (proj2 (Z.eqb_neq _ _)) by done. by rewrite IH by (done || lia).
Qed.

Lemma read_line_typed cmdline l rest :
  typed l → read_line cmdline (l ++ ch_newline :: rest) = (Some (l ++ [ch_newline]), rest).
Proof.
  intros [Hl Hlen]. unfold read_line.
  destruct (l ++ ch_newline :: rest) as [|x xs] eqn:E; [by destruct l|]. rewrite <- E, fgets_line by done.
  unfold c_str. rewrite take_while_all; [done|]. apply Forall_app_2; [|by apply Forall_cons_2].
  forall_impl Hl. lia.
Qed.

(** C36: The whole program: it serves the lines one after the other, each as if it
    were the first, with the descriptors it was started with, and ends with
    status 0 at the line that says exit; what follows is not read. This takes
    that getcwd and pipe succeed and the compiled loop keeps its locals;
    forks may fail. *)
Theorem shell_serves_lines world v (t0 : fdtab) cmdline lines rs rest k i :
  (∀ j, cwd_known (world j) = true ∧ sound (world j)) →
  is_Some (t0 !! 0) → is_Some (t0 !! 1) → Forall typed lines →
  imap (λ j l, shell_line (world (i + j)%nat) (v (i + j)%nat) t0 (l ++ [ch_newline])) lines = Ok <$> rs →
  InShell ExitShell ∉ rs →
  shell_main world v (length lines + S k) i t0 cmdline
    (concat ((λ l, l ++ [ch_newline]) <$> lines) ++ chars "exit" ++ ch_newline :: rest) =
    Ok (rs ++ [InShell ExitShell], Exited 0).
Proof.
  intros Hworld H0 H1 Hl. revert i cmdline rs.
  induction lines as [|l lines IH]; intros i cmdline [|r rs] Hrs Hne;
    cbn [length Nat.add shell_main negb fmap list_fmap concat app imap] in *; try discriminate.
  - destruct (Hworld i) as [-> _]. cbn [negb].
    rewrite (read_line_typed cmdline (chars "exit") rest) by (split; [by repeat apply Forall_cons_2|cbn; lia]).
    res_steps. assert (E : shell_line (world i) (v i) t0 (chars "exit" ++ [ch_newline]) = Ok (InShell ExitShell))
      by reflexivity.
    rewrite E. by res_steps.
  - destruct (Hworld i) as [-> Hw]. cbn [negb]. injection Hrs as Hr Hrs. rewrite Nat.add_0_r in Hr.
    apply not_elem_of_cons in Hne as [Hne Hnes].
    apply Forall_cons in Hl as [Hl Hls]. rewrite <- !app_assoc. cbn [app]. rewrite read_line_typed by done. res_steps.
    rewrite Hr. res_steps. rewrite (shell_line_table (world i) (v i) t0 _ r) by done.
    rewrite (IH Hls (S i) _ rs); [|rewrite <- Hrs; apply imap_ext; intros j x _; cbn; do 3 f_equal; lia|done].
    res_steps. by destruct r as [[]|].
Qed.

(** A word that is one external command. *)
Definition word (w : list Z) : Prop :=
  w ≠ [] ∧ Forall (λ c, c ≠ ch_space ∧ c ≠ ch_bar ∧ c ≠ ch_newline ∧ c ≠ 0) w ∧ exec_builtin [w] = None.

Lemma word_trim w : word w → trim_head w = w ∧ trim w = w.
Proof.
  intros (Hne & Hw & _). assert (Ht : ∀ v : list Z, Forall (λ c, c ≠ ch_space) v → trim_head v = v).
  { intros [|c [|d v]] Hv; [done..|]. apply Forall_cons in Hv as [Hc _]. cbn [trim_head].
    by rewrite (proj2 (Z.eqb_neq _ _)). }
  assert (Hs : Forall (λ c, c ≠ ch_space) w) by (forall_impl Hw; tauto).
  split; [by apply Ht|]. unfold trim. rewrite (Ht w) by done. rewrite Ht; [apply reverse_involutive|].
  by apply Forall_reverse.
Qed.

Lemma split_word limit sep w :
  w ≠ [] → Forall (λ c, c ≠ sep) w → 1 < limit → split_string limit w sep = Ok [trim w].
Proof.
  intros Hne Hw Hlim. pose proof (split_string_parts limit sep [w] ltac:(done)) as E.
  cbn [join_sep fmap list_fmap concat] in E. rewrite app_nil_r in E. rewrite E.
  - cbn [length]. by rewrite (proj2 (Z.ltb_lt _ _)).
  - apply Forall_cons_2; [|apply Forall_nil_2]. split; [done|]. forall_impl Hw. lia.
Qed.

Lemma strip_word w : word w → strip_newline w = w.
Proof.
  intros (Hne & Hw & _). unfold strip_newline.
  pose proof (strtok_run_last ch_newline 0 [] w (Forall_nil_2 _) Hne) as E. cbn [app] in E.
  rewrite E by (forall_impl Hw; lia). cbn [snd]. unfold c_str. apply take_while_all. forall_impl Hw. lia.
Qed.

Lemma shell_line_word rd v t0 w :
  fork_made rd 0 = true → word w → shell_line rd v t0 w = Ok (Spawn [(Ok (Exec [w]), t0)] t0).
Proof.
  intros Hf Hw. pose proof Hw as (Hne & Hc & Hb). destruct (word_trim w Hw) as [_ Ht].
  unfold shell_line, fork_. rewrite Hf. rewrite strip_word by done.
  rewrite split_word by (done || (forall_impl Hc; tauto)). rewrite Ht. res_steps.
  unfold argv_of. rewrite split_word by (done || (forall_impl Hc; tauto)). rewrite Ht. res_steps.
  unfold execute. by rewrite Hb.
Qed.

Lemma left_over_word w : word w → left_over w = w.
Proof.
  intros Hw. pose proof Hw as (Hne & Hc & _). destruct (word_trim w Hw) as [Hh Ht].
  unfold left_over. rewrite strip_word by done.
  assert (E : take_while (Z.eqb ch_bar) w = []).
  { destruct w as [|c w]; [done|]. apply Forall_cons in Hc as [(_ & Hc & _) _]. cbn [take_while].
    rewrite (proj2 (Z.eqb_neq _ _)) by lia. done. }
  rewrite E. cbn [length app Nat.add]. rewrite drop_0.
  rewrite (take_while_all (λ c, negb (ch_bar =? c))) by (forall_impl Hc; lia).
  rewrite drop_ge by lia. rewrite bool_decide_true by reflexivity. rewrite Hh, Ht, Nat.sub_diag. cbn [take app].
  apply take_while_all. forall_impl Hc. lia.
Qed.

(** At the end of the input the shell does not stop: it runs the first word of
    the last line again and again, without its arguments. *)
Theorem shell_repeats_at_eof world v t0 w rounds i :
  (∀ j, cwd_known (world j) = true ∧ fork_made (world j) 0 = true) →
  word w → shell_main world v rounds i t0 (Some w) [] =
    Ok (replicate rounds (Spawn [(Ok (Exec [w]), t0)] t0), Running).
Proof.
  intros Hworld Hw. revert i. induction rounds as [|rounds IH]; intros i; [done|].
  cbn [shell_main]. destruct (Hworld i) as [-> Hf]. cbn [negb read_line]. res_steps.
  rewrite shell_line_word by done. res_steps.
  cbn [table_of]. rewrite left_over_word, IH by done. by res_steps.
Qed.
End sessions.

(** ** Instances *)

Program Definition any_fd : Kernel := {| new_fd t := fresh (dom t : gset Z) |}.
Next Obligation. intros t. apply not_elem_of_dom, is_fresh. Qed.

#[local] Existing Instance any_fd.

Definition terminal : fdtab := {[0 := Inherited 0; 1 := Inherited 1; 2 := Inherited 2]}.

(** All calls succeed, and the stack slots keep the locals. *)
Definition fine : round := Round true (λ _, true) (λ _, true) (λ _ v, v).

Definition zeros : locals := Locals 0 0 0 0.

Lemma fine_sound : sound fine.
Proof. by split. Qed.

(** The fork for the third command fails. *)
Definition fork_lost : round := Round true (λ _, true) (λ i, negb (i =? 2)%nat) (λ _ v, v).

Lemma pipeline_wiring_witness :
  (∃ children, run_many fine 4 0 4 zeros terminal = (children, terminal) ∧ length children = 4%nat) ∧
  (∃ children c, run_many fork_lost 4 0 4 zeros terminal = (children, terminal) ∧
     children !! 3%nat = Some (Some c) ∧ c !! 0 = Some (PipeRead 2)).
Proof.
  split.
  - destruct (pipeline_wiring fine terminal 4 zeros) as [Hall _]; [lia|by eexists|by eexists|reflexivity|].
    destruct Hall as (children & E & Hlen & _); [reflexivity|]. exists children. split; [exact E|exact Hlen].
  - destruct (pipeline_wiring fork_lost terminal 4 zeros) as [Hall _]; [lia|by eexists|by eexists|reflexivity|].
    destruct Hall as (children & E & _ & Hc); [reflexivity|].
    destruct (Hc 3%nat ltac:(lia)) as (c & Ec & Ein & _). exists children, c. split_and!; [exact E|exact Ec|exact Ein].
Defined.

Lemma pipeline_leaks_reader_witness :
  ∃ c, (run_many fine 4 0 4 zeros terminal).1 !! 1%nat = Some (Some c) ∧ holds_reader 1 c.
Proof.
  assert (E : ∃ c, (run_many fine 4 0 4 zeros terminal).1 !! 1%nat = Some (Some c)) by by eexists.
  destruct E as [c Hc]. exists c. split; [exact Hc|].
  apply (pipeline_leaks_reader fine terminal 4 zeros 1 c);
    [exact fine_sound|lia|by eexists|by eexists|exact Hc|lia].
Defined.

(** A compiler may as well leave zeros in the locals. *)
Definition forgetful : round := Round true (λ _, true) (λ _, true) (λ _ _, zeros).

(** Then the second command of three reads from the terminal instead of the
    first one's pipe, and the shell closes its own standard input. *)
Theorem pipeline_needs_locals :
  ∃ c1 c2 c3 t', run_many forgetful 3 0 3 zeros terminal = ([Some c1; Some c2; Some c3], t') ∧
    c2 !! 0 = Some (Inherited 0) ∧ ¬ wired terminal 3 1 c2 ∧ t' !! 0 = None.
Proof.
  do 4 eexists. split; [reflexivity|]. split_and!; [reflexivity| |reflexivity].
  intros [Hin _]. vm_compute in Hin. discriminate.
Qed.

Lemma split_string_correct_witness :
  split_string 32 (chars " ls |  wc -l ") 124 = Ok [chars "ls"; chars "wc -l"].
Proof.
  apply (split_string_correct 32 124 [chars " ls "; chars "  wc -l "]); [discriminate|].
  repeat first [apply Forall_cons_2|apply Forall_nil_2|split|discriminate|reflexivity].
Defined.

Lemma two_commands_wiring_witness :
  run_two fine terminal = ([Some (<[1 := PipeWrite 0]> terminal); Some (<[0 := PipeRead 0]> terminal)], terminal).
Proof. apply (two_commands_wiring fine); by eexists. Defined.

(** "ls -l", a pipeline and pwd, then exit. *)
Lemma shell_serves_lines_witness :
  ∃ rs, shell_main (λ _, fine) (λ _, zeros) 5 0 terminal None
      (chars "ls -l" ++ ch_newline :: chars "ls | sort | wc" ++ ch_newline :: chars "pwd" ++ ch_newline :: chars "exit" ++ [ch_newline]) =
    Ok (rs ++ [InShell ExitShell], Exited 0) ∧ length rs = 3%nat.
Proof.
  assert (E : ∃ r1 r2 r3, shell_line fine zeros terminal (chars "ls -l" ++ [ch_newline]) = Ok (Spawn r1 terminal) ∧
    shell_line fine zeros terminal (chars "ls | sort | wc" ++ [ch_newline]) = Ok (Spawn r2 r3) ∧
    shell_line fine zeros terminal (chars "pwd" ++ [ch_newline]) = Ok (InShell PrintCwd))
    by (do 3 eexists; split_and!; reflexivity).
  destruct E as (r1 & r2 & r3 & E1 & E2 & E3). exists [Spawn r1 terminal; Spawn r2 r3; InShell PrintCwd].
  split; [|reflexivity].
  apply (shell_serves_lines (λ _, fine) (λ _, zeros) terminal None [chars "ls -l"; chars "ls | sort | wc"; chars "pwd"] _ [] 1 0);
    [intros _; split; [reflexivity|exact fine_sound]|by eexists|by eexists| | |].
  - repeat apply Forall_cons_2; [..|apply Forall_nil_2]; (split; [by repeat apply Forall_cons_2|cbn; lia]).
  - exact (f_equal2 cons E1 (f_equal2 cons E2 (f_equal2 cons E3 eq_refl))).
  - repeat (apply not_elem_of_cons; split; [discriminate|]). apply not_elem_of_nil.
Defined.

(** What is left of "ls -l" is "ls". *)
Lemma shell_repeats_at_eof_witness :
  left_over (chars "ls -l" ++ [ch_newline]) = chars "ls" ∧
  ∀ rounds, shell_main (λ _, fine) (λ _, zeros) rounds 1 terminal (Some (chars "ls")) [] =
    Ok (replicate rounds (Spawn [(Ok (Exec [chars "ls"]), terminal)] terminal), Running).
Proof.
  split; [vm_compute; reflexivity|]. intros rounds. apply (shell_repeats_at_eof (λ _, fine) (λ _, zeros) terminal (chars "ls") rounds 1); [by intros|].
  split_and!; [discriminate|by repeat apply Forall_cons_2|reflexivity].
Defined.
