(* ===== verification/Threads.v ===== *)
(** * Three threads and three counters

    lab3/EXP3.1/thread.c. [waiting] polls a plain [int] and then decrements
    it, [signaling] increments it; the loads and stores of the threads of one
    process interleave freely, and each poll loads its counter anew, as in the
    build without optimisation that the lab gives. [sleep] and the work itself
    (which sleeps and prints) have no effect on the counters and are steps
    without one; [getchar] waits for a character, which may come at any time
    or never. [pthread_create], [pthread_join] and [execl] succeed. *)

From Stdlib Require Import Lia.
From stdpp Require Import base numbers option relations list.
From S2P Require Import Prelude.
Local Open Scope Z_scope.

(** ** Programs *)

Record mypara := Para { pthread : Z; start : Z; end_ : Z }.

Inductive instr :=
  | Sleep
  | Poll (num : nat)
  | DecLoad (num : nat)
  | DecStore (num : nat)
  | IncLoad (num : nat)
  | IncStore (num : nat)
  | Work (first last : Z)
  | PollAll (num : nat)
  | Getchar
  | ExecEcho
  | Create (tmp : mypara)
  | CreateEcho
  | Join (thread : nat)
  | Exit.

#[global] Instance mypara_eq_dec : EqDecision mypara.
Proof. solve_decision. Defined.
#[global] Instance instr_eq_dec : EqDecision instr.
Proof. solve_decision. Defined.

(** [while (mutex[num] <= 0); mutex[num]--;] *)
Definition waiting (num : nat) : list instr := [Poll num; DecLoad num; DecStore num].

(** [mutex[num]++;] *)
Definition signaling (num : nat) : list instr := [IncLoad num; IncStore num].

Definition thread_function (tmp : mypara) : list instr :=
  (if pthread tmp =? 1 then waiting 0 else []) ++ [Sleep] ++
  (if pthread tmp =? 2 then waiting 1 ++ waiting 0 else []) ++ [Sleep] ++
  (if pthread tmp =? 3 then waiting 2 ++ waiting 1 ++ waiting 0 else []) ++
  [Work (start tmp) (end_ tmp)] ++
  (if pthread tmp =? 1 then signaling 0 else []) ++
  (if pthread tmp =? 2 then signaling 1 ++ signaling 0 else []) ++
  (if pthread tmp =? 3 then signaling 2 ++ signaling 1 ++ signaling 0 else []) ++
  [Getchar].

(** The thread that replaces the process by [echo]. *)
Definition thread_exec : list instr := [ExecEcho; Getchar].

(** [while (mutex[0] <= 0 || mutex[1] <= 0 || mutex[2] <= 0);], which loads the
    counters one after the other and begins again at the first that is not
    positive. *)
Definition spin_all : list instr := [PollAll 0].

(** The main threads of the two processes, which are thread 0; the threads they
    create are numbered from 1 on. *)
Definition main_of_parent : list instr :=
  [Create (Para 1 0 10); Create (Para 2 10 20); Create (Para 3 20 30); Join 1; Join 2; Join 3; Exit].

Definition main_of_child : list instr :=
  [Create (Para 1 30 40); Create (Para 2 40 50); Create (Para 3 50 60); Sleep] ++
  spin_all ++ [CreateEcho; Join 1; Join 2; Join 3; Sleep] ++ spin_all ++ [Sleep; Join 4; Getchar; Exit].

(** ** States and steps *)

(** The remaining program of a thread and the value it has loaded. *)
Record thread := Thread { code : list instr; reg : Z }.

(** How a process may end: replaced by [echo], or by [exit]. *)
Inductive ending := Execed | Exited.

Record state := State { mutex : list Z; threads : list thread; ended : option ending }.

#[global] Instance thread_eq_dec : EqDecision thread.
Proof. solve_decision. Defined.
#[global] Instance ending_eq_dec : EqDecision ending.
Proof. solve_decision. Defined.
#[global] Instance state_eq_dec : EqDecision state.
Proof. solve_decision. Defined.

Definition init (main : list instr) : state := State [1; 1; 1] [Thread main 0] None.

Definition value (m : list Z) (num : nat) : Z := default 0 (m !! num).

(** One instruction of a thread: the counters, the thread, new threads and the
    end of the process. [None] when the thread has ended or the process has.
    [key]: a character is there for a [getchar]. A poll, a join or a [getchar]
    that must wait is a step that leaves the thread where it is. *)
Definition exec_instr (key : bool) (s : state) (t : thread) :
    option (list Z * thread * list thread * option ending) :=
  let m := mutex s in
  if ended s is Some _ then None
  else match code t with
  | [] => None
  | Sleep :: k | Work _ _ :: k => Some (m, Thread k (reg t), [], None)
  | Poll num :: k => Some (m, if value m num <=? 0 then t else Thread k (reg t), [], None)
  | DecLoad num :: k | IncLoad num :: k => Some (m, Thread k (value m num), [], None)
  | DecStore num :: k => Some (<[num := reg t - 1]> m, Thread k 0, [], None)
  | IncStore num :: k => Some (<[num := reg t + 1]> m, Thread k 0, [], None)
  | PollAll num :: k =>
    Some (m, Thread (if value m num <=? 0 then PollAll 0 :: k
                     else if (num <? 2)%nat then PollAll (S num) :: k else k) (reg t), [], None)
  | Getchar :: k => Some (m, if key then Thread k (reg t) else t, [], None)
  | ExecEcho :: k => Some (m, Thread k (reg t), [], Some Execed)
  | Create tmp :: k => Some (m, Thread k (reg t), [Thread (thread_function tmp) 0], None)
  | CreateEcho :: k => Some (m, Thread k (reg t), [Thread thread_exec 0], None)
  | Join i :: k =>
    Some (m, if bool_decide (code <$> threads s !! i = Some []) then Thread k (reg t) else t, [], None)
  | Exit :: k => Some (m, Thread k (reg t), [], Some Exited)
  end.

Definition exec_thread (key : bool) (s : state) (i : nat) : option state :=
  t ← threads s !! i;
  '(m, t', new, e) ← exec_instr key s t;
  Some (State m (<[i := t']> (threads s) ++ new) e).

(** One thread moves, of those that the schedule [may] choose. *)
Inductive moves (may : state → nat → bool) (s s' : state) : Prop :=
  | move_thread key i : may s i = true → exec_thread key s i = Some s' → moves may s s'.

(** The scheduler may choose any thread. *)
Definition any_thread (s : state) (i : nat) : bool := true.

Abbreviation step := (moves any_thread).

Definition reachable (main : list instr) : state → Prop := rtc step (init main).

(** A schedule: the threads that move, in order, each with whether a character
    is there. *)
Fixpoint run (sched : list (nat * bool)) (s : state) : option state :=
  match sched with
  | [] => Some s
  | (i, key) :: sched => s' ← exec_thread key s i; run sched s'
  end.

Lemma run_reachable main sched s :
  run sched (init main) = Some s → reachable main s.
Proof.
  unfold reachable. generalize (init main). induction sched as [|[i key] sched IH]; intros s0; cbn [run].
  { intros [= ->]. apply rtc_refl. }
  destruct (exec_thread key s0 i) as [s1|] eqn:E; [|done]. intros Hr.
  eapply rtc_l; [by apply (move_thread _ _ _ key i)|by apply IH].
Qed.

(** A thread is in its critical section while its next instruction is
    [Work]. *)
Definition working (t : thread) : bool :=
  match code t with Work _ _ :: _ => true | _ => false end.

Definition workers (s : state) : Z := Z.of_nat (length (filter (λ t, working t = true) (threads s))).

Definition finished (s : state) : bool := forallb (λ t, bool_decide (code t = [])) (threads s).

(** ** What the interleaving allows *)

(** The main thread creates the three; both pass the test of [mutex[0]] before
    either decrements it. *)
Definition race : list (nat * bool) :=
  (λ i, (i, false)) <$> [0; 0; 0; 1; 2; 2; 2; 2; 2; 1; 1; 2; 2; 1; 1; 2]%nat.

(** From there both increments load the same value, and one is lost; then both
    threads get their character. *)
Definition lost_update : list (nat * bool) :=
  race ++ ((λ i, (i, false)) <$> [1; 1; 2; 2; 2; 2; 2; 1]%nat) ++ [(1, true); (2, true)]%nat.

(** ** Schedules that do not cut into [waiting] and [signaling] *)

(** Between the test that ends the polling and the store that follows it, or
    between the load and the store of an increment. *)
Definition updating (t : thread) : bool :=
  match code t with DecLoad _ :: _ | DecStore _ :: _ | IncStore _ :: _ => true | _ => false end.

(** Thread [i] may be chosen when no other thread is in the middle of an
    update. *)
Definition uncut (s : state) (i : nat) : bool :=
  forallb (λ j, (j =? i)%nat || negb (default false (updating <$> threads s !! j))) (seq 0 (length (threads s))).

Abbreviation uncut_step := (moves uncut).

(** ** Checking all reachable states *)

(** The instructions left, those of threads that are not yet created included. *)
Definition weight (c : instr) : nat :=
  match c with
  | Create tmp => S (length (thread_function tmp))
  | CreateEcho => S (length thread_exec)
  | _ => 1
  end.

Definition size (s : state) : nat := sum_list_with (λ t, sum_list_with weight (code t)) (threads s).

Lemma exec_thread_length key s s' i :
  exec_thread key s i = Some s' → (i < length (threads s))%nat.
Proof.
  unfold exec_thread. destruct (threads s !! i) eqn:E; [|done]. intros _.
  by eapply lookup_lt_Some.
Qed.

Section exploration.
Context (may : state → nat → bool).

(** What follows when thread [i] moves, without and with a character. *)
Definition outcomes (s : state) (i : nat) : list state :=
  if may s i then
    let without := exec_thread false s i in
    let with_ := exec_thread true s i in
    omap id (if decide (without = with_) then [with_] else [without; with_])
  else [].

Definition successors (s : state) : list state :=
  flat_map (outcomes s) (seq 0 (length (threads s))).

Lemma successors_iff s s' : moves may s s' ↔ s' ∈ successors s.
Proof.
  unfold successors, outcomes. rewrite list_elem_of_In, in_flat_map. split.
  - intros [key i Hm Hi]. exists i. split.
    { apply in_seq. pose proof (exec_thread_length _ _ _ _ Hi). lia. }
    rewrite Hm. cbv zeta. apply list_elem_of_In, list_elem_of_omap. exists (Some s'). split; [|done].
    rewrite <- Hi. case_decide as E; destruct key; rewrite ?E, ?list_elem_of_singleton, ?elem_of_cons; auto.
  - intros (i & _ & Hi). destruct (may s i) eqn:Hm; [|done]. cbv zeta in Hi.
    apply list_elem_of_In, list_elem_of_omap in Hi as (o & Ho & [= ->]).
    assert (Some s' = exec_thread false s i ∨ Some s' = exec_thread true s i) as [E|E] by (revert Ho; case_decide; rewrite ?elem_of_cons, elem_of_nil; tauto);
      by eapply move_thread.
Qed.

(** States are kept by their size. [explore] finds them and [closed_ok] checks
    the result instead of trusting the search. *)
Definition bucket (R : list (list state)) (s : state) : list state := default [] (R !! size s).

Definition add_state (R : list (list state)) (s : state) : list (list state) := alter (cons s) (size s) R.

Fixpoint explore (fuel : nat) (seen : list (list state)) (todo : list state) : list (list state) :=
  match fuel with
  | O => seen
  | S fuel =>
    match todo with
    | [] => seen
    | s :: todo =>
      let new := filter (λ x, x ∉ bucket seen x) (remove_dups (successors s)) in
      explore fuel (foldl add_state seen new) (new ++ todo)
    end
  end.

(** What can be reached from a state. *)
Definition explore_from (fuel : nat) (s : state) : list (list state) :=
  explore fuel (add_state (replicate 64 []) s) [s].

Definition closed_ok (P : state → bool) (s0 : state) (R : list (list state)) : bool :=
  bool_decide (s0 ∈ bucket R s0) &&
  forallb (forallb (λ s, P s && forallb (λ s', bool_decide (s' ∈ bucket R s')) (successors s))) R.

Lemma closed_ok_invariant P s0 R s :
  closed_ok P s0 R = true → rtc (moves may) s0 s → P s = true.
Proof.
  intros [H0 Hall]%andb_true_iff Hr. apply bool_decide_eq_true in H0.
  assert (Hin : ∀ x, x ∈ bucket R x → P x = true ∧ ∀ s', s' ∈ successors x → s' ∈ bucket R s').
  { intros x Hx. unfold bucket in Hx. destruct (R !! size x) as [b|] eqn:E; [|by apply elem_of_nil in Hx].
    rewrite forallb_forall in Hall. apply list_elem_of_lookup_2, list_elem_of_In, Hall in E.
    rewrite forallb_forall in E. apply list_elem_of_In, E, andb_true_iff in Hx as [HP Hs]. split; [done|].
    rewrite forallb_forall in Hs. intros s' Hs'%list_elem_of_In%Hs. by apply bool_decide_eq_true in Hs'. }
  apply Hin. induction Hr as [s|s s1 s2 Hs Hr IH]; [done|]. apply IH.
  by apply (Hin s H0), successors_iff.
Qed.
End exploration.

(** What is checked of every state: at most one worker; a step leaves
    everything as it is or brings the end nearer; unless the process has
    ended some thread can bring it nearer; and at the end all threads are done
    and the counters restored. *)
Definition state_ok (s : state) : bool :=
  let next := successors uncut s in
  (workers s <=? 1) && forallb (λ s', bool_decide (s' = s) || (size s' <? size s)%nat) next &&
  (if ended s is None then existsb (λ s', (size s' <? size s)%nat) next
   else bool_decide (ended s = Some Exited) && finished s && bool_decide (mutex s = [1; 1; 1])).

Definition uncut_states (main : list instr) : list (list state) := explore_from uncut 4000 (init main).

Lemma parent_states_ok :
  closed_ok uncut state_ok (init main_of_parent) (uncut_states main_of_parent) = true.
Proof. vm_compute. reflexivity. Qed.

(** ** Properties *)

(** Nothing keeps two threads out of the section that [mutex[0]] guards:
    the test and the decrement of [waiting] are separate steps, and there is
    an interleaving after which threads 1 and 2 are both working. *)
Theorem threads_race :
  ∃ s, reachable main_of_parent s ∧ workers s = 2 ∧ mutex s = [-1; 0; 1].
Proof.
  destruct (run race (init main_of_parent)) as [s|] eqn:E; [|by vm_compute in E].
  exists s. split; [by eapply run_reachable|]. vm_compute in E. by injection E as <-.
Qed.

(** An increment can be lost as well: threads 1 and 2 have ended, but
    [mutex[0]] is left at 0, and in every continuation thread 3 polls it
    without end and never works, and the process never exits. *)
Theorem threads_lost_update :
  ∃ s, reachable main_of_parent s ∧ (code <$> threads s) !! 1%nat = Some [] ∧
    (code <$> threads s) !! 2%nat = Some [] ∧ value (mutex s) 0 = 0 ∧
    ∀ s', rtc step s s' → workers s' = 0 ∧ ended s' = None.
Proof.
  destruct (run lost_update (init main_of_parent)) as [s|] eqn:E; [|by vm_compute in E].
  exists s. split; [by eapply run_reachable|].
  pose (P := λ s, (workers s =? 0) && bool_decide (ended s = None)).
  assert (Hc : closed_ok any_thread P s (explore_from any_thread 100 s) = true).
  { vm_compute in E. injection E as <-. vm_compute. reflexivity. }
  do 3 (split; [vm_compute in E; by injection E as <-|]).
  intros s' Hs'. pose proof (closed_ok_invariant any_thread P s _ s' Hc Hs') as HP.
  apply andb_true_iff in HP as [Hw He]. apply bool_decide_eq_true in He. split; [lia|done].
Qed.

(** C28: As long as the scheduler does not let another thread move between the
    last poll of a [waiting] and its store, nor between load and store of a
    [signaling], at most one of the three threads works at any time. Then no
    step leads away from the end: it leaves everything as it is (a poll, a join
    or a [getchar] that waits) or leaves less to do; while the process has not
    ended some thread can go on, given a character; and when it has, it has
    exited with all threads done and the counters back at 1. Nothing in the
    program keeps the scheduler from doing otherwise, and then neither holds: two
    threads may work at once, and the process may come to a state from which it
    never ends. *)
Theorem threads_uncut_exit :
  (∀ s, rtc uncut_step (init main_of_parent) s →
     workers s <= 1 ∧ (∀ s', uncut_step s s' → s' = s ∨ (size s' < size s)%nat) ∧
     (ended s = None → ∃ s', uncut_step s s' ∧ (size s' < size s)%nat) ∧
     (ended s ≠ None → ended s = Some Exited ∧ finished s = true ∧ mutex s = [1; 1; 1])) ∧
  (∃ s, reachable main_of_parent s ∧ workers s = 2) ∧
  (∃ s, reachable main_of_parent s ∧ ∀ s', rtc step s s' → ended s' = None).
Proof.
  split_and!.
  2:{ destruct threads_race as (s & Hs & Hw & _). eauto. }
  2:{ destruct threads_lost_update as (s & Hs & _ & _ & _ & Hall). exists s. split; [done|]. intros s' Hs'. by apply Hall. }
  intros s Hs. pose proof (closed_ok_invariant uncut state_ok _ _ s parent_states_ok Hs) as Hok.
  unfold state_ok in Hok. cbv zeta in Hok. apply andb_true_iff in Hok as [[Hw Hnext]%andb_true_iff Hend].
  rewrite forallb_forall in Hnext. split_and!; [lia| | |].
  - intros s' Hs'%successors_iff%list_elem_of_In. apply Hnext, orb_true_iff in Hs' as [Hs'|Hs'].
    + left. by apply bool_decide_eq_true in Hs'.
    + right. by apply Nat.ltb_lt.
  - intros He. rewrite He in Hend. apply existsb_exists in Hend as (s' & Hin & Hlt).
    exists s'. split; [by apply successors_iff, list_elem_of_In|by apply Nat.ltb_lt].
  - intros He. destruct (ended s); [|done]. apply andb_true_iff in Hend as [[He' Hf]%andb_true_iff Hm].
    apply bool_decide_eq_true in He', Hm. done.
Qed.

(** In the child process the thread that replaces the process by [echo]
    may start at once: all counters are 1 before the others have moved, so
    the poll that should wait for them succeeds. *)
Theorem echo_before_work :
  ∃ s, reachable main_of_child s ∧ ended s = Some Execed ∧
    (∀ i tmp, (i, tmp) ∈ [(1, Para 1 30 40); (2, Para 2 40 50); (3, Para 3 50 60)]%nat →
      code <$> threads s !! i = Some (thread_function tmp)) ∧
    ∀ s', ¬ step s s'.
Proof.
  destruct (run ((λ i, (i, false)) <$> [0; 0; 0; 0; 0; 0; 0; 0; 4]%nat) (init main_of_child)) as [s|] eqn:E; [|by vm_compute in E].
  exists s. split; [by eapply run_reachable|]. vm_compute in E. injection E as <-.
  split_and!; [done| |].
  - intros i tmp Hi. repeat (apply elem_of_cons in Hi as [[= -> ->]|Hi]; [reflexivity|]). by apply elem_of_nil in Hi.
  - intros s' [key i _ Hi]. unfold exec_thread in Hi.
    destruct (threads _ !! i) as [t|]; [|done]. by destruct (code t).
Qed.

(** ** Instance *)

(** While one thread works, thread 2 sees that it has to wait, and the program
    can still go on. *)
Definition one_works : list (nat * bool) := (λ i, (i, false)) <$> [0; 0; 0; 1; 1; 1; 1; 1; 2; 2; 2; 2]%nat.

Lemma uncut_run sched s s' :
  run sched s = Some s' →
  (∀ n, (n < length sched)%nat → match run (take n sched) s, sched !! n with
        | Some s1, Some (i, _) => uncut s1 i = true | _, _ => False end) →
  rtc uncut_step s s'.
Proof.
  revert s. induction sched as [|[i key] sched IH]; intros s; cbn [run].
  { intros [= ->] _. apply rtc_refl. }
  destruct (exec_thread key s i) as [s1|] eqn:E; [|done]. intros Hr Hall.
  eapply rtc_l.
  - apply (move_thread _ _ _ key i); [|exact E]. exact (Hall 0%nat ltac:(cbn; lia)).
  - apply IH; [done|]. intros n Hn. specialize (Hall (S n) ltac:(cbn; lia)). cbn [take run] in Hall.
    by rewrite E in Hall.
Qed.

Lemma threads_uncut_exit_witness :
  ∃ s, run one_works (init main_of_parent) = Some s ∧ workers s = 1 ∧ workers s <= 1 ∧
    ∃ s', uncut_step s s' ∧ (size s' < size s)%nat.
Proof.
  destruct (run one_works (init main_of_parent)) as [s|] eqn:E; [|by vm_compute in E].
  assert (Hr : rtc uncut_step (init main_of_parent) s).
  { apply (uncut_run one_works); [exact E|]. intros n Hn. do 12 (destruct n as [|n]; [vm_compute; reflexivity|]).
    exfalso. vm_compute in Hn. lia. }
  pose proof (proj1 threads_uncut_exit s Hr) as (Hw & _ & Hgo & _).
  assert (Ew : workers s = 1) by (vm_compute in E; injection E as <-; reflexivity).
  assert (Ee : ended s = None) by (vm_compute in E; injection E as <-; reflexivity).
  exists s. split; [reflexivity|]. split; [exact Ew|]. split; [exact Hw|exact (Hgo Ee)].
Defined.
