(* ===== verification/Modules.v ===== *)
(** * Two small kernel modules

    lab3/EXP3.1/sec2.c prints what it finds in the task list; the two files
    forcermmod.c and forcermmod_replace_exit.c (under lab3) reset the
    reference count of another module. What the kernel supplies is data of the
    model (the task list) or an argument ([pid_task], [HZ], the module that
    [find_module] returned, [module_refcount], the per-CPU offsets); messages
    are values. *)

From Stdlib Require Import Lia String.
From stdpp Require Import base numbers option list.
From S2P Require Import Prelude Bytes CString.
Local Open Scope Z_scope.

(** ** Tasks *)

(** The members of [task_struct] that the module reads. [parent], [children]
    and [thread_group] refer to tasks by pid; [thread_group] starts with the
    task itself. *)
Record task := mkTask {
  pid : Z;
  state : Z;
  static_prio : Z;
  has_mm : bool;
  comm : list Z;
  parent : option Z;
  children : list Z;
  thread_group : list Z
}.

(** [t->member] for a pointer [t] that may be NULL. *)
Definition deref {A} (p : option A) : res A :=
  match p with Some a => Ok a | None => Undef NullDeref end.

(** [lab3_init], case 1: the state column. *)
Definition prio_char (t : task) : list Z :=
  if state t =? 1026 then
    if 100 <? static_prio t then chars "I" else chars "I<"
  else if 120 <? static_prio t then chars "SN"
  else if static_prio t <? 120 then chars "S"
  else chars "S<".

Record ps_line := PsLine { pl_pid : Z; pl_stat : list Z; pl_comm : list Z }.

(** The loop over all processes: lines printed and [count]. *)
Fixpoint list_kernel_threads (tasks : list task) (count : Z) : list ps_line * Z :=
  match tasks with
  | [] => ([], count)
  | p :: tasks =>
    if has_mm p then list_kernel_threads tasks count
    else
      let '(lines, n) := list_kernel_threads tasks (count + 1) in
      (PsLine (pid p) (take 3 (prio_char p)) (take 16 (comm p)) :: lines, n)
  end.

(** [timer_function]: the count it prints and the next expiry. *)
Fixpoint count_kernel_threads (tasks : list task) (count : Z) : Z :=
  match tasks with
  | [] => count
  | p :: tasks => count_kernel_threads tasks (if has_mm p then count else count + 1)
  end.

Definition timer_function (HZ : Z) (tasks : list task) (jiffies : Z) : Z * Z :=
  (count_kernel_threads tasks 0, jiffies + 5 * HZ).

(** Case 3: the family of a process. *)
Inductive family_line :=
  | NoParent
  | ParentLine (t : task)
  | SiblingLine (num : Z) (t : task)
  | ChildLine (num : Z) (t : task)
  | ChildThreadLine (num : Z) (t : task)
  | ThreadLine (num : Z) (t : task).

Section family.
Context (pid_task : Z → option task).

(** [list_for_each] with a counter. *)
Fixpoint number_tasks (mk : Z → task → family_line) (num : Z) (pids : list Z)
    : res (list family_line) :=
  match pids with
  | [] => Ok []
  | p :: pids =>
    t ← deref (pid_task p);
    rest ← number_tasks mk (num + 1) pids;
    Ok (mk (num + 1) t :: rest)
  end.

(** The children with their threads: [pthread_count] runs on from child to
    child. *)
Fixpoint list_children (children_count pthread_count : Z) (pids : list Z)
    : res (list family_line) :=
  match pids with
  | [] => Ok []
  | p :: pids =>
    t ← deref (pid_task p);
    threads ← number_tasks ChildThreadLine pthread_count (thread_group t);
    rest ← list_children (children_count + 1) (pthread_count + lenZ (thread_group t)) pids;
    Ok (ChildLine (children_count + 1) t :: threads ++ rest)
  end.

(** After printing "NO Parent!" the loop over the siblings dereferences the
    parent all the same. *)
Definition print_family (p : Z) : res (list family_line) :=
  target_task ← deref (pid_task p);
  par ← (match parent target_task with
         | None => Undef NullDeref
         | Some q => deref (pid_task q)
         end);
  siblings ← number_tasks SiblingLine 0 (children par);
  childs ← list_children 0 0 (children target_task);
  threads ← number_tasks ThreadLine 0 (thread_group target_task);
  Ok (ParentLine par :: siblings ++ childs ++ threads).
End family.

(** What loading the module with its parameter [loop] does. *)
Inductive report :=
  | KernelThreads (lines : list ps_line) (count : Z)
  | TimerArmed (expires : Z)
  | Family (lines : list family_line)
  | NoReport.

Definition lab3_init (pid_task : Z → option task) (HZ : Z) (tasks : list task)
    (loop p jiffies : Z) : res report :=
  if loop =? 1 then
    let '(lines, n) := list_kernel_threads tasks 0 in Ok (KernelThreads lines n)
  else if loop =? 2 then Ok (TimerArmed (jiffies + HZ))
  else if loop =? 3 then lines ← print_family pid_task p; Ok (Family lines)
  else Ok NoReport.

(** *** The timer

    A timer object: zero since the module was loaded, set up and not pending, or
    pending with the time at which it may expire. *)
Inductive timer := NotSetUp | Idle | Pending (expires : Z).

(** [timer_setup], [expires = ...] and [add_timer] in [lab3_init]. *)
Definition timer_of_report (r : report) : timer :=
  match r with TimerArmed expires => Pending expires | _ => NotSetUp end.

(** [lab3_exit]: the timer after [del_timer_sync]. A timer that was not set up
    has nothing to delete. *)
Definition lab3_exit (my_timer_list : timer) : timer :=
  match my_timer_list with NotSetUp => NotSetUp | Idle | Pending _ => Idle end.

(** The loaded module: its timer, and the counts that the timer function has
    printed with the time of each, the latest first. *)
Record lab3 := mkLab3 { loaded : bool; my_timer_list : timer; printed : list (Z * Z) }.

Section timer.
Context (HZ : Z).

(** Time passes and the task list changes as they like ([now], [tasks] of every
    step); the kernel runs an expired timer some time, not before it expires. *)
Inductive lab3_step (now : Z) (tasks : list task) : lab3 → lab3 → Prop :=
  | StepFire l expires old count next :
      expires <= now → timer_function HZ tasks now = (count, next) →
      lab3_step now tasks (mkLab3 l (Pending expires) old) (mkLab3 l (Pending next) ((now, count) :: old))
  | StepExit t old : lab3_step now tasks (mkLab3 true t old) (mkLab3 false (lab3_exit t) old).

(** Steps at times that do not go back. *)
Inductive lab3_run : Z → lab3 → Prop :=
  | RunInit pid_task tasks loop p now r :
      lab3_init pid_task HZ tasks loop p now = Ok r → lab3_run now (mkLab3 true (timer_of_report r) [])
  | RunTime now now' m : lab3_run now m → now <= now' → lab3_run now' m
  | RunStep now tasks m m' : lab3_run now m → lab3_step now tasks m m' → lab3_run now m'.
End timer.

(** ** Module reference counts *)

Definition MODULE_STATE_LIVE : Z := 0.

(** [refcnt] is the counter itself, [exit_fn] the exit function: its own, a
    replacement, or none. [used_by] are the addresses of the nodes on
    [source_list]; they belong to objects of type [struct module_use]. *)
Inductive exit_function := NoExit | OwnExit | ReplacedExit.

Record module := mkModule {
  mod_name : list Z;
  mod_state : Z;
  refcnt : Z;
  used_by : list Z;
  exit_fn : exit_function
}.

#[global] Instance exit_function_eq_dec : EqDecision exit_function.
Proof. solve_decision. Defined.
#[global] Instance module_eq_dec : EqDecision module.
Proof. solve_decision. Defined.

(** The messages of [force_cleanup_module]. *)
Inductive message :=
  | NotFound (name : list Z)
  | Before (name : list Z) (state refcount : Z)
  | Relate (name : list Z)
  | NoDependents (name : list Z)
  | ExitAddress (has_exit : bool)
  | After (name : list Z) (state refcount : Z).

Definition cleaned (m : module) : module :=
  mkModule (mod_name m) MODULE_STATE_LIVE 1 (used_by m) (exit_fn m).

Definition replaced (m : module) : module :=
  mkModule (mod_name m) MODULE_STATE_LIVE 1 (used_by m) ReplacedExit.

Section cleanup.
Context (module_refcount : module → Z) (per_cpu_offset : list Z).

(** [list_for_each_entry] takes every node for the [source_list] of a
    [struct module]: what is printed as a name is what memory holds at the
    place relative to the node where a module would keep its name. *)
Context (name_around : Z → list Z).

Definition dependents (m : module) : list message :=
  match used_by m with
  | [] => [NoDependents (mod_name m)]
  | us => Relate ∘ name_around <$> us
  end.

(** forcermmod.c: the return value, the messages, the addresses (relative to
    the counter, one per possible CPU) that are overwritten with eight zero
    bytes, and the module afterwards. *)
Definition force_cleanup_module (del_mod_name : list Z) (found : option module)
    : Z * list message * list Z * option module :=
  match found with
  | None => (-1, [NotFound del_mod_name], [], None)
  | Some m =>
    let m' := cleaned m in
    (0, Before (mod_name m) (mod_state m) (module_refcount m) :: dependents m ++
        [After (mod_name m') (mod_state m') (module_refcount m')],
     per_cpu_offset, Some m')
  end.

(** forcermmod_replace_exit.c: the same with a new exit function. *)
Definition force_cleanup_module_replace (del_mod_name : list Z) (found : option module)
    : Z * list message * list Z * option module :=
  match found with
  | None => (-1, [NotFound del_mod_name], [], None)
  | Some m =>
    let m' := replaced m in
    (0, Before (mod_name m) (mod_state m) (module_refcount m) :: dependents m ++
        [ExitAddress (negb (bool_decide (exit_fn m = NoExit)));
         After (mod_name m') (mod_state m') (module_refcount m')],
     per_cpu_offset, Some m')
  end.

(** Loading the modules; [find_module] gives the place of a module in the list
    of the kernel. *)
Context (find_module : list Z → list module → option nat).

Definition at_place (mods : list module) (i : option nat) : option module := i ≫= (mods !!.).
Definition put_back (mods : list module) (i : option nat) (m : option module) : list module :=
  match i, m with Some i, Some m => <[i := m]> mods | _, _ => mods end.

Definition force_rmmod_init (replace : bool) (modname : list Z) (mods : list module)
    : Z * list message * list Z * list module :=
  let i := find_module modname mods in
  let '(ret, messages, cleared, m) :=
    (if replace then force_cleanup_module_replace else force_cleanup_module) modname (at_place mods i) in
  (ret, messages, cleared, put_back mods i m).

(** What [force_rmmod_exit] prints of its own module, and what the replaced exit
    function prints when the other one is removed: the name that was passed. *)
Definition force_rmmod_exit (this : module) : list Z * Z := (mod_name this, mod_state this).
Definition force_replace_exit_module_function (modname : list Z) : list Z := modname.
End cleanup.

(** ** Properties *)

Lemma count_kernel_threads_from tasks c :
  count_kernel_threads tasks c = c + lenZ (filter (λ t, has_mm t = false) tasks).
Proof.
  revert c. induction tasks as [|t tasks IH]; intros c; cbn [count_kernel_threads].
  { cbn. lia. }
  rewrite IH. destruct (has_mm t) eqn:E.
  - by rewrite filter_cons_False by congruence.
  - rewrite filter_cons_True by done. cbn [length]. lia.
Qed.

Lemma list_kernel_threads_from tasks c :
  list_kernel_threads tasks c =
    ((λ t, PsLine (pid t) (take 3 (prio_char t)) (take 16 (comm t))) <$>
       filter (λ t, has_mm t = false) tasks,
     c + lenZ (filter (λ t, has_mm t = false) tasks)).
Proof.
  revert c. induction tasks as [|t tasks IH]; intros c; cbn [list_kernel_threads].
  { cbn. f_equal. lia. }
  destruct (has_mm t) eqn:E.
  - by rewrite filter_cons_False, IH by congruence.
  - rewrite IH, !filter_cons_True by done. cbn [fmap list_fmap length]. f_equal. lia.
Qed.

(** Both reports of sec2.c see exactly the processes without an address
    space: the listing has one line for each, in the order of the task list,
    and its count is the count that the timer prints. *)
Theorem kernel_threads_listed pid_task HZ tasks p jiffies :
  let ks := filter (λ t, has_mm t = false) tasks in
  lab3_init pid_task HZ tasks 1 p jiffies =
    Ok (KernelThreads ((λ t, PsLine (pid t) (take 3 (prio_char t)) (take 16 (comm t))) <$> ks)
      (lenZ ks)) ∧
  timer_function HZ tasks jiffies = (lenZ ks, jiffies + 5 * HZ).
Proof.
  unfold lab3_init, timer_function. cbn [Z.eqb Pos.eqb].
  by rewrite list_kernel_threads_from, count_kernel_threads_from.
Qed.

(** The state column marks as "S<" (high priority, as ps prints it) the
    tasks of normal priority, and prints the plain "S" for the tasks whose
    priority really is raised. *)
Theorem prio_char_swapped t :
  state t ≠ 1026 →
  (static_prio t = 120 → prio_char t = chars "S<") ∧
  (static_prio t < 120 → prio_char t = chars "S").
Proof.
  intros Hs. unfold prio_char. rewrite (proj2 (Z.eqb_neq _ _)) by done. split; intros H.
  - by rewrite H.
  - rewrite (proj2 (Z.ltb_ge 120 _)) by lia. by rewrite (proj2 (Z.ltb_lt _ 120)) by done.
Qed.

(** Cleaning up a module never stops: whether or not other modules depend
    on it, its state becomes LIVE and its counter 1, and one address per CPU
    is cleared; the variant also replaces the exit function. When the module
    is not found, -1 is returned and nothing is touched. *)
Theorem force_cleanup_ignores_dependents rc cpus names name found :
  let '(ret, _, cleared, after) := force_cleanup_module rc cpus names name found in
  let '(ret', _, cleared', after') := force_cleanup_module_replace rc cpus names name found in
  ret = ret' ∧ cleared = cleared' ∧
  match found with
  | None => ret = -1 ∧ cleared = [] ∧ after = None ∧ after' = None
  | Some m => ret = 0 ∧ cleared = cpus ∧
      ∃ m1 m2, after = Some m1 ∧ after' = Some m2 ∧
        mod_state m1 = MODULE_STATE_LIVE ∧ refcnt m1 = 1 ∧ exit_fn m1 = exit_fn m ∧
        mod_state m2 = MODULE_STATE_LIVE ∧ refcnt m2 = 1 ∧ exit_fn m2 = ReplacedExit ∧
        mod_name m1 = mod_name m ∧ used_by m1 = used_by m
  end.
Proof. destruct found as [m|]; cbn; split_and!; try done. by exists (cleaned m), (replaced m). Qed.

(** The list of siblings contains the process itself: it is whatever its
    parent's list of children contains. *)
Theorem family_lists_itself (pid_task : Z → option task) p t q par lines :
  pid_task p = Some t → parent t = Some q → pid_task q = Some par → p ∈ children par →
  print_family pid_task p = Ok lines → ∃ num, SiblingLine num t ∈ lines.
Proof.
  intros Ht Hq Hpar Hin. unfold print_family. rewrite Ht. cbn [deref]. res_steps.
  rewrite Hq, Hpar. cbn [deref]. res_steps.
  intros (sibs & Hs & Hrest)%bind_ok. apply bind_ok in Hrest as (ch & _ & Hrest).
  apply bind_ok in Hrest as (th & _ & [= <-]).
  assert (∃ num, SiblingLine num t ∈ sibs) as [num Hnum].
  { revert Hs. generalize 0. revert sibs. induction (children par) as [|x xs IH]; intros sibs n;
      [by inversion Hin|]. cbn [number_tasks].
    intros (tx & Hx & Hr)%bind_ok. apply bind_ok in Hr as (rest & Hr & [= <-]).
    apply elem_of_cons in Hin as [->|Hin].
    - rewrite Ht in Hx. injection Hx as <-. exists (n + 1). apply list_elem_of_here.
    - destruct (IH Hin rest (n + 1) Hr) as [num Hnum]. exists num. by apply list_elem_of_further. }
  exists num. apply list_elem_of_further, elem_of_app. by left.
Qed.

(** The times of the reports, latest first, are at least [gap] apart and not
    before [first]. *)
Fixpoint spaced (gap first : Z) (times : list Z) : Prop :=
  match times with
  | [] => True
  | [t] => first <= t
  | t :: ((u :: _) as older) => u + gap <= t ∧ spaced gap first older
  end.

(** The timer prints a count for the first time one second after the module was
    loaded at the earliest, and then every five seconds at most; a module whose
    timer was not set up, because [loop] was not 2, has printed none; and once
    the module is unloaded its timer does not run any more. *)
Theorem timer_reports_spaced HZ now m :
  0 < HZ → lab3_run HZ now m →
  (∃ start, start <= now ∧ spaced (5 * HZ) (start + HZ) (printed m).*1) ∧
  (my_timer_list m = NotSetUp → printed m = []) ∧
  (loaded m = false → ∀ e, my_timer_list m ≠ Pending e) ∧
  Forall (λ '(t, _), t <= now) (printed m).
Proof.
  intros HHZ Hrun.
  cut ((∃ start, start <= now ∧ spaced (5 * HZ) (start + HZ) (printed m).*1 ∧
          ∀ e, my_timer_list m = Pending e →
            match (printed m).*1 with [] => start + HZ <= e | t :: _ => t + 5 * HZ <= e end) ∧
       (my_timer_list m = NotSetUp → printed m = []) ∧
       (loaded m = false → ∀ e, my_timer_list m ≠ Pending e) ∧ Forall (λ '(t, _), t <= now) (printed m)).
  { intros ((start & ? & ? & _) & ?). split; [by exists start|done]. }
  induction Hrun as [pid_task tasks loop p now r E|now now' m Hrun IH Hle|now tasks m m' Hrun IH Hstep].
  - cbn. split_and!; [|done|done|apply Forall_nil_2]. exists now. split_and!; [lia|done|].
    intros e He. destruct r; try discriminate He. cbn in He. injection He as ->.
    unfold lab3_init in E. destruct (loop =? 1); [by destruct (list_kernel_threads tasks 0)|].
    destruct (loop =? 2); [injection E as <-; lia|]. destruct (loop =? 3); [|done].
    by destruct (print_family pid_task p).
  - destruct IH as ((start & ? & ? & ?) & ? & ? & Hp). split_and!; [|done|done|].
    + exists start. split_and!; [lia|done|done].
    + eapply Forall_impl; [exact Hp|]. intros [t c]. lia.
  - destruct IH as ((start & Hs & Hsp & Hexp) & Hun & Hunl & Hp). destruct Hstep as [l expires old count next Hle [= <- <-]|t old].
    + cbn in *. specialize (Hexp expires eq_refl). split_and!; [|done| |apply Forall_cons_2; [lia|done]].
      * exists start. split_and!; [done| |by intros e [= <-]]. destruct old.*1 eqn:E; [lia|].
        split; [lia|done].
      * intros Hl. by destruct (Hunl Hl expires).
    + cbn in *. split_and!; [|by destruct t; auto; discriminate|by destruct t|done].
      exists start. split_and!; [done|done|]. by destruct t.
Qed.

(** Loading the forced removal changes one module of the kernel's list, the one
    with the name that was passed, if there is one. *)
Theorem force_rmmod_init_changes_one rc cpus names find replace modname mods :
  (∀ name mods i, find name mods = Some i → ∃ m, mods !! i = Some m ∧ mod_name m = name) →
  let '(ret, _, cleared, mods') := force_rmmod_init rc cpus names find replace modname mods in
  length mods' = length mods ∧
  match find modname mods with
  | None => ret = -1 ∧ cleared = [] ∧ mods' = mods
  | Some i => ret = 0 ∧ cleared = cpus ∧
      (∀ j, j ≠ i → mods' !! j = mods !! j) ∧
      ∃ m', mods' !! i = Some m' ∧ mod_name m' = modname ∧ refcnt m' = 1 ∧ mod_state m' = MODULE_STATE_LIVE ∧
        (replace = true → exit_fn m' = ReplacedExit)
  end.
Proof.
  intros Hfind. unfold force_rmmod_init. destruct (find modname mods) as [i|] eqn:E; cbn [at_place mbind option_bind].
  2:{ by destruct replace. }
  destruct (Hfind _ _ _ E) as (m & Hm & Hn). rewrite Hm.
  assert (Hlt : (i < length mods)%nat) by by eapply lookup_lt_Some.
  destruct replace; cbn; rewrite length_insert; (split_and!; [done..| |]);
    try (intros j Hj; by apply list_lookup_insert_ne);
    rewrite list_lookup_insert_eq by done; eexists; (split; [reflexivity|]); done.
Qed.

(** ** Concrete instances *)

Definition kernel_thread : task := mkTask 2 1 120 false (chars "kthreadd") (Some 1) [] [2].

Lemma timer_reports_spaced_witness :
  lab3_run 250 2000 (mkLab3 false Idle [(1500, 1); (250, 1)]) ∧ spaced 1250 250 [1500; 250].
Proof.
  assert (Hrun : lab3_run 250 2000 (mkLab3 false Idle [(1500, 1); (250, 1)])).
  { assert (R0 : lab3_run 250 0 (mkLab3 true (Pending 250) []))
      by exact (RunInit 250 (λ _, None) [kernel_thread] 2 0 0 _ eq_refl).
    assert (R1 : lab3_run 250 250 (mkLab3 true (Pending 1500) [(250, 1)])).
    { eapply RunStep; [apply (RunTime _ 0 250 _ R0); lia|].
      by apply (StepFire 250 250 [kernel_thread] true 250 [] 1 1500). }
    assert (R2 : lab3_run 250 1500 (mkLab3 true (Pending 2750) [(1500, 1); (250, 1)])).
    { eapply RunStep; [apply (RunTime _ 250 1500 _ R1); lia|].
      by apply (StepFire 250 1500 [kernel_thread] true 1500 [(250, 1)] 1 2750). }
    eapply RunStep; [apply (RunTime _ 1500 2000 _ R2); lia|]. apply (StepExit 250 2000 [kernel_thread]). }
  split; [exact Hrun|].
  destruct (timer_reports_spaced 250 2000 _ ltac:(lia) Hrun) as ((start & _ & _) & _ & _ & _).
  cbn. lia.
Defined.

Definition demo_find (name : list Z) (mods : list module) : option nat :=
  fst <$> list_find (λ m, mod_name m = name) mods.

Lemma force_rmmod_init_changes_one_witness :
  let mods := [mkModule (chars "a") 0 3 [] OwnExit; mkModule (chars "b") 2 1 [100] OwnExit] in
  let '(ret, _, _, mods') := force_rmmod_init refcnt [] (λ _, chars "a") demo_find true (chars "b") mods in
  ret = 0 ∧ mods' !! 0%nat = mods !! 0%nat.
Proof.
  intros mods.
  assert (Hf : ∀ name mods i, demo_find name mods = Some i → ∃ m, mods !! i = Some m ∧ mod_name m = name).
  { intros name ms i ([j m] & E & ->)%fmap_Some. apply list_find_Some in E as (? & ? & _). by exists m. }
  pose proof (force_rmmod_init_changes_one refcnt [] (λ _, chars "a") demo_find true (chars "b") mods Hf) as H.
  destruct (force_rmmod_init _ _ _ _ _ _ _) as [[[ret msg] cl] mods'] eqn:E.
  destruct H as (_ & H).
  assert (Ef : demo_find (chars "b") mods = Some 1%nat) by (vm_compute; reflexivity).
  rewrite Ef in H. destruct H as (Hr & _ & Hj & _). split; [exact Hr|]. apply Hj. discriminate.
Defined.
