(* ===== verification/Kscan.v ===== *)
(** * The memory scanner module

    lab3/EXP3.2/sec3.c: attributes under /sys/kernel/mm/kmscan choose a
    process and one of three reports, a kernel thread produces the report at
    intervals, and the result appears under /proc/kmscan. The calls into
    procfs are logged; which entries are alive is read off the log. *)

From Stdlib Require Import Lia String.
From stdpp Require Import base numbers option gmap list.
From S2P Require Import Prelude Bytes CString.
Local Open Scope Z_scope.

(** ** Data *)

Definition SYSFS_TEST_RUN_STOP : Z := 0.
Definition SYSFS_TEST_RUN_START : Z := 1.
Definition CHAR_MAX_LENTH : Z := 2048.
Definition UINT_MAX : Z := 4294967295.
Definition EINVAL : Z := 22.

(** What a file of /proc/kmscan refers to: a local variable of the function
    that created it, with the value it had when that function returned, or
    the table [physinfo]. *)
Inductive file_data := StackInt (v : Z) | PhysTable.

Inductive proc_op :=
  | Mkdir (id : nat) (par : option nat) (name : list Z)
  | CreateFile (id : nat) (par : option nat) (name : list Z) (data : file_data)
  | Remove (id : nat).

(** The file-scope variables, and the static ones of the three reports. *)
Record kscan := mkKscan {
  pid : Z;
  sysfs_test_func : Z;
  sysfs_test_run : Z;
  sleep_millisecs : Z;
  mutex : gmap Z Z;
  proc_test_const : gmap Z nat;
  proc_test_root_const : option nat;
  de : option nat;
  phys_ptr : option nat;
  physinfo : list (Z * Z);
  next_id : nat;
  log : list proc_op
}.

Definition kscan_initial : kscan :=
  mkKscan 0 0 SYSFS_TEST_RUN_STOP 20000 ∅ ∅ None None None [] 0 [].

(** Updates of single variables. *)
Definition set_pid v s := mkKscan v (sysfs_test_func s) (sysfs_test_run s) (sleep_millisecs s)
  (mutex s) (proc_test_const s) (proc_test_root_const s) (de s) (phys_ptr s) (physinfo s) (next_id s) (log s).
Definition set_func v s := mkKscan (pid s) v (sysfs_test_run s) (sleep_millisecs s)
  (mutex s) (proc_test_const s) (proc_test_root_const s) (de s) (phys_ptr s) (physinfo s) (next_id s) (log s).
Definition set_run v s := mkKscan (pid s) (sysfs_test_func s) v (sleep_millisecs s)
  (mutex s) (proc_test_const s) (proc_test_root_const s) (de s) (phys_ptr s) (physinfo s) (next_id s) (log s).
Definition set_sleep v s := mkKscan (pid s) (sysfs_test_func s) (sysfs_test_run s) v
  (mutex s) (proc_test_const s) (proc_test_root_const s) (de s) (phys_ptr s) (physinfo s) (next_id s) (log s).
Definition set_mutex p v s := mkKscan (pid s) (sysfs_test_func s) (sysfs_test_run s) (sleep_millisecs s)
  (<[p := v]> (mutex s)) (proc_test_const s) (proc_test_root_const s) (de s) (phys_ptr s) (physinfo s) (next_id s) (log s).
Definition set_const p d s := mkKscan (pid s) (sysfs_test_func s) (sysfs_test_run s) (sleep_millisecs s)
  (mutex s) (<[p := d]> (proc_test_const s)) (proc_test_root_const s) (de s) (phys_ptr s) (physinfo s) (next_id s) (log s).
Definition set_root d s := mkKscan (pid s) (sysfs_test_func s) (sysfs_test_run s) (sleep_millisecs s)
  (mutex s) (proc_test_const s) d (de s) (phys_ptr s) (physinfo s) (next_id s) (log s).
Definition set_de d s := mkKscan (pid s) (sysfs_test_func s) (sysfs_test_run s) (sleep_millisecs s)
  (mutex s) (proc_test_const s) (proc_test_root_const s) d (phys_ptr s) (physinfo s) (next_id s) (log s).
Definition set_phys d tab s := mkKscan (pid s) (sysfs_test_func s) (sysfs_test_run s) (sleep_millisecs s)
  (mutex s) (proc_test_const s) (proc_test_root_const s) (de s) d tab (next_id s) (log s).
Definition logged op s := mkKscan (pid s) (sysfs_test_func s) (sysfs_test_run s) (sleep_millisecs s)
  (mutex s) (proc_test_const s) (proc_test_root_const s) (de s) (phys_ptr s) (physinfo s)
  (next_id s) (log s ++ [op]).
Definition fresh_id s := mkKscan (pid s) (sysfs_test_func s) (sysfs_test_run s) (sleep_millisecs s)
  (mutex s) (proc_test_const s) (proc_test_root_const s) (de s) (phys_ptr s) (physinfo s)
  (S (next_id s)) (log s).

(** Calls into procfs; [proc_remove(NULL)] does nothing. *)
Definition proc_mkdir (name : list Z) (par : option nat) (s : kscan) : nat * kscan :=
  (next_id s, fresh_id (logged (Mkdir (next_id s) par name) s)).
Definition proc_create_data (name : list Z) (par : option nat) (data : file_data) (s : kscan)
    : nat * kscan :=
  (next_id s, fresh_id (logged (CreateFile (next_id s) par name data) s)).
Definition proc_remove (d : option nat) (s : kscan) : kscan :=
  match d with Some id => logged (Remove id) s | None => s end.

Record vma := Vma { vm_start : Z; vm_end : Z }.

(** ** The sysfs attributes *)

Section sysfs.
(** The kernel's number parser: [None] is an error. *)
Context (kstrtoul : list Z → option Z).

(** The checks shared by the store functions. *)
Definition parse_uint (buf : list Z) : option Z :=
  v ← kstrtoul buf;
  if UINT_MAX <? v then None else Some v.

Definition sleep_millisecs_show (s : kscan) : list Z := sprintf_u (sleep_millisecs s) ++ [10].
Definition sleep_millisecs_store (buf : list Z) (s : kscan) : Z * kscan :=
  match parse_uint buf with
  | None => (- EINVAL, s)
  | Some msecs => (lenZ buf, set_sleep (u32 msecs) s)
  end.

Definition pid_show (s : kscan) : list Z := sprintf_u (pid s) ++ [10].
Definition pid_store (buf : list Z) (s : kscan) : Z * kscan :=
  match parse_uint buf with
  | None => (- EINVAL, s)
  | Some tmp => (lenZ buf, set_pid (u32 tmp) s)
  end.

Definition func_show (s : kscan) : list Z := sprintf_u (sysfs_test_func s) ++ [10].
Definition func_store (buf : list Z) (s : kscan) : Z * kscan :=
  match parse_uint buf with
  | None => (- EINVAL, s)
  | Some tmp => (lenZ buf, set_func (u32 tmp) s)
  end.

Definition run_show (s : kscan) : list Z := sprintf_u (sysfs_test_run s) ++ [10].

(** The third component tells whether the thread is woken. *)
Definition run_store (buf : list Z) (s : kscan) : Z * kscan * bool :=
  match parse_uint buf with
  | None => (- EINVAL, s, false)
  | Some flags =>
    if SYSFS_TEST_RUN_START <? flags then (- EINVAL, s, false)
    else
      let s' := if negb (sysfs_test_run s =? flags) then set_run (u32 flags) s else s in
      (lenZ buf, s', negb (Z.land flags SYSFS_TEST_RUN_START =? 0))
  end.
End sysfs.

Definition sysfs_testd_should_run (s : kscan) : bool :=
  negb (Z.land (sysfs_test_run s) SYSFS_TEST_RUN_START =? 0).

(** ** The reports *)

(** What the kernel says about a process and its pages: the task's memory map
    ([None]: no such task; [Some None]: a task without one), the page at an
    address, its flags and its page table entry. *)
Class Machine := {
  page : Type;
  PAGE_SIZE : Z;
  task_mm : Z → option (option (list vma));
  follow_page : vma → Z → option page;
  PageAnon : page → Z;
  page_referenced : page → Z;
  pte_at : Z → Z
}.

Section reports.
Context `{Machine}.

Definition mmap_of (p : Z) : res (list vma) :=
  match task_mm p with
  | Some (Some vmas) => Ok vmas
  | _ => Undef NullDeref
  end.

(** [sprintf(pid_char, "%d", pid)] into seven bytes. *)
Definition pid_char (s : kscan) : res (list Z) :=
  let text := if pid s <? 2 ^ 31 then sprintf_u (pid s) else 45 :: sprintf_u (2 ^ 32 - pid s) in
  _ ← require (lenZ text + 1 <=? 7) OutOfBounds;
  Ok text.

(** [mutex[pid]] (32768 elements) and [proc_test_const[pid]] (32767). *)
Definition mutex_at (s : kscan) : res Z :=
  _ ← require (pid s <? 32768) OutOfBounds;
  Ok (default 0 (mutex s !! pid s)).
Definition const_at (s : kscan) : res (option nat) :=
  _ ← require (pid s <? 32767) OutOfBounds;
  Ok (proc_test_const s !! pid s).
Definition store_const (d : nat) (s : kscan) : res kscan :=
  _ ← require (pid s <? 32767) OutOfBounds;
  Ok (set_const (pid s) d s).

(** The [while (vma_ptr)] with its [int] counter, which wraps round (the kernel
    is compiled with -fno-strict-overflow). *)
Definition count_vmas (vmas : list vma) : Z := foldl (λ vma_count _, s32 (vma_count + 1)) 0 vmas.

(** The [if (de != NULL);] in front of the removal has no effect. *)
Definition print_vma_count (s : kscan) : res kscan :=
  name ← pid_char s;
  m ← mutex_at s;
  s1 ← (if m =? 0 then
          let '(d, s1) := proc_mkdir name (proc_test_root_const s) s in
          s2 ← store_const d s1;
          Ok (set_mutex (pid s) 1 s2)
        else Ok s);
  vmas ← mmap_of (pid s);
  let vma_count := count_vmas vmas in
  let s2 := proc_remove (de s1) s1 in
  dir ← const_at s2;
  let '(f, s3) := proc_create_data (chars "vma_count") dir (StackInt vma_count) s2 in
  Ok (set_de (Some f) s3).

(** The four [int] counters. *)
Record page_counts := Counts { file : Z; active_file : Z; anon : Z; active_anon : Z }.

Definition count_page (p : page) (c : page_counts) : page_counts :=
  let active := negb (page_referenced p =? 0) in
  if PageAnon p =? 1 then
    Counts (file c) (active_file c) (s32 (anon c + 1))
      (if active then s32 (active_anon c + 1) else active_anon c)
  else
    Counts (s32 (file c + 1)) (if active then s32 (active_file c + 1) else active_file c)
      (anon c) (active_anon c).

(** The [do ... while (addr < vm_end - vm_start)] over one area. *)
Fixpoint count_area (fuel : nat) (v : vma) (addr : Z) (c : page_counts) : res page_counts :=
  match fuel with
  | O => OutOfFuel
  | S fuel =>
    let pages := follow_page v (u64 (vm_start v + addr)) in
    let addr := u64 (addr + PAGE_SIZE) in
    let c := match pages with Some p => count_page p c | None => c end in
    if addr <? u64 (vm_end v - vm_start v) then count_area fuel v addr c else Ok c
  end.

Fixpoint count_areas (fuel : nat) (vmas : list vma) (c : page_counts) : res page_counts :=
  match vmas with
  | [] => Ok c
  | v :: vmas => c ← count_area fuel v 0 c; count_areas fuel vmas c
  end.

Definition print_active_inactive_page_count (fuel : nat) (s : kscan) : res kscan :=
  name ← pid_char s;
  m ← mutex_at s;
  s1 ← (if m =? 1 then
          dir ← const_at s;
          Ok (set_mutex (pid s) 0 (proc_remove dir s))
        else Ok s);
  let '(d, s2) := proc_mkdir name (proc_test_root_const s1) s1 in
  s3 ← store_const d s2;
  let s4 := set_mutex (pid s) 1 s3 in
  vmas ← mmap_of (pid s);
  c ← count_areas fuel vmas (Counts 0 0 0 0);
  dir ← const_at s4;
  let '(_, s5) := proc_create_data (chars "file") dir (StackInt (file c)) s4 in
  let '(_, s6) := proc_create_data (chars "active_file") dir (StackInt (active_file c)) s5 in
  let '(_, s7) := proc_create_data (chars "anon") dir (StackInt (anon c)) s6 in
  let '(_, s8) := proc_create_data (chars "active_anon") dir (StackInt (active_anon c)) s7 in
  Ok s8.

(** One line of the third report: virtual and physical address. *)
Definition phys_addr (addr : Z) : Z :=
  Z.lor (Z.land (pte_at addr) (2 ^ 64 - PAGE_SIZE)) (Z.land addr (PAGE_SIZE - 1)).

(** The [for] loop over one area; the lines go to [physinfo.phys], which has
    [CHAR_MAX_LENTH] rows. *)
Fixpoint phys_area (fuel : nat) (v : vma) (addr : Z) (lines : list (Z * Z)) : res (list (Z * Z)) :=
  match fuel with
  | O => OutOfFuel
  | S fuel =>
    if addr <? vm_end v then
      match follow_page v addr with
      | Some _ =>
        _ ← require (lenZ lines <? CHAR_MAX_LENTH) OutOfBounds;
        phys_area fuel v (u64 (addr + PAGE_SIZE)) (lines ++ [(addr, phys_addr addr)])
      | None => phys_area fuel v (u64 (addr + PAGE_SIZE)) lines
      end
    else Ok lines
  end.

Fixpoint phys_areas (fuel : nat) (vmas : list vma) (lines : list (Z * Z)) : res (list (Z * Z)) :=
  match vmas with
  | [] => Ok lines
  | v :: vmas => lines ← phys_area fuel v (vm_start v) lines; phys_areas fuel vmas lines
  end.

Definition print_phys_num (fuel : nat) (s : kscan) : res kscan :=
  vmas ← mmap_of (pid s);
  lines ← phys_areas fuel vmas [];
  let s1 := proc_remove (phys_ptr s) s in
  let '(f, s2) := proc_create_data (chars "phys_addr") (proc_test_root_const s1) PhysTable s1 in
  Ok (set_phys (Some f) lines s2).

Definition sysfs_test_to_do (fuel : nat) (s : kscan) : res kscan :=
  if sysfs_test_func s =? 1 then print_vma_count s
  else if sysfs_test_func s =? 2 then print_active_inactive_page_count fuel s
  else if sysfs_test_func s =? 3 then print_phys_num fuel s
  else Ok s.

(** ** The thread *)

Inductive waiting := Timeout (msecs : Z) | WaitEvent.

(** One round of the loop of [sysfs_testd_thread]. *)
Definition thread_round (fuel : nat) (s : kscan) : res (kscan * waiting) :=
  s' ← (if sysfs_testd_should_run s then sysfs_test_to_do fuel s else Ok s);
  Ok (s', if sysfs_testd_should_run s' then Timeout (sleep_millisecs s') else WaitEvent).
End reports.

(** [cat] on one of the files: [test_show] follows the pointer it was created
    with, [phys_show] prints the table. *)
Inductive shown := Number (v : Z) | Lines (l : list (Z * Z)).

Definition show_file (s : kscan) (d : file_data) : res shown :=
  match d with
  | StackInt _ => Undef Dangling
  | PhysTable => Ok (Lines (physinfo s))
  end.

(** ** Loading and unloading

    The arguments are the outcomes of [proc_mkdir], [kthread_run] and
    [sysfs_create_group]. *)
Definition sysfs_test_init (mkdir_ok : bool) (kthread_err group_err : Z) (s : kscan)
    : Z * kscan * bool :=
  if negb mkdir_ok then (- EINVAL, set_root None s, false)
  else
    let '(d, s1) := proc_mkdir (chars "kmscan") None s in
    let s2 := set_root (Some d) s1 in
    if negb (kthread_err =? 0) then (kthread_err, s2, false)
    else if negb (group_err =? 0) then (group_err, s2, false)
    else (0, s2, true).

Definition sysfs_test_exit (s : kscan) : kscan := proc_remove (proc_test_root_const s) s.

(** ** Properties of the attributes *)

(** The ranges of the variables behind the attributes. *)
Record kscan_ok (s : kscan) : Prop := {
  ok_pid : 0 <= pid s < 2 ^ 32;
  ok_func : 0 <= sysfs_test_func s < 2 ^ 32;
  ok_sleep : 0 <= sleep_millisecs s < 2 ^ 32;
  ok_run : sysfs_test_run s = SYSFS_TEST_RUN_STOP ∨ sysfs_test_run s = SYSFS_TEST_RUN_START
}.

(** The attributes do not change in the calls of procfs. *)
Definition same_attrs (s s' : kscan) : Prop :=
  pid s' = pid s ∧ sysfs_test_func s' = sysfs_test_func s ∧
  sleep_millisecs s' = sleep_millisecs s ∧ sysfs_test_run s' = sysfs_test_run s.

Lemma same_attrs_ok s s' : same_attrs s s' → kscan_ok s → kscan_ok s'.
Proof. intros (E1 & E2 & E3 & E4) []. split; rewrite ?E1, ?E2, ?E3, ?E4; done. Qed.

Lemma same_attrs_refl s : same_attrs s s.
Proof. done. Qed.

Lemma same_attrs_trans s1 s2 s3 : same_attrs s1 s2 → same_attrs s2 s3 → same_attrs s1 s3.
Proof. unfold same_attrs. intros (?&?&?&?) (?&?&?&?). split_and!; congruence. Qed.

Lemma same_attrs_remove d s : same_attrs s (proc_remove d s).
Proof. by destruct d. Qed.

Lemma same_attrs_mkdir name par s d s' : proc_mkdir name par s = (d, s') → same_attrs s s'.
Proof. by intros [= _ <-]. Qed.

Lemma same_attrs_create name par data s f s' :
  proc_create_data name par data s = (f, s') → same_attrs s s'.
Proof. by intros [= _ <-]. Qed.

Lemma same_attrs_mutex p v s : same_attrs s (set_mutex p v s).
Proof. done. Qed.

Lemma same_attrs_de d s : same_attrs s (set_de d s).
Proof. done. Qed.

Lemma same_attrs_phys d l s : same_attrs s (set_phys d l s).
Proof. done. Qed.

Lemma Ok_inj {A} (a b : A) : Ok a = Ok b → a = b.
Proof. by intros [= ->]. Qed.

(** Chains the steps of a report. *)
Ltac attrs_chain :=
  repeat match goal with
  | H : same_attrs ?a ?b |- same_attrs ?a _ => eapply (same_attrs_trans a b); [exact H|clear H]
  end.

Section report_facts.
Context `{Machine}.

Lemma store_const_attrs d s s' : store_const d s = Ok s' → same_attrs s s'.
Proof. unfold store_const, require. case_goal; [|done]. by intros [= <-]. Qed.

Lemma print_vma_count_attrs s s' : print_vma_count s = Ok s' → same_attrs s s'.
Proof.
  unfold print_vma_count. intros (name & _ & Hr)%bind_ok.
  apply bind_ok in Hr as (m & _ & Hr). apply bind_ok in Hr as (s1 & H1 & Hr).
  apply bind_ok in Hr as (vmas & _ & Hr). apply bind_ok in Hr as (dir & _ & Hr).
  destruct (proc_create_data _ _ _ _) as [f s3] eqn:E3. apply Ok_inj in Hr as <-.
  assert (E : same_attrs s s1).
  { destruct (m =? 0); [|by apply Ok_inj in H1 as <-].
    destruct (proc_mkdir _ _ _) as [d s0] eqn:E0. apply bind_ok in H1 as (s2 & H2 & H1).
    apply Ok_inj in H1 as <-. apply store_const_attrs in H2. apply same_attrs_mkdir in E0.
    attrs_chain. apply same_attrs_mutex. }
  apply same_attrs_create in E3. attrs_chain.
  eapply same_attrs_trans; [apply (same_attrs_remove (de s1))|]. attrs_chain. apply same_attrs_de.
Qed.

Lemma print_active_inactive_attrs fuel s s' :
  print_active_inactive_page_count fuel s = Ok s' → same_attrs s s'.
Proof.
  unfold print_active_inactive_page_count. intros (name & _ & Hr)%bind_ok.
  apply bind_ok in Hr as (m & _ & Hr). apply bind_ok in Hr as (s1 & H1 & Hr).
  destruct (proc_mkdir _ _ _) as [d s2] eqn:E2. apply bind_ok in Hr as (s3 & H3 & Hr).
  apply bind_ok in Hr as (vmas & _ & Hr). apply bind_ok in Hr as (c & _ & Hr).
  apply bind_ok in Hr as (dir & _ & Hr).
  destruct (proc_create_data _ _ (StackInt (file c)) _) as [? s5] eqn:E5.
  destruct (proc_create_data _ _ (StackInt (active_file c)) _) as [? s6] eqn:E6.
  destruct (proc_create_data _ _ (StackInt (anon c)) _) as [? s7] eqn:E7.
  destruct (proc_create_data _ _ (StackInt (active_anon c)) _) as [? s8] eqn:E8.
  apply Ok_inj in Hr as <-.
  assert (E : same_attrs s s1).
  { destruct (m =? 1); [|by apply Ok_inj in H1 as <-].
    apply bind_ok in H1 as (d' & _ & H1). apply Ok_inj in H1 as <-.
    eapply same_attrs_trans; [apply (same_attrs_remove d')|apply same_attrs_mutex]. }
  apply store_const_attrs in H3. apply same_attrs_mkdir in E2.
  apply same_attrs_create in E5, E6, E7, E8. attrs_chain.
  eapply same_attrs_trans; [apply (same_attrs_mutex (pid s) 1)|]. attrs_chain. apply same_attrs_refl.
Qed.

Lemma print_phys_num_attrs fuel s s' : print_phys_num fuel s = Ok s' → same_attrs s s'.
Proof.
  unfold print_phys_num. intros (vmas & _ & Hr)%bind_ok. apply bind_ok in Hr as (lines & _ & Hr).
  destruct (proc_create_data _ _ _ _) as [f s2] eqn:E2. apply Ok_inj in Hr as <-.
  apply same_attrs_create in E2.
  eapply same_attrs_trans; [apply (same_attrs_remove (phys_ptr s))|]. attrs_chain. apply same_attrs_phys.
Qed.

Lemma sysfs_test_to_do_attrs fuel s s' : sysfs_test_to_do fuel s = Ok s' → same_attrs s s'.
Proof.
  unfold sysfs_test_to_do. repeat case_goal.
  - apply print_vma_count_attrs.
  - apply print_active_inactive_attrs.
  - apply print_phys_num_attrs.
  - by intros [= <-].
Qed.

(** Whatever is written to the attributes and however often the thread
    runs, the variables stay in their ranges, in particular the run flag is
    always 0 or 1; a rejected write changes nothing. *)
Theorem kscan_invariant kstrtoul fuel buf s :
  kscan_ok s → (∀ v, kstrtoul buf = Some v → 0 <= v) →
  (∀ ret s', (ret, s') = sleep_millisecs_store kstrtoul buf s ∨ (ret, s') = pid_store kstrtoul buf s ∨
     (ret, s') = func_store kstrtoul buf s ∨ (∃ w, (ret, s', w) = run_store kstrtoul buf s) →
     kscan_ok s' ∧ (ret < 0 → ret = - EINVAL ∧ s' = s)) ∧
  (∀ s' w, thread_round fuel s = Ok (s', w) → kscan_ok s').
Proof.
  intros Hs Hk. split.
  - assert (Hp : ∀ v, parse_uint kstrtoul buf = Some v → 0 <= v < 2 ^ 32).
    { unfold parse_uint. destruct (kstrtoul buf) as [v|] eqn:E; [|done]. cbn.
      specialize (Hk v eq_refl). unfold UINT_MAX. case_goal; [done|]. intros ? [= <-]. lia. }
    unfold sleep_millisecs_store, pid_store, func_store, run_store.
    destruct (parse_uint kstrtoul buf) as [v|].
    2:{ intros ret s' [E|[E|[E|[w E]]]]; injection E as -> ->; done. }
    specialize (Hp v eq_refl). destruct Hs as [H1 H2 H3 H4].
    intros ret s' [E|[E|[E|[w E]]]].
    1-3: injection E as -> ->; (split; [|lia]); split; cbn; rewrite ?u32_small by lia; done.
    unfold SYSFS_TEST_RUN_START in E. destruct (Z.ltb_spec 1 v).
    { injection E as -> -> ->. done. }
    injection E as -> -> ->. split; [|lia]. case_goal; [|by split].
    split; cbn; rewrite ?u32_small by lia; try done.
    unfold SYSFS_TEST_RUN_STOP, SYSFS_TEST_RUN_START. lia.
  - unfold thread_round. intros s' w (s1 & H1 & [= <- <-])%bind_ok.
    destruct (sysfs_testd_should_run s); [|by injection H1 as <-].
    apply sysfs_test_to_do_attrs in H1. by eapply same_attrs_ok.
Qed.
End report_facts.

(** Reading an attribute and writing the text back leaves it as it was,
    for every value the attribute can hold. *)
Theorem attributes_roundtrip kstrtoul s :
  kscan_ok s → (∀ n, 0 <= n < 2 ^ 64 → kstrtoul (sprintf_u n ++ [10]) = Some n) →
  (pid_store kstrtoul (pid_show s) s).2 = s ∧
  (func_store kstrtoul (func_show s) s).2 = s ∧
  (sleep_millisecs_store kstrtoul (sleep_millisecs_show s) s).2 = s ∧
  (run_store kstrtoul (run_show s) s).1.2 = s.
Proof.
  intros [H1 H2 H3 H4] Hk. unfold SYSFS_TEST_RUN_STOP, SYSFS_TEST_RUN_START in *.
  assert (Hp : ∀ n, 0 <= n < 2 ^ 32 → parse_uint kstrtoul (sprintf_u n ++ [10]) = Some n).
  { intros n Hn. unfold parse_uint. rewrite Hk by lia. cbn. unfold UINT_MAX.
    by rewrite (proj2 (Z.ltb_ge _ _)) by lia. }
  unfold pid_store, func_store, sleep_millisecs_store, run_store, pid_show, func_show,
    sleep_millisecs_show, run_show, SYSFS_TEST_RUN_START.
  rewrite !Hp by lia. rewrite !u32_small by lia. cbn [snd fst].
  split_and!; [by destruct s..|]. rewrite (proj2 (Z.ltb_ge 1 _)) by lia. by rewrite Z.eqb_refl.
Qed.

(** ** The page reports *)

Section pages.
Context `{Machine} (HPS : 0 < PAGE_SIZE).

(** An area whose addresses, one page beyond its end included, fit an
    [unsigned long]. *)
Definition area_ok (v : vma) : Prop :=
  0 <= vm_start v <= vm_end v ∧ vm_end v + PAGE_SIZE < 2 ^ 64.

(** The number of pages the area touches. *)
Definition area_pages (v : vma) : Z := (vm_end v - vm_start v + PAGE_SIZE - 1) / PAGE_SIZE.

Definition addresses (v : vma) (k n : Z) : list Z :=
  (λ j, vm_start v + j * PAGE_SIZE) <$> seqZ k n.

Lemma addresses_cons v k n :
  0 < n → addresses v k n = (vm_start v + k * PAGE_SIZE) :: addresses v (k + 1) (n - 1).
Proof.
  intros Hn. unfold addresses. rewrite seqZ_cons, fmap_cons by lia.
  by replace (Z.pred n) with (n - 1) by lia.
Qed.

Lemma area_pages_nonneg v : area_ok v → 0 <= area_pages v.
Proof. intros [? _]. apply Z.div_pos; lia. Qed.

(** Page [k] begins before the end of the area exactly when [k] is one of its
    pages. *)
Lemma area_pages_lt v k : area_ok v → 0 <= k →
  (k * PAGE_SIZE < vm_end v - vm_start v ↔ k < area_pages v).
Proof.
  intros [Hv _] Hk. unfold area_pages. assert (Hne : PAGE_SIZE ≠ 0) by lia.
  pose proof (Z.div_mod (vm_end v - vm_start v + PAGE_SIZE - 1) PAGE_SIZE Hne).
  pose proof (Z.mod_pos_bound (vm_end v - vm_start v + PAGE_SIZE - 1) PAGE_SIZE HPS).
  set (q := _ / PAGE_SIZE) in *. split; intros Hlt.
  - destruct (Z.lt_ge_cases k q) as [|Hge]; [done|].
    assert (PAGE_SIZE * q <= PAGE_SIZE * k) by (apply Z.mul_le_mono_nonneg_l; lia). lia.
  - assert (PAGE_SIZE * (k + 1) <= PAGE_SIZE * q) by (apply Z.mul_le_mono_nonneg_l; lia). lia.
Qed.

(** The pages an area has in memory; the counting loop looks at one page even
    of an empty area. *)
Definition pages_of (v : vma) : list page :=
  omap (follow_page v) (addresses v 0 (Z.max 1 (area_pages v))).

Lemma count_area_from m v k c fuel :
  area_ok v → 0 <= k → k + Z.of_nat m = Z.max 1 (area_pages v) → (1 ≤ m)%nat → (m ≤ fuel)%nat →
  count_area fuel v (k * PAGE_SIZE) c =
    Ok (foldl (λ c p, count_page p c) c (omap (follow_page v) (addresses v k (Z.of_nat m)))).
Proof.
  intros Hv. revert k c fuel. induction m as [|m IH]; intros k c fuel Hk Hm Hpos Hfuel; [lia|].
  destruct fuel as [|fuel]; [lia|].
  assert (Hstart : k * PAGE_SIZE <= vm_end v - vm_start v).
  { destruct (decide (k = 0)) as [->|]; [destruct Hv; lia|].
    assert (k * PAGE_SIZE < vm_end v - vm_start v); [|lia]. apply area_pages_lt; [done|lia|lia]. }
  assert (0 <= k * PAGE_SIZE) by (apply Z.mul_nonneg_nonneg; lia).
  destruct Hv as [Hv1 Hv2]. cbn [count_area].
  rewrite (u64_small (vm_start v + k * PAGE_SIZE)), (u64_small (k * PAGE_SIZE + PAGE_SIZE)),
    (u64_small (vm_end v - vm_start v)) by lia.
  replace (k * PAGE_SIZE + PAGE_SIZE) with ((k + 1) * PAGE_SIZE) by lia.
  rewrite addresses_cons by lia. replace (Z.of_nat (S m) - 1) with (Z.of_nat m) by lia.
  assert (Hc : (match follow_page v (vm_start v + k * PAGE_SIZE) with
                | Some p => count_page p c | None => c end) =
    foldl (λ c p, count_page p c) c (omap (follow_page v) [vm_start v + k * PAGE_SIZE])).
  { cbn. by destruct (follow_page v _). }
  rewrite Hc. set (c' := foldl _ c _).
  assert (Hfold : foldl (λ c p, count_page p c) c (omap (follow_page v)
      ((vm_start v + k * PAGE_SIZE) :: addresses v (k + 1) (Z.of_nat m))) =
    foldl (λ c p, count_page p c) c' (omap (follow_page v) (addresses v (k + 1) (Z.of_nat m)))).
  { unfold c'. cbn. by destruct (follow_page v _). }
  rewrite Hfold. clearbody c'. clear Hc Hfold.
  destruct m as [|m].
  - rewrite (proj2 (Z.ltb_ge _ _)); [done|].
    destruct (Z.lt_ge_cases ((k + 1) * PAGE_SIZE) (vm_end v - vm_start v)) as [Hlt|]; [|done].
    apply area_pages_lt in Hlt; [lia|done|lia].
  - rewrite (proj2 (Z.ltb_lt _ _)); [apply IH; lia|]. apply area_pages_lt; [done|lia|lia].
Qed.

Lemma count_areas_ok vmas c fuel :
  Forall area_ok vmas → (∀ v, v ∈ vmas → Z.max 1 (area_pages v) <= Z.of_nat fuel) →
  count_areas fuel vmas c = Ok (foldl (λ c p, count_page p c) c (vmas ≫= pages_of)).
Proof.
  intros Hvs. revert c. induction Hvs as [|v vmas Hv _ IH]; intros c Hfuel; [done|].
  cbn [count_areas]. pose proof (Hfuel v (list_elem_of_here _ _)) as Hf.
  pose proof (area_pages_nonneg v Hv).
  pose proof (count_area_from (Z.to_nat (Z.max 1 (area_pages v))) v 0 c fuel Hv) as E.
  rewrite Z.mul_0_l in E. rewrite E by lia. res_steps. rewrite Z2Nat.id by lia.
  rewrite IH; [|intros; apply Hfuel; by apply list_elem_of_further].
  rewrite bind_cons, foldl_app. done.
Qed.

(** The four numbers, as counts of pages. *)
Definition is_anon (p : page) : Prop := PageAnon p = 1.
Definition is_active (p : page) : Prop := page_referenced p ≠ 0.

Definition tally (ps : list page) : page_counts := {|
  file := lenZ (filter (λ p, ¬ is_anon p) ps);
  active_file := lenZ (filter (λ p, ¬ is_anon p ∧ is_active p) ps);
  anon := lenZ (filter is_anon ps);
  active_anon := lenZ (filter (λ p, is_anon p ∧ is_active p) ps)
|}.

Lemma length_filter_snoc (P : page → Prop) `{∀ x, Decision (P x)} ps p :
  lenZ (filter P (ps ++ [p])) = lenZ (filter P ps) + (if decide (P p) then 1 else 0).
Proof.
  rewrite filter_app, length_app, filter_cons, filter_nil. case_decide; cbn [length]; lia.
Qed.

(** The counters as integers of 32 bits. *)
Definition wrapped (c : page_counts) : page_counts :=
  Counts (s32 (file c)) (s32 (active_file c)) (s32 (anon c)) (s32 (active_anon c)).

Lemma s32_succ x : s32 (s32 x + 1) = s32 (x + 1).
Proof.
  unfold s32. f_equal.
  replace ((x + 2 ^ 31) mod 2 ^ 32 - 2 ^ 31 + 1 + 2 ^ 31) with ((x + 2 ^ 31) mod 2 ^ 32 + 1) by lia.
  rewrite Z.add_mod_idemp_l by lia. f_equal. lia.
Qed.

Lemma tally_snoc ps p : wrapped (tally (ps ++ [p])) = count_page p (wrapped (tally ps)).
Proof.
  unfold tally, count_page, wrapped. cbn [file active_file anon active_anon]. rewrite !length_filter_snoc.
  destruct (Z.eqb_spec (PageAnon p) 1) as [Ha|Ha], (Z.eqb_spec (page_referenced p) 0) as [Hr|Hr];
    cbn [negb file active_file anon active_anon]; unfold is_anon, is_active in *;
    repeat (case_decide; try tauto); rewrite ?s32_succ, ?Z.add_0_r; done.
Qed.

Lemma foldl_tally ps : foldl (λ c p, count_page p c) (Counts 0 0 0 0) ps = wrapped (tally ps).
Proof.
  induction ps as [|p ps IH] using rev_ind; [done|].
  by rewrite foldl_snoc, IH, tally_snoc.
Qed.

Lemma tally_total ps :
  let t := tally ps in
  file t + anon t = lenZ ps ∧ 0 <= active_file t <= file t ∧ 0 <= active_anon t <= anon t.
Proof.
  cbv zeta. unfold tally. cbn [file active_file anon active_anon].
  induction ps as [|p ps IH] using rev_ind; [done|]. rewrite !length_filter_snoc, length_app. cbn [length].
  repeat (case_decide; try tauto); lia.
Qed.

Lemma count_vmas_ok vmas : count_vmas vmas = s32 (lenZ vmas).
Proof.
  unfold count_vmas. induction vmas as [|v vmas IH] using rev_ind; [done|].
  rewrite foldl_snoc, IH, s32_succ, length_app. f_equal. cbn [length]. lia.
Qed.

(** The lines of the third report. *)
Definition line_at (v : vma) (a : Z) : option (Z * Z) :=
  match follow_page v a with Some _ => Some (a, phys_addr a) | None => None end.

Definition mapped_lines (v : vma) : list (Z * Z) :=
  omap (line_at v) (addresses v 0 (area_pages v)).

Lemma phys_area_from m v k lines fuel :
  area_ok v → 0 <= k → k + Z.of_nat m = area_pages v → (m < fuel)%nat →
  lenZ lines <= CHAR_MAX_LENTH →
  let rest := omap (line_at v) (addresses v k (Z.of_nat m)) in
  phys_area fuel v (vm_start v + k * PAGE_SIZE) lines =
    if lenZ lines + lenZ rest <=? CHAR_MAX_LENTH then Ok (lines ++ rest) else Undef OutOfBounds.
Proof.
  intros Hv. revert k lines fuel. induction m as [|m IH]; intros k lines fuel Hk Hm Hfuel Hlen rest;
    (destruct fuel as [|fuel]; [lia|]); cbn [phys_area]; unfold rest.
  - rewrite (proj2 (Z.ltb_ge _ _)).
    + change (addresses v k (Z.of_nat 0)) with (@nil Z). cbn [omap list_omap].
      rewrite app_nil_r. by rewrite (proj2 (Z.leb_le _ _)) by (cbn [length]; lia).
    + destruct (Z.lt_ge_cases (k * PAGE_SIZE) (vm_end v - vm_start v)) as [Hlt|]; [|lia].
      apply area_pages_lt in Hlt; [lia|done|lia].
  - assert (Hin : k * PAGE_SIZE < vm_end v - vm_start v) by (apply area_pages_lt; [done|lia|lia]).
    assert (0 <= k * PAGE_SIZE) by (apply Z.mul_nonneg_nonneg; lia).
    rewrite (proj2 (Z.ltb_lt _ _)) by lia.
    rewrite u64_small by (destruct Hv; lia).
    replace (vm_start v + k * PAGE_SIZE + PAGE_SIZE) with (vm_start v + (k + 1) * PAGE_SIZE) by lia.
    rewrite addresses_cons by lia. replace (Z.of_nat (S m) - 1) with (Z.of_nat m) by lia.
    set (a := vm_start v + k * PAGE_SIZE). set (more := addresses v (k + 1) (Z.of_nat m)).
    assert (E : omap (line_at v) (a :: more) = match follow_page v a with
      | Some _ => (a, phys_addr a) :: omap (line_at v) more | None => omap (line_at v) more end).
    { cbn. unfold line_at at 1. by destruct (follow_page v a). }
    rewrite E. destruct (follow_page v a) as [p|].
    + destruct (Z.ltb_spec (lenZ lines) CHAR_MAX_LENTH) as [Hroom|Hfull]; res_steps.
      * rewrite IH by (lia || (rewrite length_app; cbn [length]; lia)).
        fold more. rewrite length_app, <- app_assoc. cbn [length app].
        by replace (Z.of_nat (length lines + 1) + lenZ (omap (line_at v) more))
          with (lenZ lines + Z.of_nat (S (length (omap (line_at v) more)))) by lia.
      * by rewrite (proj2 (Z.leb_gt _ _)) by (cbn [length]; lia).
    + by rewrite IH by lia.
Qed.

Lemma phys_areas_ok vmas lines fuel :
  Forall area_ok vmas → (∀ v, v ∈ vmas → area_pages v < Z.of_nat fuel) →
  lenZ lines <= CHAR_MAX_LENTH →
  phys_areas fuel vmas lines =
    if lenZ lines + lenZ (vmas ≫= mapped_lines) <=? CHAR_MAX_LENTH
    then Ok (lines ++ (vmas ≫= mapped_lines)) else Undef OutOfBounds.
Proof.
  intros Hvs. revert lines. induction Hvs as [|v vmas Hv _ IH]; intros lines Hfuel Hlen.
  { cbn [phys_areas mbind list_bind].
    rewrite app_nil_r. by rewrite (proj2 (Z.leb_le _ _)) by (cbn [length]; lia). }
  cbn [phys_areas]. rewrite bind_cons. pose proof (Hfuel v (list_elem_of_here _ _)) as Hf.
  pose proof (area_pages_nonneg v Hv).
  pose proof (phys_area_from (Z.to_nat (area_pages v)) v 0 lines fuel Hv) as E.
  rewrite Z.mul_0_l, Z.add_0_r, Z2Nat.id in E by lia. cbn zeta in E. rewrite E by lia. clear E.
  fold (mapped_lines v). rewrite length_app.
  destruct (Z.leb_spec (lenZ lines + lenZ (mapped_lines v)) CHAR_MAX_LENTH) as [Hroom|Hfull]; res_steps.
  - rewrite IH; [|intros; apply Hfuel; by apply list_elem_of_further|rewrite length_app; lia].
    rewrite length_app, <- app_assoc. by replace (Z.of_nat (length lines + length (mapped_lines v)) +
      lenZ (vmas ≫= mapped_lines)) with (lenZ lines + Z.of_nat (length (mapped_lines v) +
      length (vmas ≫= mapped_lines))) by lia.
  - by rewrite (proj2 (Z.leb_gt _ _)) by lia.
Qed.

(** C37: the page report counts the pages in memory of every area, split by
    kind and by activity, in [int] counters that wrap round at 2^31, and its
    loops end after one round per page. With fewer than 2^31 pages the numbers
    are exact. *)
Theorem page_counts_correct vmas fuel :
  Forall area_ok vmas → (∀ v, v ∈ vmas → Z.max 1 (area_pages v) <= Z.of_nat fuel) →
  let ps := vmas ≫= pages_of in
  count_areas fuel vmas (Counts 0 0 0 0) = Ok (Counts
    (s32 (lenZ (filter (λ p, PageAnon p ≠ 1) ps)))
    (s32 (lenZ (filter (λ p, PageAnon p ≠ 1 ∧ page_referenced p ≠ 0) ps)))
    (s32 (lenZ (filter (λ p, PageAnon p = 1) ps)))
    (s32 (lenZ (filter (λ p, PageAnon p = 1 ∧ page_referenced p ≠ 0) ps)))) ∧
  (lenZ ps < 2 ^ 31 → ∀ c, count_areas fuel vmas (Counts 0 0 0 0) = Ok c →
     c = tally ps ∧ file c + anon c = lenZ ps ∧
     0 <= active_file c <= file c ∧ 0 <= active_anon c <= anon c).
Proof.
  intros Hvs Hfuel ps. rewrite count_areas_ok, foldl_tally by done. fold ps. split; [done|].
  intros Hn c [= <-]. pose proof (tally_total ps) as (Ht & Hf & Ha).
  assert (E : wrapped (tally ps) = tally ps).
  { unfold wrapped. rewrite !s32_small by lia. by destruct (tally ps). }
  rewrite E. done.
Qed.

(** The address report lists every page in memory with its physical
    address when there are at most 2048; with more, it writes behind the end
    of [physinfo]. *)
Theorem phys_report_bounds vmas fuel s :
  task_mm (pid s) = Some (Some vmas) → Forall area_ok vmas →
  (∀ v, v ∈ vmas → area_pages v < Z.of_nat fuel) →
  let lines := vmas ≫= mapped_lines in
  if lenZ lines <=? 2048 then
    ∃ s', print_phys_num fuel s = Ok s' ∧ physinfo s' = lines ∧ show_file s' PhysTable = Ok (Lines lines)
  else print_phys_num fuel s = Undef OutOfBounds.
Proof.
  intros Hmm Hvs Hfuel lines. unfold print_phys_num, mmap_of. rewrite Hmm. res_steps.
  rewrite phys_areas_ok by (done || (cbn; unfold CHAR_MAX_LENTH; lia)). cbn [length app].
  change (Z.of_nat 0) with 0. rewrite Z.add_0_l. fold lines. unfold CHAR_MAX_LENTH.
  destruct (lenZ lines <=? 2048); res_steps; [|done]. by eexists.
Qed.
End pages.

(** ** The entries of /proc/kmscan *)

(** Entries alive, oldest first, with their parents. Removing an entry removes
    what is below it; removing one that is not alive, or creating one below a
    directory that is not alive, is an error. *)
Definition drop_entry (id : nat) (live : list (nat * option nat)) : list (nat * option nat) :=
  foldl (λ kept e,
    if bool_decide (e.1 = id) then kept
    else match e.2 with
         | None => kept ++ [e]
         | Some p => if bool_decide (p ∈ kept.*1) then kept ++ [e] else kept
         end) [] live.

Definition alive (par : option nat) (live : list (nat * option nat)) : bool :=
  match par with Some p => bool_decide (p ∈ live.*1) | None => true end.

Fixpoint live_entries (ops : list proc_op) (live : list (nat * option nat))
    : option (list (nat * option nat)) :=
  match ops with
  | [] => Some live
  | Mkdir id par _ :: ops | CreateFile id par _ _ :: ops =>
    if alive par live then live_entries ops (live ++ [(id, par)]) else None
  | Remove id :: ops =>
    if bool_decide (id ∈ live.*1) then live_entries ops (drop_entry id live) else None
  end.

Section entries.
Context `{Machine}.

Lemma pid_char_ok s : 0 <= pid s < 1000000 → pid_char s = Ok (sprintf_u (pid s)).
Proof.
  intros Hp. unfold pid_char. rewrite (proj2 (Z.ltb_lt _ _)) by lia.
  pose proof (length_digits 20 (pid s) [] 6 ltac:(lia) ltac:(lia)) as Hl. cbn [length] in Hl.
  unfold sprintf_u in *. by rewrite (proj2 (Z.leb_le _ _)) by lia.
Qed.

(** The attribute accepts process numbers that the two tables of the reports
    do not have. *)
Theorem pid_beyond_tables fuel s :
  32768 <= pid s →
  print_vma_count s = Undef OutOfBounds ∧ print_active_inactive_page_count fuel s = Undef OutOfBounds.
Proof.
  intros Hp. unfold print_vma_count, print_active_inactive_page_count, pid_char, mutex_at, require.
  rewrite (proj2 (Z.ltb_ge (pid s) 32768)) by lia. by destruct (_ <=? 7).
Qed.

(** The module loaded and a process chosen. *)
Definition loaded (p : Z) : kscan := set_pid p (sysfs_test_init true 0 0 kscan_initial).1.2.

(** What procfs is asked for by the first report, then the second, then the
    first again. *)
Definition first_report (p n : Z) : list proc_op :=
  [Mkdir 0 None (chars "kmscan"); Mkdir 1 (Some 0%nat) (sprintf_u p);
   CreateFile 2 (Some 1%nat) (chars "vma_count") (StackInt n)].
Definition second_report (p : Z) (c : page_counts) : list proc_op :=
  [Remove 1; Mkdir 3 (Some 0%nat) (sprintf_u p);
   CreateFile 4 (Some 3%nat) (chars "file") (StackInt (file c));
   CreateFile 5 (Some 3%nat) (chars "active_file") (StackInt (active_file c));
   CreateFile 6 (Some 3%nat) (chars "anon") (StackInt (anon c));
   CreateFile 7 (Some 3%nat) (chars "active_anon") (StackInt (active_anon c))].
Definition third_report (n : Z) : list proc_op :=
  [Remove 2; CreateFile 8 (Some 3%nat) (chars "vma_count") (StackInt n)].

(** Evaluates the calls of a report on an explicit state. *)
Ltac kscan_eval :=
  cbv beta iota zeta delta [mutex_at const_at store_const set_const set_mutex set_de proc_remove
    proc_mkdir proc_create_data fresh_id logged require mbind res_bind pid mutex proc_test_const
    proc_test_root_const sysfs_test_func sysfs_test_run sleep_millisecs de phys_ptr physinfo
    next_id log].

Lemma first_report_ok p vmas :
  0 <= p < 32767 → task_mm p = Some (Some vmas) →
  print_vma_count (loaded p) = Ok (mkKscan p 0 0 20000 (<[p := 1]> ∅) (<[p := 1%nat]> ∅)
    (Some 0%nat) (Some 2%nat) None [] 3 (first_report p (count_vmas vmas))).
Proof.
  intros Hp Hmm. change (loaded p) with
    (mkKscan p 0 0 20000 ∅ ∅ (Some 0%nat) None None [] 1 [Mkdir 0 None (chars "kmscan")]).
  unfold print_vma_count. rewrite pid_char_ok by (cbn; lia). res_steps.
  unfold mutex_at. cbn [pid mutex]. rewrite (proj2 (Z.ltb_lt p 32768)) by lia. res_steps.
  rewrite lookup_empty. cbn [default Z.eqb]. unfold proc_mkdir, store_const. cbn.
  rewrite (proj2 (Z.ltb_lt p 32767)) by lia. cbn. unfold mmap_of. rewrite Hmm. cbn.
  unfold const_at. cbn. rewrite (proj2 (Z.ltb_lt p 32767)) by lia. cbn.
  by rewrite lookup_insert_eq.
Qed.

Lemma second_report_ok p vmas c fuel mx cs lg :
  0 <= p < 32767 → task_mm p = Some (Some vmas) →
  count_areas fuel vmas (Counts 0 0 0 0) = Ok c → mx !! p = Some 1 → cs !! p = Some 1%nat →
  print_active_inactive_page_count fuel
    (mkKscan p 0 0 20000 mx cs (Some 0%nat) (Some 2%nat) None [] 3 lg) =
  Ok (mkKscan p 0 0 20000 (<[p := 1]> (<[p := 0]> mx)) (<[p := 3%nat]> cs)
    (Some 0%nat) (Some 2%nat) None [] 8 (lg ++ second_report p c)).
Proof.
  intros Hp Hmm Hc Hmx Hcs. unfold print_active_inactive_page_count, mmap_of.
  rewrite pid_char_ok by (cbn; lia). cbn [pid]. rewrite Hmm. res_steps. rewrite Hc. res_steps.
  assert (H1 : (p <? 32768) = true) by lia. assert (H2 : (p <? 32767) = true) by lia.
  kscan_eval. rewrite H1, Hmx. cbn [default Z.eqb Pos.eqb from_option id]. kscan_eval.
  rewrite H2, Hcs. kscan_eval. rewrite H2. kscan_eval. rewrite H2, lookup_insert_eq.
  kscan_eval. by rewrite <- !app_assoc.
Qed.

Lemma third_report_ok p vmas mx cs lg :
  0 <= p < 32767 → task_mm p = Some (Some vmas) → mx !! p = Some 1 → cs !! p = Some 3%nat →
  print_vma_count (mkKscan p 0 0 20000 mx cs (Some 0%nat) (Some 2%nat) None [] 8 lg) =
  Ok (mkKscan p 0 0 20000 mx cs (Some 0%nat) (Some 8%nat) None [] 9 (lg ++ third_report (count_vmas vmas))).
Proof.
  intros Hp Hmm Hmx Hcs. unfold print_vma_count, mmap_of.
  rewrite pid_char_ok by (cbn; lia). res_steps.
  assert (H1 : (p <? 32768) = true) by lia. assert (H2 : (p <? 32767) = true) by lia.
  kscan_eval. rewrite H1, Hmx. cbn [default Z.eqb from_option id]. kscan_eval. rewrite Hmm. kscan_eval.
  rewrite H2, Hcs. kscan_eval. by rewrite <- app_assoc.
Qed.

(** Switching from the first report to the second and back makes the
    module remove an entry that is already gone: the second report removes the
    process's directory with the file in it, but not the pointer [de] that the
    first report keeps to that file. *)
Theorem reports_remove_twice p vmas c fuel :
  0 <= p < 32767 → task_mm p = Some (Some vmas) →
  count_areas fuel vmas (Counts 0 0 0 0) = Ok c →
  ∃ s1 s2 s3, print_vma_count (loaded p) = Ok s1 ∧
    print_active_inactive_page_count fuel s1 = Ok s2 ∧ print_vma_count s2 = Ok s3 ∧
    is_Some (live_entries (log s2) []) ∧ live_entries (log s3) [] = None.
Proof.
  intros Hp Hmm Hc. eexists _, _, _. split_and!.
  - by apply first_report_ok.
  - eapply second_report_ok; [done..| |]; by rewrite lookup_insert_eq.
  - eapply third_report_ok; [done..| |]; by rewrite lookup_insert_eq.
  - by eexists.
  - done.
Qed.
End entries.

(** ** Instances *)

(** A process with two areas of three and two pages of 4096 bytes; every page
    is in memory, those of the second area are anonymous. *)
Definition demo_vmas : list vma := [Vma 4194304 4206592; Vma 8388608 8396800].

Definition demo_machine : Machine := {|
  page := Z;
  PAGE_SIZE := 4096;
  task_mm p := if p =? 1234 then Some (Some demo_vmas) else None;
  follow_page _ addr := Some addr;
  PageAnon p := if p <? 8388608 then 0 else 1;
  page_referenced p := p / 4096 mod 2;
  pte_at addr := addr + 2 ^ 40
|}.

#[local] Existing Instance demo_machine.

Lemma demo_page_size : 0 < PAGE_SIZE.
Proof. vm_compute. reflexivity. Qed.

Lemma demo_areas : Forall area_ok demo_vmas.
Proof.
  repeat first [apply Forall_cons_2|apply Forall_nil_2]; split; cbn [vm_start vm_end PAGE_SIZE demo_machine]; lia.
Qed.

(** A parser for decimal numbers, with or without a final newline. *)
Fixpoint parse_digits (s : list Z) (acc : Z) : option Z :=
  match s with
  | [] => Some acc
  | c :: s =>
    if c =? 10 then (if bool_decide (s = []) then Some acc else None)
    else if (48 <=? c) && (c <=? 57) then parse_digits s (10 * acc + (c - 48)) else None
  end.
Definition demo_kstrtoul (s : list Z) : option Z := parse_digits s 0.

Lemma parse_digits_nonneg s acc v : 0 <= acc → parse_digits s acc = Some v → 0 <= v.
Proof.
  revert acc. induction s as [|c s IH]; intros acc Hacc; cbn [parse_digits]; [by intros [= <-]|].
  destruct (c =? 10); [case_bool_decide; [by intros [= <-]|done]|].
  destruct ((48 <=? c) && (c <=? 57)) eqn:E; [|done]. apply IH. lia.
Qed.

Lemma parse_digits_line (ds : list Z) acc :
  Forall (λ c, 48 <= c <= 57) ds →
  parse_digits (ds ++ [10]) acc = Some (foldl (λ a c, 10 * a + (c - 48)) acc ds).
Proof.
  intros Hds. revert acc. induction Hds as [|c ds Hc _ IH]; intros acc; [done|].
  cbn [app foldl]. rewrite <- IH. cbn [parse_digits].
  rewrite (proj2 (Z.eqb_neq c 10)) by lia.
  by assert ((48 <=? c) && (c <=? 57) = true) as -> by lia.
Qed.

Lemma demo_kstrtoul_sprintf n : 0 <= n < 2 ^ 64 → demo_kstrtoul (sprintf_u n ++ [10]) = Some n.
Proof.
  intros Hn. destruct (digits_value 20 n []) as (ds & E1 & E2 & E3); [lia|lia|].
  unfold demo_kstrtoul, sprintf_u. rewrite E1, app_nil_r, parse_digits_line by done. by rewrite E3.
Qed.

Lemma kscan_initial_ok : kscan_ok kscan_initial.
Proof. split; cbn; first [lia|by left]. Qed.

Lemma kscan_invariant_witness :
  kscan_ok (pid_store demo_kstrtoul (chars "1234") kscan_initial).2 ∧
  pid (pid_store demo_kstrtoul (chars "1234") kscan_initial).2 = 1234.
Proof.
  destruct (kscan_invariant demo_kstrtoul 10 (chars "1234") kscan_initial kscan_initial_ok) as [H _].
  { intros v. by apply parse_digits_nonneg. }
  split; [|reflexivity]. apply (H 4). right. left. reflexivity.
Defined.

Lemma attributes_roundtrip_witness :
  (pid_store demo_kstrtoul (pid_show (loaded 1234)) (loaded 1234)).2 = loaded 1234.
Proof.
  assert (Hok : kscan_ok (loaded 1234)) by (split; cbn; first [lia|by left]).
  apply (attributes_roundtrip demo_kstrtoul (loaded 1234) Hok demo_kstrtoul_sprintf).
Defined.

Lemma page_counts_correct_witness : count_areas 10 demo_vmas (Counts 0 0 0 0) = Ok (Counts 3 1 2 1).
Proof.
  pose proof (page_counts_correct demo_page_size demo_vmas 10 demo_areas) as E.
  destruct E as [E _].
  { intros v Hv. repeat (apply elem_of_cons in Hv as [->|Hv]; [vm_compute; discriminate|]). by inversion Hv. }
  rewrite E. vm_compute. reflexivity.
Defined.

Lemma phys_report_bounds_witness :
  ∃ s', print_phys_num 10 (loaded 1234) = Ok s' ∧ lenZ (physinfo s') = 5.
Proof.
  pose proof (phys_report_bounds demo_page_size demo_vmas 10 (loaded 1234) eq_refl demo_areas) as E.
  destruct E as (s' & E & Hl & _).
  { intros v Hv. repeat (apply elem_of_cons in Hv as [->|Hv]; [vm_compute; reflexivity|]). by inversion Hv. }
  exists s'. split; [exact E|]. rewrite Hl. vm_compute. reflexivity.
Defined.

Lemma reports_remove_twice_witness :
  ∃ s1 s2 s3, print_vma_count (loaded 1234) = Ok s1 ∧
    print_active_inactive_page_count 10 s1 = Ok s2 ∧ print_vma_count s2 = Ok s3 ∧
    is_Some (live_entries (log s2) []) ∧ live_entries (log s3) [] = None.
Proof.
  apply (reports_remove_twice 1234 demo_vmas (Counts 3 1 2 1) 10);
    [lia|reflexivity|vm_compute; reflexivity].
Defined.
