(* ===== verification/KscanRun.v ===== *)
(** * The memory scanner module as it runs

    lab3/EXP3.2/sec3.c again, with its thread, the writers of the attributes
    and the unloading of the module taking turns. The reports are split where
    they read [pid] or call into procfs, since the attributes [pid], [func] and
    [sleep_millisecs] are stored without the mutex that the thread holds. *)

From Stdlib Require Import Lia String Wf_nat.
From stdpp Require Import base numbers option gmap list.
From S2P Require Import Prelude Bytes CString Kscan.
Local Open Scope Z_scope.

(** ** The reports in steps *)

(** Where the thread stands in [sysfs_test_to_do] and the function it calls,
    with the local variables that are alive there. *)
Inductive stage :=
  | TestFirst | TestSecond | TestThird
  | VmaName | VmaTest (name : list Z) | VmaMkdir (name : list Z) | VmaKeep (d : nat) | VmaMark
  | VmaFind | VmaRemove (n : Z) | VmaCreate (n : Z)
  | PageName | PageTest (name : list Z) | PageRemove (name : list Z) | PageUnmark (name : list Z)
  | PageMkdir (name : list Z) | PageKeep (d : nat) | PageMark | PageFind | PageFiles (c : page_counts)
  | PhysFind | PhysRemove | PhysCreate.

Section steps.
Context `{Machine} (fuel : nat).

(** [mutex[pid] = v]. *)
Definition mark (v : Z) (s : kscan) : res kscan :=
  _ ← require (pid s <? 32768) OutOfBounds;
  Ok (set_mutex (pid s) v s).

Definition vma_step (st : stage) (s : kscan) : res (option stage * kscan) :=
  match st with
  | VmaName => name ← pid_char s; Ok (Some (VmaTest name), s)
  | VmaTest name => m ← mutex_at s; Ok (Some (if m =? 0 then VmaMkdir name else VmaFind), s)
  | VmaMkdir name =>
    let '(d, s1) := proc_mkdir name (proc_test_root_const s) s in Ok (Some (VmaKeep d), s1)
  | VmaKeep d => s1 ← store_const d s; Ok (Some VmaMark, s1)
  | VmaMark => s1 ← mark 1 s; Ok (Some VmaFind, s1)
  | VmaFind => vmas ← mmap_of (pid s); Ok (Some (VmaRemove (count_vmas vmas)), s)
  | VmaRemove n => Ok (Some (VmaCreate n), proc_remove (de s) s)
  | VmaCreate n =>
    dir ← const_at s;
    let '(f, s1) := proc_create_data (chars "vma_count") dir (StackInt n) s in
    Ok (None, set_de (Some f) s1)
  | _ => Ok (None, s)
  end.

Definition page_step (st : stage) (s : kscan) : res (option stage * kscan) :=
  match st with
  | PageName => name ← pid_char s; Ok (Some (PageTest name), s)
  | PageTest name => m ← mutex_at s; Ok (Some (if m =? 1 then PageRemove name else PageMkdir name), s)
  | PageRemove name => dir ← const_at s; Ok (Some (PageUnmark name), proc_remove dir s)
  | PageUnmark name => s1 ← mark 0 s; Ok (Some (PageMkdir name), s1)
  | PageMkdir name =>
    let '(d, s1) := proc_mkdir name (proc_test_root_const s) s in Ok (Some (PageKeep d), s1)
  | PageKeep d => s1 ← store_const d s; Ok (Some PageMark, s1)
  | PageMark => s1 ← mark 1 s; Ok (Some PageFind, s1)
  | PageFind =>
    vmas ← mmap_of (pid s);
    c ← count_areas fuel vmas (Counts 0 0 0 0);
    Ok (Some (PageFiles c), s)
  | PageFiles c =>
    dir ← const_at s;
    let '(_, s1) := proc_create_data (chars "file") dir (StackInt (file c)) s in
    let '(_, s2) := proc_create_data (chars "active_file") dir (StackInt (active_file c)) s1 in
    let '(_, s3) := proc_create_data (chars "anon") dir (StackInt (anon c)) s2 in
    let '(_, s4) := proc_create_data (chars "active_anon") dir (StackInt (active_anon c)) s3 in
    Ok (None, s4)
  | _ => Ok (None, s)
  end.

Definition phys_step (st : stage) (s : kscan) : res (option stage * kscan) :=
  match st with
  | PhysFind =>
    vmas ← mmap_of (pid s);
    lines ← phys_areas fuel vmas [];
    Ok (Some PhysRemove, set_phys (phys_ptr s) lines s)
  | PhysRemove => Ok (Some PhysCreate, proc_remove (phys_ptr s) s)
  | PhysCreate =>
    let '(f, s1) := proc_create_data (chars "phys_addr") (proc_test_root_const s) PhysTable s in
    Ok (None, set_phys (Some f) (physinfo s1) s1)
  | _ => Ok (None, s)
  end.

(** One step of [sysfs_test_to_do]; no next stage: it has returned. *)
Definition report_step (st : stage) (s : kscan) : res (option stage * kscan) :=
  match st with
  | TestFirst => Ok (Some (if sysfs_test_func s =? 1 then VmaName else TestSecond), s)
  | TestSecond => Ok (Some (if sysfs_test_func s =? 2 then PageName else TestThird), s)
  | TestThird => Ok (if sysfs_test_func s =? 3 then Some PhysFind else None, s)
  | VmaName | VmaTest _ | VmaMkdir _ | VmaKeep _ | VmaMark | VmaFind | VmaRemove _ | VmaCreate _ =>
    vma_step st s
  | PhysFind | PhysRemove | PhysCreate => phys_step st s
  | _ => page_step st s
  end.
End steps.

(** ** The attributes *)

Inductive attribute := sleep_millisecs_attr | pid_attr | func_attr | run_attr.

(** [SYSFS_TEST_ATTR(_name)]: the name of the attribute is the name of the
    variable. *)
Definition attr_name (a : attribute) : list Z :=
  match a with
  | sleep_millisecs_attr => chars "sleep_millisecs"
  | pid_attr => chars "pid"
  | func_attr => chars "func"
  | run_attr => chars "run"
  end.

Definition sysfs_test_attrs : list attribute :=
  [sleep_millisecs_attr; pid_attr; func_attr; run_attr].

Definition find_attr (name : list Z) : option attribute :=
  snd <$> list_find (λ a, attr_name a = name) sysfs_test_attrs.

Section attributes.
Context (kstrtoul : list Z → option Z).

(** The show and store functions that the macro puts into an attribute. The
    last component of a store: the waiting thread is to be woken. *)
Definition attr_show (a : attribute) (s : kscan) : list Z :=
  match a with
  | sleep_millisecs_attr => sleep_millisecs_show s
  | pid_attr => pid_show s
  | func_attr => func_show s
  | run_attr => run_show s
  end.

Definition attr_store (a : attribute) (buf : list Z) (s : kscan) : Z * kscan * bool :=
  match a with
  | sleep_millisecs_attr => (sleep_millisecs_store kstrtoul buf s, false)
  | pid_attr => (pid_store kstrtoul buf s, false)
  | func_attr => (func_store kstrtoul buf s, false)
  | run_attr => run_store kstrtoul buf s
  end.
End attributes.

(** ** The thread and its surroundings *)

(** Where [sysfs_testd_thread] stands: at the head of its loop; inside the
    mutex, before, in and after the report; at the second test of the run flag;
    sleeping for a time; about to wait, and waiting to be woken; returned. *)
Inductive phase :=
  | Top | Locked | Reporting (st : stage) | Unlock | Check | Sleeping (msecs : Z)
  | Waiting | Asleep | Stopped.

(** The module in use, in [sysfs_test_exit], and gone. *)
Inductive life := Live | Leaving | Gone.

(** [wakes] counts the calls of [run_store] between the unlocking of the
    mutex and [wake_up_interruptible]. *)
Record system := System {
  vars : kscan;
  at_phase : phase;
  should_stop : bool;
  wakes : nat;
  at_life : life
}.

Definition with_vars v s := System v (at_phase s) (should_stop s) (wakes s) (at_life s).
Definition with_phase p s := System (vars s) p (should_stop s) (wakes s) (at_life s).

(** The thread holds [sysfs_test_thread_mutex]. *)
Definition holds_mutex (p : phase) : bool :=
  match p with Locked | Reporting _ | Unlock => true | _ => false end.

(** The thread has looked at the condition of [wait_event_freezable] and looks
    again when it is woken. *)
Definition woken (p : phase) : phase := match p with Asleep => Waiting | p => p end.

(** Whose turn it is: the thread; a process that writes an attribute; the
    rest of a [run_store] that wakes the thread; [kthread_stop] at the
    beginning of [sysfs_test_exit]; the rest of it. *)
Inductive event :=
  | Thread | Write (name buf : list Z) | Wake | Unload | Finish.

Section turns.
Context `{Machine} (fuel : nat) (kstrtoul : list Z → option Z).

Definition sysfs_testd_thread (s : system) : res system :=
  match at_phase s with
  | Top => Ok (with_phase (if should_stop s then Stopped else Locked) s)
  | Locked => Ok (with_phase (if sysfs_testd_should_run (vars s) then Reporting TestFirst else Unlock) s)
  | Reporting st =>
    r ← report_step fuel st (vars s);
    Ok (with_phase (from_option Reporting Unlock r.1) (with_vars r.2 s))
  | Unlock => Ok (with_phase Check s)
  | Check =>
    Ok (with_phase (if sysfs_testd_should_run (vars s)
                    then Sleeping (sleep_millisecs (vars s)) else Waiting) s)
  | Sleeping _ => Ok (with_phase Top s)
  | Waiting =>
    Ok (with_phase (if sysfs_testd_should_run (vars s) || should_stop s then Top else Asleep) s)
  | Asleep | Stopped => Ok s
  end.

(** A write while the files are there. [run_store] waits for the mutex, but
    for values that it rejects before. *)
Definition write_attr (name buf : list Z) (s : system) : system :=
  match at_life s, find_attr name with
  | Gone, _ | _, None => s
  | _, Some a =>
    let '(ret, v, wake) := attr_store kstrtoul a buf (vars s) in
    match a with
    | run_attr =>
      if holds_mutex (at_phase s) then s
      else System v (at_phase s) (should_stop s) (if wake then S (wakes s) else wakes s) (at_life s)
    | _ => with_vars v s
    end
  end.

(** Who cannot go on leaves the state as it is. [sysfs_remove_group] waits for
    the writes that are under way. *)
Definition turn (e : event) (s : system) : res system :=
  match e with
  | Thread => sysfs_testd_thread s
  | Write name buf => Ok (write_attr name buf s)
  | Wake =>
    match wakes s with
    | O => Ok s
    | S n => Ok (System (vars s) (woken (at_phase s)) (should_stop s) n (at_life s))
    end
  | Unload =>
    match at_life s with
    | Live => Ok (System (vars s) (woken (at_phase s)) true (wakes s) Leaving)
    | _ => Ok s
    end
  | Finish =>
    match at_life s, at_phase s, wakes s with
    | Leaving, Stopped, O =>
      Ok (System (sysfs_test_exit (vars s)) Stopped (should_stop s) 0 Gone)
    | _, _, _ => Ok s
    end
  end.

Fixpoint turns (es : list event) (s : system) : res system :=
  match es with
  | [] => Ok s
  | e :: es => s' ← turn e s; turns es s'
  end.
End turns.

(** The module after [sysfs_test_init]. *)
Definition started : system :=
  System (sysfs_test_init true 0 0 kscan_initial).1.2 Top false 0 Live.

(** ** The steps of a report together

    A bound on the steps that are left, and the report finished without
    interruption. *)
Definition stage_rank (st : stage) : nat :=
  match st with
  | TestFirst => 12 | TestSecond => 11 | TestThird => 10
  | VmaName => 8 | VmaTest _ => 7 | VmaMkdir _ => 6 | VmaKeep _ => 5 | VmaMark => 4
  | VmaFind => 3 | VmaRemove _ => 2 | VmaCreate _ => 1
  | PageName => 9 | PageTest _ => 8 | PageRemove _ => 7 | PageUnmark _ => 6 | PageMkdir _ => 5
  | PageKeep _ => 4 | PageMark => 3 | PageFind => 2 | PageFiles _ => 1
  | PhysFind => 3 | PhysRemove => 2 | PhysCreate => 1
  end.

Lemma stage_rank_pos st : (1 ≤ stage_rank st)%nat.
Proof. destruct st; cbn; lia. Qed.

(** Takes a step of a report apart: [H : ... = Ok _] becomes the equations of
    the calls in it. *)
Ltac step_inv H :=
  unfold report_step, vma_step, page_step, phys_step, mark, store_const, mutex_at, const_at in H;
  repeat match type of H with
  | _ ≫= _ = Ok _ => let a := fresh "a" in let E := fresh "E" in apply bind_ok in H as (a & E & H)
  | context [let '(_, _) := ?c in _] => let E := fresh "E" in destruct c eqn:E
  end.

Section steps_facts.
Context `{Machine} (fuel : nat).

Lemma report_step_rank st s st' s' :
  report_step fuel st s = Ok (Some st', s') → (stage_rank st' < stage_rank st)%nat.
Proof.
  intros Hs. destruct st; step_inv Hs; repeat case_match; simplify_eq; cbn; lia.
Qed.

(** The report from a stage on, when nothing comes between. *)
Fixpoint finish (n : nat) (st : stage) (s : kscan) : res kscan :=
  match n with
  | O => OutOfFuel
  | S n =>
    r ← report_step fuel st s;
    match r.1 with None => Ok r.2 | Some st' => finish n st' r.2 end
  end.
Definition complete (st : stage) (s : kscan) : res kscan := finish (stage_rank st) st s.

Lemma finish_enough n m st s :
  (stage_rank st ≤ n)%nat → (stage_rank st ≤ m)%nat → finish n st s = finish m st s.
Proof.
  revert m st s. induction n as [|n IH]; intros m st s Hn Hm; pose proof (stage_rank_pos st); [lia|].
  destruct m as [|m]; [lia|]. cbn [finish].
  destruct (report_step fuel st s) as [[[st'|] s']| | |] eqn:E; res_steps; cbn [fst snd]; try done.
  apply report_step_rank in E. apply IH; lia.
Qed.

Lemma complete_step st s :
  complete st s =
    r ← report_step fuel st s; match r.1 with None => Ok r.2 | Some st' => complete st' r.2 end.
Proof.
  unfold complete. pose proof (stage_rank_pos st).
  destruct (stage_rank st) as [|n] eqn:En; [lia|]. cbn [finish].
  destruct (report_step fuel st s) as [[[st'|] s']| | |] eqn:E; res_steps; cbn [fst snd]; try done.
  apply report_step_rank in E. apply finish_enough; lia.
Qed.
End steps_facts.

(** Uninterrupted, the steps are the reports of Kscan. *)
Section composed.
Context `{Machine} (fuel : nat).

Ltac next_stage :=
  rewrite complete_step; cbn [report_step vma_step page_step phys_step];
  unfold mark, mutex_at; res_steps; cbn [fst snd].

(** The directory of a process made and noted down, [VmaMkdir] to [VmaMark] and
    [PageMkdir] to [PageMark]. *)
Lemma complete_make st_mkdir st_keep st_mark st_find name s s1 :
  (∀ s, report_step fuel (st_mkdir name) s =
     let '(d, s1) := proc_mkdir name (proc_test_root_const s) s in Ok (Some (st_keep d), s1)) →
  (∀ d s, report_step fuel (st_keep d) s = s1 ← store_const d s; Ok (Some st_mark, s1)) →
  (∀ s, report_step fuel st_mark s = s1 ← mark 1 s; Ok (Some st_find, s1)) →
  pid s1 = pid s → pid s < 32768 →
  complete fuel (st_mkdir name) s1 =
    let '(d, s2) := proc_mkdir name (proc_test_root_const s1) s1 in
    s3 ← store_const d s2;
    complete fuel st_find (set_mutex (pid s) 1 s3).
Proof.
  intros H1 H2 H3 Hpid Hp. unfold proc_mkdir.
  rewrite complete_step, H1. unfold proc_mkdir. res_steps. cbn [fst snd].
  rewrite complete_step, H2. unfold store_const. cbn [pid logged fresh_id]. rewrite Hpid.
  destruct (pid s <? 32767); res_steps; [|done]. cbn [fst snd].
  rewrite complete_step, H3. unfold mark. cbn [pid set_const logged fresh_id].
  rewrite Hpid, (proj2 (Z.ltb_lt _ _)) by done. by res_steps.
Qed.

Lemma complete_vma s : complete fuel VmaName s = print_vma_count s.
Proof.
  unfold print_vma_count. next_stage.
  destruct (pid_char s) as [name| | |]; res_steps; try done. cbn [fst snd]. next_stage.
  unfold mutex_at. destruct (Z.ltb_spec (pid s) 32768) as [Hp|]; res_steps; [|done]. cbn [fst snd].
  assert (Hend : ∀ s1, pid s1 = pid s → complete fuel VmaFind s1 =
    (vmas ← mmap_of (pid s);
     dir ← const_at (proc_remove (de s1) s1);
     let '(f, s3) := proc_create_data (chars "vma_count") dir (StackInt (count_vmas vmas))
       (proc_remove (de s1) s1) in
     Ok (set_de (Some f) s3))).
  { intros s1 Hs1. next_stage. rewrite Hs1. destruct (mmap_of (pid s)); res_steps; try done.
    cbn [fst snd]. do 2 next_stage. by destruct (const_at _). }
  destruct (_ =? 0); [|by rewrite Hend].
  rewrite (complete_make VmaMkdir VmaKeep VmaMark VmaFind name s s) by done.
  unfold proc_mkdir, store_const. destruct (_ <? _); res_steps; [|done]. by rewrite Hend.
Qed.

Lemma complete_page s : complete fuel PageName s = print_active_inactive_page_count fuel s.
Proof.
  unfold print_active_inactive_page_count. next_stage.
  destruct (pid_char s) as [name| | |]; res_steps; try done. cbn [fst snd]. next_stage.
  unfold mutex_at. destruct (Z.ltb_spec (pid s) 32768) as [Hp|]; res_steps; [|done]. cbn [fst snd].
  assert (Hend : ∀ s1, pid s1 = pid s → complete fuel (PageMkdir name) s1 =
    (let '(d, s2) := proc_mkdir name (proc_test_root_const s1) s1 in
     s3 ← store_const d s2;
     let s4 := set_mutex (pid s) 1 s3 in
     vmas ← mmap_of (pid s);
     c ← count_areas fuel vmas (Counts 0 0 0 0);
     dir ← const_at s4;
     let '(_, s5) := proc_create_data (chars "file") dir (StackInt (file c)) s4 in
     let '(_, s6) := proc_create_data (chars "active_file") dir (StackInt (active_file c)) s5 in
     let '(_, s7) := proc_create_data (chars "anon") dir (StackInt (anon c)) s6 in
     let '(_, s8) := proc_create_data (chars "active_anon") dir (StackInt (active_anon c)) s7 in
     Ok s8)).
  { intros s1 Hs1. rewrite (complete_make PageMkdir PageKeep PageMark PageFind name s s1) by done.
    unfold proc_mkdir, store_const. destruct (_ <? _); res_steps; [|done]. next_stage.
    cbn [pid set_mutex set_const logged fresh_id]. rewrite Hs1.
    destruct (mmap_of (pid s)); res_steps; try done. destruct (count_areas fuel _ _); res_steps; try done.
    cbn [fst snd]. next_stage. by destruct (const_at _). }
  destruct (_ =? 1); [|res_steps; by rewrite Hend].
  next_stage. destruct (const_at s) as [dir| | |]; res_steps; try done. cbn [fst snd]. next_stage.
  assert (Hpid : pid (proc_remove dir s) = pid s) by (by destruct dir).
  rewrite Hpid, (proj2 (Z.ltb_lt _ _)) by done. res_steps. cbn [fst snd]. by rewrite Hend.
Qed.

Lemma complete_phys s : complete fuel PhysFind s = print_phys_num fuel s.
Proof.
  unfold print_phys_num. next_stage.
  destruct (mmap_of (pid s)); res_steps; try done. destruct (phys_areas fuel _ _); res_steps; try done.
  cbn [fst snd]. do 2 next_stage. by destruct s as [???????? []].
Qed.

Lemma complete_report s : complete fuel TestFirst s = sysfs_test_to_do fuel s.
Proof.
  unfold sysfs_test_to_do. next_stage. destruct (sysfs_test_func s =? 1) eqn:E1; [apply complete_vma|].
  next_stage. destruct (sysfs_test_func s =? 2) eqn:E2; [apply complete_page|].
  next_stage. by destruct (sysfs_test_func s =? 3); [apply complete_phys|].
Qed.
End composed.

(** ** A round of the thread *)

Section rounds.
Context `{Machine} (fuel : nat) (kstrtoul : list Z → option Z).
Local Abbreviation turn := (turn fuel kstrtoul).
Local Abbreviation turns := (turns fuel kstrtoul).

Lemma turns_app es1 es2 s : turns (es1 ++ es2) s = s' ← turns es1 s; turns es2 s'.
Proof.
  revert s. induction es1 as [|e es1 IH]; intros s; [done|]. cbn [app KscanRun.turns].
  rewrite bind_assoc. destruct (turn e s); [|done..]. res_steps. apply IH.
Qed.

Lemma report_uninterrupted st s :
  at_phase s = Reporting st →
  ∃ n, (n ≤ stage_rank st)%nat ∧ turns (replicate n Thread) s =
    v ← complete fuel st (vars s); Ok (with_phase Unlock (with_vars v s)).
Proof.
  revert st s. refine (induction_ltof1 _ stage_rank _ _). intros st IH s Hs. unfold ltof in IH.
  pose proof (stage_rank_pos st). rewrite complete_step.
  destruct (report_step fuel st (vars s)) as [[[st'|] v]| | |] eqn:E; res_steps; cbn [fst snd].
  2-5: exists 1%nat; cbn; unfold sysfs_testd_thread; rewrite Hs, E; res_steps; by split; [lia|].
  pose proof (report_step_rank fuel _ _ _ _ E) as Hr.
  destruct (IH st' Hr (with_phase (Reporting st') (with_vars v s)) eq_refl) as (n & Hn & En).
  exists (S n). split; [lia|]. cbn [replicate KscanRun.turns KscanRun.turn].
  unfold sysfs_testd_thread. rewrite Hs, E. res_steps. cbn [fst snd from_option]. by rewrite En.
Qed.

(** Without interruption, a round of the loop of [sysfs_testd_thread] is the
    one of Kscan: the report that the attributes ask for, if any, and then a
    sleep of the time they name or a wait. The bound on the turns covers every
    path through the reports. *)
Theorem uninterrupted_round s :
  at_phase s = Top → should_stop s = false →
  ∃ n, (n ≤ 16)%nat ∧ turns (replicate n Thread) s =
    r ← thread_round fuel (vars s);
    Ok (with_phase (match r.2 with Timeout ms => Sleeping ms | WaitEvent => Waiting end)
          (with_vars r.1 s)).
Proof.
  intros Hs Hstop. unfold thread_round.
  assert (Hlast : ∀ s', at_phase s' = Unlock → turns [Thread; Thread] s' =
    Ok (with_phase (match if sysfs_testd_should_run (vars s') then Timeout (sleep_millisecs (vars s'))
      else WaitEvent with Timeout ms => Sleeping ms | WaitEvent => Waiting end) s')).
  { intros s' Hs'. cbn. unfold sysfs_testd_thread. rewrite Hs'. res_steps. cbn.
    by destruct (sysfs_testd_should_run (vars s')). }
  assert (Hfirst : turns [Thread; Thread] s = Ok (with_phase
    (if sysfs_testd_should_run (vars s) then Reporting TestFirst else Unlock) s)).
  { cbn. unfold sysfs_testd_thread. rewrite Hs, Hstop. by res_steps. }
  destruct (sysfs_testd_should_run (vars s)) eqn:Erun.
  - destruct (report_uninterrupted TestFirst (with_phase (Reporting TestFirst) s) eq_refl) as (n & Hn & En).
    cbn [stage_rank] in Hn. exists (2 + (n + 2))%nat. split; [lia|].
    rewrite !replicate_add, turns_app. change (replicate 2 Thread) with [Thread; Thread].
    rewrite Hfirst. res_steps. rewrite turns_app, En, complete_report. cbn [vars with_phase].
    destruct (sysfs_test_to_do fuel (vars s)) as [v| | |]; res_steps; [|done..].
    rewrite Hlast by done. by destruct s.
  - exists 4%nat. split; [lia|]. change (replicate 4 Thread) with ([Thread; Thread] ++ [Thread; Thread]).
    rewrite turns_app, Hfirst. res_steps. rewrite Hlast by done. cbn [vars with_phase fst snd].
    rewrite Erun. by destruct s.
Qed.
End rounds.

(** ** What every interleaving keeps *)

(** The numbers that [kstrtoul] delivers are unsigned. *)
Definition unsigned_parser (kstrtoul : list Z → option Z) : Prop :=
  ∀ buf v, kstrtoul buf = Some v → 0 <= v.

Definition running (v : kscan) : Prop := sysfs_test_run v = SYSFS_TEST_RUN_START.

Record sys_ok (s : system) : Prop := {
  ok_vars : kscan_ok (vars s);
  ok_reporting st : at_phase s = Reporting st → running (vars s);
  ok_asleep : at_phase s = Asleep →
    should_stop s = false ∧ (running (vars s) → (1 ≤ wakes s)%nat);
  ok_stopped : at_phase s = Stopped → should_stop s = true;
  ok_live : should_stop s = false ↔ at_life s = Live;
  ok_gone : at_life s = Gone → at_phase s = Stopped ∧ wakes s = 0%nat
}.

Lemma should_run_running v : kscan_ok v → sysfs_testd_should_run v = true ↔ running v.
Proof.
  intros [_ _ _ Hr]. unfold sysfs_testd_should_run, running.
  destruct Hr as [-> | ->]; unfold SYSFS_TEST_RUN_START, SYSFS_TEST_RUN_STOP; cbn; by split.
Qed.

Lemma parse_uint_range kstrtoul buf v :
  unsigned_parser kstrtoul → parse_uint kstrtoul buf = Some v → 0 <= v < 2 ^ 32.
Proof.
  unfold parse_uint. intros Hk. destruct (kstrtoul buf) as [w|] eqn:E; [|done]. cbn.
  apply Hk in E. unfold UINT_MAX. case_goal; [done|]. intros [= <-]. lia.
Qed.

(** What a store does to the variables: it sets its own, or nothing. *)
Lemma attr_store_cases kstrtoul a buf s :
  unsigned_parser kstrtoul →
  (∃ ret, attr_store kstrtoul a buf s = (ret, s, false) ∧ ret < 0) ∨
  (∃ v, parse_uint kstrtoul buf = Some v ∧ 0 <= v < 2 ^ 32 ∧
    match a with
    | sleep_millisecs_attr => attr_store kstrtoul a buf s = (lenZ buf, set_sleep v s, false)
    | pid_attr => attr_store kstrtoul a buf s = (lenZ buf, set_pid v s, false)
    | func_attr => attr_store kstrtoul a buf s = (lenZ buf, set_func v s, false)
    | run_attr => v <= SYSFS_TEST_RUN_START ∧
        attr_store kstrtoul a buf s = (lenZ buf, set_run v s, v =? SYSFS_TEST_RUN_START)
    end).
Proof.
  intros Hk. destruct a; cbn [attr_store];
    unfold sleep_millisecs_store, pid_store, func_store, run_store;
    destruct (parse_uint kstrtoul buf) as [v|] eqn:E; try (left; by eexists).
  all: pose proof (parse_uint_range _ _ _ Hk E).
  1-3: right; exists v; by rewrite u32_small by lia.
  unfold SYSFS_TEST_RUN_START. destruct (Z.ltb_spec 1 v); [left; by eexists|].
  right. exists v. split_and!; [done|lia..|]. rewrite u32_small by lia.
  assert (negb (Z.land v 1 =? 0) = (v =? 1)) as -> by (by assert (v = 0 ∨ v = 1) as [-> | ->] by lia).
  destruct (Z.eqb_spec (sysfs_test_run s) v) as [Hv|]; cbn [negb]; [|done].
  assert (set_run v s = s) as -> by (rewrite <- Hv; by destruct s). done.
Qed.

Lemma attr_store_ok kstrtoul a buf s ret v w :
  unsigned_parser kstrtoul → kscan_ok s → attr_store kstrtoul a buf s = (ret, v, w) → kscan_ok v.
Proof.
  intros Hk [H1 H2 H3 H4] E. destruct (attr_store_cases kstrtoul a buf s Hk) as [(r & E' & _)|(n & _ & Hn & Ha)].
  { rewrite E in E'. by injection E' as _ -> _. }
  destruct a; [| | |destruct Ha as [Hle Ha]]; rewrite E in Ha; injection Ha as _ -> _; split; cbn; try done.
  unfold SYSFS_TEST_RUN_START, SYSFS_TEST_RUN_STOP in *. lia.
Qed.

Section invariant.
Context `{Machine} (fuel : nat) (kstrtoul : list Z → option Z) (Hparse : unsigned_parser kstrtoul).
Local Abbreviation turn := (turn fuel kstrtoul).
Local Abbreviation turns := (turns fuel kstrtoul).

Lemma report_step_attrs st s next s' : report_step fuel st s = Ok (next, s') → same_attrs s s'.
Proof.
  intros Hs. destruct st; step_inv Hs; simplify_eq/=; try done; try (by apply same_attrs_remove).
  all: unfold require, proc_mkdir, proc_create_data in *; repeat case_match; simplify_eq/=; done.
Qed.

Lemma same_attrs_running s s' : same_attrs s s' → running s → running s'.
Proof. intros (_ & _ & _ & E). unfold running. by rewrite E. Qed.

Lemma started_ok : sys_ok started.
Proof. split; cbn; try done. split; cbn; first [lia|by left]. Qed.

Lemma thread_keeps_ok s s' : sys_ok s → sysfs_testd_thread fuel s = Ok s' → sys_ok s'.
Proof.
  intros [H1 H2 H3 H4 H5 H6]. unfold sysfs_testd_thread.
  pose proof (should_run_running (vars s) H1) as Hrun.
  assert (Hlife : at_phase s ≠ Stopped → at_life s ≠ Gone) by tauto.
  destruct (at_phase s) as [| |st| | |ms| | |] eqn:Ep.
  3:{ intros ([next v] & E & [= <-])%bind_ok. apply report_step_attrs in E as Ha. cbn [fst snd].
      specialize (H2 st eq_refl). apply (same_attrs_running _ _ Ha) in H2.
      apply (same_attrs_ok _ _ Ha) in H1. specialize (Hlife ltac:(done)).
      destruct next; split; cbn; done. }
  all: intros [= <-]; try (split; rewrite ?Ep; done); specialize (Hlife ltac:(done)); split; cbn; try done.
  all: try (destruct (should_stop s) eqn:Es; cbn; done).
  all: try (destruct (sysfs_testd_should_run (vars s)) eqn:Er; cbn; try done).
  all: try (intros ? _; by apply Hrun).
  all: destruct (should_stop s) eqn:Es; cbn; try done.
  intros _. split; [done|]. by intros Hr%Hrun.
Qed.

Lemma write_keeps_ok name buf s : sys_ok s → sys_ok (write_attr kstrtoul name buf s).
Proof.
  intros Hs. unfold write_attr.
  assert (Hgone : sys_ok (match at_life s with Gone => s | _ => s end)) by (by destruct (at_life s)).
  destruct (find_attr name) as [a|]; [|by destruct (at_life s)]. clear Hgone.
  destruct (attr_store kstrtoul a buf (vars s)) as [[ret v] w] eqn:Ea.
  pose proof Hs as [H1 H2 H3 H4 H5 H6].
  pose proof (attr_store_ok _ _ _ _ _ _ _ Hparse H1 Ea) as Hv.
  enough (Hw : at_life s ≠ Gone → sys_ok (match a with
    | run_attr => if holds_mutex (at_phase s) then s
        else System v (at_phase s) (should_stop s) (if w then S (wakes s) else wakes s) (at_life s)
    | _ => with_vars v s end)) by (destruct (at_life s); [by apply Hw..|done]).
  intros Hlife.
  destruct (attr_store_cases kstrtoul a buf (vars s) Hparse) as [(r & E' & _)|(n & _ & Hn & Ha)].
  { rewrite Ea in E'. injection E' as _ -> ->. destruct a; [by destruct s..|].
    destruct (holds_mutex (at_phase s)); [done|by destruct s]. }
  destruct a; [| | |destruct Ha as [Hle Ha]]; rewrite Ea in Ha; injection Ha as _ -> ->; try (split; done).
  destruct (holds_mutex (at_phase s)) eqn:Em; [done|]. split; cbn; try done.
  - intros st Est. by rewrite Est in Em.
  - intros Eas. destruct (H3 Eas) as [Hst Hw]. split; [done|]. intros Hr.
    unfold running in Hr. cbn in Hr. rewrite Hr, Z.eqb_refl. lia.
Qed.

Lemma turn_keeps_ok e s s' : sys_ok s → turn e s = Ok s' → sys_ok s'.
Proof.
  intros Hs. destruct e as [|name buf| | |]; cbn [KscanRun.turn].
  - by apply thread_keeps_ok.
  - intros [= <-]. by apply write_keeps_ok.
  - pose proof Hs as [H1 H2 H3 H4 H5 H6]. destruct (wakes s) as [|n] eqn:Ew; intros [= <-]; [done|].
    split; cbn; try done; try (destruct (at_phase s) eqn:Ep; done). all: by intros [_ ?]%H6.
  - pose proof Hs as [H1 H2 H3 H4 H5 H6]. destruct (at_life s) eqn:El; intros [= <-]; try done.
    split; cbn; try done; destruct (at_phase s) eqn:Ep; cbn; try done.
  - pose proof Hs as [H1 H2 H3 H4 H5 H6].
    destruct (at_life s) eqn:El, (at_phase s) eqn:Ep, (wakes s) eqn:Ew; intros [= <-]; try done.
    split; cbn; try done.
    + unfold sysfs_test_exit. destruct (proc_test_root_const (vars s)); by apply (same_attrs_ok (vars s)).
    + split; [by intros ?%H5|done].
Qed.

Lemma turns_keep_ok es s s' : sys_ok s → turns es s = Ok s' → sys_ok s'.
Proof.
  revert s. induction es as [|e es IH]; intros s Hs; cbn [KscanRun.turns]; [by intros [= <-]|].
  intros (s1 & E1 & E2)%bind_ok. eapply IH; [by eapply turn_keeps_ok|done].
Qed.
End invariant.

(** C18: however the thread, the writers and the unloading take turns, a report
    is only under way while the run flag is on, which no write can change
    before the report is finished; the variables stay in their ranges; and no
    waking is lost: a thread that waits although the flag is on has a [run_store]
    about to wake it, after which it makes a report. *)
Theorem scanner_interleavings `{Machine} fuel kstrtoul es s :
  unsigned_parser kstrtoul → turns fuel kstrtoul es started = Ok s →
  kscan_ok (vars s) ∧
  (∀ st, at_phase s = Reporting st → sysfs_test_run (vars s) = SYSFS_TEST_RUN_START) ∧
  (holds_mutex (at_phase s) = true → ∀ e s', turn fuel kstrtoul e s = Ok s' →
     sysfs_test_run (vars s') = sysfs_test_run (vars s)) ∧
  (at_phase s = Asleep → sysfs_test_run (vars s) = SYSFS_TEST_RUN_START →
     ∃ s', turns fuel kstrtoul [Wake; Thread; Thread; Thread] s = Ok s' ∧
       at_phase s' = Reporting TestFirst).
Proof.
  intros Hk Hs. assert (Hok : sys_ok s) by (eapply (turns_keep_ok fuel); [done|apply started_ok|done]).
  destruct Hok as [H1 H2 H3 H4 H5 H6]. split_and!; [done..| |].
  - intros Hm e s' He. destruct e as [|name buf| | |]; cbn [turn] in He.
    + unfold sysfs_testd_thread in He. destruct (at_phase s) eqn:Ep; try (by injection He as <-).
      apply bind_ok in He as ([next v] & E & He). injection He as <-.
      by apply report_step_attrs in E as (_ & _ & _ & E).
    + injection He as <-. unfold write_attr.
      destruct (at_life s), (find_attr name) as [a|]; try done;
        destruct (attr_store_cases kstrtoul a buf (vars s) Hk) as [(r & E & _)|(n & _ & _ & E)];
        destruct a; first [rewrite E|destruct E as [_ E]; rewrite E]; by rewrite ?Hm.
    + by destruct (wakes s); injection He as <-.
    + by destruct (at_life s); injection He as <-.
    + destruct (at_life s), (at_phase s), (wakes s); injection He as <-; done.
  - intros Ha Hr. destruct (H3 Ha) as [Hst Hw]. specialize (Hw Hr).
    apply should_run_running in Hr; [|done].
    destruct (wakes s) as [|n] eqn:Ew; [lia|]. eexists. split.
    + cbn [turns turn]. rewrite Ew. res_steps. unfold sysfs_testd_thread. cbn [at_phase]. rewrite Ha.
      cbn. rewrite Hr, Hst. cbn. by rewrite Hr.
    + done.
Qed.

(** ** Unloading *)

(** *** Where a report goes wrong *)

Section outcomes.
Context `{Machine} (fuel : nat).

(** A process that the reports cannot deal with: its number is beyond the
    tables, there is no such task or it has no memory, or more than 2048 of its
    pages are in memory. *)
Definition bad_process (p : Z) : Prop :=
  32767 <= p ∨ (∀ vmas, task_mm p ≠ Some (Some vmas)) ∨
  ∃ vmas, task_mm p = Some (Some vmas) ∧ 2048 < lenZ (vmas ≫= mapped_lines).

(** Fuel for the loops over every process: more than an area has pages. *)
Definition enough_fuel : Prop :=
  0 < PAGE_SIZE ∧
  ∀ p vmas, task_mm p = Some (Some vmas) →
    Forall area_ok vmas ∧ ∀ v, v ∈ vmas → Z.max 1 (area_pages v) < Z.of_nat fuel.

(** A step that ends, or does something undefined because of the process. *)
Definition ends {A} (p : Z) (m : res A) : Prop :=
  (∃ a, m = Ok a) ∨ ∃ u, m = Undef u ∧ bad_process p.

Lemma ends_ok {A} p (a : A) : ends p (Ok a).
Proof. left. eauto. Qed.

Lemma ends_bind {A B} p (m : res A) (f : A → res B) :
  ends p m → (∀ a, m = Ok a → ends p (f a)) → ends p (m ≫= f).
Proof.
  intros [[a E]|(u & E & Hb)] Hf; rewrite E; res_steps; [by apply Hf|right; eauto].
Qed.

Lemma ends_require p b u : (b = false → bad_process p) → ends p (require b u).
Proof. intros Hb. destruct b; [apply ends_ok|right; eauto]. Qed.

Lemma ends_table {B} p n (f : unit → res B) :
  32767 <= n → (∀ a, ends p (f a)) → ends p (_ ← require (p <? n) OutOfBounds; f tt).
Proof.
  intros Hn Hf. apply ends_bind; [|intros; apply Hf]. apply ends_require. intros Hp. left. lia.
Qed.

Lemma ends_pid_char s : 0 <= pid s → ends (pid s) (pid_char s).
Proof.
  intros Hp. destruct (Z.lt_ge_cases (pid s) 1000000).
  - rewrite pid_char_ok by lia. apply ends_ok.
  - unfold pid_char. apply ends_bind; [|intros; apply ends_ok]. apply ends_require. intros _. left. lia.
Qed.

Lemma ends_mmap p : ends p (mmap_of p).
Proof.
  unfold mmap_of. destruct (task_mm p) as [[vmas|]|] eqn:E; [apply ends_ok|right..];
    eexists; (split; [done|]); right; left; congruence.
Qed.

Lemma mmap_of_ok p vmas : mmap_of p = Ok vmas → task_mm p = Some (Some vmas).
Proof. unfold mmap_of. by destruct (task_mm p) as [[?|]|]; [intros [= ->]|..]. Qed.

Lemma ends_count p vmas c : enough_fuel → mmap_of p = Ok vmas → ends p (count_areas fuel vmas c).
Proof.
  intros [Hps Hf] Hm%mmap_of_ok. apply Hf in Hm as [Ha Hn]. left. eexists. apply count_areas_ok; [done..|].
  intros v Hv. specialize (Hn v Hv). lia.
Qed.

Lemma ends_phys p vmas : enough_fuel → mmap_of p = Ok vmas → ends p (phys_areas fuel vmas []).
Proof.
  intros [Hps Hf] Hm%mmap_of_ok. pose proof (Hf _ _ Hm) as [Ha Hn].
  rewrite phys_areas_ok by (done || (cbn; unfold CHAR_MAX_LENTH; lia) || (intros v Hv; specialize (Hn v Hv); lia)).
  destruct (Z.leb_spec (lenZ (@nil (Z * Z)) + lenZ (vmas ≫= mapped_lines)) CHAR_MAX_LENTH) as [|Hgt]; [apply ends_ok|].
  right. eexists. split; [done|]. right. right. exists vmas. split; [done|].
  unfold CHAR_MAX_LENTH in Hgt. cbn [length] in Hgt. lia.
Qed.

(** One step of a report, however large the memory of the process is. *)
Lemma report_step_ends st s : enough_fuel → 0 <= pid s → ends (pid s) (report_step fuel st s).
Proof.
  intros Hf Hp. destruct st;
    cbn [report_step vma_step page_step phys_step];
    unfold mark, store_const, mutex_at, const_at, proc_mkdir, proc_create_data;
    repeat first
      [ apply ends_ok | by apply ends_pid_char | apply ends_mmap | by apply ends_count | by apply ends_phys
      | apply ends_table; [lia|intros] | apply ends_require; intros ?; left; lia
      | apply ends_bind; [|intros] ].
Qed.
End outcomes.

(** The turns the thread has left once it is to stop. *)
Definition phase_rank (p : phase) : nat :=
  match p with
  | Stopped => 0 | Top => 1 | Waiting => 2 | Sleeping _ => 2 | Asleep => 3 | Check => 3
  | Unlock => 4 | Reporting st => 4 + stage_rank st | Locked => 17
  end.

Definition is_thread (e : event) : bool := match e with Thread => true | _ => false end.
Definition thread_turns (es : list event) : nat := length (List.filter is_thread es).

Section unloading.
Context `{Machine} (fuel : nat) (kstrtoul : list Z → option Z) (Hparse : unsigned_parser kstrtoul).
Local Abbreviation turn := (turn fuel kstrtoul).
Local Abbreviation turns := (turns fuel kstrtoul).

Lemma write_keeps_phase name buf s :
  at_phase (write_attr kstrtoul name buf s) = at_phase s ∧
  should_stop (write_attr kstrtoul name buf s) = should_stop s ∧
  at_life (write_attr kstrtoul name buf s) = at_life s.
Proof.
  unfold write_attr. destruct (at_life s) eqn:El, (find_attr name) as [a|]; try by rewrite ?El.
  all: destruct (attr_store kstrtoul a buf (vars s)) as [[ret v] w], a; cbn; rewrite ?El; try done.
  all: case_goal; cbn; by rewrite ?El.
Qed.

Lemma stopping_thread s s' :
  should_stop s = true → at_phase s ≠ Asleep → sysfs_testd_thread fuel s = Ok s' →
  (phase_rank (at_phase s') ≤ phase_rank (at_phase s) - 1)%nat ∧ at_phase s' ≠ Asleep ∧
  should_stop s' = true ∧ at_life s' = at_life s ∧ wakes s' = wakes s.
Proof.
  intros Hst Hna. unfold sysfs_testd_thread. destruct (at_phase s) as [| |st| | |ms| | |] eqn:Ep.
  3:{ intros ([next v] & E & [= <-])%bind_ok. cbn [fst snd at_phase with_phase should_stop with_vars].
      destruct next as [st'|]; cbn [from_option phase_rank]; split_and!; try done.
      - apply report_step_rank in E. lia.
      - pose proof (stage_rank_pos st). lia. }
  all: intros [= <-]; rewrite ?Hst; cbn; rewrite ?Ep, ?orb_true_r; cbn; split_and!; try done; try lia;
    destruct (sysfs_testd_should_run (vars s)); cbn; try done; lia.
Qed.

Lemma stopping_turn e s s' :
  should_stop s = true → at_phase s ≠ Asleep → turn e s = Ok s' →
  (phase_rank (at_phase s') ≤ phase_rank (at_phase s) - thread_turns [e])%nat ∧
  at_phase s' ≠ Asleep ∧ should_stop s' = true.
Proof.
  intros Hst Hna. destruct e as [|name buf| | |]; cbn [KscanRun.turn].
  2-5: change (thread_turns _) with 0%nat.
  - intros Hs%stopping_thread; [|done..]. change (thread_turns [Thread]) with 1%nat. tauto.
  - intros [= <-]. destruct (write_keeps_phase name buf s) as (-> & -> & _). split; [lia|done].
  - destruct (wakes s); intros [= <-]; cbn; (split; [destruct (at_phase s); cbn; lia|]); try done.
    by destruct (at_phase s).
  - destruct (at_life s); intros [= <-]; cbn; (split; [destruct (at_phase s); cbn; lia|]); try done.
    by destruct (at_phase s).
  - destruct (at_life s), (at_phase s) eqn:Ep, (wakes s); intros [= <-]; cbn; rewrite ?Ep; cbn;
      split_and!; try done; lia.
Qed.

Lemma stopping_turns es s s' :
  should_stop s = true → at_phase s ≠ Asleep → turns es s = Ok s' →
  (phase_rank (at_phase s') ≤ phase_rank (at_phase s) - thread_turns es)%nat ∧ should_stop s' = true.
Proof.
  revert s. induction es as [|e es IH]; intros s Hst Hna; cbn [KscanRun.turns].
  { intros [= <-]. split; [|done]. change (thread_turns []) with 0%nat. lia. }
  intros (s1 & E1 & E2)%bind_ok. apply stopping_turn in E1 as (H1 & H2 & H3); [|done..].
  apply IH in E2 as [H4 ?]; [|done..]. split; [|done].
  assert (thread_turns (e :: es) = (thread_turns [e] + thread_turns es)%nat) as ->.
  { unfold thread_turns. cbn. by destruct (is_thread e). }
  lia.
Qed.

Lemma wakes_pass n s :
  at_phase s = Stopped → wakes s = n →
  turns (replicate n Wake) s = Ok (System (vars s) Stopped (should_stop s) 0 (at_life s)).
Proof.
  revert s. induction n as [|n IH]; intros s Hp Hw; cbn.
  - rewrite <- Hp, <- Hw. by destruct s.
  - rewrite Hw. res_steps. rewrite IH; [done|cbn; by rewrite Hp|done].
Qed.

Lemma gone_stays es s :
  at_life s = Gone → at_phase s = Stopped → wakes s = 0%nat → turns es s = Ok s.
Proof.
  intros Hl Hp Hw. induction es as [|e es IH]; [done|]. cbn [KscanRun.turns].
  assert (turn e s = Ok s) as ->; [|by res_steps].
  destruct e as [|name buf| | |]; cbn; unfold sysfs_testd_thread, write_attr; by rewrite ?Hl, ?Hp, ?Hw.
Qed.

Lemma leave_stopped s :
  sys_ok s → at_phase s = Stopped → at_life s ≠ Live →
  ∃ s', turns (replicate (wakes s) Wake ++ [Finish]) s = Ok s' ∧ at_life s' = Gone ∧
    ∀ es, turns es s' = Ok s'.
Proof.
  intros Hok Hp Hl. rewrite turns_app, (wakes_pass (wakes s)) by done. res_steps.
  cbn [KscanRun.turns KscanRun.turn at_life at_phase wakes].
  destruct (at_life s) eqn:El; [done|..]; eexists; (split; [by res_steps|]); (split; [done|]);
    intros es; by apply gone_stays.
Qed.

(** The thread about to take a step of a report on a process it cannot deal
    with. *)
Definition doomed (s : system) : Prop :=
  (∃ st, at_phase s = Reporting st) ∧ bad_process (pid (vars s)).

Lemma turn_ends e s :
  enough_fuel fuel → sys_ok s → (∃ s', turn e s = Ok s') ∨ ∃ u, turn e s = Undef u ∧ e = Thread ∧ doomed s.
Proof.
  intros Hf Hs. destruct e as [|name buf| | |]; cbn [KscanRun.turn]; [|left..].
  - unfold sysfs_testd_thread. destruct (at_phase s) as [| |st| | | | | |] eqn:Ep; [left|left| |left..]; eauto.
    assert (Hp : 0 <= pid (vars s)) by apply (ok_vars s Hs).
    destruct (report_step_ends fuel st (vars s) Hf Hp) as [[r E]|(u & E & Hb)]; rewrite E; res_steps; [eauto|right].
    exists u. split; [done|]. split; [done|]. split; [by exists st|done].
  - eauto.
  - destruct (wakes s); eauto.
  - destruct (at_life s); eauto.
  - destruct (at_life s), (at_phase s), (wakes s); eauto.
Qed.

Lemma turns_end es s :
  enough_fuel fuel → sys_ok s → (∃ s', turns es s = Ok s') ∨
  ∃ u es0 es1 s0, turns es s = Undef u ∧ es = es0 ++ Thread :: es1 ∧ turns es0 s = Ok s0 ∧ doomed s0.
Proof.
  intros Hf. revert s. induction es as [|e es IH]; intros s Hs; [left; by eexists|]. cbn [KscanRun.turns].
  destruct (turn_ends e s Hf Hs) as [[s1 E1]|(u & E1 & -> & Hd)]; rewrite E1; res_steps.
  - destruct (IH s1 (turn_keeps_ok fuel kstrtoul Hparse e s s1 Hs E1)) as [Hok|(u & es0 & es1 & s0 & E & -> & E0 & Hd)];
      [by left|right].
    exists u, (e :: es0), es1, s0. split_and!; [done|done| |done]. cbn [KscanRun.turns]. rewrite E1. by res_steps.
  - right. exists u, [], es, s. by split_and!.
Qed.

(** C20: unloading comes to an end, whatever the writers do in between and
    wherever in its loop, a report or a wait the thread was. Every turn ends,
    the loops of a report over the memory of a process included; the only way
    for the module not to go on is a report that runs into a process with a
    number beyond the tables, without memory or with more than 2048 pages in
    memory, where the code does something undefined. Otherwise the thread
    returns within 17 of its turns from [kthread_stop] on; after it and the
    writes that are under way have returned, the rest of [sysfs_test_exit] goes
    through; and afterwards nothing changes any more. *)
Theorem unloading_ends es1 es2 s1 :
  enough_fuel fuel → turns es1 started = Ok s1 → at_life s1 = Live → (17 ≤ thread_turns es2)%nat →
  (∃ u es3 es4 s3, turns (Unload :: es2) s1 = Undef u ∧ es2 = es3 ++ Thread :: es4 ∧
     turns (Unload :: es3) s1 = Ok s3 ∧ doomed s3) ∨
  ∃ s, turns (Unload :: es2) s1 = Ok s ∧ at_phase s = Stopped ∧
    ∃ s', turns (replicate (wakes s) Wake ++ [Finish]) s = Ok s' ∧ at_life s' = Gone ∧
      ∀ es, turns es s' = Ok s'.
Proof.
  intros Hf H1 Hl Hn.
  assert (Hok1 : sys_ok s1) by (eapply (turns_keep_ok fuel); [done|apply started_ok|done]).
  destruct (turns_end (Unload :: es2) s1 Hf Hok1) as [[s H2]|(u & es0 & es4 & s3 & E & Ees & E3 & Hd)].
  2:{ left. destruct es0 as [|e es3]; cbn [app] in Ees; [done|]. injection Ees as <- ->.
      exists u, es3, es4, s3. by split_and!. }
  right. exists s. split; [done|].
  assert (Hok : sys_ok s) by (eapply (turns_keep_ok fuel); [done|exact Hok1|done]).
  cbn [KscanRun.turns KscanRun.turn] in H2. rewrite Hl in H2. cbn [mbind res_bind] in H2.
  apply stopping_turns in H2 as [Hr Hst]; [|done|by destruct (at_phase s1)].
  assert (Hp : at_phase s = Stopped).
  { assert (phase_rank (at_phase s) = 0)%nat.
    { assert (phase_rank (woken (at_phase s1)) ≤ 17)%nat; [|cbn in Hr; lia].
      destruct (at_phase s1) as [| |[]| | | | | |]; cbn; lia. }
    by destruct (at_phase s). }
  split; [done|]. apply leave_stopped; [done..|]. intros Hlive.
  by rewrite (proj2 (ok_live s Hok) Hlive) in Hst.
Qed.
End unloading.

(** ** Reading the files *)

Definition hex_digit (d : Z) : Z := if d <? 10 then 48 + d else 97 + (d - 10).
Definition unhex (c : Z) : Z := if c <? 97 then c - 48 else c - 97 + 10.

Fixpoint hex (fuel : nat) (n : Z) (acc : list Z) : list Z :=
  match fuel with
  | O => acc
  | S fuel =>
    let acc := hex_digit (n mod 16) :: acc in
    if n / 16 =? 0 then acc else hex fuel (n / 16) acc
  end.

(** [%lx] and [%.16lx] of an [unsigned long]. *)
Definition sprintf_lx (n : Z) : list Z := hex 16 n [].
Definition sprintf_016lx (n : Z) : list Z :=
  replicate (16 - length (sprintf_lx n)) 48 ++ sprintf_lx n.

(** A row of [physinfo.phys]. *)
Definition phys_row (l : Z * Z) : list Z :=
  chars "Virtual Address 0x" ++ sprintf_lx l.1 ++ chars " corresponds to Physical Address 0x" ++
  sprintf_016lx l.2 ++ chars ".".

(** [test_show] prints the integer it is given, if any; its variable is gone.
    [phys_show] prints the rows. *)
Definition test_show (private : file_data) : res (list Z) :=
  match private with
  | StackInt _ => Undef Dangling
  | PhysTable => Ok []
  end.

Definition phys_show (s : kscan) : list Z := concat ((λ l, phys_row l ++ [10]) <$> physinfo s).

(** [cat]: the operations with which a file was created open it with their
    show function. *)
Definition cat_file (s : kscan) (data : file_data) : res (list Z) :=
  match data with
  | StackInt _ => test_show data
  | PhysTable => Ok (phys_show s)
  end.

Lemma length_hex fuel n acc : (length (hex fuel n acc) ≤ fuel + length acc)%nat.
Proof.
  revert n acc. induction fuel as [|fuel IH]; intros n acc; cbn [hex]; [lia|].
  case_goal; [cbn; lia|]. etrans; [apply IH|]. cbn. lia.
Qed.

Lemma unhex_digit d : 0 <= d < 16 → unhex (hex_digit d) = d.
Proof. unfold unhex, hex_digit. intros Hd. destruct (Z.ltb_spec d 10); case_goal; lia. Qed.

Lemma hex_value k n acc :
  0 <= n < 16 ^ Z.of_nat k → (1 ≤ k)%nat →
  ∃ ds, hex k n acc = ds ++ acc ∧ foldl (λ a c, 16 * a + unhex c) 0 ds = n.
Proof.
  revert n acc. induction k as [|k IH]; intros n acc Hn Hk; [lia|]. cbn [hex].
  pose proof (Z.div_mod n 16 ltac:(lia)) as Hdm. pose proof (Z.mod_pos_bound n 16 ltac:(lia)).
  destruct (Z.eqb_spec (n / 16) 0) as [E|E].
  - exists [hex_digit (n mod 16)]. split; [done|]. cbn [foldl]. rewrite unhex_digit; lia.
  - rewrite Nat2Z.inj_succ, Z.pow_succ_r in Hn by lia.
    assert (0 <= n / 16 < 16 ^ Z.of_nat k) by (split; [apply Z.div_pos|apply Z.div_lt_upper_bound]; lia).
    destruct k as [|k]; [cbn in *; lia|].
    destruct (IH (n / 16) (hex_digit (n mod 16) :: acc)) as (ds & E1 & E2); [done|lia|].
    exists (ds ++ [hex_digit (n mod 16)]). rewrite E1, <- app_assoc. split; [done|].
    rewrite foldl_snoc, E2, unhex_digit; lia.
Qed.

(** Every row fits its 256 bytes with the NUL behind it, and the two addresses
    can be read back from it. *)
Theorem phys_row_fits l :
  0 <= l.1 < 2 ^ 64 → 0 <= l.2 < 2 ^ 64 →
  lenZ (phys_row l) + 1 <= 256 ∧
  foldl (λ a c, 16 * a + unhex c) 0 (sprintf_lx l.1) = l.1 ∧
  foldl (λ a c, 16 * a + unhex c) 0 (sprintf_016lx l.2) = l.2 ∧
  length (sprintf_016lx l.2) = 16%nat.
Proof.
  intros H1 H2. pose proof (length_hex 16 l.1 []) as L1. pose proof (length_hex 16 l.2 []) as L2.
  cbn [length] in L1, L2.
  assert (L3 : length (sprintf_016lx l.2) = 16%nat).
  { unfold sprintf_016lx, sprintf_lx. rewrite length_app, length_replicate. lia. }
  assert (Hval : ∀ n, 0 <= n < 2 ^ 64 → foldl (λ a c, 16 * a + unhex c) 0 (sprintf_lx n) = n).
  { intros n Hn. destruct (hex_value 16 n [] Hn) as (ds & E1 & E2); [lia|].
    unfold sprintf_lx. by rewrite E1, app_nil_r. }
  split_and!; [|by apply Hval| |done].
  - unfold phys_row. rewrite !length_app, L3. unfold sprintf_lx. cbn [length chars]. lia.
  - unfold sprintf_016lx. rewrite foldl_app.
    assert (Hz : ∀ k, foldl (λ a c, 16 * a + unhex c) 0 (replicate k 48) = 0) by (by induction k).
    rewrite Hz. by apply Hval.
Qed.

(** ** Instances *)

#[local] Existing Instance demo_machine.

Lemma demo_parser : unsigned_parser demo_kstrtoul.
Proof. intros buf v. by apply parse_digits_nonneg. Qed.

Abbreviation demo_turns := (turns 10 demo_kstrtoul).
Definition demo_write (name text : string) : event := Write (chars name) (chars text).

(** Process 1234 and the given report chosen and switched on. *)
Definition demo_choose (func : string) : list event :=
  [demo_write "pid" "1234"; demo_write "func" func; demo_write "run" "1"; Wake].

(** Where such sessions lead. *)
Definition demo_end (es : list event) : system :=
  match demo_turns es started with Ok s => s | _ => started end.
Definition demo_midway : list event := demo_choose "1" ++ replicate 4 Thread.

Lemma uninterrupted_round_witness :
  ∃ n, (n ≤ 16)%nat ∧ turns 10 demo_kstrtoul (replicate n Thread) started = Ok (with_phase Waiting started).
Proof.
  destruct (uninterrupted_round 10 demo_kstrtoul started eq_refl eq_refl) as (n & Hn & E).
  exists n. split; [exact Hn|]. exact E.
Defined.

Lemma scanner_interleavings_witness :
  at_phase (demo_end demo_midway) = Reporting (VmaTest (chars "1234")) ∧
  sysfs_test_run (vars (demo_end demo_midway)) = SYSFS_TEST_RUN_START.
Proof.
  assert (E : demo_turns demo_midway started = Ok (demo_end demo_midway)) by (vm_compute; reflexivity).
  assert (Ep : at_phase (demo_end demo_midway) = Reporting (VmaTest (chars "1234"))) by (vm_compute; reflexivity).
  destruct (scanner_interleavings 10 demo_kstrtoul demo_midway _ demo_parser E) as (_ & H & _).
  split; [exact Ep|exact (H _ Ep)].
Defined.

Lemma demo_enough : enough_fuel 10.
Proof.
  split; [exact demo_page_size|]. intros p vmas. cbn [task_mm demo_machine]. destruct (p =? 1234); [|discriminate].
  intros [= <-]. split; [exact demo_areas|]. intros v Hv.
  repeat (apply elem_of_cons in Hv as [->|Hv]; [vm_compute; reflexivity|]). by inversion Hv.
Qed.

Lemma unloading_ends_witness :
  ∃ s, demo_turns (Unload :: replicate 17 Thread) (demo_end demo_midway) = Ok s ∧ at_phase s = Stopped ∧
    ∃ s', demo_turns (replicate (wakes s) Wake ++ [Finish]) s = Ok s' ∧ at_life s' = Gone.
Proof.
  assert (E1 : demo_turns demo_midway started = Ok (demo_end demo_midway)) by (vm_compute; reflexivity).
  assert (El : at_life (demo_end demo_midway) = Live) by (vm_compute; reflexivity).
  assert (En : (17 ≤ thread_turns (replicate 17 Thread))%nat) by (vm_compute; lia).
  destruct (unloading_ends 10 demo_kstrtoul demo_parser demo_midway (replicate 17 Thread) _ demo_enough E1 El En)
    as [(u & es3 & es4 & s3 & E & _)|(s & E & Hp & s' & E' & Hg & _)].
  - vm_compute in E. discriminate.
  - exists s. split; [exact E|]. split; [exact Hp|]. exists s'. split; [exact E'|exact Hg].
Defined.

Lemma phys_row_fits_witness : lenZ (phys_row (4194304, 1099515822080)) + 1 <= 256.
Proof. apply phys_row_fits; cbn [fst snd]; lia. Defined.
