(* ===== verification/KscanTree.v ===== *)
(** * The entries that the memory scanner makes in /proc

    lab3/EXP3.2/sec3.c: what the reports leave in the directory /proc/kmscan
    over a whole session, and what unloading the module leaves of it. *)

From Stdlib Require Import Lia String Wf_nat.
From stdpp Require Import base numbers option gmap list.
From S2P Require Import Prelude Bytes CString Kscan KscanRun.
Local Open Scope Z_scope.

(** ** The entries of a session *)

(** The entries alive form a tree below the first one, /proc/kmscan. *)
Inductive tree : list (nat * option nat) → Prop :=
  | tree_root : tree [(0%nat, None)]
  | tree_snoc l id p : tree l → p ∈ l.*1 → id ∉ l.*1 → tree (l ++ [(id, Some p)]).

Lemma drop_entry_snoc x l e :
  drop_entry x (l ++ [e]) =
    if bool_decide (e.1 = x) then drop_entry x l
    else match e.2 with
         | None => drop_entry x l ++ [e]
         | Some p => if bool_decide (p ∈ (drop_entry x l).*1) then drop_entry x l ++ [e] else drop_entry x l
         end.
Proof. unfold drop_entry. by rewrite foldl_snoc. Qed.

Lemma drop_entry_incl x l : drop_entry x l ⊆ l.
Proof.
  induction l as [|e l IH] using rev_ind; [done|]. rewrite drop_entry_snoc.
  intros y. case_bool_decide; [rewrite elem_of_app; naive_solver|]. destruct e.2; [case_bool_decide|];
    rewrite ?elem_of_app; naive_solver.
Qed.

Section tree_facts.
Local Open Scope nat_scope.

Lemma not_an_entry (l : list (nat * option nat)) i p : i ∉ l.*1 → (i, p) ∉ l.
Proof. intros Hi Hin. apply Hi. by apply (list_elem_of_fmap_2 fst) in Hin. Qed.

(** One entry has one parent. *)
Lemma tree_parent l id p q : tree l → (id, p) ∈ l → (id, q) ∈ l → p = q.
Proof.
  induction 1 as [|l i r Hl IH _ Hid]; rewrite ?elem_of_app, ?list_elem_of_singleton; [naive_solver|].
  intros [?|?] [?|?]; simplify_eq; try done; [by apply IH|..]; by eapply not_an_entry in Hid.
Qed.

Lemma tree_parent_in l id p : tree l → (id, Some p) ∈ l → p ∈ l.*1.
Proof.
  induction 1 as [|l i r Hl IH Hr Hid]; [by intros ?%list_elem_of_singleton|].
  rewrite fmap_app, !elem_of_app, list_elem_of_singleton. intros [?|?]; simplify_eq; auto.
Qed.

Lemma tree_has_root l : tree l → (0, None) ∈ l.
Proof. induction 1; [by left|]. apply elem_of_app. by left. Qed.

Lemma tree_below_root l id p : tree l → (id, Some p) ∈ l → id ≠ 0.
Proof.
  intros Hl Hin ->. pose proof (tree_has_root l Hl) as Hr. by pose proof (tree_parent _ _ _ _ Hl Hin Hr).
Qed.

(** Removing the first entry removes them all. *)
Lemma tree_drop_root l : tree l → drop_entry 0 l = [].
Proof.
  induction 1 as [|l i r Hl IH _ Hid]; [done|]. rewrite drop_entry_snoc, IH. cbn.
  case_bool_decide; [done|]. by rewrite bool_decide_false by apply not_elem_of_nil.
Qed.

(** Removing another one keeps the first and all directly below it. *)
Lemma drop_entry_root x l : tree l → x ≠ 0 → (0, None) ∈ drop_entry x l.
Proof.
  induction 1 as [|l i r Hl IH _ Hid]; intros Hx.
  - cbn. rewrite bool_decide_false by (intros E; by apply Hx). by left.
  - rewrite drop_entry_snoc. repeat case_match; rewrite ?elem_of_app; auto.
Qed.

Lemma drop_entry_tree x l : tree l → x ≠ 0 → tree (drop_entry x l).
Proof.
  induction 1 as [|l i r Hl IH _ Hid]; intros Hx.
  - cbn. rewrite bool_decide_false by (intros E; by apply Hx). constructor.
  - rewrite drop_entry_snoc. cbn [fst snd]. case_bool_decide; [auto|]. case_bool_decide; [|auto].
    constructor; [auto|done|]. contradict Hid. apply list_elem_of_fmap in Hid as (e & -> & He).
    apply list_elem_of_fmap_2. by apply drop_entry_incl in He.
Qed.

Lemma drop_entry_child x l y :
  tree l → x ≠ 0 → y ≠ x → (y, Some 0) ∈ l → (y, Some 0) ∈ drop_entry x l.
Proof.
  induction 1 as [|l i r Hl IH Hr Hid]; intros Hx Hy; [by intros [=]%list_elem_of_singleton|].
  rewrite drop_entry_snoc. cbn [fst snd].
  intros [Hin|[= <- <-]%list_elem_of_singleton]%elem_of_app.
  - repeat case_match; rewrite ?elem_of_app; auto.
  - rewrite bool_decide_false by done. rewrite bool_decide_true; [apply elem_of_app; right; by left|].
    apply (list_elem_of_fmap_2 fst _ (0, None)). by apply drop_entry_root.
Qed.

(** It keeps the files of the other directories. *)
Lemma drop_entry_grandchild x l f d :
  tree l → x ≠ 0 → f ≠ x → d ≠ x → (d, Some 0) ∈ l → (f, Some d) ∈ l → (f, Some d) ∈ drop_entry x l.
Proof.
  induction 1 as [|l i r Hl IH Hr Hid]; intros Hx Hf Hd; [intros _; by intros [=]%list_elem_of_singleton|].
  rewrite drop_entry_snoc. cbn [fst snd].
  intros Hdir Hin. apply elem_of_app in Hdir as [Hdir|Hdir%list_elem_of_singleton], Hin as [Hin|Hin%list_elem_of_singleton]; simplify_eq.
  - repeat case_match; rewrite ?elem_of_app; auto.
  - rewrite bool_decide_false by done. rewrite bool_decide_true; [apply elem_of_app; right; by left|].
    apply (list_elem_of_fmap_2 fst _ (r, Some 0)). by apply drop_entry_child.
  - exfalso. by apply Hid, (tree_parent_in l f).
Qed.
End tree_facts.

Lemma live_entries_app ops1 ops2 l :
  live_entries (ops1 ++ ops2) l = l' ← live_entries ops1 l; live_entries ops2 l'.
Proof.
  revert l. induction ops1 as [|op ops1 IH]; intros l; [done|].
  destruct op; cbn [app live_entries]; case_goal; cbn; by rewrite ?IH.
Qed.

(** The log read off: the entries alive are [live], a tree with numbers that
    have been given out. *)
Record placed (v : kscan) (live : list (nat * option nat)) : Prop := {
  pl_log : live_entries (log v) [] = Some live;
  pl_tree : tree live;
  pl_ids : Forall (λ e, (e.1 < next_id v)%nat) live
}.

Lemma placed_fresh v live p : placed v live → (next_id v, p) ∉ live.
Proof. intros [_ _ Hi] Hin. rewrite Forall_forall in Hi. apply Hi in Hin. cbn in Hin. lia. Qed.

(** The calls into procfs on a placed state. *)
Lemma placed_new v op id p live :
  (∀ l, live_entries [op] l = if alive (Some p) l then Some (l ++ [(id, Some p)]) else None) →
  id = next_id v → placed v live → p ∈ live.*1 →
  placed (fresh_id (logged op v)) (live ++ [(id, Some p)]).
Proof.
  intros Hop -> Hv Hp. pose proof Hv as [H1 H2 H3]. split; cbn [log next_id fresh_id logged].
  - rewrite live_entries_app, H1. cbn [mbind option_bind]. rewrite Hop. cbn [alive].
    by rewrite bool_decide_true.
  - constructor; [done..|]. intros ((i & q) & Hi & Hin)%list_elem_of_fmap. cbn in Hi. subst i.
    by eapply placed_fresh.
  - apply Forall_app. split; [eapply Forall_impl; [done|]; cbn; lia|]. constructor; [cbn; lia|done].
Qed.

Lemma placed_mkdir name p v live d v' :
  proc_mkdir name (Some p) v = (d, v') → placed v live → p ∈ live.*1 →
  d = next_id v ∧ placed v' (live ++ [(d, Some p)]).
Proof. intros [= <- <-] Hv Hp. split; [done|]. by apply placed_new. Qed.

Lemma placed_create name p data v live f v' :
  proc_create_data name (Some p) data v = (f, v') → placed v live → p ∈ live.*1 →
  f = next_id v ∧ placed v' (live ++ [(f, Some p)]).
Proof. intros [= <- <-] Hv Hp. split; [done|]. by apply placed_new. Qed.

Lemma placed_remove x p v live :
  placed v live → (x, Some p) ∈ live → placed (proc_remove (Some x) v) (drop_entry x live).
Proof.
  intros [H1 H2 H3] Hx. pose proof (tree_below_root _ _ _ H2 Hx). split; cbn [log next_id proc_remove logged].
  - rewrite live_entries_app, H1. cbn. rewrite bool_decide_true; [done|].
    by apply (list_elem_of_fmap_2 fst) in Hx.
  - by apply drop_entry_tree.
  - rewrite Forall_forall in *. intros e He%drop_entry_incl. auto.
Qed.

(** ** Sessions that keep their entries in order

    [tidy first v]: the entries are a tree in which the directories noted in
    [proc_test_const] and the files noted in [de] and [phys_ptr] are alive.
    With [first] the second report is never made, without it the first one:
    both together remove entries twice. *)
Record tidy (first : bool) (v : kscan) (live : list (nat * option nat)) : Prop := {
  td_placed : placed v live;
  td_root : proc_test_root_const v = Some 0%nat;
  td_mutex p m : mutex v !! p = Some m → m = 0 ∨ m = 1;
  td_dir p : mutex v !! p = Some 1 →
    ∃ d, proc_test_const v !! p = Some d ∧ (d, Some 0%nat) ∈ live;
  td_inj p q d : mutex v !! p = Some 1 → mutex v !! q = Some 1 →
    proc_test_const v !! p = Some d → proc_test_const v !! q = Some d → p = q;
  td_phys f : phys_ptr v = Some f →
    (f, Some 0%nat) ∈ live ∧
    ∀ p, mutex v !! p = Some 1 → proc_test_const v !! p ≠ Some f;
  td_de f : de v = Some f →
    first = true ∧ ∃ p d, mutex v !! p = Some 1 ∧ proc_test_const v !! p = Some d ∧ (f, Some d) ∈ live
}.

Lemma tidy_root_in first v live : tidy first v live → 0%nat ∈ live.*1.
Proof.
  intros [[_ Ht _] _ _ _ _ _ _]. by apply (list_elem_of_fmap_2 fst _ (0%nat, None)), tree_has_root.
Qed.

(** A new directory for a process that has none. *)
Lemma tidy_make first v live name d v1 v2 :
  tidy first v live → mutex v !! pid v ≠ Some 1 →
  proc_mkdir name (proc_test_root_const v) v = (d, v1) → store_const d v1 = Ok v2 →
  ∃ live', tidy first (set_mutex (pid v) 1 v2) live' ∧ proc_test_const v2 !! pid v = Some d.
Proof.
  intros Hv Hm. pose proof (tidy_root_in _ _ _ Hv) as H0in.
  pose proof Hv as [Hp Hr Hmx Hd Hi Hph Hde]. rewrite Hr.
  intros [= <- <-]. unfold store_const, require. case_goal; [|done]. intros [= <-].
  assert (Hp' : placed (fresh_id (logged (Mkdir (next_id v) (Some 0%nat) name) v))
    (live ++ [(next_id v, Some 0%nat)])) by (by apply placed_new).
  assert (Hne : ∀ f, (f, Some 0%nat) ∈ live → f ≠ next_id v)
    by (intros f Hf ->; exact (placed_fresh _ _ _ Hp Hf)).
  exists (live ++ [(next_id v, Some 0%nat)]). split; [|cbn; by rewrite lookup_insert_eq].
  split; cbn [mutex proc_test_const proc_test_root_const de phys_ptr set_mutex set_const fresh_id logged pid].
  - destruct Hp' as [P1 P2 P3]. by split.
  - done.
  - intros p m [[_ <-]|[? ?]]%lookup_insert_Some; [by right|eauto].
  - intros p [[-> _]|[Hpp Hpm]]%lookup_insert_Some.
    + exists (next_id v). rewrite lookup_insert_eq, elem_of_app. split; [done|right; by left].
    + destruct (Hd p Hpm) as (d & Hc & Hin). exists d.
      rewrite lookup_insert_ne, elem_of_app by done. by split; [|left].
  - intros p q d. rewrite !lookup_insert_Some.
    intros [[-> _]|[Hpp Hpm]] [[-> _]|[Hqq Hqm]]; [done|..].
    + intros [[_ <-]|[? _]] [[? _]|[_ Hq]]; try done.
      destruct (Hd q Hqm) as (d' & Hd' & Hin). rewrite Hq in Hd'. injection Hd' as <-. by apply Hne in Hin.
    + intros [[? _]|[_ Hq]] [[_ <-]|[? _]]; try done.
      destruct (Hd p Hpm) as (d' & Hd' & Hin). rewrite Hq in Hd'. injection Hd' as <-. by apply Hne in Hin.
    + intros [[? _]|[_ Hc1]] [[? _]|[_ Hc2]]; try done. by eapply Hi.
  - intros f Hf. destruct (Hph f Hf) as [Hin Hne']. rewrite elem_of_app. split; [by left|].
    intros p. rewrite lookup_insert_Some. intros [[-> _]|[Hpp Hpm]].
    + rewrite lookup_insert_eq. intros [= <-]. by apply Hne in Hin.
    + rewrite lookup_insert_ne by done. auto.
  - intros f Hf. destruct (Hde f Hf) as (-> & p & d & Hpm & Hpc & Hin). split; [done|].
    assert (pid v ≠ p) by (intros Hpp; apply Hm; by rewrite Hpp). exists p, d.
    rewrite !lookup_insert_ne, elem_of_app by done. split_and!; [done..|by left].
Qed.

(** A new file below the directory of the process. *)
Lemma tidy_create first v live name data d f v' :
  tidy first v live → mutex v !! pid v = Some 1 → proc_test_const v !! pid v = Some d →
  proc_create_data name (Some d) data v = (f, v') →
  tidy first v' (live ++ [(f, Some d)]).
Proof.
  intros [Hp Hr Hmx Hd Hi Hph Hde] Hm Hc E.
  destruct (Hd _ Hm) as (d' & Hc' & Hin). rewrite Hc in Hc'. injection Hc' as <-.
  eapply placed_create in E as Hp'; [|done|by apply (list_elem_of_fmap_2 fst) in Hin].
  destruct Hp' as [_ Hp']. injection E as _ <-.
  split; cbn [mutex proc_test_const proc_test_root_const de phys_ptr fresh_id logged]; try done.
  - intros p Hpm. destruct (Hd p Hpm) as (d' & Hc' & Hin'). exists d'. rewrite elem_of_app. by split; [|left].
  - intros g Hg. destruct (Hph g Hg) as [Hin' Hne]. rewrite elem_of_app. by split; [left|].
  - intros g Hg. destruct (Hde g Hg) as (-> & p & d' & H1 & H2 & H3). split; [done|].
    exists p, d'. rewrite elem_of_app. split_and!; [done..|by left].
Qed.

(** The old file of the first report removed. *)
Lemma tidy_remove_de first v live :
  tidy first v live →
  ∃ live', tidy first (set_de None (proc_remove (de v) v)) live'.
Proof.
  intros Hv. pose proof Hv as [Hp Hr Hmx Hd Hi Hph Hde]. destruct (de v) as [f|] eqn:Ed.
  2:{ exists live. cbn [proc_remove]. destruct Hp. by split; [split|..]. }
  destruct (Hde f eq_refl) as (-> & p & d & H1 & H2 & H3).
  assert (Hd0 : d ≠ 0%nat).
  { destruct (Hd p H1) as (d' & H2' & Hin). rewrite H2 in H2'. injection H2' as <-.
    by eapply tree_below_root; [apply Hp|]. }
  assert (Hkeep : ∀ y, (y, Some 0%nat) ∈ live → (y, Some 0%nat) ∈ drop_entry f live).
  { intros y Hy. pose proof (pl_tree _ _ Hp) as Ht. apply drop_entry_child; [done|by eapply tree_below_root| |done].
    intros ->. pose proof (tree_parent _ _ _ _ Ht Hy H3). congruence. }
  pose proof (placed_remove f d v live Hp H3) as Hp'. exists (drop_entry f live).
  split; cbn [mutex proc_test_const proc_test_root_const de phys_ptr proc_remove logged set_de]; try done.
  - destruct Hp'. by split.
  - intros q Hq. destruct (Hd q Hq) as (d' & ? & ?). eauto.
  - intros g Hg. destruct (Hph g Hg). eauto.
Qed.

(** The old file of the third report removed. *)
Lemma tidy_remove_phys first v live lines :
  tidy first v live →
  ∃ live', tidy first (set_phys None lines (proc_remove (phys_ptr v) v)) live'.
Proof.
  intros Hv. pose proof Hv as [Hp Hr Hmx Hd Hi Hph Hde]. destruct (phys_ptr v) as [f|] eqn:Ed.
  2:{ exists live. cbn [proc_remove]. destruct Hp. by split; [split|..]. }
  destruct (Hph f eq_refl) as [Hin Hne]. pose proof (pl_tree _ _ Hp) as Ht.
  assert (Hf0 : f ≠ 0%nat) by (by eapply tree_below_root).
  pose proof (placed_remove f _ v live Hp Hin) as Hp'. exists (drop_entry f live).
  split; cbn [mutex proc_test_const proc_test_root_const de phys_ptr proc_remove logged set_phys]; try done.
  - destruct Hp'. by split.
  - intros q Hq. destruct (Hd q Hq) as (d' & Hc & ?). exists d'. split; [done|].
    apply drop_entry_child; [done..| |done]. intros ->. by apply (Hne q).
  - intros g Hg. destruct (Hde g Hg) as (-> & p & d & H1 & H2 & H3). split; [done|]. exists p, d. split_and!; [done..|].
    destruct (Hd p H1) as (d' & H2' & Hin'). rewrite H2 in H2'. injection H2' as <-.
    apply drop_entry_grandchild; try done.
    + intros ->. pose proof (tree_parent _ _ _ _ Ht Hin H3) as E. injection E as <-.
      by apply (tree_below_root _ _ _ Ht Hin').
    + intros ->. by apply (Hne p).
Qed.

(** The directory of the process removed, when no first report has been made. *)
Lemma tidy_remove_dir v live dir :
  tidy false v live → mutex v !! pid v = Some 1 → proc_test_const v !! pid v = dir →
  ∃ live', tidy false (set_mutex (pid v) 0 (proc_remove dir v)) live'.
Proof.
  intros Hv Hm. pose proof Hv as [Hp Hr Hmx Hd Hi Hph Hde]. pose proof (pl_tree _ _ Hp) as Ht.
  destruct (Hd _ Hm) as (d & Hc & Hin). rewrite Hc. intros <-.
  assert (Hd0 : d ≠ 0%nat) by (by eapply tree_below_root).
  pose proof (placed_remove d _ v live Hp Hin) as Hp'. exists (drop_entry d live).
  assert (Hother : ∀ p, <[pid v:=0]> (mutex v) !! p = Some 1 → mutex v !! p = Some 1 ∧ pid v ≠ p)
    by (intros p [[_ ?]|[? ?]]%lookup_insert_Some; done).
  split; cbn [mutex proc_test_const proc_test_root_const de phys_ptr proc_remove logged set_mutex]; try done.
  - destruct Hp'. by split.
  - intros p m [[_ <-]|[? ?]]%lookup_insert_Some; [by left|eauto].
  - intros p [Hpm Hne]%Hother. destruct (Hd p Hpm) as (d' & Hc' & ?). exists d'. split; [done|].
    apply drop_entry_child; [done..| |done]. intros ->. apply Hne. by eapply Hi.
  - intros p q d' [? _]%Hother [? _]%Hother. by apply Hi.
  - intros g Hg. destruct (Hph g Hg) as [Hin' Hne]. split.
    + apply drop_entry_child; [done..| |done]. intros ->. by apply (Hne (pid v)).
    + intros p [? _]%Hother. auto.
  - intros g Hg. by destruct (Hde g Hg).
Qed.

Lemma tidy_set_de v live p d f :
  tidy true v live → mutex v !! p = Some 1 → proc_test_const v !! p = Some d → (f, Some d) ∈ live →
  tidy true (set_de (Some f) v) live.
Proof.
  intros [[P1 P2 P3] Hr Hmx Hd Hi Hph Hde] H1 H2 H3.
  split; cbn [mutex proc_test_const proc_test_root_const de phys_ptr set_de]; try done.
  intros g [= <-]. split; [done|]. by exists p, d.
Qed.

Lemma tidy_set_phys first v live f lines :
  tidy first v live → (f, Some 0%nat) ∈ live →
  (∀ p, mutex v !! p = Some 1 → proc_test_const v !! p ≠ Some f) →
  tidy first (set_phys (Some f) lines v) live.
Proof.
  intros [[P1 P2 P3] Hr Hmx Hd Hi Hph Hde] H1 H2.
  split; cbn [mutex proc_test_const proc_test_root_const de phys_ptr set_phys]; try done.
  by intros g [= <-].
Qed.

(** The new file of the third report. *)
Lemma tidy_new_phys first v live old lines :
  tidy first (set_phys None old v) live →
  tidy first (set_phys (Some (next_id v)) lines
    (fresh_id (logged (CreateFile (next_id v) (Some 0%nat) (chars "phys_addr") PhysTable) v)))
    (live ++ [(next_id v, Some 0%nat)]).
Proof.
  intros H1. pose proof (tidy_root_in _ _ _ H1) as H0in. pose proof H1 as [Hp Hr Hmx Hd Hi Hph Hde].
  assert (Hp' : placed v live) by (by destruct Hp as [P1 P2 P3]; split).
  eapply (placed_new v (CreateFile (next_id v) (Some 0%nat) (chars "phys_addr") PhysTable)) in H0in as [P1 P2 P3];
    [|done..].
  split; cbn [mutex proc_test_const proc_test_root_const de phys_ptr set_phys fresh_id logged]; try done.
  - intros p Hpm. destruct (Hd p Hpm) as (d & ? & ?). exists d. rewrite elem_of_app. by split; [|left].
  - intros f [= <-]. rewrite elem_of_app. split; [right; by left|]. intros p Hpm Hc.
    destruct (Hd p Hpm) as (d & Hc' & Hin). cbn in Hc'. rewrite Hc in Hc'. injection Hc' as <-.
    exact (placed_fresh _ _ _ Hp' Hin).
  - intros f Hf. destruct (Hde f Hf) as (-> & p & d & E1 & E2 & E3). split; [done|].
    exists p, d. rewrite elem_of_app. split_and!; [done..|by left].
Qed.

(** A step that changes nothing of what [tidy] is about. *)
Lemma tidy_attr first v live :
  tidy first v live → ∀ n, tidy first (set_pid n v) live ∧ tidy first (set_func n v) live ∧
    tidy first (set_sleep n v) live ∧ tidy first (set_run n v) live.
Proof. intros [[P1 P2 P3] Hr Hmx Hd Hi Hph Hde] n. by split_and!; split. Qed.

Section reports_tidy.
Context `{Machine} (fuel : nat).

Lemma const_at_ok v dir : const_at v = Ok dir → proc_test_const v !! pid v = dir.
Proof. unfold const_at, require. case_goal; [|done]. by intros [= ->]. Qed.

Lemma mutex_at_ok v m : mutex_at v = Ok m → default 0 (mutex v !! pid v) = m.
Proof. unfold mutex_at, require. case_goal; [|done]. by intros [= ->]. Qed.

Lemma vma_keeps_tidy v v' live :
  tidy true v live → print_vma_count v = Ok v' → ∃ live', tidy true v' live'.
Proof.
  intros Hv. unfold print_vma_count. intros (name & _ & Hr)%bind_ok.
  apply bind_ok in Hr as (m & Hm%mutex_at_ok & Hr). apply bind_ok in Hr as (s1 & H1 & Hr).
  apply bind_ok in Hr as (vmas & _ & Hr). apply bind_ok in Hr as (dir & Hdir%const_at_ok & Hr).
  assert (Hs1 : ∃ live1, tidy true s1 live1 ∧ mutex s1 !! pid s1 = Some 1).
  { destruct (Z.eqb_spec m 0) as [->|Hm0].
    - destruct (proc_mkdir name (proc_test_root_const v) v) as [d s0] eqn:E0.
      apply bind_ok in H1 as (s2 & H2 & [= <-]).
      assert (mutex v !! pid v ≠ Some 1) by (intros E; by rewrite E in Hm).
      destruct (tidy_make true v live name d s0 s2) as (live1 & Hl & _); [done..|].
      exists live1. split; [done|]. apply same_attrs_mkdir in E0 as (Hp0 & _).
      apply store_const_attrs in H2 as (Hp2 & _). cbn [mutex pid set_mutex].
      rewrite Hp2, Hp0. apply lookup_insert_eq.
    - injection H1 as <-. exists live. split; [done|].
      destruct (mutex v !! pid v) as [m'|] eqn:E; cbn in Hm; [|done]. subst m'.
      destruct (td_mutex _ _ _ Hv _ _ E) as [->| ->]; done. }
  destruct Hs1 as (live1 & Hs1 & Hm1).
  destruct (tidy_remove_de true s1 live1 Hs1) as (live2 & Hs2).
  assert (Hsame : mutex (proc_remove (de s1) s1) = mutex s1 ∧ pid (proc_remove (de s1) s1) = pid s1 ∧
    proc_test_const (proc_remove (de s1) s1) = proc_test_const s1) by (by destruct (de s1)).
  destruct Hsame as (Em & Ep & Ec). rewrite Ec, Ep in Hdir.
  destruct (td_dir _ _ _ Hs1 _ Hm1) as (d & Hd & _). rewrite Hd in Hdir. subst dir.
  assert (Hm2 : mutex (set_de None (proc_remove (de s1) s1)) !!
    pid (set_de None (proc_remove (de s1) s1)) = Some 1) by (cbn; by rewrite Em, Ep).
  assert (Hd2 : proc_test_const (set_de None (proc_remove (de s1) s1)) !!
    pid (set_de None (proc_remove (de s1) s1)) = Some d) by (cbn; by rewrite Ec, Ep).
  pose proof (tidy_create true _ _ (chars "vma_count") (StackInt (count_vmas vmas)) d _ _ Hs2 Hm2 Hd2 eq_refl) as Hs3.
  injection Hr as <-. eexists.
  eapply (tidy_set_de _ _ (pid s1) d) in Hs3; [exact Hs3|cbn; by rewrite Em|cbn; by rewrite Ec|].
  apply elem_of_app. right. by left.
Qed.

(** The files of the second report. *)
Lemma tidy_create_page first v live name data d f v' :
  tidy first v live ∧ mutex v !! pid v = Some 1 ∧ proc_test_const v !! pid v = Some d →
  proc_create_data name (Some d) data v = (f, v') →
  ∃ live', tidy first v' live' ∧ mutex v' !! pid v' = Some 1 ∧ proc_test_const v' !! pid v' = Some d.
Proof.
  intros (Hv & Hm & Hc) E. pose proof (tidy_create _ _ _ _ _ _ _ _ Hv Hm Hc E) as Hv'.
  injection E as _ <-. eexists. by split.
Qed.

Lemma page_keeps_tidy v v' live :
  tidy false v live → print_active_inactive_page_count fuel v = Ok v' → ∃ live', tidy false v' live'.
Proof.
  intros Hv. unfold print_active_inactive_page_count. intros (name & _ & Hr)%bind_ok.
  apply bind_ok in Hr as (m & Hm%mutex_at_ok & Hr). apply bind_ok in Hr as (s1 & H1 & Hr).
  destruct (proc_mkdir name (proc_test_root_const s1) s1) as [d s2] eqn:E2.
  apply bind_ok in Hr as (s3 & H3 & Hr). apply bind_ok in Hr as (vmas & _ & Hr).
  apply bind_ok in Hr as (c & _ & Hr). apply bind_ok in Hr as (dir & Hdir%const_at_ok & Hr).
  assert (Hs1 : ∃ live1, tidy false s1 live1 ∧ mutex s1 !! pid s1 ≠ Some 1 ∧ pid s1 = pid v).
  { destruct (Z.eqb_spec m 1) as [->|Hm1].
    - apply bind_ok in H1 as (dir1 & Hdir1%const_at_ok & [= <-]).
      assert (Hm1 : mutex v !! pid v = Some 1).
      { destruct (mutex v !! pid v); cbn in Hm; congruence. }
      destruct (tidy_remove_dir v live dir1 Hv Hm1 Hdir1) as (live1 & Hl). exists live1.
      split; [done|]. assert (pid (proc_remove dir1 v) = pid v) by (by destruct dir1).
      cbn [mutex pid set_mutex]. rewrite H0, lookup_insert_eq. done.
    - injection H1 as <-. exists live. split_and!; [done| |done]. intros E. by rewrite E in Hm. }
  destruct Hs1 as (live1 & Hs1 & Hm1 & Hp1).
  apply same_attrs_mkdir in E2 as Hp2. destruct Hp2 as (Hp2 & _).
  apply store_const_attrs in H3 as Hp3. destruct Hp3 as (Hp3 & _).
  destruct (tidy_make false s1 live1 name d s2 s3 Hs1 Hm1 E2 H3) as (live2 & Hs4 & Hc4).
  rewrite Hp1 in Hs4, Hc4.
  assert (Hp4 : pid (set_mutex (pid v) 1 s3) = pid v) by (cbn; congruence).
  rewrite Hp4 in Hdir. change (proc_test_const s3 !! pid v = dir) in Hdir. rewrite Hc4 in Hdir. subst dir.
  destruct (proc_create_data _ _ (StackInt (file c)) _) as [f5 s5] eqn:E5.
  destruct (proc_create_data _ _ (StackInt (active_file c)) _) as [f6 s6] eqn:E6.
  destruct (proc_create_data _ _ (StackInt (anon c)) _) as [f7 s7] eqn:E7.
  destruct (proc_create_data _ _ (StackInt (active_anon c)) _) as [f8 s8] eqn:E8.
  injection Hr as <-.
  eapply tidy_create_page in E5 as (l5 & H5); [|split_and!; [exact Hs4|by rewrite Hp4; apply lookup_insert_eq|by rewrite Hp4]].
  eapply tidy_create_page in E6 as (l6 & H6); [|exact H5].
  eapply tidy_create_page in E7 as (l7 & H7); [|exact H6].
  eapply tidy_create_page in E8 as (l8 & H8 & _); [|exact H7]. by exists l8.
Qed.

Lemma phys_keeps_tidy first v v' live :
  tidy first v live → print_phys_num fuel v = Ok v' → ∃ live', tidy first v' live'.
Proof.
  intros Hv. unfold print_phys_num. intros (vmas & _ & Hr)%bind_ok.
  apply bind_ok in Hr as (lines & _ & Hr).
  destruct (tidy_remove_phys first v live (physinfo v) Hv) as (live1 & H1).
  pose proof (td_root _ _ _ H1) as Hroot. cbn [proc_test_root_const set_phys] in Hroot.
  rewrite Hroot in Hr. injection Hr as <-.
  eexists. by eapply tidy_new_phys.
Qed.

Lemma report_keeps_tidy first v v' live :
  tidy first v live → sysfs_test_func v ≠ (if first then 2 else 1) →
  sysfs_test_to_do fuel v = Ok v' → ∃ live', tidy first v' live'.
Proof.
  intros Hv Hf. unfold sysfs_test_to_do.
  destruct (Z.eqb_spec (sysfs_test_func v) 1); [destruct first; [by eapply vma_keeps_tidy|done]|].
  destruct (Z.eqb_spec (sysfs_test_func v) 2); [destruct first; [done|by eapply page_keeps_tidy]|].
  case_goal; [by eapply phys_keeps_tidy|]. intros [= <-]. by exists live.
Qed.
End reports_tidy.

(** ** Sessions in which the process is not exchanged in the middle of a report *)

Definition is_test (st : stage) : bool :=
  match st with TestFirst | TestSecond | TestThird => true | _ => false end.

Section calm.
Context `{Machine} (fuel : nat) (kstrtoul : list Z → option Z) (first : bool).

(** A turn that does not store [pid] while a report is under way, and does not
    ask for the report that is not to be made. *)
Definition other_func : Z := if first then 2 else 1.

Definition calm (e : event) (s : system) : bool :=
  match e with
  | Write name buf =>
    match find_attr name with
    | Some pid_attr => match at_phase s with Reporting _ => false | _ => true end
    | Some func_attr =>
      match parse_uint kstrtoul buf with Some v => negb (v =? other_func) | None => true end
    | _ => true
    end
  | _ => true
  end.

Fixpoint calm_turns (es : list event) (s : system) : bool :=
  match es with
  | [] => true
  | e :: es =>
    calm e s && match turn fuel kstrtoul e s with Ok s' => calm_turns es s' | _ => true end
  end.

(** A store into [func] or [sleep_millisecs] commutes with the steps of a report
    that has been chosen. *)
Lemma report_step_commutes st n v :
  is_test st = false →
  report_step fuel st (set_func n v) = (r ← report_step fuel st v; Ok (r.1, set_func n r.2)) ∧
  report_step fuel st (set_sleep n v) = (r ← report_step fuel st v; Ok (r.1, set_sleep n r.2)).
Proof.
  intros Hst. destruct st; try done; cbn [report_step vma_step page_step phys_step];
    try change (pid_char (set_func n v)) with (pid_char v);
    try change (pid_char (set_sleep n v)) with (pid_char v);
    unfold mark, store_const, mutex_at, const_at, proc_mkdir, proc_create_data, proc_remove, require;
    cbn [pid mutex proc_test_const proc_test_root_const phys_ptr de set_func set_sleep];
    repeat match goal with
    | |- context [if ?b then Ok () else _] => destruct b; res_steps
    | |- context [pid_char v] => destruct (pid_char v); res_steps
    | |- context [mmap_of (pid v)] => destruct (mmap_of (pid v)); res_steps
    | |- context [count_areas ?f ?l ?c] => destruct (count_areas f l c); res_steps
    | |- context [phys_areas ?f ?l ?c] => destruct (phys_areas f l c); res_steps
    | |- context [match ?d with Some _ => _ | None => _ end] => destruct d; res_steps
    end; done.
Qed.

Lemma report_step_leaves_tests st v st' v' :
  is_test st = false → report_step fuel st v = Ok (Some st', v') → is_test st' = false.
Proof. intros Hst Hs. destruct st; step_inv Hs; repeat case_match; by simplify_eq. Qed.

Lemma complete_commutes st n v :
  is_test st = false →
  complete fuel st (set_func n v) = (v' ← complete fuel st v; Ok (set_func n v')) ∧
  complete fuel st (set_sleep n v) = (v' ← complete fuel st v; Ok (set_sleep n v')).
Proof.
  revert st v. refine (induction_ltof1 _ stage_rank _ _). intros st IH v Hst. unfold ltof in IH.
  destruct (report_step_commutes st n v Hst) as [E1 E2].
  rewrite !(complete_step fuel st), E1, E2, !bind_assoc.
  destruct (report_step fuel st v) as [[[st'|] v']| | |] eqn:E; res_steps; cbn [fst snd]; try done.
  apply IH; [by eapply report_step_rank|by eapply report_step_leaves_tests].
Qed.

(** What holds at every point of a calm session: at the end of the report under
    way, or at once, the entries are in order. *)
Definition in_order (p : phase) (v : kscan) : Prop :=
  match p with
  | Reporting st =>
    if is_test st then ∃ live, tidy first v live
    else ∀ w, complete fuel st v = Ok w → ∃ live, tidy first w live
  | _ => ∃ live, tidy first v live
  end.

Record orderly (s : system) : Prop := {
  or_func : sysfs_test_func (vars s) ≠ other_func;
  or_entries : at_life s ≠ Gone → in_order (at_phase s) (vars s);
  or_gone : at_life s = Gone → live_entries (log (vars s)) [] = Some []
}.

Lemma report_in_order st v next v' :
  sysfs_test_func v ≠ other_func → in_order (Reporting st) v →
  report_step fuel st v = Ok (next, v') → in_order (from_option Reporting Unlock next) v'.
Proof.
  intros Hf Ho E. cbn [in_order] in Ho. destruct (is_test st) eqn:Est.
  - destruct Ho as (live & Hv).
    unfold other_func in Hf. destruct st; try done; injection E as <- <-; cbn [from_option in_order].
    + destruct (Z.eqb_spec (sysfs_test_func v) 1) as [E1|]; cbn [is_test]; [|by exists live].
      intros w. rewrite complete_vma. destruct first; [by eapply vma_keeps_tidy|done].
    + destruct (Z.eqb_spec (sysfs_test_func v) 2) as [E1|]; cbn [is_test]; [|by exists live].
      intros w. rewrite complete_page. destruct first; [done|by eapply page_keeps_tidy].
    + destruct (sysfs_test_func v =? 3); cbn [from_option in_order is_test]; [|by exists live].
      intros w. rewrite complete_phys. by eapply phys_keeps_tidy.
  - assert (Hc : ∀ w, (match next with None => Ok v' | Some st' => complete fuel st' v' end) = Ok w →
      ∃ live, tidy first w live).
    { intros w Hw. apply Ho. rewrite complete_step, E. res_steps. cbn [fst snd]. by destruct next. }
    destruct next as [st'|]; cbn [from_option in_order]; [|by apply Hc].
    by rewrite (report_step_leaves_tests _ _ _ _ Est E).
Qed.

Lemma thread_orderly s s' : sys_ok s → orderly s → sysfs_testd_thread fuel s = Ok s' → orderly s'.
Proof.
  intros Hok Hs E. pose proof Hs as [Hf Ho Hg]. unfold sysfs_testd_thread in E.
  destruct (at_phase s) as [| |st| | |ms| | |] eqn:Ep.
  3:{ assert (Hlife : at_life s ≠ Gone) by (intros [E' _]%(ok_gone s Hok); by rewrite Ep in E').
      apply bind_ok in E as ([next v] & E & Hs'). injection Hs' as <-.
      pose proof (report_step_attrs fuel _ _ _ _ E) as (_ & Ef & _). specialize (Ho Hlife).
      split; cbn; [by rewrite Ef|intros _|done]. by eapply report_in_order. }
  all: injection E as <-; split; cbn; rewrite ?Ep; try done.
  all: repeat case_goal; try done; intros Hl; apply (Ho Hl).
Qed.

Lemma in_order_stores p v n :
  in_order p v →
  in_order p (set_func n v) ∧ in_order p (set_sleep n v) ∧
  (holds_mutex p = false → in_order p (set_run n v)) ∧
  (match p with Reporting _ => False | _ => True end → in_order p (set_pid n v)).
Proof.
  intros Hp.
  assert (Hall : (∃ live, tidy first v live) → ∀ n, (∃ live, tidy first (set_pid n v) live) ∧
    (∃ live, tidy first (set_func n v) live) ∧ (∃ live, tidy first (set_sleep n v) live) ∧
    (∃ live, tidy first (set_run n v) live)).
  { intros (live & Hl) m. by destruct (tidy_attr _ _ _ Hl m) as (?&?&?&?); split_and!; exists live. }
  destruct p as [| |st| | |ms| | |]; cbn [in_order holds_mutex] in *; try (specialize (Hall Hp n); tauto).
  destruct (is_test st) eqn:Est; [specialize (Hall Hp n); split_and!; [tauto..|done|done]|].
  destruct (complete_commutes st n v Est) as [E1 E2]. split_and!; [| |done..].
  - intros w. rewrite E1. intros (w' & Hw & [= <-])%bind_ok. destruct (Hp w' Hw) as (live & Hl).
    exists live. by apply tidy_attr.
  - intros w. rewrite E2. intros (w' & Hw & [= <-])%bind_ok. destruct (Hp w' Hw) as (live & Hl).
    exists live. by apply tidy_attr.
Qed.

Lemma write_orderly name buf s :
  unsigned_parser kstrtoul → orderly s → calm (Write name buf) s = true → orderly (write_attr kstrtoul name buf s).
Proof.
  intros Hk Hs. pose proof Hs as [Hf Ho Hg]. unfold calm, write_attr.
  destruct (find_attr name) as [a|]; [|by destruct (at_life s)].
  intros Hc. enough (Hw : at_life s ≠ Gone → orderly (let '(ret, v, wake) := attr_store kstrtoul a buf (vars s) in
    match a with
    | run_attr => if holds_mutex (at_phase s) then s
        else System v (at_phase s) (should_stop s) (if wake then S (wakes s) else wakes s) (at_life s)
    | _ => with_vars v s end)) by (destruct (at_life s); [by apply Hw..|done]).
  intros Hl. specialize (Ho Hl).
  destruct (attr_store_cases kstrtoul a buf (vars s) Hk) as [(r & E & _)|(n & En & _ & E)].
  - rewrite E. assert (with_vars (vars s) s = s) as Es by (by destruct s).
    destruct a; rewrite ?Es; try done. destruct (holds_mutex _); [done|by destruct s].
  - destruct (in_order_stores (at_phase s) (vars s) n Ho) as (H1 & H2 & H3 & H4).
    destruct a; first [rewrite E|destruct E as [_ E]; rewrite E].
    + by split.
    + split; cbn; [done| |done]. intros _. apply H4. by destruct (at_phase s).
    + rewrite En in Hc. split; cbn; [|done|done]. by intros ->; rewrite Z.eqb_refl in Hc.
    + destruct (holds_mutex (at_phase s)); [done|]. split; cbn; [done| |done]. intros _. by apply H3.
Qed.

Lemma turn_orderly e s s' :
  unsigned_parser kstrtoul → sys_ok s → orderly s → calm e s = true →
  turn fuel kstrtoul e s = Ok s' → orderly s'.
Proof.
  intros Hk Hok Hs Hc E. pose proof Hs as [Hf Ho Hg]. destruct e as [|name buf| | |]; cbn [turn] in E.
  - by eapply thread_orderly.
  - injection E as <-. by apply write_orderly.
  - destruct (wakes s); injection E as <-; [done|]. split; cbn; try done.
    intros Hl. specialize (Ho Hl). by destruct (at_phase s).
  - destruct (at_life s) eqn:El; injection E as <-; try done. split; cbn; try done.
    intros _. specialize (Ho ltac:(done)). by destruct (at_phase s).
  - destruct (at_life s) eqn:El, (at_phase s) eqn:Ep, (wakes s); injection E as <-; try done.
    destruct (Ho ltac:(done)) as (live & Hv). pose proof (td_root _ _ _ Hv) as Hr.
    destruct (td_placed _ _ _ Hv) as [P1 P2 P3].
    unfold sysfs_test_exit. rewrite Hr. split; cbn; [done|done|]. intros _.
    rewrite live_entries_app, P1. cbn. rewrite bool_decide_true.
    + by rewrite tree_drop_root.
    + by apply (list_elem_of_fmap_2 fst _ (0%nat, None)), tree_has_root.
Qed.

Lemma started_orderly : orderly started.
Proof.
  split; cbn; [unfold other_func; by destruct first|intros _|done]. exists [(0%nat, None)]. split; cbn; try done.
  split; cbn; [done|constructor|]. apply Forall_singleton. cbn. lia.
Qed.

Lemma calm_turns_orderly es s s' :
  unsigned_parser kstrtoul → sys_ok s → orderly s → calm_turns es s = true →
  turns fuel kstrtoul es s = Ok s' → orderly s'.
Proof.
  intros Hk. revert s. induction es as [|e es IH]; intros s Hok Hs; cbn [calm_turns turns]; [by intros _ [= <-]|].
  intros [Hc Hcs]%andb_prop (s1 & E1 & E2)%bind_ok. rewrite E1 in Hcs. eapply IH; [..|exact Hcs|exact E2].
  - by eapply turn_keeps_ok.
  - by eapply turn_orderly.
Qed.
End calm.

(** C19: in a session in which [pid] is not stored while a report is under way
    and the first and the second report are not both asked for, procfs is always
    used as it may be - no entry is removed twice or made below one that is
    gone - and the entries alive form a tree below /proc/kmscan, so that
    unloading the module, at whatever point, leaves none of them. *)
Theorem unloading_leaves_nothing `{Machine} fuel kstrtoul first es s :
  unsigned_parser kstrtoul → calm_turns fuel kstrtoul first es started = true →
  turns fuel kstrtoul es started = Ok s →
  (at_life s = Gone → live_entries (log (vars s)) [] = Some []) ∧
  (at_life s ≠ Gone → (∀ st, at_phase s ≠ Reporting st) →
     ∃ live, live_entries (log (vars s)) [] = Some live ∧ tree live).
Proof.
  intros Hk Hc Hs.
  assert (Ho : orderly fuel first s).
  { eapply calm_turns_orderly; [done|apply started_ok|apply started_orderly|done..]. }
  destruct Ho as [_ Ho Hg]. split; [done|]. intros Hl Hr. specialize (Ho Hl).
  assert (Hv : ∃ live, tidy first (vars s) live) by (by destruct (at_phase s); try destruct (Hr st)).
  destruct Hv as (live & [[P1 P2 _] _ _ _ _ _ _]). by exists live.
Qed.

(** ** Instances *)

#[local] Existing Instance demo_machine.

(** Two rounds, and the module unloaded. *)
Definition demo_session : list event :=
  demo_choose "1" ++ replicate 30 Thread ++ [demo_write "func" "3"] ++ replicate 20 Thread ++
  [Unload] ++ replicate 17 Thread ++ [Finish].

(** Another process chosen when the first report has just made the directory of
    the first one. *)
Definition demo_race : list event :=
  [demo_write "pid" "1"; demo_write "func" "1"; demo_write "run" "1"] ++ replicate 8 Thread ++
  [demo_write "pid" "1234"] ++ replicate 3 Thread ++ [Wake; Unload] ++ replicate 17 Thread ++ [Finish].

(** The module does not take its mutex when [pid] is stored: with the store in
    the middle of the first report, [proc_test_const] of the new process is still
    NULL, so the file is made in /proc itself, and it is still there, with the
    functions of the module, when the module is gone. *)
Theorem pid_race_leaves_a_file :
  demo_turns demo_race started = Ok (demo_end demo_race) ∧ at_life (demo_end demo_race) = Gone ∧
  live_entries (log (vars (demo_end demo_race))) [] = Some [(2%nat, None)].
Proof. split_and!; vm_compute; reflexivity. Qed.

Lemma unloading_leaves_nothing_witness :
  at_life (demo_end demo_session) = Gone ∧ lenZ (log (vars (demo_end demo_session))) = 11 ∧
  live_entries (log (vars (demo_end demo_session))) [] = Some [].
Proof.
  assert (E : demo_turns demo_session started = Ok (demo_end demo_session)) by (vm_compute; reflexivity).
  assert (Eg : at_life (demo_end demo_session) = Gone) by (vm_compute; reflexivity).
  assert (El : lenZ (log (vars (demo_end demo_session))) = 11) by (vm_compute; reflexivity).
  assert (Ec : calm_turns 10 demo_kstrtoul true demo_session started = true) by (vm_compute; reflexivity).
  destruct (unloading_leaves_nothing 10 demo_kstrtoul true demo_session _ demo_parser Ec E) as [H _].
  split; [exact Eg|]. split; [exact El|exact (H Eg)].
Defined.
