(* ===== verification/Syscalls.v ===== *)
(** * The process list system calls

    ps_counter and ps_state at the end of lab2/lab2.1/linux/sys.c, and the
    program lab2/lab2.1/test_syscall.c that prints what ps_state delivers. An
    array of [struct process_state] is its bytes as the x86-64 ABI lays them
    out: the pid at 0, four bytes of padding, the time at 8, the name at 16,
    32 bytes in all. *)

From Stdlib Require Import Lia String.
From stdpp Require Import base numbers option list.
From S2P Require Import Prelude Bytes CString.
Local Open Scope Z_scope.

(** ** The kernel side *)

(** The fields of [struct task_struct] that are read; [comm] has 16 bytes. *)
Record task_struct := mkTaskStruct { pid : Z; utime : Z; comm : list Z }.

Definition sizeof_process_state : Z := 32.

(** [for_each_process(task) counter++]. *)
Fixpoint count_processes (tasks : list task_struct) (counter : Z) : Z :=
  match tasks with
  | [] => counter
  | _ :: tasks => count_processes tasks (s32 (counter + 1))
  end.

(** [strncpy] into an array of [n] bytes: cut or filled up with zeros. *)
Definition strncpy (n : nat) (src : list Z) : list Z := resize n 0 (c_str src).

(** The second [for_each_process]: [temp] is [pos] bytes into the block. *)
Fixpoint fill_states (tasks : list task_struct) (pos : Z) (states : option (list Z))
    : res (option (list Z)) :=
  match tasks with
  | [] => Ok states
  | task :: tasks =>
    match states with
    | None => Undef NullDeref
    | Some block =>
      _ ← require (pos + sizeof_process_state <=? lenZ block) HeapOverflow;
      let block := splice pos (le_bytes 4 (pid task)) block in
      let block := splice (pos + 8) (le_bytes 8 (utime task)) block in
      let block := splice (pos + 16) (strncpy 16 (comm task)) block in
      fill_states tasks (pos + sizeof_process_state) (Some block)
    end
  end.

(** The memory at the user's pointer after a [copy_to_user] that managed
    [copied] bytes; the system calls ignore how many it managed. *)
Definition copy_to_user (copied : Z) (src dst : list Z) : list Z :=
  splice 0 (take (Z.to_nat copied) src) dst.

Section syscalls.
(** The block that [kmalloc] returns, with what is in it; [None] is NULL. *)
Context (kmalloc : Z → option (list Z)).

Definition ps_counter (tasks : list task_struct) (copied : Z) (num : list Z) : Z * list Z :=
  let counter := count_processes tasks 0 in
  (0, copy_to_user copied (le_bytes 4 counter) num).

(** The task list is walked twice, and may have changed in between. *)
Definition ps_state (tasks1 tasks2 : list task_struct) (copied : Z) (buf : list Z)
    : res (Z * list Z) :=
  let counter := count_processes tasks1 0 in
  let bytes := u64 (counter * sizeof_process_state) in
  states ← fill_states tasks2 0 (kmalloc bytes);
  match states with
  | None => _ ← require (bytes =? 0) NullDeref; Ok (0, buf)
  | Some block => Ok (0, copy_to_user copied (slice 0 bytes block) buf)
  end.
End syscalls.

(** ** The user side *)

(** [%-10d%-12d%s]: the time is printed as an [int]. *)
Record ps_line := PsLine { out_pid : Z; out_time : Z; out_comm : list Z }.

(** The [for] loop of [main] from entry [i] on; [mem] is the memory from the
    start of [states], which has 1000 entries. *)
Fixpoint print_states (k : nat) (i : Z) (mem : list Z) : res (list ps_line) :=
  match k with
  | O => OutOfFuel
  | S k =>
    _ ← require (i <? 1000) OutOfBounds;
    let at_ := i * sizeof_process_state in
    let p := s32 (le (slice at_ 4 mem)) in
    if p =? 0 then Ok []
    else
      let line := PsLine p (s32 (le (slice (at_ + 8) 8 mem))) (c_str (drop (Z.to_nat (at_ + 16)) mem)) in
      lines ← print_states k (i + 1) mem;
      Ok (line :: lines)
  end.

Definition test_syscall_main (kmalloc : Z → option (list Z)) (tasks1 tasks2 : list task_struct)
    (copied : Z) (states : list Z) : res (list ps_line) :=
  '(_, states) ← ps_state kmalloc tasks1 tasks2 copied states;
  print_states 1001 0 states.

(** ** What is delivered *)

(** A record: the name up to its end, at most 16 bytes of it, then zeros. *)
Definition state_record (padding : list Z) (t : task_struct) : list Z :=
  le_bytes 4 (pid t) ++ padding ++ le_bytes 8 (utime t) ++ take 16 (c_str (comm t) ++ replicate 16 0).

(** The records of [tasks] in a block that held [block] before. *)
Fixpoint records (tasks : list task_struct) (block : list Z) : list Z :=
  match tasks with
  | [] => []
  | t :: tasks => state_record (slice 4 4 block) t ++ records tasks (drop 32 block)
  end.

Lemma length_strncpy n src : length (strncpy n src) = n.
Proof. apply length_resize. Qed.

Lemma state_record_fields padding t :
  state_record padding t = le_bytes 4 (pid t) ++ padding ++ le_bytes 8 (utime t) ++ strncpy 16 (comm t).
Proof.
  unfold state_record, strncpy. do 3 f_equal. rewrite resize_spec, take_app. f_equal.
  rewrite take_replicate. f_equal. lia.
Qed.

Lemma length_state_record padding t : length padding = 4%nat → length (state_record padding t) = 32%nat.
Proof. intros H. rewrite state_record_fields. by rewrite !length_app, !length_le_bytes, length_strncpy, H. Qed.

Lemma length_records tasks block :
  32 * lenZ tasks <= lenZ block → lenZ (records tasks block) = 32 * lenZ tasks.
Proof.
  revert block. induction tasks as [|t tasks IH]; intros block Hlen; cbn [records length] in *; [done|].
  rewrite length_app, length_state_record by (rewrite length_slice; lia).
  rewrite Nat2Z.inj_add, IH by (rewrite length_drop; lia). lia.
Qed.

(** A block of 32 bytes or more, cut at the fields. *)
Lemma block_fields (block : list Z) :
  32 <= lenZ block →
  ∃ b1 b3 b4, block = b1 ++ slice 4 4 block ++ b3 ++ b4 ++ drop 32 block ∧
    length b1 = 4%nat ∧ length b3 = 8%nat ∧ length b4 = 16%nat.
Proof.
  intros Hlen. exists (take 4 block), (take 8 (drop 8 block)), (take 16 (drop 16 block)).
  split_and!; [|rewrite ?length_take, ?length_drop; lia..].
  unfold slice. change (Z.to_nat 4) with 4%nat.
  rewrite <- (take_drop 4 block) at 1. f_equal. rewrite <- (take_drop 4 (drop 4 block)) at 1.
  f_equal. rewrite drop_drop. cbn [Nat.add]. rewrite <- (take_drop 8 (drop 8 block)) at 1.
  f_equal. rewrite drop_drop. cbn [Nat.add]. rewrite <- (take_drop 16 (drop 16 block)) at 1.
  by rewrite drop_drop.
Qed.

Lemma fill_states_ok tasks pre block :
  32 * lenZ tasks <= lenZ block →
  fill_states tasks (lenZ pre) (Some (pre ++ block)) =
    Ok (Some (pre ++ records tasks block ++ drop (32 * length tasks) block)).
Proof.
  revert pre block. induction tasks as [|t tasks IH]; intros pre block Hlen; [done|].
  cbn [length] in Hlen. cbn [fill_states]. unfold sizeof_process_state.
  rewrite (proj2 (Z.leb_le _ _)) by (rewrite length_app; lia). res_steps.
  destruct (block_fields block) as (b1 & b3 & b4 & E & H1 & H3 & H4); [lia|].
  assert (H2 : length (slice 4 4 block) = 4%nat) by (rewrite length_slice; lia).
  set (b2 := slice 4 4 block) in *. set (rest := drop 32 block) in *.
  rewrite E. rewrite splice_app_mid by (rewrite ?length_le_bytes; lia).
  rewrite (app_assoc pre), (app_assoc (pre ++ _)).
  rewrite splice_app_mid by (rewrite ?length_app, ?length_le_bytes; lia).
  rewrite (app_assoc _ (le_bytes 8 _)).
  rewrite splice_app_mid by (rewrite ?length_app, ?length_strncpy, ?length_le_bytes; lia).
  rewrite (app_assoc _ (strncpy _ _)). set (pre' := (_ ++ strncpy _ _)).
  replace (lenZ pre + 32) with (lenZ pre')
    by (unfold pre'; rewrite !length_app, ?length_strncpy, ?length_le_bytes; lia).
  assert (Hr : lenZ rest = lenZ block - 32) by (unfold rest; rewrite length_drop; lia).
  rewrite IH by lia. rewrite <- E. cbn [records length]. fold b2. fold rest. unfold pre'. rewrite state_record_fields.
  rewrite <- !app_assoc. unfold rest. rewrite drop_drop.
  by replace (32 + 32 * length tasks)%nat with (32 * S (length tasks))%nat by lia.
Qed.

Lemma fill_states_overflow tasks pos block :
  lenZ block < pos + 32 * lenZ tasks → 0 <= pos <= lenZ block →
  fill_states tasks pos (Some block) = Undef HeapOverflow.
Proof.
  revert pos block. induction tasks as [|t tasks IH]; intros pos block Hlen Hpos; cbn [length] in Hlen; [lia|].
  cbn [fill_states]. unfold sizeof_process_state.
  destruct (Z.leb_spec (pos + 32) (lenZ block)); res_steps; [|done].
  set (b1 := splice pos _ block). set (b2 := splice (pos + 8) _ b1). set (b3 := splice _ _ b2).
  assert (H1 : length b1 = length block) by (apply length_splice; rewrite ?length_le_bytes; lia).
  assert (H2 : length b2 = length b1) by (apply length_splice; rewrite ?length_le_bytes; lia).
  assert (H3 : length b3 = length b2) by (apply length_splice; rewrite ?length_strncpy; lia).
  apply IH; lia.
Qed.

Lemma count_processes_ok tasks c :
  0 <= c → c + lenZ tasks < 2 ^ 31 → count_processes tasks c = c + lenZ tasks.
Proof.
  revert c. induction tasks as [|t tasks IH]; intros c Hc Hlen; cbn [count_processes length] in *; [lia|].
  rewrite s32_small by lia. rewrite IH by lia. lia.
Qed.

(** ** Properties *)

Section properties.
Context (kmalloc : Z → option (list Z)).

(** What a walk of [n1] tasks and then one of [tasks2] deliver: the second
    walk's records, then what the block held. *)
Definition delivered (n1 : Z) (tasks2 : list task_struct) (block : list Z) : list Z :=
  records tasks2 block ++ slice (32 * lenZ tasks2) (32 * (n1 - lenZ tasks2)) block.

Lemma ps_state_ok tasks1 tasks2 copied buf block :
  lenZ tasks1 < 2 ^ 26 → kmalloc (32 * lenZ tasks1) = Some block → 32 * lenZ tasks1 <= lenZ block →
  32 * lenZ tasks1 <= copied → lenZ tasks2 <= lenZ tasks1 →
  ps_state kmalloc tasks1 tasks2 copied buf =
    Ok (0, splice 0 (delivered (lenZ tasks1) tasks2 block) buf) ∧
  lenZ (delivered (lenZ tasks1) tasks2 block) = 32 * lenZ tasks1.
Proof.
  intros Hn Hk Hblock Hcopied H21. unfold ps_state, sizeof_process_state.
  rewrite count_processes_ok by lia. rewrite Z.add_0_l, (Z.mul_comm (lenZ tasks1)).
  rewrite u64_small by lia. rewrite Hk.
  pose proof (fill_states_ok tasks2 [] block ltac:(lia)) as F. cbn [app length] in F.
  change (Z.of_nat 0) with 0 in F. rewrite F. res_steps.
  pose proof (length_records tasks2 block ltac:(lia)) as Hr.
  assert (E : slice 0 (32 * lenZ tasks1) (records tasks2 block ++ drop (32 * length tasks2) block) =
    delivered (lenZ tasks1) tasks2 block).
  { unfold delivered, slice. rewrite drop_0, take_app. f_equal; [apply take_ge; lia|].
    f_equal; [lia|]. f_equal. lia. }
  rewrite E. assert (Hd : lenZ (delivered (lenZ tasks1) tasks2 block) = 32 * lenZ tasks1).
  { unfold delivered. rewrite length_app, length_slice by lia. lia. }
  split; [|done]. unfold copy_to_user. by rewrite take_ge by lia.
Qed.

(** A walk that does not change meanwhile fits its block, however much of it
    the program then gets. *)
Lemma ps_state_same tasks copied buf block :
  lenZ tasks < 2 ^ 26 → kmalloc (32 * lenZ tasks) = Some block → 32 * lenZ tasks <= lenZ block →
  ps_state kmalloc tasks tasks copied buf = Ok (0, splice 0 (take (Z.to_nat copied) (records tasks block)) buf).
Proof.
  intros Hn Hk Hblock. unfold ps_state, sizeof_process_state.
  rewrite count_processes_ok by lia. rewrite Z.add_0_l, (Z.mul_comm (lenZ tasks)).
  rewrite u64_small by lia. rewrite Hk.
  pose proof (fill_states_ok tasks [] block ltac:(lia)) as F. cbn [app length] in F.
  change (Z.of_nat 0) with 0 in F. rewrite F. res_steps.
  unfold copy_to_user, slice. rewrite drop_0, take_app_le, (take_ge (records _ _)); [done|..];
    pose proof (length_records tasks block Hblock); lia.
Qed.

Lemma ps_state_overflow tasks1 tasks2 copied buf block :
  lenZ tasks1 < 2 ^ 26 → kmalloc (32 * lenZ tasks1) = Some block → lenZ block < 32 * lenZ tasks2 →
  ps_state kmalloc tasks1 tasks2 copied buf = Undef HeapOverflow.
Proof.
  intros Hn Hk Hover. unfold ps_state, sizeof_process_state.
  rewrite count_processes_ok by lia. rewrite Z.add_0_l, (Z.mul_comm (lenZ tasks1)).
  rewrite u64_small by lia. by rewrite Hk, (fill_states_overflow tasks2 0 block) by lia.
Qed.

(** A task as the kernel keeps it: a pid above 0, a name that ends within
    its array. *)
Record task_ok (t : task_struct) : Prop := {
  ok_pid : 0 < pid t < 2 ^ 31;
  ok_utime : 0 <= utime t < 2 ^ 64;
  ok_comm : lenZ (c_str (comm t)) < 16
}.

Definition line_of (t : task_struct) : ps_line :=
  PsLine (pid t) (s32 (utime t)) (c_str (comm t)).

Lemma strncpy_reads_back n s more : (length (c_str s) < n)%nat → c_str (strncpy n s ++ more) = c_str s.
Proof.
  intros Hlen. unfold strncpy. rewrite resize_ge by lia.
  destruct (n - length (c_str s))%nat as [|m] eqn:E; [lia|]. cbn [replicate].
  rewrite <- app_assoc. cbn [app]. apply c_str_cut. unfold no_nul.
  eapply Forall_impl; [apply take_while_Forall|]. intros c Hc. cbv beta in Hc. lia.
Qed.

Lemma print_states_ext k i mem mem' :
  0 <= i → drop (Z.to_nat (i * 32)) mem = drop (Z.to_nat (i * 32)) mem' →
  print_states k i mem = print_states k i mem'.
Proof.
  revert i. induction k as [|k IH]; intros i Hi E; cbn [print_states]; [done|].
  unfold sizeof_process_state.
  assert (Hd : ∀ o (m : list Z), 0 <= o → drop (Z.to_nat (i * 32 + o)) m = drop (Z.to_nat o) (drop (Z.to_nat (i * 32)) m)).
  { intros. rewrite drop_drop. f_equal. lia. }
  unfold slice. rewrite !Hd, E by lia.
  assert (E' : print_states k (i + 1) mem = print_states k (i + 1) mem').
  { apply IH; [lia|]. replace ((i + 1) * 32) with (i * 32 + 32) by lia. by rewrite !Hd, E by lia. }
  by rewrite E'.
Qed.

Lemma print_records tasks k pre block rest :
  Forall task_ok tasks → 32 * lenZ tasks <= lenZ block → lenZ pre mod 32 = 0 →
  lenZ pre / 32 + lenZ tasks <= 1000 →
  print_states (length tasks + k) (lenZ pre / 32) (pre ++ records tasks block ++ rest) =
    (more ← print_states k (lenZ pre / 32 + lenZ tasks) (pre ++ records tasks block ++ rest);
     Ok ((line_of <$> tasks) ++ more)).
Proof.
  intros Hts. revert pre block. induction Hts as [|t tasks Ht _ IH]; intros pre block Hb Hmod Hmax.
  { cbn [length Nat.add]. rewrite Z.add_0_r. by destruct (print_states _ _ _). }
  cbn [length] in *. cbn [Nat.add print_states]. unfold sizeof_process_state.
  assert (Hi : lenZ pre / 32 * 32 = lenZ pre) by (pose proof (Z.div_mod (lenZ pre) 32); lia).
  rewrite (proj2 (Z.ltb_lt _ 1000)) by lia. res_steps. rewrite Hi. cbn [records].
  assert (H4 : length (slice 4 4 block) = 4%nat) by (rewrite length_slice; lia).
  set (padding := slice 4 4 block) in *. set (more := records tasks (drop 32 block)).
  destruct Ht as [Hp Hu Hc].
  assert (E1 : slice (lenZ pre) 4 (pre ++ (state_record padding t ++ more) ++ rest) = le_bytes 4 (pid t)).
  { unfold slice. rewrite state_record_fields, Nat2Z.id, drop_app_length, <- !app_assoc.
    rewrite take_app_le by (rewrite length_le_bytes; lia). apply take_ge. by rewrite length_le_bytes. }
  assert (E2 : slice (lenZ pre + 8) 8 (pre ++ (state_record padding t ++ more) ++ rest) = le_bytes 8 (utime t)).
  { unfold slice. rewrite state_record_fields, <- !app_assoc, (app_assoc (le_bytes 4 _)), (app_assoc pre).
    rewrite drop_app_length' by (rewrite !length_app, length_le_bytes; lia).
    rewrite take_app_le by (rewrite length_le_bytes; lia). apply take_ge. by rewrite length_le_bytes. }
  assert (E3 : drop (Z.to_nat (lenZ pre + 16)) (pre ++ (state_record padding t ++ more) ++ rest) =
    strncpy 16 (comm t) ++ more ++ rest).
  { rewrite state_record_fields, <- !app_assoc, (app_assoc padding), (app_assoc (le_bytes 4 _)), (app_assoc pre).
    apply drop_app_length'. rewrite !length_app, !length_le_bytes. lia. }
  rewrite E1, E2, E3, strncpy_reads_back by lia. rewrite !le_le_bytes.
  change (256 ^ Z.of_nat 4) with (2 ^ 32). change (256 ^ Z.of_nat 8) with (2 ^ 64).
  rewrite (Z.mod_small (pid t)), (Z.mod_small (utime t)), (s32_small (pid t)) by lia.
  rewrite (proj2 (Z.eqb_neq _ _)) by lia. fold (line_of t).
  rewrite <- (app_assoc (state_record _ _)), (app_assoc pre). set (pre' := pre ++ state_record padding t).
  assert (Hpre : lenZ pre' = lenZ pre + 1 * 32)
    by (unfold pre'; rewrite length_app, length_state_record by done; lia).
  replace (lenZ pre / 32 + 1) with (lenZ pre' / 32) by (rewrite Hpre, Z.div_add; lia).
  unfold more. rewrite IH.
  - rewrite Hpre, Z.div_add by lia. rewrite bind_assoc. fold more.
    replace (lenZ pre / 32 + 1 + lenZ tasks) with (lenZ pre / 32 + Z.of_nat (S (length tasks))) by lia.
    by destruct (print_states _ _ _).
  - rewrite length_drop. lia.
  - by rewrite Hpre, Z.mod_add.
  - rewrite Hpre, Z.div_add; lia.
Qed.

(** C39: The two calls on every branch, whatever happens to the task list between
    the two walks of ps_state and whatever kmalloc answers. ps_counter stores the
    number of tasks. ps_state returns 0 with, in the block, the records of the
    tasks of the second walk in order, each field at its offset, and what the heap
    held in the padding and behind the last record; of that as many bytes as the
    first walk has counted, and of these as many as can be stored, reach the
    program. When there is no block the code follows NULL (unless both walks
    find no task), and when the second walk finds more tasks than the block has
    room for it writes behind the block. *)
Theorem ps_calls_correct tasks1 tasks2 copied mem :
  (∀ n block, kmalloc n = Some block → n <= lenZ block) → lenZ tasks1 < 2 ^ 31 →
  ps_counter tasks1 copied mem =
    (0, splice 0 (take (Z.to_nat copied) (le_bytes 4 (lenZ tasks1))) mem) ∧
  ps_state kmalloc tasks1 tasks2 copied mem =
    match kmalloc (32 * lenZ tasks1) with
    | None => if decide (tasks1 = [] ∧ tasks2 = []) then Ok (0, mem) else Undef NullDeref
    | Some block =>
      if decide (32 * lenZ tasks2 <= lenZ block) then
        Ok (0, splice 0 (take (Z.to_nat copied) (take (Z.to_nat (32 * lenZ tasks1))
                 (records tasks2 block ++ drop (32 * length tasks2) block))) mem)
      else Undef HeapOverflow
    end.
Proof.
  intros Hk Hn. unfold ps_counter, ps_state, sizeof_process_state.
  rewrite count_processes_ok by lia. rewrite Z.add_0_l, (Z.mul_comm (lenZ tasks1)), u64_small by lia.
  split; [done|]. destruct (kmalloc (32 * lenZ tasks1)) as [block|] eqn:E.
  - specialize (Hk _ _ E). case_decide as Hfit.
    + pose proof (fill_states_ok tasks2 [] block Hfit) as F. cbn [app length] in F.
      change (Z.of_nat 0) with 0 in F. rewrite F. res_steps. unfold copy_to_user, slice. by rewrite drop_0.
    + by rewrite (fill_states_overflow tasks2 0 block) by lia.
  - destruct tasks2 as [|t tasks2]; cbn [fill_states]; res_steps; [|by rewrite decide_False by naive_solver].
    destruct tasks1 as [|t tasks1]; [done|]. rewrite decide_False by naive_solver.
    rewrite (proj2 (Z.eqb_neq _ 0)) by (cbn [length]; lia). done.
Qed.

(** Ps_state writes the records of the second walk, in order, each with
    its fields at their offsets, and returns 0. The padding of every record,
    and every record that the second walk no longer fills, is what the heap
    block held before. When the second walk is longer than the block, the
    system call writes behind it. *)
Theorem ps_state_delivers tasks1 tasks2 copied buf block :
  lenZ tasks1 < 2 ^ 26 → kmalloc (32 * lenZ tasks1) = Some block → 32 * lenZ tasks1 <= lenZ block →
  (32 * lenZ tasks1 <= copied → lenZ tasks2 <= lenZ tasks1 →
     ps_state kmalloc tasks1 tasks2 copied buf =
       Ok (0, splice 0 (delivered (lenZ tasks1) tasks2 block) buf) ∧
     lenZ (delivered (lenZ tasks1) tasks2 block) = 32 * lenZ tasks1) ∧
  (lenZ block < 32 * lenZ tasks2 →
     ps_state kmalloc tasks1 tasks2 copied buf = Undef HeapOverflow).
Proof.
  intros Hn Hk Hblock. split; [by intros; apply ps_state_ok|by intros; eapply ps_state_overflow].
Qed.

(** When the task list does not change meanwhile, the program prints one
    line for every task, in order, with its pid, the low 32 bits of its time
    and its name. It then goes on with whatever its array held behind the last
    record: nothing marks the end. *)
Theorem test_syscall_prints tasks copied um block :
  Forall task_ok tasks → lenZ tasks <= 1000 → lenZ um = 32000 →
  kmalloc (32 * lenZ tasks) = Some block → 32 * lenZ tasks <= lenZ block → 32 * lenZ tasks <= copied →
  test_syscall_main kmalloc tasks tasks copied um =
    (stale ← print_states (1001 - length tasks) (lenZ tasks) um; Ok ((line_of <$> tasks) ++ stale)).
Proof.
  intros Hts Hn Hum Hk Hb Hc. unfold test_syscall_main.
  destruct (ps_state_ok tasks tasks copied um block) as [-> _]; [lia|done|lia..|]. res_steps.
  pose proof (length_records tasks block Hb) as Hr. unfold delivered.
  rewrite Z.sub_diag, Z.mul_0_r, slice_0, app_nil_r.
  rewrite <- (take_drop (length (records tasks block)) um) at 1.
  pose proof (splice_app_mid 0 (records tasks block) [] (take (length (records tasks block)) um)) as S.
  cbn [app] in S. rewrite S by (rewrite ?length_take; cbn [length]; lia).
  replace 1001%nat with (length tasks + (1001 - length tasks))%nat at 1 by lia.
  set (rest := drop (length (records tasks block)) um).
  pose proof (print_records tasks (1001 - length tasks) [] block rest Hts Hb eq_refl ltac:(change (lenZ (@nil Z) / 32) with 0; lia)) as P.
  cbn [app length] in P. change (Z.of_nat 0 / 32) with 0 in P. rewrite Z.add_0_l in P. rewrite P.
  rewrite (print_states_ext _ _ (records tasks block ++ _) um); [done|lia|].
  rewrite drop_app_length' by lia. f_equal. lia.
Qed.
End properties.

(** ** Instances *)

(** Two processes, and a heap that hands out blocks full of 0xaa. *)
Definition demo_tasks : list task_struct :=
  [mkTaskStruct 1 2100000000 (chars "systemd"); mkTaskStruct 812 7 (chars "bash")].

Definition demo_kmalloc (n : Z) : option (list Z) := Some (replicate (Z.to_nat n) 170).

(** The second walk finds one task more than the block has room for, or one less,
    and a heap that has no block. *)
Lemma ps_calls_correct_witness :
  ps_counter demo_tasks 4 (replicate 8 1) = (0, [2; 0; 0; 0; 1; 1; 1; 1]) ∧
  ps_state demo_kmalloc (take 1 demo_tasks) demo_tasks 32 (replicate 40 1) = Undef HeapOverflow ∧
  ps_state demo_kmalloc demo_tasks (take 1 demo_tasks) 64 (replicate 64 1) =
    Ok (0, le_bytes 4 1 ++ replicate 4 170 ++ le_bytes 8 2100000000 ++ chars "systemd" ++ replicate 9 0 ++
             replicate 32 170) ∧
  ps_state (λ _, None) demo_tasks demo_tasks 64 (replicate 64 1) = Undef NullDeref.
Proof.
  assert (Hk : ∀ n block, demo_kmalloc n = Some block → n <= lenZ block).
  { intros n block [= <-]. rewrite length_replicate. lia. }
  assert (Hnone : ∀ n block, (λ _ : Z, @None (list Z)) n = Some block → n <= lenZ block) by discriminate.
  assert (Hn : lenZ demo_tasks < 2 ^ 31) by (vm_compute; reflexivity).
  assert (Hn1 : lenZ (take 1 demo_tasks) < 2 ^ 31) by (vm_compute; reflexivity).
  split_and!.
  - rewrite (proj1 (ps_calls_correct demo_kmalloc demo_tasks demo_tasks 4 _ Hk Hn)). vm_compute. reflexivity.
  - rewrite (proj2 (ps_calls_correct demo_kmalloc (take 1 demo_tasks) demo_tasks 32 _ Hk Hn1)). vm_compute. reflexivity.
  - rewrite (proj2 (ps_calls_correct demo_kmalloc demo_tasks (take 1 demo_tasks) 64 _ Hk Hn)). vm_compute. reflexivity.
  - rewrite (proj2 (ps_calls_correct (λ _, None) demo_tasks demo_tasks 64 _ Hnone Hn)). vm_compute. reflexivity.
Defined.

Lemma ps_state_delivers_witness :
  ps_state demo_kmalloc demo_tasks (take 1 demo_tasks) 64 (replicate 96 1) =
    Ok (0, splice 0 (delivered 2 (take 1 demo_tasks) (replicate 64 170)) (replicate 96 1)) ∧
  slice 4 4 (delivered 2 (take 1 demo_tasks) (replicate 64 170)) = replicate 4 170 ∧
  slice 32 32 (delivered 2 (take 1 demo_tasks) (replicate 64 170)) = replicate 32 170.
Proof.
  destruct (ps_state_delivers demo_kmalloc demo_tasks (take 1 demo_tasks) 64 (replicate 96 1)
    (replicate 64 170)) as [Hd _]; [reflexivity|reflexivity|vm_compute; discriminate|].
  split; [|split; vm_compute; reflexivity].
  apply Hd; vm_compute; discriminate.
Defined.

Lemma test_syscall_prints_witness :
  test_syscall_main demo_kmalloc demo_tasks demo_tasks 64 (replicate (Z.to_nat 32000) 0) =
    Ok [PsLine 1 2100000000 (chars "systemd"); PsLine 812 7 (chars "bash")].
Proof.
  rewrite (test_syscall_prints demo_kmalloc demo_tasks 64 (replicate (Z.to_nat 32000) 0) (replicate 64 170)).
  - assert (E : print_states (1001 - length demo_tasks) (lenZ demo_tasks) (replicate (Z.to_nat 32000) 0) =
      Ok []) by (vm_compute; reflexivity).
    rewrite E. reflexivity.
  - repeat first [apply Forall_cons_2|apply Forall_nil_2]; split; vm_compute; split; (reflexivity || discriminate).
  - vm_compute. discriminate.
  - vm_compute. reflexivity.
  - reflexivity.
  - vm_compute. discriminate.
  - vm_compute. discriminate.
Defined.
