(* ===== verification/Linux.v ===== *)
(** * What the system calls of the kernel have in common

    The notions that the parts of lab2/lab2.1/linux/sys.c share: error numbers,
    credentials, the capability checks and security hooks that sys.c calls, and
    a monad for code that keeps a state and may return early. *)

From Stdlib Require Import Lia.
From stdpp Require Import base numbers option list gmap.
From S2P Require Import Prelude.
Local Open Scope Z_scope.

(** ** Error numbers *)

Definition EPERM : Z := 1.
Definition ESRCH : Z := 3.
Definition EINTR : Z := 4.
Definition EBADF : Z := 9.
Definition EAGAIN : Z := 11.
Definition ENOMEM : Z := 12.
Definition EACCES : Z := 13.
Definition EFAULT : Z := 14.
Definition EBUSY : Z := 16.
Definition EINVAL : Z := 22.
Definition ENOSYS : Z := 38.

(** ** Code with a state and early returns

    A computation on states [S] either returns from the system call with a
    value ([inl r]: a [return], or a [goto] to the end of the function) or goes
    on with an [A]. What it did to the state before stays done. *)
Definition sys (S A : Type) : Type := S → (Z + A) * S.

#[global] Instance sys_ret {S} : MRet (sys S) := λ A a s, (inr a, s).
#[global] Instance sys_bind {S} : MBind (sys S) := λ A B f m s,
  match m s with
  | (inl r, s) => (inl r, s)
  | (inr a, s) => f a s
  end.

Definition return_now {S A} (r : Z) : sys S A := λ s, (inl r, s).
Definition return_if {S} (b : bool) (r : Z) : sys S unit := if b then return_now r else mret tt.
Definition return_unless {S A} (o : option A) (r : Z) : sys S A :=
  match o with Some a => mret a | None => return_now r end.
Definition get {S} : sys S S := λ s, (inr s, s).
Definition modify {S} (f : S → S) : sys S unit := λ s, (inr tt, f s).

(** The value of a system call and the state it leaves. *)
Definition run {S} (m : sys S Z) (s : S) : Z * S :=
  match m s with
  | (inl r, s) => (r, s)
  | (inr r, s) => (r, s)
  end.

(** [sys_step] unfolds one layer of a computation applied to a state. *)
Ltac sys_cbn :=
  cbv [run mbind sys_bind mret sys_ret get modify return_now return_if return_unless] in *;
  cbn [fst snd] in *.

(** A predicate that every step of a computation keeps is kept by the whole. *)
Definition keeps {S A} (P : S → Prop) (m : sys S A) : Prop := ∀ s, P s → P (m s).2.

Lemma keeps_bind {S A B} P (m : sys S A) (f : A → sys S B) :
  keeps P m → (∀ a, keeps P (f a)) → keeps P (m ≫= f).
Proof.
  intros Hm Hf s Hs. unfold mbind, sys_bind. specialize (Hm s Hs).
  destruct (m s) as [[r|a] s']; [done|by apply Hf].
Qed.

Lemma keeps_ret {S A} P (a : A) : keeps (S := S) P (mret a).
Proof. by intros s. Qed.

Lemma keeps_get {S} P : keeps (S := S) P get.
Proof. by intros s. Qed.

Lemma keeps_return_now {S A} P r : keeps (S := S) (A := A) P (return_now r).
Proof. by intros s. Qed.

Lemma keeps_return_if {S} P b r : keeps (S := S) P (return_if b r).
Proof. intros s. by destruct b. Qed.

Lemma keeps_return_unless {S A} P (o : option A) r : keeps (S := S) P (return_unless o r).
Proof. intros s. by destruct o. Qed.

Lemma keeps_run {S} P (m : sys S Z) s : keeps P m → P s → P (run m s).2.
Proof. intros Hm Hs. unfold run. specialize (Hm s Hs). by destruct (m s) as [[r|r] s']. Qed.

Create HintDb keeps.
#[export] Hint Resolve keeps_ret keeps_get keeps_return_now keeps_return_if
  keeps_return_unless : keeps.

(** [keeps_steps] splits a computation into its steps. *)
Ltac keeps_steps :=
  repeat first
    [ apply keeps_bind; [|intros ?]
    | solve [auto with keeps]
    | match goal with
      | |- keeps _ (if ?b then _ else _) => destruct b eqn:?
      | |- keeps _ (let '(_, _) := ?p in _) => destruct p eqn:?
      | |- keeps _ (match ?o with Some _ => _ | None => _ end) => destruct o eqn:?
      | |- context [let _ := _ in _] => cbv zeta
      end ].

(** ** Credentials *)

(** [struct user_struct]; [us_addr] is its address, by which the code compares. *)
Record user_struct := mkUser { us_addr : Z; us_uid : Z; us_processes : Z }.

(** [struct cred]. Ids are kuid_t and kgid_t; the security module's part
    (capability sets and the like) is one opaque number. *)
Record cred := mkCred {
  cr_uid : Z; cr_gid : Z; cr_suid : Z; cr_sgid : Z;
  cr_euid : Z; cr_egid : Z; cr_fsuid : Z; cr_fsgid : Z;
  cr_user : user_struct; cr_user_ns : Z; cr_security : Z
}.

#[global] Instance user_struct_eq_dec : EqDecision user_struct.
Proof. solve_decision. Defined.
#[global] Instance cred_eq_dec : EqDecision cred.
Proof. solve_decision. Defined.

Definition uid_eq (a b : Z) : bool := a =? b.
Definition gid_eq (a b : Z) : bool := a =? b.
(** [(uid_t) -1], the id that means no change, and its kuid. *)
Definition no_id : Z := 4294967295.
Definition uid_valid (k : Z) : bool := negb (k =? no_id).
Definition gid_valid (k : Z) : bool := negb (k =? no_id).

Inductive capability := CAP_SETUID | CAP_SETGID | CAP_SYS_NICE | CAP_SYS_ADMIN | CAP_SYS_RESOURCE.
Inductive lsm_setid := LSM_SETID_ID | LSM_SETID_RE | LSM_SETID_RES | LSM_SETID_FS.

(** The parts of the kernel outside sys.c that the credential calls use, with
    what their documentation promises. *)
Class Linux := {
  (** Ids of a user namespace and of the kernel. *)
  make_kuid : Z → Z → Z;
  make_kgid : Z → Z → Z;
  from_kuid_munged : Z → Z → Z;
  from_kgid_munged : Z → Z → Z;
  from_make_kuid ns u : uid_valid (make_kuid ns u) = true → from_kuid_munged ns (make_kuid ns u) = u;
  from_make_kgid ns g : gid_valid (make_kgid ns g) = true → from_kgid_munged ns (make_kgid ns g) = g;
  (** Has the task with these credentials the capability in the namespace? *)
  ns_capable : cred → Z → capability → bool;
  init_user_ns : Z;
  (** A copy of the current credentials, or NULL. *)
  prepare_creds : cred → option cred;
  prepare_creds_copies c c' : prepare_creds c = Some c' → c' = c;
  (** [commit_creds old new]: the return value and the credentials then in force. *)
  commit_creds : cred → cred → Z * cred;
  commit_creds_installs old new : commit_creds old new = (0, new);
  (** The structure of a user, or NULL when there is no memory for it. *)
  alloc_uid : Z → option user_struct;
  alloc_uid_uid u us : alloc_uid u = Some us → us_uid us = u;
  INIT_USER : Z;
  (** The hook of the security modules: [new], [old], and the kind of call. It
      may adapt the modules' part of the new credentials. *)
  security_task_fix_setuid : cred → cred → lsm_setid → Z * Z
}.

Definition with_uid u c := mkCred u (cr_gid c) (cr_suid c) (cr_sgid c) (cr_euid c) (cr_egid c)
  (cr_fsuid c) (cr_fsgid c) (cr_user c) (cr_user_ns c) (cr_security c).
Definition with_gid g c := mkCred (cr_uid c) g (cr_suid c) (cr_sgid c) (cr_euid c) (cr_egid c)
  (cr_fsuid c) (cr_fsgid c) (cr_user c) (cr_user_ns c) (cr_security c).
Definition with_suid u c := mkCred (cr_uid c) (cr_gid c) u (cr_sgid c) (cr_euid c) (cr_egid c)
  (cr_fsuid c) (cr_fsgid c) (cr_user c) (cr_user_ns c) (cr_security c).
Definition with_sgid g c := mkCred (cr_uid c) (cr_gid c) (cr_suid c) g (cr_euid c) (cr_egid c)
  (cr_fsuid c) (cr_fsgid c) (cr_user c) (cr_user_ns c) (cr_security c).
Definition with_euid u c := mkCred (cr_uid c) (cr_gid c) (cr_suid c) (cr_sgid c) u (cr_egid c)
  (cr_fsuid c) (cr_fsgid c) (cr_user c) (cr_user_ns c) (cr_security c).
Definition with_egid g c := mkCred (cr_uid c) (cr_gid c) (cr_suid c) (cr_sgid c) (cr_euid c) g
  (cr_fsuid c) (cr_fsgid c) (cr_user c) (cr_user_ns c) (cr_security c).
Definition with_fsuid u c := mkCred (cr_uid c) (cr_gid c) (cr_suid c) (cr_sgid c) (cr_euid c) (cr_egid c)
  u (cr_fsgid c) (cr_user c) (cr_user_ns c) (cr_security c).
Definition with_fsgid g c := mkCred (cr_uid c) (cr_gid c) (cr_suid c) (cr_sgid c) (cr_euid c) (cr_egid c)
  (cr_fsuid c) g (cr_user c) (cr_user_ns c) (cr_security c).
Definition with_user us c := mkCred (cr_uid c) (cr_gid c) (cr_suid c) (cr_sgid c) (cr_euid c) (cr_egid c)
  (cr_fsuid c) (cr_fsgid c) us (cr_user_ns c) (cr_security c).
Definition with_security m c := mkCred (cr_uid c) (cr_gid c) (cr_suid c) (cr_sgid c) (cr_euid c)
  (cr_egid c) (cr_fsuid c) (cr_fsgid c) (cr_user c) (cr_user_ns c) m.

(** Process ids: [struct pid] is a number of its own, [find_vpid] finds it by
    the number it has in the caller's namespace, [pid_vnr] gives that number (0
    when the process is not visible there). *)
Class PidNamespace := {
  find_vpid : Z → option Z;
  pid_vnr : Z → Z;
  find_vpid_vnr nr pid : find_vpid nr = Some pid → pid_vnr pid = nr
}.

Section helpers.
Context `{Linux}.

(** The capability in the initial user namespace. *)
Definition capable (c : cred) (cap : capability) : bool := ns_capable c init_user_ns cap.
End helpers.

(** ** A concrete kernel for instances of the theorems

    Namespace [n] maps the ids below 65536 to those from 100000 * n on; its
    root has every capability. *)
Definition demo_make (ns u : Z) : Z := if (0 <=? u) && (u <? 65536) then u + 100000 * ns else no_id.

Program Definition demo_linux : Linux := {|
  make_kuid := demo_make; make_kgid := demo_make;
  from_kuid_munged := λ ns k, k - 100000 * ns; from_kgid_munged := λ ns k, k - 100000 * ns;
  ns_capable := λ c ns _, cr_euid c =? 100000 * ns; init_user_ns := 0;
  prepare_creds := Some; commit_creds := λ _ new, (0, new);
  alloc_uid := λ u, Some (mkUser u u 1); INIT_USER := 0;
  security_task_fix_setuid := λ new _ _, (0, cr_security new)
|}.
Next Obligation. intros ns u. unfold demo_make. case_match; [lia|done]. Qed.
Next Obligation. intros ns u. unfold demo_make. case_match; [lia|done]. Qed.
Next Obligation. congruence. Qed.
Next Obligation. done. Qed.
Next Obligation. by intros u us [= <-]. Qed.

(** A namespace that shows the processes below 100 under their own number. *)
Program Definition demo_pids : PidNamespace := {|
  find_vpid := λ nr, if (0 <? nr) && (nr <? 100) then Some nr else None;
  pid_vnr := λ pid, pid
|}.
Next Obligation. intros nr pid. cbn. case_match; by intros [= ->]. Qed.
