(* ===== verification/Credentials.v ===== *)
(** * User and group ids

    The system calls of lab2/lab2.1/linux/sys.c that read and change the ids of
    the calling task, from setregid to setfsgid and getuid to getegid. *)

From Stdlib Require Import Lia.
From stdpp Require Import base numbers option list gmap.
From S2P Require Import Prelude Linux.
Local Open Scope Z_scope.

(** ** State

    Of the calling task: its credentials, its flags and its limit on the
    number of processes. *)
Record task := mkTask { t_cred : cred; t_flags : Z; t_nproc : Z }.

Definition PF_NPROC_EXCEEDED : Z := 4096.

Definition set_cred (c : cred) (t : task) : task := mkTask c (t_flags t) (t_nproc t).
Definition set_flags (f : Z) (t : task) : task := mkTask (t_cred t) f (t_nproc t).

Section calls.
Context `{Linux}.

Definition current_cred : sys task cred := t ← get; mret (t_cred t).

(** The end of a call that succeeds: [commit_creds(new)]. *)
Definition commit (new : cred) : sys task Z :=
  t ← get;
  let '(r, c) := commit_creds (t_cred t) new in
  _ ← modify (set_cred c);
  mret r.

(** [security_task_fix_setuid] with the change it makes to [new]. *)
Definition fix_setuid (new old : cred) (how : lsm_setid) : Z * cred :=
  let '(r, m) := security_task_fix_setuid new old how in (r, with_security m new).

(** ** Group ids *)

Definition setregid (rgid egid : Z) : sys task Z :=
  old ← current_cred;
  let ns := cr_user_ns old in
  let krgid := make_kgid ns rgid in
  let kegid := make_kgid ns egid in
  _ ← return_if (negb (rgid =? no_id) && negb (gid_valid krgid)) (- EINVAL);
  _ ← return_if (negb (egid =? no_id) && negb (gid_valid kegid)) (- EINVAL);
  new ← return_unless (prepare_creds old) (- ENOMEM);
  new ← (if rgid =? no_id then mret new
    else if gid_eq (cr_gid old) krgid || gid_eq (cr_egid old) krgid || ns_capable old (cr_user_ns old) CAP_SETGID
    then mret (with_gid krgid new) else return_now (- EPERM));
  new ← (if egid =? no_id then mret new
    else if gid_eq (cr_gid old) kegid || gid_eq (cr_egid old) kegid || gid_eq (cr_sgid old) kegid ||
            ns_capable old (cr_user_ns old) CAP_SETGID
    then mret (with_egid kegid new) else return_now (- EPERM));
  let new := if negb (rgid =? no_id) || (negb (egid =? no_id) && negb (gid_eq kegid (cr_gid old)))
    then with_sgid (cr_egid new) new else new in
  let new := with_fsgid (cr_egid new) new in
  commit new.

Definition setgid (gid : Z) : sys task Z :=
  old ← current_cred;
  let kgid := make_kgid (cr_user_ns old) gid in
  _ ← return_if (negb (gid_valid kgid)) (- EINVAL);
  new ← return_unless (prepare_creds old) (- ENOMEM);
  new ← (if ns_capable old (cr_user_ns old) CAP_SETGID
    then mret (with_gid kgid (with_egid kgid (with_sgid kgid (with_fsgid kgid new))))
    else if gid_eq kgid (cr_gid old) || gid_eq kgid (cr_sgid old)
    then mret (with_egid kgid (with_fsgid kgid new))
    else return_now (- EPERM));
  commit new.

(** May an id of [setresuid] or [setresgid] be taken without the capability? *)
Definition foreign_gid (old : cred) (gid kgid : Z) : bool :=
  negb (gid =? no_id) && negb (gid_eq kgid (cr_gid old)) &&
  negb (gid_eq kgid (cr_egid old)) && negb (gid_eq kgid (cr_sgid old)).

Definition setresgid (rgid egid sgid : Z) : sys task Z :=
  old ← current_cred;
  let ns := cr_user_ns old in
  let krgid := make_kgid ns rgid in
  let kegid := make_kgid ns egid in
  let ksgid := make_kgid ns sgid in
  _ ← return_if (negb (rgid =? no_id) && negb (gid_valid krgid)) (- EINVAL);
  _ ← return_if (negb (egid =? no_id) && negb (gid_valid kegid)) (- EINVAL);
  _ ← return_if (negb (sgid =? no_id) && negb (gid_valid ksgid)) (- EINVAL);
  new ← return_unless (prepare_creds old) (- ENOMEM);
  _ ← return_if (negb (ns_capable old (cr_user_ns old) CAP_SETGID) &&
                 (foreign_gid old rgid krgid || foreign_gid old egid kegid || foreign_gid old sgid ksgid))
                (- EPERM);
  let new := if rgid =? no_id then new else with_gid krgid new in
  let new := if egid =? no_id then new else with_egid kegid new in
  let new := if sgid =? no_id then new else with_sgid ksgid new in
  let new := with_fsgid (cr_egid new) new in
  commit new.

(** ** User ids *)

Definition set_user (new : cred) : sys task (Z * cred) :=
  match alloc_uid (cr_uid new) with
  | None => mret (- EAGAIN, new)
  | Some new_user =>
    t ← get;
    _ ← modify (set_flags
      (if (t_nproc t <=? us_processes new_user) && negb (us_addr new_user =? INIT_USER)
       then Z.lor (t_flags t) PF_NPROC_EXCEEDED
       else Z.land (t_flags t) (Z.lnot PF_NPROC_EXCEEDED)));
    mret (0, with_user new_user new)
  end.

(** [retval = set_user(new); if (retval < 0) goto error;] under a condition. *)
Definition set_user_if (b : bool) (new : cred) : sys task cred :=
  if b then
    '(retval, new) ← set_user new;
    _ ← return_if (retval <? 0) retval;
    mret new
  else mret new.

(** The end of the calls on user ids: the hook and [commit_creds]. *)
Definition fix_and_commit (new old : cred) (how : lsm_setid) : sys task Z :=
  let '(retval, new) := fix_setuid new old how in
  _ ← return_if (retval <? 0) retval;
  commit new.

Definition setreuid (ruid euid : Z) : sys task Z :=
  old ← current_cred;
  let ns := cr_user_ns old in
  let kruid := make_kuid ns ruid in
  let keuid := make_kuid ns euid in
  _ ← return_if (negb (ruid =? no_id) && negb (uid_valid kruid)) (- EINVAL);
  _ ← return_if (negb (euid =? no_id) && negb (uid_valid keuid)) (- EINVAL);
  new ← return_unless (prepare_creds old) (- ENOMEM);
  new ← (if ruid =? no_id then mret new
    else
      _ ← return_if (negb (uid_eq (cr_uid old) kruid) && negb (uid_eq (cr_euid old) kruid) &&
                     negb (ns_capable old (cr_user_ns old) CAP_SETUID)) (- EPERM);
      mret (with_uid kruid new));
  new ← (if euid =? no_id then mret new
    else
      _ ← return_if (negb (uid_eq (cr_uid old) keuid) && negb (uid_eq (cr_euid old) keuid) &&
                     negb (uid_eq (cr_suid old) keuid) &&
                     negb (ns_capable old (cr_user_ns old) CAP_SETUID)) (- EPERM);
      mret (with_euid keuid new));
  new ← set_user_if (negb (uid_eq (cr_uid new) (cr_uid old))) new;
  let new := if negb (ruid =? no_id) || (negb (euid =? no_id) && negb (uid_eq keuid (cr_uid old)))
    then with_suid (cr_euid new) new else new in
  let new := with_fsuid (cr_euid new) new in
  fix_and_commit new old LSM_SETID_RE.

Definition setuid (uid : Z) : sys task Z :=
  old ← current_cred;
  let kuid := make_kuid (cr_user_ns old) uid in
  _ ← return_if (negb (uid_valid kuid)) (- EINVAL);
  new ← return_unless (prepare_creds old) (- ENOMEM);
  new ← (if ns_capable old (cr_user_ns old) CAP_SETUID
    then set_user_if (negb (uid_eq kuid (cr_uid old))) (with_suid kuid (with_uid kuid new))
    else if negb (uid_eq kuid (cr_uid old)) && negb (uid_eq kuid (cr_suid new))
    then return_now (- EPERM)
    else mret new);
  let new := with_fsuid kuid (with_euid kuid new) in
  fix_and_commit new old LSM_SETID_ID.

Definition foreign_uid (old : cred) (uid kuid : Z) : bool :=
  negb (uid =? no_id) && negb (uid_eq kuid (cr_uid old)) &&
  negb (uid_eq kuid (cr_euid old)) && negb (uid_eq kuid (cr_suid old)).

Definition setresuid (ruid euid suid : Z) : sys task Z :=
  old ← current_cred;
  let ns := cr_user_ns old in
  let kruid := make_kuid ns ruid in
  let keuid := make_kuid ns euid in
  let ksuid := make_kuid ns suid in
  _ ← return_if (negb (ruid =? no_id) && negb (uid_valid kruid)) (- EINVAL);
  _ ← return_if (negb (euid =? no_id) && negb (uid_valid keuid)) (- EINVAL);
  _ ← return_if (negb (suid =? no_id) && negb (uid_valid ksuid)) (- EINVAL);
  new ← return_unless (prepare_creds old) (- ENOMEM);
  _ ← return_if (negb (ns_capable old (cr_user_ns old) CAP_SETUID) &&
                 (foreign_uid old ruid kruid || foreign_uid old euid keuid || foreign_uid old suid ksuid))
                (- EPERM);
  new ← (if ruid =? no_id then mret new
    else set_user_if (negb (uid_eq kruid (cr_uid old))) (with_uid kruid new));
  let new := if euid =? no_id then new else with_euid keuid new in
  let new := if suid =? no_id then new else with_suid ksuid new in
  let new := with_fsuid (cr_euid new) new in
  fix_and_commit new old LSM_SETID_RES.

(** ** The ids for the file system *)

Definition setfsuid (uid : Z) : sys task Z :=
  old ← current_cred;
  let old_fsuid := from_kuid_munged (cr_user_ns old) (cr_fsuid old) in
  let kuid := make_kuid (cr_user_ns old) uid in
  _ ← return_if (negb (uid_valid kuid)) old_fsuid;
  new ← return_unless (prepare_creds old) old_fsuid;
  if (uid_eq kuid (cr_uid old) || uid_eq kuid (cr_euid old) || uid_eq kuid (cr_suid old) ||
      uid_eq kuid (cr_fsuid old) || ns_capable old (cr_user_ns old) CAP_SETUID) &&
     negb (uid_eq kuid (cr_fsuid old))
  then
    let '(r, new) := fix_setuid (with_fsuid kuid new) old LSM_SETID_FS in
    if r =? 0 then _ ← commit new; mret old_fsuid else mret old_fsuid
  else mret old_fsuid.

Definition setfsgid (gid : Z) : sys task Z :=
  old ← current_cred;
  let old_fsgid := from_kgid_munged (cr_user_ns old) (cr_fsgid old) in
  let kgid := make_kgid (cr_user_ns old) gid in
  _ ← return_if (negb (gid_valid kgid)) old_fsgid;
  new ← return_unless (prepare_creds old) old_fsgid;
  if (gid_eq kgid (cr_gid old) || gid_eq kgid (cr_egid old) || gid_eq kgid (cr_sgid old) ||
      gid_eq kgid (cr_fsgid old) || ns_capable old (cr_user_ns old) CAP_SETGID) &&
     negb (gid_eq kgid (cr_fsgid old))
  then _ ← commit (with_fsgid kgid new); mret old_fsgid
  else mret old_fsgid.

(** ** Reading the ids

    [put_user] stores one id; [w] says for each of the three pointers whether
    it can be written. The result is the return value and what was stored. *)
Definition put3 (w : bool * bool * bool) (r e s : Z) : Z * list Z :=
  let '(w1, w2, w3) := w in
  if negb w1 then (- EFAULT, [])
  else if negb w2 then (- EFAULT, [r])
  else if negb w3 then (- EFAULT, [r; e])
  else (0, [r; e; s]).

Definition getresuid (c : cred) (w : bool * bool * bool) : Z * list Z :=
  put3 w (from_kuid_munged (cr_user_ns c) (cr_uid c)) (from_kuid_munged (cr_user_ns c) (cr_euid c))
    (from_kuid_munged (cr_user_ns c) (cr_suid c)).

Definition getresgid (c : cred) (w : bool * bool * bool) : Z * list Z :=
  put3 w (from_kgid_munged (cr_user_ns c) (cr_gid c)) (from_kgid_munged (cr_user_ns c) (cr_egid c))
    (from_kgid_munged (cr_user_ns c) (cr_sgid c)).

Definition getuid (c : cred) : Z := from_kuid_munged (cr_user_ns c) (cr_uid c).
Definition geteuid (c : cred) : Z := from_kuid_munged (cr_user_ns c) (cr_euid c).
Definition getgid (c : cred) : Z := from_kgid_munged (cr_user_ns c) (cr_gid c).
Definition getegid (c : cred) : Z := from_kgid_munged (cr_user_ns c) (cr_egid c).

(** ** Sequences of calls *)

Inductive id_call :=
  | Setregid (rgid egid : Z) | Setgid (gid : Z) | Setresgid (rgid egid sgid : Z) | Setfsgid (gid : Z)
  | Setreuid (ruid euid : Z) | Setuid (uid : Z) | Setresuid (ruid euid suid : Z) | Setfsuid (uid : Z).

Definition id_step (call : id_call) : sys task Z :=
  match call with
  | Setregid r e => setregid r e
  | Setgid g => setgid g
  | Setresgid r e s => setresgid r e s
  | Setfsgid g => setfsgid g
  | Setreuid r e => setreuid r e
  | Setuid u => setuid u
  | Setresuid r e s => setresuid r e s
  | Setfsuid u => setfsuid u
  end.

(** The task after a sequence of calls, whatever they returned. *)
Definition after (calls : list id_call) (t : task) : task :=
  foldl (λ t call, (run (id_step call) t).2) t calls.
End calls.

(** ** Well-formed credentials *)

(** Every id is one, and the user structure is that of the real uid. *)
Record cred_ok (c : cred) : Prop := {
  ok_uids : uid_valid (cr_uid c) = true ∧ uid_valid (cr_euid c) = true ∧ uid_valid (cr_suid c) = true ∧ uid_valid (cr_fsuid c) = true;
  ok_gids : gid_valid (cr_gid c) = true ∧ gid_valid (cr_egid c) = true ∧ gid_valid (cr_sgid c) = true ∧ gid_valid (cr_fsgid c) = true;
  ok_user : us_uid (cr_user c) = cr_uid c
}.

(** The ids a task can always go back to, and all of them. *)
Definition holds_uid (c : cred) (k : Z) : Prop := k = cr_uid c ∨ k = cr_euid c ∨ k = cr_suid c.
Definition holds_gid (c : cred) (k : Z) : Prop := k = cr_gid c ∨ k = cr_egid c ∨ k = cr_sgid c.

Section theorems.
Context `{Linux}.

(** What any successful call does to the credentials. *)
Record id_change (old new : cred) : Prop := {
  ic_ns : cr_user_ns new = cr_user_ns old;
  ic_uids : ns_capable old (cr_user_ns old) CAP_SETUID = false →
    (∀ k, holds_uid new k → holds_uid old k) ∧ (holds_uid old (cr_fsuid new) ∨ cr_fsuid new = cr_fsuid old);
  ic_gids : ns_capable old (cr_user_ns old) CAP_SETGID = false →
    (∀ k, holds_gid new k → holds_gid old k) ∧ (holds_gid old (cr_fsgid new) ∨ cr_fsgid new = cr_fsgid old);
  ic_security : cr_security new = cr_security old ∨
    ∃ how, cr_security new = (security_task_fix_setuid (with_security (cr_security old) new) old how).2;
  ic_ok : cred_ok old → cred_ok new
}.

(** *** The pieces the calls are made of *)

Lemma set_flags_same t : set_flags (t_flags t) t = t.
Proof. by destruct t. Qed.

Lemma with_user_same c : with_user (cr_user c) c = c.
Proof. by destruct c. Qed.

(** [set_user] under its condition: no memory, or a new user structure; of the
    task only the flag for the process limit may change. *)
Lemma set_user_if_cases b new t :
  (b = true ∧ alloc_uid (cr_uid new) = None ∧ set_user_if b new t = (inl (- EAGAIN), t)) ∨
  (∃ us f, set_user_if b new t = (inr (with_user us new), set_flags f t) ∧
    if b then alloc_uid (cr_uid new) = Some us else us = cr_user new).
Proof.
  destruct b; unfold set_user_if, set_user.
  - destruct (alloc_uid (cr_uid new)) as [us|] eqn:E; sys_cbn; [right|by left].
    eexists us, _. split; [|done]. reflexivity.
  - right. exists (cr_user new), (t_flags t). by rewrite with_user_same, set_flags_same.
Qed.

Lemma fix_and_commit_cases new old how t :
  (∃ r, r < 0 ∧ (security_task_fix_setuid new old how).1 = r ∧ fix_and_commit new old how t = (inl r, t)) ∨
  (∃ m, 0 <= (security_task_fix_setuid new old how).1 ∧ m = (security_task_fix_setuid new old how).2 ∧
    fix_and_commit new old how t = (inr 0, set_cred (with_security m new) t)).
Proof.
  unfold fix_and_commit, fix_setuid, commit. destruct (security_task_fix_setuid new old how) as [r m].
  cbn [fst]. destruct (Z.ltb_spec r 0); sys_cbn; [left; eauto|right].
  exists m. split; [done|]. by rewrite commit_creds_installs.
Qed.

Lemma commit_run new t : commit new t = (inr 0, set_cred new t).
Proof. unfold commit. sys_cbn. by rewrite commit_creds_installs. Qed.
(** *** Every call changes the credentials as [id_change] says, or not at all *)

Definition changes (m : sys task Z) : Prop :=
  ∀ t, let t' := (run m t).2 in t_cred t' = t_cred t ∨ id_change (t_cred t) (t_cred t').

(** Splits the checks of a call up to the end of each of its paths. *)
Ltac id_paths :=
  repeat first
    [ progress sys_cbn
    | match goal with
      | |- context [prepare_creds ?c] =>
        let E := fresh in destruct (prepare_creds c) as [?|] eqn:E; [apply prepare_creds_copies in E; subst|]
      | |- context [set_user_if ?b ?new ?t] =>
        destruct (set_user_if_cases b new t) as [(? & ? & ->)|(? & ? & -> & ?)]
      | |- context [fix_and_commit ?new ?old ?how ?t] =>
        destruct (fix_and_commit_cases new old how t) as [(? & ? & ? & ->)|(? & ? & ? & ->)]
      | |- context [commit ?new ?t] => rewrite (commit_run new t)
      | |- context [security_task_fix_setuid ?new ?old ?how] =>
        destruct (security_task_fix_setuid new old how) eqn:?
      end
    | case_goal ].

Lemma foreign_uid_false old u k : foreign_uid old u k = false → (u =? no_id) = true ∨ holds_uid old k.
Proof. unfold foreign_uid, holds_uid, uid_eq. lia. Qed.

Lemma foreign_gid_false old g k : foreign_gid old g k = false → (g =? no_id) = true ∨ holds_gid old k.
Proof. unfold foreign_gid, holds_gid, gid_eq. lia. Qed.

(** Splits boolean hypotheses into equations between ids. *)
Ltac id_facts :=
  repeat match goal with
  | H : _ && _ = true |- _ => apply andb_true_iff in H as [? ?]
  | H : _ || _ = false |- _ => apply orb_false_iff in H as [? ?]
  | H : negb _ = true |- _ => apply negb_true_iff in H
  | H : negb _ = false |- _ => apply negb_false_iff in H
  | H : uid_eq _ _ = true |- _ => apply Z.eqb_eq in H
  | H : gid_eq _ _ = true |- _ => apply Z.eqb_eq in H
  | H : foreign_uid _ _ _ = false |- _ => apply foreign_uid_false in H as [?|?]
  | H : foreign_gid _ _ _ = false |- _ => apply foreign_gid_false in H as [?|?]
  | H : ?b = true, H' : ?b = false |- _ => congruence
  | H : true = false |- _ => discriminate
  | H : false = true |- _ => discriminate
  | H : _ || _ = true |- _ => apply orb_true_iff in H as [?|?]
  | H : _ && _ = false |- _ => apply andb_false_iff in H as [?|?]
  end.

Ltac id_holds :=
  first [ assumption | by left | by right; left | by right; right
        | left; congruence | right; left; congruence | right; right; congruence ].

Ltac id_keep :=
  intros Hcap; id_facts;
  (split; [intros ? [->|[->| ->]]; id_holds | first [left; id_holds | right; congruence]]).

(** The user structure that [set_user] found is that of the real uid. *)
Ltac id_user :=
  repeat match goal with
  | H : if ?b then _ else _ |- _ => destruct b eqn:?
  | H : alloc_uid _ = Some _ |- _ => apply alloc_uid_uid in H
  end; cbn in *; id_facts; first [ done | congruence ].

(** The security modules' part comes from the hook, called with all ids in place. *)
Ltac id_security :=
  first [ by left | right; subst; eexists; reflexivity
        | right; eexists; symmetry;
          match goal with E : security_task_fix_setuid _ _ _ = _ |- _ => exact (f_equal snd E) end ].

Ltac id_done :=
  first [ by left
        | right; split; cbn;
          [ done
          | unfold holds_uid in *; cbn; id_keep
          | unfold holds_gid in *; cbn; id_keep
          | id_security
          | intros [? ? ?]; cbn in *; split; cbn;
            [ split_and!; id_facts; first [ tauto | congruence ] .. | id_user ] ] ].

Lemma setgid_changes g : changes (setgid g).
Proof. intros t. unfold setgid, current_cred. id_paths; id_done. Qed.

Lemma setregid_changes r e : changes (setregid r e).
Proof. intros t. unfold setregid, current_cred. id_paths; id_done. Qed.

Lemma setresgid_changes r e s : changes (setresgid r e s).
Proof. intros t. unfold setresgid, current_cred. id_paths; id_done. Qed.

Lemma setfsgid_changes g : changes (setfsgid g).
Proof. intros t. unfold setfsgid, current_cred. id_paths; id_done. Qed.

Lemma setuid_changes u : changes (setuid u).
Proof. intros t. unfold setuid, current_cred. id_paths; id_done. Qed.

Lemma setreuid_changes r e : changes (setreuid r e).
Proof. intros t. unfold setreuid, current_cred. id_paths; id_done. Qed.

Lemma setresuid_changes r e s : changes (setresuid r e s).
Proof. intros t. unfold setresuid, current_cred. id_paths; id_done. Qed.

Lemma setfsuid_changes u : changes (setfsuid u).
Proof. intros t. unfold setfsuid, fix_setuid, current_cred. id_paths; id_done. Qed.
Lemma id_step_changes call : changes (id_step call).
Proof.
  destruct call; cbn [id_step];
    auto using setregid_changes, setgid_changes, setresgid_changes, setfsgid_changes,
      setreuid_changes, setuid_changes, setresuid_changes, setfsuid_changes.
Qed.

(** What every change keeps, sequences of calls keep. *)
Lemma after_keeps (P : cred → Prop) calls t :
  (∀ old new, P old → id_change old new → P new) → P (t_cred t) → P (t_cred (after calls t)).
Proof.
  intros Hstep. unfold after. revert t. induction calls as [|call calls IH]; intros t Ht; [done|].
  cbn [foldl]. apply IH. destruct (id_step_changes call t) as [->|Hc]; [done|by eapply Hstep].
Qed.

(** Where the capabilities are missing, the ids stay among [hu] and [hg]. What
    the security modules keep is described by [powerless], which their hook must
    not break for credentials with such ids. *)
Lemma ids_stay calls t ns (hu hg powerless : Z → Prop) :
  let within c := cr_user_ns c = ns ∧ (∀ k, holds_uid c k → hu k) ∧ (∀ k, holds_gid c k → hg k) ∧
    powerless (cr_security c) in
  (∀ c, within c → ns_capable c ns CAP_SETUID = false ∧ ((∀ k, hg k) ∨ ns_capable c ns CAP_SETGID = false)) →
  (∀ new old how, within new → within old → powerless (security_task_fix_setuid new old how).2) →
  within (t_cred t) →
  let c := t_cred (after calls t) in
  within c ∧ (hu (cr_fsuid c) ∨ cr_fsuid c = cr_fsuid (t_cred t)) ∧
  (hg (cr_fsgid c) ∨ cr_fsgid c = cr_fsgid (t_cred t)).
Proof.
  intros within Hcap Hhook Ht.
  apply (after_keeps (λ c, within c ∧ (hu (cr_fsuid c) ∨ cr_fsuid c = cr_fsuid (t_cred t)) ∧
    (hg (cr_fsgid c) ∨ cr_fsgid c = cr_fsgid (t_cred t)))); [|by auto].
  intros old new (Hold & Hfu & Hfg) [Hns Hu Hg Hs _]. destruct (Hcap old Hold) as [Cu Cg].
  pose proof Hold as (Hn & Ou & Og & Op). rewrite Hn in Hns, Hu, Hg. destruct (Hu Cu) as [Nu Fu].
  assert (Ng : (∀ k, holds_gid new k → hg k) ∧ (hg (cr_fsgid new) ∨ cr_fsgid new = cr_fsgid old)).
  { destruct Cg as [All|Cg]; [by auto|]. destruct (Hg Cg) as [Ng Fg]. split; [by auto|].
    destruct Fg; [left; auto|by right]. }
  destruct Ng as [Ng Fg]. split_and!.
  - unfold within. split_and!; [done|by auto|done|].
    destruct Hs as [->|[how ->]]; [done|]. apply Hhook; [|done].
    unfold within, holds_uid, holds_gid in *. cbn. split_and!; auto.
  - destruct Fu as [Fu| ->]; [left; auto|done].
  - destruct Fg as [Fg| ->]; [left; auto|done].
Qed.

(** Privileged [setuid] sets all four uids. *)
Lemma setuid_privileged u t t' :
  ns_capable (t_cred t) (cr_user_ns (t_cred t)) CAP_SETUID = true → run (setuid u) t = (0, t') →
  let c := t_cred t' in let k := make_kuid (cr_user_ns (t_cred t)) u in
  cr_user_ns c = cr_user_ns (t_cred t) ∧ cr_uid c = k ∧ cr_euid c = k ∧ cr_suid c = k ∧ cr_fsuid c = k.
Proof.
  intros Hcap. unfold setuid, current_cred. id_paths; intros [= ?]; subst; try done; try lia.
Qed.

(** C6: Giving up root is final. When a task with CAP_SETUID calls [setuid] with
    the id of a user who has no privileges (no credentials with this uid and
    [powerless] security data have CAP_SETUID, and the hook of the security
    modules does not give such credentials power), then after whatever sequence
    of the eight calls all its uids are the new one. *)
Theorem setuid_drops_for_good u calls t t' (powerless : Z → Prop) :
  let ns := cr_user_ns (t_cred t) in let k := make_kuid ns u in
  let dropped c := cr_user_ns c = ns ∧ cr_uid c = k ∧ cr_euid c = k ∧ cr_suid c = k ∧ powerless (cr_security c) in
  ns_capable (t_cred t) ns CAP_SETUID = true → run (setuid u) t = (0, t') →
  powerless (cr_security (t_cred t')) →
  (∀ c, dropped c → ns_capable c ns CAP_SETUID = false) →
  (∀ new old how, dropped new → dropped old → powerless (security_task_fix_setuid new old how).2) →
  let c := t_cred (after calls t') in
  cr_uid c = k ∧ cr_euid c = k ∧ cr_suid c = k ∧ cr_fsuid c = k.
Proof.
  intros ns k dropped Hcap Hrun Hp Hno Hhook.
  destruct (setuid_privileged u t t' Hcap Hrun) as (Hns & H1 & H2 & H3 & H4).
  assert (Hd : ∀ c, cr_user_ns c = ns ∧ (∀ x, holds_uid c x → x = k) ∧ (∀ x, holds_gid c x → True) ∧
    powerless (cr_security c) → dropped c).
  { intros c (Hc & Hx & _ & Hpc). unfold holds_uid in Hx. unfold dropped. split_and!; auto. }
  destruct (ids_stay calls t' ns (λ x, x = k) (λ _, True) powerless) as ((_ & Hk & _) & Hf & _).
  - intros c Hc. split; [by apply Hno, Hd|by left].
  - intros new old how Hn Ho. by apply Hhook; apply Hd.
  - split_and!; try done. intros x [->|[->| ->]]; done.
  - cbv zeta. unfold holds_uid in Hk. split_and!; [apply Hk; tauto..|]. destruct Hf as [?| ->]; done.
Qed.

(** A task without the capabilities to set ids never gets an id it does not
    hold: after any sequence of the eight calls, its real, effective and saved
    ids are among those it had, and the ids for the file system are among them
    or as they were. Without the capabilities: no credentials with ids among
    its own and [powerless] security data have them, and the hook of the
    security modules does not give such credentials power. *)
Theorem unprivileged_ids_stay calls t (powerless : Z → Prop) :
  let old := t_cred t in let c := t_cred (after calls t) in
  let within x := cr_user_ns x = cr_user_ns old ∧ (∀ k, holds_uid x k → holds_uid old k) ∧
    (∀ k, holds_gid x k → holds_gid old k) ∧ powerless (cr_security x) in
  powerless (cr_security old) →
  (∀ x, within x → ns_capable x (cr_user_ns old) CAP_SETUID = false ∧
                   ns_capable x (cr_user_ns old) CAP_SETGID = false) →
  (∀ x y how, within x → within y → powerless (security_task_fix_setuid x y how).2) →
  (∀ k, holds_uid c k → holds_uid old k) ∧ (holds_uid old (cr_fsuid c) ∨ cr_fsuid c = cr_fsuid old) ∧
  (∀ k, holds_gid c k → holds_gid old k) ∧ (holds_gid old (cr_fsgid c) ∨ cr_fsgid c = cr_fsgid old).
Proof.
  intros old c within Hp Hcap Hhook.
  destruct (ids_stay calls t (cr_user_ns old) (holds_uid old) (holds_gid old) powerless)
    as ((_ & Hu & Hg & _) & ? & ?); [|done|by split_and!|by split_and!].
  intros x Hx. destruct (Hcap x Hx). auto.
Qed.

(** C32: Credentials stay well formed under every sequence of calls: all eight
    ids are valid, and the user structure, whose processes are counted against
    the limit, is that of the real uid. *)
Theorem calls_keep_cred_ok calls t : cred_ok (t_cred t) → cred_ok (t_cred (after calls t)).
Proof. intros Ht. apply after_keeps; [|done]. intros old new Ho [_ _ _ _ Hok]. auto. Qed.
(** *** Return values *)

(** A call that reports an error has not changed the credentials; the two calls
    for file system ids report no errors and always return the id in force before. *)
Definition reports (call : id_call) (t : task) (r : Z) (t' : task) : Prop :=
  match call with
  | Setfsuid _ => r = from_kuid_munged (cr_user_ns (t_cred t)) (cr_fsuid (t_cred t))
  | Setfsgid _ => r = from_kgid_munged (cr_user_ns (t_cred t)) (cr_fsgid (t_cred t))
  | _ => r <= 0 ∧ (r < 0 → t_cred t' = t_cred t)
  end.

(** Every call reports its failure and changes the credentials all or
    nothing: the return value is 0 or a negative error, and with an error the
    credentials are those from before; setfsuid and setfsgid return the previous
    id whether they change it or not. *)
Theorem failed_calls_change_nothing call t :
  let '(r, t') := run (id_step call) t in reports call t r t'.
Proof.
  destruct call; cbn [id_step reports];
    unfold setregid, setgid, setresgid, setfsgid, setreuid, setuid, setresuid, setfsuid, fix_setuid, current_cred;
    id_paths; cbn; try done; try (split; [lia|done]); split; unfold EPERM, EINVAL, ENOMEM, EAGAIN; try lia; done.
Qed.

(** *** setresuid against its specification *)

(** An id that is passed is mapped in the namespace, or it is -1. *)
Definition mapped (ns u : Z) : Prop := u = no_id ∨ uid_valid (make_kuid ns u) = true.

(** What an unprivileged task may pass. *)
Definition may_take (c : cred) (u : Z) : Prop := u = no_id ∨ holds_uid c (make_kuid (cr_user_ns c) u).

(** The id after a call that passes [u], where it was [k]. *)
Definition chosen (ns u k : Z) : Z := if u =? no_id then k else make_kuid ns u.

Lemma mapped_check ns u :
  negb (u =? no_id) && negb (uid_valid (make_kuid ns u)) = false ↔ mapped ns u.
Proof.
  unfold mapped. destruct (Z.eqb_spec u no_id); cbn; [tauto|].
  destruct (uid_valid _); cbn; naive_solver.
Qed.

Lemma foreign_check c u : foreign_uid c u (make_kuid (cr_user_ns c) u) = false ↔ may_take c u.
Proof. unfold foreign_uid, may_take, holds_uid, uid_eq, no_id. lia. Qed.

(** Memory for what a call allocates, and security modules that agree. *)
Definition resources (c : cred) : Prop :=
  is_Some (prepare_creds c) ∧ (∀ u, is_Some (alloc_uid u)) ∧
  (∀ new how, 0 <= (security_task_fix_setuid new c how).1).
Lemma prepare_creds_some c : is_Some (prepare_creds c) → prepare_creds c = Some c.
Proof. intros [c' E]. by rewrite E, (prepare_creds_copies _ _ E). Qed.

(** With resources the last steps go through. *)
Lemma set_user_if_resources b new old t :
  resources old → ∃ us f, set_user_if b new t = (inr (with_user us new), set_flags f t).
Proof.
  intros (_ & Hu & _). destruct (set_user_if_cases b new t) as [(_ & E & _)|(us & f & E & _)]; [|eauto].
  destruct (Hu (cr_uid new)) as [? ?]. congruence.
Qed.

Lemma fix_and_commit_resources new old how t :
  resources old → ∃ m, fix_and_commit new old how t = (inr 0, set_cred (with_security m new) t).
Proof.
  intros (_ & _ & Hh). destruct (fix_and_commit_cases new old how t) as [(r & ? & E & _)|(m & _ & _ & E)]; [|eauto].
  specialize (Hh new how). lia.
Qed.

Definition setresuid_denied (old : cred) (r e s : Z) : bool :=
  let ns := cr_user_ns old in
  negb (ns_capable old ns CAP_SETUID) &&
  (foreign_uid old r (make_kuid ns r) || foreign_uid old e (make_kuid ns e) || foreign_uid old s (make_kuid ns s)).

Lemma setresuid_denied_iff old r e s :
  setresuid_denied old r e s = false ↔
  ns_capable old (cr_user_ns old) CAP_SETUID = true ∨ Forall (may_take old) [r; e; s].
Proof.
  unfold setresuid_denied. rewrite !Forall_cons, <- !foreign_check.
  destruct (ns_capable _ _ _); cbn; [naive_solver|].
  repeat destruct (foreign_uid _ _ _); cbn; naive_solver.
Qed.

(** The call once its arguments are mapped. *)
Lemma setresuid_run r e s t :
  let old := t_cred t in
  Forall (mapped (cr_user_ns old)) [r; e; s] → resources old →
  if setresuid_denied old r e s then run (setresuid r e s) t = (- EPERM, t)
  else ∃ us f m, run (setresuid r e s) t =
    (0, set_cred (mkCred (chosen (cr_user_ns old) r (cr_uid old)) (cr_gid old)
      (chosen (cr_user_ns old) s (cr_suid old)) (cr_sgid old)
      (chosen (cr_user_ns old) e (cr_euid old)) (cr_egid old)
      (chosen (cr_user_ns old) e (cr_euid old)) (cr_fsgid old) us (cr_user_ns old) m) (set_flags f t)).
Proof.
  intros old Hm Hres. apply Forall_cons in Hm as [Hr Hm]. apply Forall_cons in Hm as [He Hm].
  apply Forall_cons in Hm as [Hs _]. apply mapped_check in Hr, He, Hs.
  unfold setresuid, current_cred. sys_cbn. fold old. rewrite Hr, He, Hs.
  rewrite (prepare_creds_some old) by apply Hres.
  fold (setresuid_denied old r e s). destruct (setresuid_denied old r e s); [done|].
  unfold chosen. destruct (r =? no_id).
  - match goal with |- context [fix_and_commit ?new ?old ?how ?t] =>
      destruct (fix_and_commit_resources new old how t Hres) as [m E] end. rewrite E.
    exists (cr_user old), (t_flags t), m. rewrite set_flags_same. by destruct (e =? no_id), (s =? no_id).
  - destruct (set_user_if_resources (negb (uid_eq (make_kuid (cr_user_ns old) r) (cr_uid old)))
      (with_uid (make_kuid (cr_user_ns old) r) old) old t Hres) as (us & f & E). rewrite E.
    match goal with |- context [fix_and_commit ?new ?old ?how ?t] =>
      destruct (fix_and_commit_resources new old how t Hres) as [m E2] end.
    rewrite E2. exists us, f, m. by destruct (e =? no_id), (s =? no_id).
Qed.
(** C22: [setresuid] as its manual page has it. Given memory and security modules
    that agree: an id that the namespace does not map is EINVAL; a task without
    CAP_SETUID may only pass ids that are one of its real, effective and saved
    uids, else EPERM; neither changes the task. Otherwise each id that is not -1
    is set, the file system uid follows the effective uid, and the group ids
    stay. *)
Theorem setresuid_correct r e s t :
  let old := t_cred t in let ns := cr_user_ns old in let ids := [r; e; s] in
  resources old →
  (¬ Forall (mapped ns) ids → run (setresuid r e s) t = (- EINVAL, t)) ∧
  (Forall (mapped ns) ids → ns_capable old ns CAP_SETUID = false → ¬ Forall (may_take old) ids →
    run (setresuid r e s) t = (- EPERM, t)) ∧
  (Forall (mapped ns) ids → ns_capable old ns CAP_SETUID = true ∨ Forall (may_take old) ids →
    ∃ t', run (setresuid r e s) t = (0, t') ∧
      let new := t_cred t' in
      cr_uid new = chosen ns r (cr_uid old) ∧ cr_euid new = chosen ns e (cr_euid old) ∧
      cr_suid new = chosen ns s (cr_suid old) ∧ cr_fsuid new = cr_euid new ∧
      cr_gid new = cr_gid old ∧ cr_egid new = cr_egid old ∧ cr_sgid new = cr_sgid old ∧
      cr_fsgid new = cr_fsgid old ∧ cr_user_ns new = ns).
Proof.
  intros old ns ids Hres. split_and!.
  - intros Hm. unfold setresuid, current_cred. sys_cbn. fold old ns.
    case_goal; [done|]. case_goal; [done|]. case_goal; [done|].
    exfalso. apply Hm. unfold ids. repeat apply Forall_cons_2; [by apply mapped_check..|apply Forall_nil_2].
  - intros Hm Hcap Hno. pose proof (setresuid_run r e s t Hm Hres) as E. fold old in E.
    destruct (setresuid_denied old r e s) eqn:D; [done|].
    apply setresuid_denied_iff in D as [D|D]; [unfold ns in Hcap; congruence|done].
  - intros Hm Hok. pose proof (setresuid_run r e s t Hm Hres) as E. fold old in E.
    apply setresuid_denied_iff in Hok. rewrite Hok in E. destruct E as (us & f & m & E).
    eexists. split; [exact E|]. by cbn.
Qed.

(** What is set can be read: after a successful [setresuid] or [setresgid]
    with three ids, [getresuid] or [getresgid] delivers these ids. *)
Theorem set_then_getres r e s t t' :
  r ≠ no_id ∧ e ≠ no_id ∧ s ≠ no_id →
  (run (setresuid r e s) t = (0, t') → getresuid (t_cred t') (true, true, true) = (0, [r; e; s])) ∧
  (run (setresgid r e s) t = (0, t') → getresgid (t_cred t') (true, true, true) = (0, [r; e; s])).
Proof.
  intros (Hr%Z.eqb_neq & He%Z.eqb_neq & Hs%Z.eqb_neq). split.
  - unfold setresuid, current_cred. rewrite Hr, He, Hs. id_paths; intros [= ?]; subst; try done; try lia.
    all: id_facts; unfold getresuid; cbn; by rewrite !from_make_kuid.
  - unfold setresgid, current_cred. rewrite Hr, He, Hs. id_paths; intros [= ?]; subst; try done; try lia.
    all: id_facts; unfold getresgid; cbn; by rewrite !from_make_kgid.
Qed.

(** Real and effective uid can be swapped to and fro without privileges
    ([setreuid]: "temporarily drop privileges and be able to regain them by
    swapping"), for a task whose two uids the namespace maps. *)
Theorem setreuid_swaps t :
  let old := t_cred t in let ns := cr_user_ns old in
  (∀ c, resources c) →
  getuid old ≠ no_id → make_kuid ns (getuid old) = cr_uid old → uid_valid (cr_uid old) = true →
  geteuid old ≠ no_id → make_kuid ns (geteuid old) = cr_euid old → uid_valid (cr_euid old) = true →
  ∃ t1 t2, run (setreuid (geteuid old) (getuid old)) t = (0, t1) ∧
    cr_uid (t_cred t1) = cr_euid old ∧ cr_euid (t_cred t1) = cr_uid old ∧
    run (setreuid (getuid old) (geteuid old)) t1 = (0, t2) ∧
    cr_uid (t_cred t2) = cr_uid old ∧ cr_euid (t_cred t2) = cr_euid old.
Proof.
  intros old ns Hres H1%Z.eqb_neq M1 V1 H2%Z.eqb_neq M2 V2.
  assert (Hswap : ∀ u e t0, (u =? no_id) = false → (e =? no_id) = false →
    cr_user_ns (t_cred t0) = ns → make_kuid ns u = cr_euid (t_cred t0) → make_kuid ns e = cr_uid (t_cred t0) →
    uid_valid (make_kuid ns u) = true → uid_valid (make_kuid ns e) = true →
    ∃ t1, run (setreuid u e) t0 = (0, t1) ∧ cr_user_ns (t_cred t1) = ns ∧
      cr_uid (t_cred t1) = make_kuid ns u ∧ cr_euid (t_cred t1) = make_kuid ns e).
  { intros u e t0 Hu He Hn Mu Me Vu Ve. unfold setreuid, current_cred. sys_cbn.
    rewrite Hu, He, Hn, Vu, Ve. rewrite (prepare_creds_some _ (proj1 (Hres _))). cbn [negb andb orb].
    unfold uid_eq at 1 2. rewrite Mu, Z.eqb_refl, andb_false_r. cbn [andb]. rewrite <- Mu.
    unfold uid_eq at 1. rewrite Me, Z.eqb_refl. cbn [negb andb].
    match goal with |- context [set_user_if ?b ?new ?s] =>
      destruct (set_user_if_resources b new (t_cred t0) s (Hres _)) as (us & f & ->) end.
    match goal with |- context [fix_and_commit ?new ?old ?how ?t] =>
      destruct (fix_and_commit_resources new old how t (Hres _)) as [m ->] end.
    eexists. split; [reflexivity|]. cbn. split_and!; congruence. }
  destruct (Hswap (geteuid old) (getuid old) t) as (t1 & E1 & N1 & U1 & Ee1); try done; try congruence.
  destruct (Hswap (getuid old) (geteuid old) t1) as (t2 & E2 & N2 & U2 & Ee2); try done; try congruence.
  exists t1, t2. split_and!; try done; congruence.
Qed.
End theorems.

(** ** Concrete instances *)

#[local] Existing Instance demo_linux.

(** A shell of user 1000 that has become root by a setuid program. *)
Definition demo_task : task :=
  mkTask (mkCred 1000 1000 0 1000 0 1000 0 1000 (mkUser 1000 1000 3) 0 0) 0 100.

Lemma demo_resources c : resources c.
Proof. split_and!; [by eexists|intros; by eexists|cbn; lia]. Qed.

Lemma setuid_drops_for_good_witness :
  let c := t_cred (after [Setuid 0; Setreuid 0 0; Setresuid 1000 1000 1000; Setfsuid 0]
    (run (setuid 1000) demo_task).2) in
  cr_uid c = 1000 ∧ cr_euid c = 1000 ∧ cr_suid c = 1000 ∧ cr_fsuid c = 1000.
Proof.
  pose proof (setuid_drops_for_good 1000 [Setuid 0; Setreuid 0 0; Setresuid 1000 1000 1000; Setfsuid 0]
    demo_task (run (setuid 1000) demo_task).2 (λ _, True) eq_refl eq_refl I) as E.
  assert (Hk : make_kuid (cr_user_ns (t_cred demo_task)) 1000 = 1000) by reflexivity. rewrite Hk in E. apply E.
  - intros c (_ & _ & He & _). cbn. rewrite He. reflexivity.
  - intros. exact I.
Defined.

Definition plain_task : task :=
  mkTask (mkCred 1000 1000 1000 1000 1000 1000 1000 1000 (mkUser 1000 1000 3) 0 0) 0 100.

Lemma unprivileged_ids_stay_witness :
  let c := t_cred (after [Setuid 0; Setresgid 0 1000 7; Setfsuid 0] plain_task) in
  holds_uid (t_cred plain_task) (cr_euid c).
Proof.
  refine (proj1 (unprivileged_ids_stay [Setuid 0; Setresgid 0 1000 7; Setfsuid 0] plain_task (λ _, True) _ _ _) _ _).
  - exact I.
  - intros x (_ & Hx & _). assert (E : cr_euid x = 1000).
    { destruct (Hx (cr_euid x)) as [H|[H|H]]; [right; left; reflexivity|exact H..]. }
    cbn. rewrite E. split; reflexivity.
  - intros. exact I.
  - right. left. reflexivity.
Defined.

Lemma calls_keep_cred_ok_witness :
  cred_ok (t_cred (after [Setresuid 5 6 7; Setresgid 0 no_id 7; Setfsuid 9] demo_task)).
Proof. apply calls_keep_cred_ok. split; [split_and!; reflexivity..|reflexivity]. Defined.

Lemma setresuid_correct_witness :
  ∃ t', run (setresuid 0 1000 no_id) demo_task = (0, t') ∧ cr_euid (t_cred t') = 1000.
Proof.
  destruct (setresuid_correct 0 1000 no_id demo_task (demo_resources _)) as (_ & _ & H).
  destruct H as (t' & E & _ & He & _).
  - repeat apply Forall_cons_2; [right; reflexivity|right; reflexivity|left; reflexivity|apply Forall_nil_2].
  - left. reflexivity.
  - exists t'. split; [exact E|exact He].
Defined.

Lemma set_then_getres_witness :
  getresuid (t_cred (run (setresuid 3 4 5) demo_task).2) (true, true, true) = (0, [3; 4; 5]).
Proof. apply (set_then_getres 3 4 5 demo_task); [split_and!; discriminate|reflexivity]. Defined.

Lemma setreuid_swaps_witness :
  ∃ t1 t2, run (setreuid 0 1000) demo_task = (0, t1) ∧ cr_uid (t_cred t1) = 0 ∧ cr_euid (t_cred t1) = 1000 ∧
    run (setreuid 1000 0) t1 = (0, t2) ∧ cr_uid (t_cred t2) = 1000 ∧ cr_euid (t_cred t2) = 0.
Proof.
  assert (Hu : getuid (t_cred demo_task) = 1000) by reflexivity.
  assert (He : geteuid (t_cred demo_task) = 0) by reflexivity.
  assert (Hn : cr_user_ns (t_cred demo_task) = 0) by reflexivity.
  assert (Hr : cr_uid (t_cred demo_task) = 1000) by reflexivity.
  assert (Hf : cr_euid (t_cred demo_task) = 0) by reflexivity.
  pose proof (setreuid_swaps demo_task) as E. cbv zeta in E. rewrite Hu, He, Hn, Hr, Hf in E.
  apply E; first [apply demo_resources | discriminate | reflexivity].
Defined.
