(* ===== verification/Priority.v ===== *)
(** * Scheduling priorities

    set_one_prio_perm, set_one_prio, setpriority and getpriority of
    lab2/lab2.1/linux/sys.c. *)

From Stdlib Require Import Lia.
From stdpp Require Import base numbers option list.
From S2P Require Import Prelude Linux.
Local Open Scope Z_scope.

(** ** State

    The threads of the system in the order in which the loops visit them. A
    thread is known by its [struct pid], here a number; [p_pgrp] is that of its
    process group. *)
Record thread := mkThread { p_pid : Z; p_pgrp : Z; p_cred : cred; p_nice : Z }.

Definition MIN_NICE : Z := -20.
Definition MAX_NICE : Z := 19.
Definition PRIO_PROCESS : Z := 0.
Definition PRIO_PGRP : Z := 1.
Definition PRIO_USER : Z := 2.

(** nice 19 .. -20 as 1 .. 40. *)
Definition nice_to_rlimit (nice : Z) : Z := MAX_NICE - nice + 1.

(** What these calls use of the rest of the kernel. *)
Class Scheduler `{Linux, PidNamespace} := {
  (** May the current task give this thread the value, by its limit or a capability? *)
  can_nice : cred → thread → Z → bool;
  can_nice_nice c p n m : can_nice c (mkThread (p_pid p) (p_pgrp p) (p_cred p) m) n = can_nice c p n;
  security_task_setnice : thread → Z → Z;
  (** Is there a structure for this user? *)
  find_user : Z → bool
}.

Section calls.
Context `{Scheduler}.

Definition set_user_nice (nice : Z) (p : thread) : thread :=
  mkThread (p_pid p) (p_pgrp p) (p_cred p) nice.

Definition find_task_by_vpid (threads : list thread) (who : Z) : option thread :=
  pid ← find_vpid who;
  snd <$> list_find (λ p, p_pid p = pid) threads.

(** [cred] is that of the current task. *)
Definition set_one_prio_perm (cred : cred) (p : thread) : bool :=
  let pcred := p_cred p in
  if uid_eq (cr_uid pcred) (cr_euid cred) || uid_eq (cr_euid pcred) (cr_euid cred) then true
  else ns_capable cred (cr_user_ns pcred) CAP_SYS_NICE.

(** The error and the thread afterwards. *)
Definition set_one_prio (cred : cred) (p : thread) (niceval error : Z) : Z * thread :=
  if negb (set_one_prio_perm cred p) then (- EPERM, p)
  else if (niceval <? p_nice p) && negb (can_nice cred p niceval) then (- EACCES, p)
  else
    let no_nice := security_task_setnice p niceval in
    if negb (no_nice =? 0) then (no_nice, p)
    else ((if error =? - ESRCH then 0 else error), set_user_nice niceval p).

(** A loop over the threads that calls [set_one_prio] on those that [sel] selects. *)
Fixpoint set_prio_loop (cred : cred) (sel : thread → bool) (niceval error : Z) (threads : list thread)
    : Z * list thread :=
  match threads with
  | [] => (error, [])
  | p :: threads =>
    let '(error, p) := if sel p then set_one_prio cred p niceval error else (error, p) in
    let '(error, threads) := set_prio_loop cred sel niceval error threads in
    (error, p :: threads)
  end.

(** The user of [PRIO_USER]; [None] when [find_user] finds none. *)
Definition prio_user (cred : cred) (who : Z) : option Z :=
  if who =? 0 then Some (cr_uid cred)
  else
    let uid := make_kuid (cr_user_ns cred) who in
    if negb (uid_eq uid (cr_uid cred)) && negb (find_user uid) then None else Some uid.

(** The three ways of naming threads. [cur] is the current thread. *)
Definition prio_process (cur : thread) (threads : list thread) (who : Z) : option thread :=
  if who =? 0 then Some cur else find_task_by_vpid threads who.

Definition prio_pgrp (cur : thread) (who : Z) : option Z :=
  if who =? 0 then Some (p_pgrp cur) else find_vpid who.

Definition in_pgrp (pgrp : Z) (p : thread) : bool := p_pgrp p =? pgrp.
Definition of_user (uid : Z) (p : thread) : bool :=
  uid_eq (cr_uid (p_cred p)) uid && negb (pid_vnr (p_pid p) =? 0).

Definition bad_which (which : Z) : bool := (PRIO_USER <? which) || (which <? PRIO_PROCESS).

Definition clamp_nice (niceval : Z) : Z :=
  let niceval := if niceval <? MIN_NICE then MIN_NICE else niceval in
  if MAX_NICE <? niceval then MAX_NICE else niceval.

(** The list with the thread [p] in its new state. *)
Definition store (p : thread) (threads : list thread) : list thread :=
  (λ q, if p_pid q =? p_pid p then p else q) <$> threads.

Definition setpriority (cur : thread) (threads : list thread) (which who niceval : Z) : Z * list thread :=
  let cred := p_cred cur in
  let error := - ESRCH in
  let niceval := clamp_nice niceval in
  if bad_which which then (- EINVAL, threads)
  else if which =? PRIO_PROCESS then
    match prio_process cur threads who with
    | Some p => let '(error, p) := set_one_prio cred p niceval error in (error, store p threads)
    | None => (error, threads)
    end
  else if which =? PRIO_PGRP then
    match prio_pgrp cur who with
    | Some pgrp => set_prio_loop cred (in_pgrp pgrp) niceval error threads
    | None => (error, threads)
    end
  else
    match prio_user cred who with
    | Some uid => set_prio_loop cred (of_user uid) niceval error threads
    | None => (error, threads)
    end.

Fixpoint get_prio_loop (sel : thread → bool) (retval : Z) (threads : list thread) : Z :=
  match threads with
  | [] => retval
  | p :: threads =>
    let niceval := nice_to_rlimit (p_nice p) in
    get_prio_loop sel (if sel p && (retval <? niceval) then niceval else retval) threads
  end.

Definition getpriority (cur : thread) (threads : list thread) (which who : Z) : Z :=
  let retval := - ESRCH in
  if bad_which which then - EINVAL
  else if which =? PRIO_PROCESS then
    match prio_process cur threads who with
    | Some p => let niceval := nice_to_rlimit (p_nice p) in if retval <? niceval then niceval else retval
    | None => retval
    end
  else if which =? PRIO_PGRP then
    match prio_pgrp cur who with
    | Some pgrp => get_prio_loop (in_pgrp pgrp) retval threads
    | None => retval
    end
  else
    match prio_user (p_cred cur) who with
    | Some uid => get_prio_loop (of_user uid) retval threads
    | None => retval
    end.
End calls.

(** ** The threads a call is about *)

Section theorems.
Context `{Scheduler}.

(** The system: every thread has a [struct pid] of its own and a nice value in
    range, and the current thread is one of them. *)
Record system_ok (cur : thread) (threads : list thread) : Prop := {
  so_pids : NoDup (p_pid <$> threads);
  so_cur : cur ∈ threads;
  so_nice : Forall (λ p, MIN_NICE <= p_nice p <= MAX_NICE) threads
}.

(** Does the call address this thread? *)
Definition addressed (cur : thread) (threads : list thread) (which who : Z) (q : thread) : bool :=
  if which =? PRIO_PROCESS then
    match prio_process cur threads who with Some p => p_pid q =? p_pid p | None => false end
  else if which =? PRIO_PGRP then
    match prio_pgrp cur who with Some pgrp => in_pgrp pgrp q | None => false end
  else
    match prio_user (p_cred cur) who with Some uid => of_user uid q | None => false end.

(** Why a thread keeps its value: the error of [set_one_prio], 0 if it does not. *)
Definition refusal (cred : cred) (niceval : Z) (p : thread) : Z :=
  if negb (set_one_prio_perm cred p) then - EPERM
  else if (niceval <? p_nice p) && negb (can_nice cred p niceval) then - EACCES
  else security_task_setnice p niceval.

(** The result of a call that addresses the threads [ps]: ESRCH when there are
    none, else the last refusal, 0 when there is none. *)
Definition outcome (cred : cred) (niceval : Z) (ps : list thread) : Z :=
  match ps with
  | [] => - ESRCH
  | _ => default 0 (last (List.filter (λ e, negb (e =? 0)) (refusal cred niceval <$> ps)))
  end.

Definition renice (cred : cred) (niceval : Z) (sel : thread → bool) (p : thread) : thread :=
  if sel p && (refusal cred niceval p =? 0) then set_user_nice niceval p else p.

Lemma set_one_prio_refusal cred p niceval error :
  set_one_prio cred p niceval error =
    if refusal cred niceval p =? 0 then (if error =? - ESRCH then 0 else error, set_user_nice niceval p)
    else (refusal cred niceval p, p).
Proof.
  unfold set_one_prio, refusal. case_goal; [done|]. case_goal; [done|].
  by destruct (security_task_setnice p niceval =? 0).
Qed.

(** The hook never says ESRCH, which the code uses for "none found yet". *)
Definition hook_ok (niceval : Z) : Prop := ∀ p, security_task_setnice p niceval ≠ - ESRCH.

Lemma refusal_not_esrch cred niceval p : hook_ok niceval → refusal cred niceval p ≠ - ESRCH.
Proof. intros Hh. unfold refusal, EPERM, EACCES, ESRCH. case_goal; [done|]. case_goal; [done|]. apply Hh. Qed.

Lemma set_prio_loop_spec cred sel niceval error threads :
  hook_ok niceval →
  set_prio_loop cred sel niceval error threads =
    (match List.filter sel threads with
     | [] => error
     | ps => match last (List.filter (λ e, negb (e =? 0)) (refusal cred niceval <$> ps)) with
             | Some e => e
             | None => if error =? - ESRCH then 0 else error
             end
     end, renice cred niceval sel <$> threads).
Proof.
  intros Hh. revert error. induction threads as [|p threads IH]; intros error; [done|].
  cbn [set_prio_loop List.filter fmap list_fmap]. unfold renice at 1.
  destruct (sel p); cbn [andb]; [|by rewrite IH].
  rewrite set_one_prio_refusal. pose proof (refusal_not_esrch cred niceval p Hh) as Hne.
  cbn [fmap list_fmap List.filter]. destruct (Z.eqb_spec (refusal cred niceval p) 0) as [E|E];
    cbn [negb]; rewrite IH; f_equal.
  - destruct (List.filter sel threads) as [|q qs]; [done|].
    destruct (last _); [done|]. destruct (Z.eqb_spec error (- ESRCH)) as [->|]; [done|].
    by destruct (Z.eqb_spec error (- ESRCH)).
  - rewrite last_cons. destruct (List.filter sel threads) as [|q qs]; [done|].
    destruct (last _); [done|]. by destruct (Z.eqb_spec (refusal cred niceval p) (- ESRCH)).
Qed.
(** *** A call for one process addresses one thread *)

Lemma one_thread p threads :
  NoDup (p_pid <$> threads) → p ∈ threads → List.filter (λ q, p_pid q =? p_pid p) threads = [p].
Proof.
  intros Hnd Hp. induction threads as [|q threads IH]; [by apply not_elem_of_nil in Hp|].
  cbn [fmap list_fmap] in Hnd. apply NoDup_cons in Hnd as [Hq Hnd]. cbn [List.filter].
  apply elem_of_cons in Hp as [->|Hp].
  - rewrite Z.eqb_refl. f_equal. clear IH Hnd. induction threads as [|r threads IH]; [done|]. cbn [List.filter].
    destruct (Z.eqb_spec (p_pid r) (p_pid q)) as [E|_]; [|apply IH; intros Hx; apply Hq; cbn; by apply list_elem_of_further].
    exfalso. apply Hq. cbn. rewrite E. apply list_elem_of_here.
  - destruct (Z.eqb_spec (p_pid q) (p_pid p)) as [E|_]; [|by apply IH].
    exfalso. apply Hq. rewrite E. by apply list_elem_of_fmap_2.
Qed.

Lemma same_pid p q threads :
  NoDup (p_pid <$> threads) → p ∈ threads → q ∈ threads → p_pid q = p_pid p → q = p.
Proof.
  intros Hnd Hp Hq E. pose proof (one_thread p threads Hnd Hp) as Hf.
  assert (Hin : q ∈ List.filter (λ q, p_pid q =? p_pid p) threads).
  { apply list_elem_of_In, filter_In. split; [by apply list_elem_of_In|]. by apply Z.eqb_eq. }
  rewrite Hf in Hin. by apply list_elem_of_singleton in Hin.
Qed.

Lemma find_task_in threads who p : find_task_by_vpid threads who = Some p → p ∈ threads.
Proof.
  unfold find_task_by_vpid. intros (pid & _ & E)%bind_Some. apply fmap_Some in E as ([i q] & E & ->).
  apply list_find_Some in E as (E & _ & _). by eapply list_elem_of_lookup_2.
Qed.

Lemma prio_process_in cur threads who p :
  system_ok cur threads → prio_process cur threads who = Some p → p ∈ threads.
Proof.
  intros Hs. unfold prio_process. case_goal; [intros [= <-]; apply Hs|apply find_task_in].
Qed.

(** What no change of a nice value changes. *)
Definition same_thread (p q : thread) : Prop :=
  p_pid p = p_pid q ∧ p_pgrp p = p_pgrp q ∧ p_cred p = p_cred q.

Lemma renice_same cred n sel p : same_thread (renice cred n sel p) p.
Proof. unfold renice. by case_goal. Qed.

Lemma store_renice cred n p threads :
  NoDup (p_pid <$> threads) → p ∈ threads →
  store (if refusal cred n p =? 0 then set_user_nice n p else p) threads =
    renice cred n (λ q, p_pid q =? p_pid p) <$> threads.
Proof.
  intros Hnd Hp. unfold store. apply list_fmap_ext. intros i q Hq. unfold renice.
  assert (Hpid : p_pid (if refusal cred n p =? 0 then set_user_nice n p else p) = p_pid p) by by case_goal.
  rewrite Hpid. destruct (Z.eqb_spec (p_pid q) (p_pid p)) as [E|]; [|done].
  assert (q = p) as -> by (eapply same_pid; [exact Hnd|done|by eapply list_elem_of_lookup_2|done]).
  by cbn [andb].
Qed.

Lemma clamp_nice_range n : MIN_NICE <= clamp_nice n <= MAX_NICE.
Proof. unfold clamp_nice, MIN_NICE, MAX_NICE. destruct (Z.ltb_spec n (-20)); case_goal; lia. Qed.

Lemma clamp_nice_id n : MIN_NICE <= n <= MAX_NICE → clamp_nice n = n.
Proof. unfold clamp_nice, MIN_NICE, MAX_NICE. intros. destruct (Z.ltb_spec n (-20)); case_goal; lia. Qed.

(** Whatever the hooks say, a call gives threads the clamped value or leaves
    them alone. *)
Definition reniced (n : Z) (p q : thread) : Prop := q = p ∨ q = set_user_nice n p.

Lemma set_one_prio_reniced cred p n error : reniced n p (set_one_prio cred p n error).2.
Proof. rewrite set_one_prio_refusal. case_goal; [by right|by left]. Qed.

Lemma set_prio_loop_reniced cred sel n error threads :
  Forall2 (reniced n) threads (set_prio_loop cred sel n error threads).2.
Proof.
  revert error. induction threads as [|p threads IH]; intros error; cbn [set_prio_loop]; [constructor|].
  assert (Hp : reniced n p (if sel p then set_one_prio cred p n error else (error, p)).2)
    by (destruct (sel p); [apply set_one_prio_reniced|by left]).
  destruct (if sel p then _ else _) as [error' p']. specialize (IH error').
  destruct (set_prio_loop _ _ _ _ _) as [e l]. by constructor.
Qed.

Lemma setpriority_reniced cur threads which who n :
  NoDup (p_pid <$> threads) → cur ∈ threads →
  Forall2 (reniced (clamp_nice n)) threads (setpriority cur threads which who n).2.
Proof.
  intros Hnd Hcur. unfold setpriority. cbv zeta.
  assert (Hid : Forall2 (reniced (clamp_nice n)) threads threads) 
    by (apply Forall_Forall2_diag, Forall_true; intros x; by left).
  case_goal; [done|]. case_goal.
  - destruct (prio_process cur threads who) as [p|] eqn:Ep; [|done].
    assert (Hp : p ∈ threads) by (revert Ep; unfold prio_process; case_goal; [by intros [= <-]|apply find_task_in]).
    pose proof (set_one_prio_reniced (p_cred cur) p (clamp_nice n) (- ESRCH)) as Hq.
    destruct (set_one_prio _ _ _ _) as [e q]. cbn [snd] in *. unfold store. apply Forall2_fmap_r, Forall_Forall2_diag.
    apply Forall_forall. intros r Hr. unfold compose. assert (Eq : p_pid q = p_pid p) by (destruct Hq as [->| ->]; done).
    rewrite Eq. destruct (Z.eqb_spec (p_pid r) (p_pid p)) as [E|]; [|by left].
    by rewrite (same_pid p r threads).
  - case_goal.
    + destruct (prio_pgrp cur who); [apply set_prio_loop_reniced|done].
    + destruct (prio_user _ _); [apply set_prio_loop_reniced|done].
Qed.

Lemma setpriority_range cur threads which who n :
  system_ok cur threads → Forall (λ p, MIN_NICE <= p_nice p <= MAX_NICE) (setpriority cur threads which who n).2.
Proof.
  intros [Hnd Hcur Hnice]. pose proof (setpriority_reniced cur threads which who n Hnd Hcur) as Hf.
  clear Hnd Hcur. revert Hf Hnice. generalize (setpriority cur threads which who n).2. intros l Hf.
  induction Hf as [|p q ps qs Hq _ IH]; intros Hl; [done|]. apply Forall_cons in Hl as [Hp Hl].
  apply Forall_cons. split; [|by apply IH].
  destruct Hq as [->| ->]; [done|apply clamp_nice_range].
Qed.

(** *** [setpriority] as one rule *)

Lemma setpriority_spec cur threads which who n :
  system_ok cur threads → hook_ok (clamp_nice n) → bad_which which = false →
  setpriority cur threads which who n =
    (outcome (p_cred cur) (clamp_nice n) (List.filter (addressed cur threads which who) threads),
     renice (p_cred cur) (clamp_nice n) (addressed cur threads which who) <$> threads).
Proof.
  intros Hs Hh Hw. unfold setpriority. rewrite Hw. unfold addressed.
  assert (Hnone : ∀ l, List.filter (λ _ : thread, false) l = []) by (induction l; done).
  assert (Hid : ∀ l : list thread, renice (p_cred cur) (clamp_nice n) (λ _, false) <$> l = l).
  { intros l. rewrite <- (list_fmap_id l) at 2. by apply list_fmap_ext. }
  assert (Hloop : ∀ sel, set_prio_loop (p_cred cur) sel (clamp_nice n) (- ESRCH) threads =
    (outcome (p_cred cur) (clamp_nice n) (List.filter sel threads),
     renice (p_cred cur) (clamp_nice n) sel <$> threads)).
  { intros sel. rewrite set_prio_loop_spec by done. f_equal. unfold outcome.
    destruct (List.filter sel threads); [done|]. by destruct (last _). }
  destruct (which =? PRIO_PROCESS).
  - destruct (prio_process cur threads who) as [p|] eqn:Ep; [|by rewrite Hnone, Hid].
    pose proof (prio_process_in _ _ _ _ Hs Ep) as Hp. destruct Hs as [Hnd _ _].
    rewrite set_one_prio_refusal, one_thread by done. rewrite <- store_renice by done.
    unfold outcome. cbn [fmap list_fmap List.filter]. by destruct (refusal _ _ _ =? 0) eqn:E; cbn.
  - destruct (which =? PRIO_PGRP).
    + destruct (prio_pgrp cur who); [apply Hloop|by rewrite Hnone, Hid].
    + destruct (prio_user (p_cred cur) who); [apply Hloop|by rewrite Hnone, Hid].
Qed.
(** *** [getpriority] as a maximum *)

Definition highest (ps : list thread) : Z :=
  foldr (λ p m, Z.max (nice_to_rlimit (p_nice p)) m) (- ESRCH) ps.

Lemma highest_lower ps : - ESRCH <= highest ps.
Proof. induction ps; cbn [highest foldr]; [lia|]. fold (highest ps). lia. Qed.

Lemma get_prio_loop_spec sel retval threads :
  - ESRCH <= retval → get_prio_loop sel retval threads = Z.max retval (highest (List.filter sel threads)).
Proof.
  revert retval. induction threads as [|p threads IH]; intros retval Hr; cbn [get_prio_loop List.filter].
  { cbn. lia. }
  destruct (sel p); cbn [andb]; [|by apply IH].
  cbn [highest foldr]. fold (highest (List.filter sel threads)).
  pose proof (highest_lower (List.filter sel threads)).
  destruct (Z.ltb_spec retval (nice_to_rlimit (p_nice p))); rewrite IH by lia; lia.
Qed.

Lemma getpriority_spec cur threads which who :
  system_ok cur threads → bad_which which = false →
  getpriority cur threads which who = highest (List.filter (addressed cur threads which who) threads).
Proof.
  intros Hs Hw. unfold getpriority. rewrite Hw. unfold addressed.
  assert (Hnone : ∀ l, List.filter (λ _ : thread, false) l = []) by (induction l; done).
  assert (Hloop : ∀ sel, get_prio_loop sel (- ESRCH) threads = highest (List.filter sel threads)).
  { intros sel. rewrite get_prio_loop_spec by lia. pose proof (highest_lower (List.filter sel threads)). lia. }
  destruct (which =? PRIO_PROCESS).
  - destruct (prio_process cur threads who) as [p|] eqn:Ep; [|by rewrite Hnone].
    pose proof (prio_process_in _ _ _ _ Hs Ep) as Hp. destruct Hs as [Hnd _ _].
    rewrite one_thread by done. cbn. case_goal; lia.
  - destruct (which =? PRIO_PGRP).
    + destruct (prio_pgrp cur who); [apply Hloop|by rewrite Hnone].
    + destruct (prio_user (p_cred cur) who); [apply Hloop|by rewrite Hnone].
Qed.

Lemma highest_spec ps p :
  Forall (λ p, MIN_NICE <= p_nice p <= MAX_NICE) ps → p ∈ ps →
  1 <= highest ps <= 40 ∧ (∃ q, q ∈ ps ∧ highest ps = nice_to_rlimit (p_nice q)) ∧
  (∀ q, q ∈ ps → nice_to_rlimit (p_nice q) <= highest ps).
Proof.
  intros Hps. revert p. induction Hps as [|a ps Ha Hps IH]; intros p Hp; [by apply not_elem_of_nil in Hp|].
  cbn [highest foldr]. fold (highest ps). unfold nice_to_rlimit, MIN_NICE, MAX_NICE in *.
  destruct ps as [|b ps].
  - cbn [highest foldr]. unfold ESRCH. split; [lia|]. split.
    + exists a. split; [apply list_elem_of_here|lia].
    + intros q Hq%list_elem_of_singleton. subst. lia.
  - destruct (IH b (list_elem_of_here _ _)) as (Hr & (q & Hq & Eq) & Hall). split; [lia|]. split.
    + destruct (Z.max_spec (19 - p_nice a + 1) (highest (b :: ps))) as [[? E]|[? E]]; rewrite E.
      * exists q. split; [by apply list_elem_of_further|done].
      * exists a. split; [apply list_elem_of_here|done].
    + intros x Hx. apply elem_of_cons in Hx as [->|Hx]; [lia|]. specialize (Hall x Hx). lia.
Qed.

(** *** What renicing changes for later calls *)

Section reniced.
Context (f : thread → thread) (Hf : ∀ p, same_thread (f p) p).

Lemma reniced_pids (threads : list thread) : p_pid <$> (f <$> threads) = p_pid <$> threads.
Proof. rewrite <- list_fmap_compose. apply list_fmap_ext. intros i p _. apply Hf. Qed.

Lemma find_task_reniced threads who :
  find_task_by_vpid (f <$> threads) who = f <$> find_task_by_vpid threads who.
Proof.
  unfold find_task_by_vpid. destruct (find_vpid who) as [pid|]; cbn; [|done].
  rewrite list_find_fmap. rewrite (list_find_ext _ (λ p, p_pid p = pid)).
  2:{ intros p. cbn. destruct (Hf p) as (-> & _). done. }
  by destruct (list_find _ threads) as [[? ?]|].
Qed.

Lemma addressed_reniced cur threads which who q :
  addressed (f cur) (f <$> threads) which who (f q) = addressed cur threads which who q.
Proof.
  unfold addressed, prio_process, prio_pgrp, in_pgrp, of_user. rewrite find_task_reniced.
  destruct (Hf q) as (-> & -> & ->). destruct (Hf cur) as (Ec & -> & ->).
  case_goal; [|done]. case_goal; [by rewrite Ec|].
  destruct (find_task_by_vpid threads who) as [p|]; cbn; [|done]. by destruct (Hf p) as (-> & _).
Qed.

Lemma filter_reniced cur threads which who :
  List.filter (addressed (f cur) (f <$> threads) which who) (f <$> threads) =
    f <$> List.filter (addressed cur threads which who) threads.
Proof.
  generalize (addressed_reniced cur threads which who).
  generalize (addressed (f cur) (f <$> threads) which who) (addressed cur threads which who).
  intros s1 s2 E. induction threads as [|p threads IH]; [done|]. cbn [fmap list_fmap List.filter].
  rewrite E. destruct (s2 p); cbn [fmap list_fmap]; by rewrite IH.
Qed.
End reniced.

Lemma renice_system_ok cred n sel cur threads :
  MIN_NICE <= n <= MAX_NICE → system_ok cur threads →
  system_ok (renice cred n sel cur) (renice cred n sel <$> threads).
Proof.
  intros Hn [Hnd Hcur Hnice]. split.
  - rewrite reniced_pids; [done|]. intros. apply renice_same.
  - by apply list_elem_of_fmap_2.
  - apply Forall_fmap. eapply Forall_impl; [exact Hnice|]. intros p Hp. cbn. unfold renice. by case_goal.
Qed.

(** When a call succeeds, no addressed thread refused. *)
Lemma outcome_zero cred n ps :
  outcome cred n ps = 0 → ps ≠ [] ∧ Forall (λ p, refusal cred n p = 0) ps.
Proof.
  unfold outcome. destruct ps as [|p ps]; [done|]. intros E. split; [done|].
  destruct (last _) as [e|] eqn:El.
  - cbn in E. subst e. apply last_Some_elem_of, list_elem_of_In, filter_In in El as [_ El]. done.
  - apply last_None in El. apply Forall_forall. intros q Hq.
    destruct (decide (refusal cred n q = 0)) as [|Hne]; [done|exfalso].
    assert (Hin : refusal cred n q ∈ List.filter (λ e, negb (e =? 0)) (refusal cred n <$> p :: ps)).
    { apply list_elem_of_In, filter_In. split; [apply list_elem_of_In; by apply list_elem_of_fmap_2|].
      destruct (Z.eqb_spec (refusal cred n q) 0); done. }
    rewrite El in Hin. by apply not_elem_of_nil in Hin.
Qed.

(** *** [setpriority], as documented

    Which threads the arguments name: the process, the group or the user with
    that number in the caller's namespace, 0 standing for the caller's own; of a
    user (the caller's real one for 0, else one that is known to the system)
    only the threads that have a number in the namespace. *)
Definition names (cur : thread) (which who : Z) (q : thread) : Prop :=
  if decide (which = 0) then
    if decide (who = 0) then p_pid q = p_pid cur else find_vpid who = Some (p_pid q)
  else if decide (which = 1) then
    if decide (who = 0) then p_pgrp q = p_pgrp cur else find_vpid who = Some (p_pgrp q)
  else
    pid_vnr (p_pid q) ≠ 0 ∧
    if decide (who = 0) then cr_uid (p_cred q) = cr_uid (p_cred cur)
    else cr_uid (p_cred q) = make_kuid (cr_user_ns (p_cred cur)) who ∧
         (cr_uid (p_cred q) = cr_uid (p_cred cur) ∨ find_user (cr_uid (p_cred q)) = true).

#[global] Instance names_dec cur which who q : Decision (names cur which who q).
Proof. unfold names. repeat case_decide; apply _. Defined.

(** The caller may change a thread whose real or effective user is the caller's
    effective one, or with CAP_SYS_NICE over the namespace of the thread. *)
Definition may_change (me : cred) (q : thread) : Prop :=
  cr_uid (p_cred q) = cr_euid me ∨ cr_euid (p_cred q) = cr_euid me ∨
  ns_capable me (cr_user_ns (p_cred q)) CAP_SYS_NICE = true.

#[global] Instance may_change_dec me q : Decision (may_change me q).
Proof. unfold may_change. apply _. Defined.










(** [getpriority] returns the highest priority of the addressed threads as a
    number between 1 and 40, which a caller can tell from an error, and ESRCH
    exactly when there are none. *)
Theorem getpriority_highest cur threads which who :
  system_ok cur threads → bad_which which = false →
  let ps := List.filter (addressed cur threads which who) threads in
  match ps with
  | [] => getpriority cur threads which who = - ESRCH
  | _ => 1 <= getpriority cur threads which who <= 40 ∧
         (∃ p, p ∈ ps ∧ getpriority cur threads which who = 20 - p_nice p) ∧
         (∀ p, p ∈ ps → 20 - p_nice p <= getpriority cur threads which who)
  end.
Proof.
  intros Hs Hw ps. rewrite getpriority_spec by done. fold ps.
  assert (Hps : Forall (λ p, MIN_NICE <= p_nice p <= MAX_NICE) ps).
  { apply Forall_forall. intros p Hp%list_elem_of_In. apply filter_In in Hp as [Hp _].
    pose proof (so_nice _ _ Hs) as Hn. rewrite Forall_forall in Hn. apply Hn. by apply list_elem_of_In. }
  destruct ps as [|p ps'] eqn:E; [done|].
  destruct (highest_spec (p :: ps') p Hps (list_elem_of_here _ _)) as (Hr & (q & Hq & Eq) & Hall).
  unfold nice_to_rlimit, MAX_NICE in *. split_and!; [lia|lia| |].
  - exists q. split; [done|]. lia.
  - intros x Hx. specialize (Hall x Hx). lia.
Qed.

(** What is set is what is read: after a [setpriority] that returned 0, the
    system is still well formed and [getpriority] for the same threads returns
    the value, cut to the range and counted from 1 to 40. *)
Theorem setpriority_getpriority cur threads which who n threads' :
  system_ok cur threads → hook_ok (clamp_nice n) → setpriority cur threads which who n = (0, threads') →
  ∃ cur', same_thread cur' cur ∧ system_ok cur' threads' ∧
    getpriority cur' threads' which who = 20 - clamp_nice n.
Proof.
  intros Hs Hh. destruct (bad_which which) eqn:Hw; [by unfold setpriority; rewrite Hw|].
  rewrite setpriority_spec by done. intros [= Hout <-]. apply outcome_zero in Hout as [Hne Hall].
  set (f := renice (p_cred cur) (clamp_nice n) (addressed cur threads which who)).
  assert (Hf : ∀ p, same_thread (f p) p) by (intros; apply renice_same).
  pose proof (clamp_nice_range n) as Hn.
  assert (Hs' : system_ok (f cur) (f <$> threads)) by by apply renice_system_ok.
  exists (f cur). split_and!; [apply Hf|done|]. rewrite getpriority_spec by done.
  rewrite filter_reniced by done.
  assert (Hset : ∀ p, p ∈ List.filter (addressed cur threads which who) threads → p_nice (f p) = clamp_nice n).
  { intros p Hp. rewrite Forall_forall in Hall. specialize (Hall p Hp).
    apply list_elem_of_In, filter_In in Hp as [_ Hp]. unfold f, renice. by rewrite Hp, Hall. }
  destruct (List.filter _ threads) as [|p ps]; [done|].
  destruct (highest_spec (f <$> p :: ps) (f p)) as (_ & (q & Hq & ->) & _).
  - apply Forall_fmap, Forall_forall. intros x Hx. cbn. by rewrite Hset.
  - apply list_elem_of_here.
  - apply list_elem_of_fmap in Hq as (x & -> & Hx). rewrite Hset by done. unfold nice_to_rlimit, MAX_NICE. lia.
Qed.
End theorems.

(** ** Concrete instances

    A thread of root, two of user 1000 (one process group), and one of user
    1001; only root may raise priorities. *)
#[local] Existing Instances demo_linux demo_pids.

Program Definition demo_scheduler : Scheduler := {|
  can_nice := λ c _ _, cr_euid c =? 0;
  security_task_setnice := λ _ _, 0;
  find_user := λ uid, (uid =? 0) || (uid =? 1000) || (uid =? 1001)
|}.
Next Obligation. done. Qed.

#[local] Existing Instance demo_scheduler.

Definition demo_cred (u : Z) : cred := mkCred u u u u u u u u (mkUser u u 1) 0 0.

Definition demo_threads : list thread :=
  [mkThread 1 1 (demo_cred 0) 0; mkThread 10 10 (demo_cred 1000) 5;
   mkThread 11 10 (demo_cred 1000) 7; mkThread 20 20 (demo_cred 1001) 0].

Definition demo_current : thread := mkThread 10 10 (demo_cred 1000) 5.

Lemma demo_system_ok : system_ok demo_current demo_threads.
Proof.
  split; [apply (bool_decide_unpack _); vm_compute; exact I|right; left|].
  apply (bool_decide_unpack _); vm_compute; exact I.
Qed.

Lemma demo_hook n : hook_ok n.
Proof. by intros p. Qed.


Lemma getpriority_highest_witness :
  1 <= getpriority demo_current demo_threads PRIO_PGRP 10 <= 40.
Proof. exact (proj1 (getpriority_highest demo_current demo_threads PRIO_PGRP 10 demo_system_ok eq_refl)). Defined.

Lemma setpriority_getpriority_witness :
  ∃ cur' threads', same_thread cur' demo_current ∧ getpriority cur' threads' PRIO_PROCESS 11 = 1.
Proof.
  assert (Eset : setpriority demo_current demo_threads PRIO_PROCESS 11 19 =
    (0, (setpriority demo_current demo_threads PRIO_PROCESS 11 19).2)) by (vm_compute; reflexivity).
  destruct (setpriority_getpriority demo_current demo_threads PRIO_PROCESS 11 19 _ demo_system_ok
    (demo_hook _) Eset) as (cur' & Hsame & _ & E).
  exists cur'. eexists. split; [exact Hsame|exact E].
Defined.
