(* ===== verification/ProcessGroups.v ===== *)
(** * Process groups and sessions

    setpgid, getpgid, getpgrp, getsid, set_special_pids and setsid of
    lab2/lab2.1/linux/sys.c. *)

From Stdlib Require Import Lia.
From stdpp Require Import base numbers option list gmap.
From S2P Require Import Prelude Linux.
Local Open Scope Z_scope.

(** ** State

    The tasks by their [struct pid]. The links to a process group and a session
    and [signal->leader] are those of the thread group leader; the other
    threads of a group have none of their own. *)
Record proc := mkProc {
  pr_pid : Z;
  pr_group_leader : Z;
  pr_real_parent : Z;
  pr_pgrp : Z;
  pr_session : Z;
  pr_leader : bool;
  pr_forknoexec : bool;
  pr_tty : option Z
}.

#[global] Instance proc_eq_dec : EqDecision proc.
Proof. solve_decision. Defined.

Abbreviation procs := (gmap Z proc).

Definition thread_group_leader (p : proc) : bool := pr_group_leader p =? pr_pid p.

(** Outside sys.c: [pid_task(pid, PIDTYPE_PGID)], some leader in the group with
    this number, and the hooks of the security modules. *)
Class Groups `{PidNamespace} := {
  pid_task_pgid : procs → Z → option proc;
  pid_task_pgid_some tasks pgrp g : pid_task_pgid tasks pgrp = Some g →
    ∃ i, tasks !! i = Some g ∧ thread_group_leader g = true ∧ pr_pgrp g = pgrp;
  pid_task_pgid_none tasks pgrp : pid_task_pgid tasks pgrp = None →
    ∀ i p, tasks !! i = Some p → thread_group_leader p = true → pr_pgrp p ≠ pgrp;
  security_task_setpgid : proc → Z → Z;
  security_task_getpgid : proc → Z;
  security_task_getsid : proc → Z
}.

Section calls.
Context `{Groups}.

Definition find_task_by_vpid (tasks : procs) (nr : Z) : option proc :=
  pid ← find_vpid nr; tasks !! pid.

(** The group and the session of a task are those of its leader. *)
Definition task_pgrp (tasks : procs) (p : proc) : option Z := pr_pgrp <$> tasks !! pr_group_leader p.
Definition task_session (tasks : procs) (p : proc) : option Z := pr_session <$> tasks !! pr_group_leader p.

(** [same_thread_group(p->real_parent, group_leader)]. *)
Definition is_child (tasks : procs) (p group_leader : proc) : bool :=
  match tasks !! pr_real_parent p with
  | Some parent => pr_group_leader parent =? pr_group_leader group_leader
  | None => false
  end.

(** [change_pid]. *)
Definition change_pgrp (pgrp : Z) (p : proc) : proc :=
  mkProc (pr_pid p) (pr_group_leader p) (pr_real_parent p) pgrp (pr_session p) (pr_leader p)
    (pr_forknoexec p) (pr_tty p).
Definition change_session (sid : Z) (p : proc) : proc :=
  mkProc (pr_pid p) (pr_group_leader p) (pr_real_parent p) (pr_pgrp p) sid (pr_leader p)
    (pr_forknoexec p) (pr_tty p).
Definition set_leader (p : proc) : proc :=
  mkProc (pr_pid p) (pr_group_leader p) (pr_real_parent p) (pr_pgrp p) (pr_session p) true
    (pr_forknoexec p) (pr_tty p).
(** [proc_clear_tty]. *)
Definition clear_tty (p : proc) : proc :=
  mkProc (pr_pid p) (pr_group_leader p) (pr_real_parent p) (pr_pgrp p) (pr_session p) (pr_leader p)
    (pr_forknoexec p) None.

(** The checks that depend on whose process [p] is; 0 when they pass. *)
Definition setpgid_whose (tasks : procs) (group_leader p : proc) : Z :=
  if is_child tasks p group_leader then
    if negb (bool_decide (task_session tasks p = task_session tasks group_leader)) then - EPERM
    else if negb (pr_forknoexec p) then - EACCES else 0
  else if negb (pr_pid p =? pr_pid group_leader) then - ESRCH else 0.

(** The group to join; [None] is EPERM. *)
Definition setpgid_target (tasks : procs) (group_leader p : proc) (pid pgid : Z) : option Z :=
  if pgid =? pid then Some (pr_pid p)
  else
    pgrp ← find_vpid pgid;
    g ← pid_task_pgid tasks pgrp;
    if bool_decide (task_session tasks g = task_session tasks group_leader) then Some pgrp else None.

Definition setpgid (tasks : procs) (group_leader : proc) (pid pgid : Z) : Z * procs :=
  let pid := if pid =? 0 then pid_vnr (pr_pid group_leader) else pid in
  let pgid := if pgid =? 0 then pid else pgid in
  if pgid <? 0 then (- EINVAL, tasks)
  else
    match find_task_by_vpid tasks pid with
    | None => (- ESRCH, tasks)
    | Some p =>
      if negb (thread_group_leader p) then (- EINVAL, tasks)
      else
        let err := setpgid_whose tasks group_leader p in
        if negb (err =? 0) then (err, tasks)
        else if pr_leader p then (- EPERM, tasks)
        else
          match setpgid_target tasks group_leader p pid pgid with
          | None => (- EPERM, tasks)
          | Some pgrp =>
            let err := security_task_setpgid p pgid in
            if negb (err =? 0) then (err, tasks)
            else if bool_decide (task_pgrp tasks p = Some pgrp) then (0, tasks)
            else (0, <[pr_pid p := change_pgrp pgrp p]> tasks)
          end
    end.

Definition getpgid (tasks : procs) (current : proc) (pid : Z) : Z :=
  if pid =? 0 then
    match task_pgrp tasks current with Some grp => pid_vnr grp | None => 0 end
  else
    match find_task_by_vpid tasks pid with
    | None => - ESRCH
    | Some p =>
      match task_pgrp tasks p with
      | None => - ESRCH
      | Some grp => let retval := security_task_getpgid p in if negb (retval =? 0) then retval else pid_vnr grp
      end
    end.

Definition getpgrp (tasks : procs) (current : proc) : Z := getpgid tasks current 0.

Definition getsid (tasks : procs) (current : proc) (pid : Z) : Z :=
  if pid =? 0 then
    match task_session tasks current with Some sid => pid_vnr sid | None => 0 end
  else
    match find_task_by_vpid tasks pid with
    | None => - ESRCH
    | Some p =>
      match task_session tasks p with
      | None => - ESRCH
      | Some sid => let retval := security_task_getsid p in if negb (retval =? 0) then retval else pid_vnr sid
      end
    end.

Definition set_special_pids (curr : proc) (pid : Z) : proc :=
  let curr := if pr_session curr =? pid then curr else change_session pid curr in
  if pr_pgrp curr =? pid then curr else change_pgrp pid curr.

Definition setsid (tasks : procs) (group_leader : proc) : Z * procs :=
  let sid := pr_pid group_leader in
  let session := pid_vnr sid in
  if pr_leader group_leader then (- EPERM, tasks)
  else
    match pid_task_pgid tasks sid with
    | Some _ => (- EPERM, tasks)
    | None => (session, <[sid := clear_tty (set_special_pids (set_leader group_leader) sid)]> tasks)
    end.

(** ** Sequences of calls *)

(** A call by the thread group with this leader. *)
Inductive group_call := Setpgid (caller pid pgid : Z) | Setsid (caller : Z).

Definition caller_of (call : group_call) : Z :=
  match call with Setpgid caller _ _ | Setsid caller => caller end.

Definition group_step (tasks : procs) (call : group_call) : procs :=
  match tasks !! caller_of call with
  | Some gl =>
    if thread_group_leader gl then
      match call with
      | Setpgid _ pid pgid => (setpgid tasks gl pid pgid).2
      | Setsid _ => (setsid tasks gl).2
      end
    else tasks
  | None => tasks
  end.
End calls.

(** ** Sessions and groups that fit together *)

(** A thread group leader in the table. *)
Definition leads (tasks : procs) (i : Z) (p : proc) : Prop :=
  tasks !! i = Some p ∧ thread_group_leader p = true.

Record groups_ok (tasks : procs) : Prop := {
  go_pid i p : tasks !! i = Some p → pr_pid p = i;
  (** A process group lies in one session, that of the process with its number. *)
  go_group i j p q : leads tasks i p → leads tasks j q → pr_pgrp p = pr_pgrp q → pr_session p = pr_session q;
  go_number i j p q : leads tasks i p → leads tasks j q → pr_pgrp q = pr_pid p → pr_session q = pr_session p;
  (** A session leader leads its own group and session, and only a session
      leader gives its number to a session. *)
  go_leader i p : leads tasks i p → pr_leader p = true → pr_session p = pr_pid p ∧ pr_pgrp p = pr_pid p;
  go_session i j p q : leads tasks i p → leads tasks j q → pr_session q = pr_pid p → pr_leader p = true
}.

Section theorems.
Context `{Groups}.

Lemma leader_session tasks p i : leads tasks i p → groups_ok tasks → task_session tasks p = Some (pr_session p).
Proof.
  intros [Hp Hl] Hok. unfold task_session, thread_group_leader in *. apply Z.eqb_eq in Hl.
  by rewrite Hl, (go_pid _ Hok i p Hp), Hp.
Qed.

Lemma leader_pgrp tasks p i : leads tasks i p → groups_ok tasks → task_pgrp tasks p = Some (pr_pgrp p).
Proof.
  intros [Hp Hl] Hok. unfold task_pgrp, thread_group_leader in *. apply Z.eqb_eq in Hl.
  by rewrite Hl, (go_pid _ Hok i p Hp), Hp.
Qed.

Lemma find_task_some tasks nr p : find_task_by_vpid tasks nr = Some p → ∃ i, find_vpid nr = Some i ∧ tasks !! i = Some p.
Proof. unfold find_task_by_vpid. by intros (i & ? & ?)%bind_Some; exists i. Qed.

(** Leaders of a table with one leader changed. *)
Lemma leads_insert tasks i p' j q :
  leads (<[i := p']> tasks) j q → (j = i ∧ q = p') ∨ (j ≠ i ∧ leads tasks j q).
Proof.
  intros [Hq Hl]. destruct (decide (j = i)) as [->|Hne].
  - rewrite lookup_insert_eq in Hq. injection Hq as <-. by left.
  - rewrite lookup_insert_ne in Hq by done. by right.
Qed.

(** *** [setpgid] *)

(** What a [setpgid] that succeeds has found: the process [p], which belongs to
    the session of the caller, and the group it joins: its own, or one of that
    session. *)
Record joins (tasks : procs) (i : Z) (p : proc) (pgrp : Z) : Prop := {
  jo_leads : leads tasks i p;
  jo_plain : pr_leader p = false;
  jo_group : pgrp = pr_pid p ∨ ∃ j g, leads tasks j g ∧ pr_pgrp g = pgrp ∧ pr_session g = pr_session p
}.

Lemma setpgid_target_joins tasks gl p pid pgid pgrp i k :
  groups_ok tasks → leads tasks k gl → leads tasks i p → pr_session p = pr_session gl →
  setpgid_target tasks gl p pid pgid = Some pgrp →
  pgrp = pr_pid p ∨ ∃ j g, leads tasks j g ∧ pr_pgrp g = pgrp ∧ pr_session g = pr_session p.
Proof.
  intros Hok Hgl Hp Hs. unfold setpgid_target. case_goal; [intros [= <-]; by left|].
  intros (x & _ & Hr)%bind_Some. apply bind_Some in Hr as (g & Hg & Hr).
  apply pid_task_pgid_some in Hg as (j & Hj & Hl & Hpg).
  case_bool_decide as E; [|done]. injection Hr as <-. right. exists j, g.
  rewrite (leader_session tasks g j), (leader_session tasks gl k) in E by done.
  split_and!; try done. congruence.
Qed.

Lemma setpgid_whose_session tasks gl p i k :
  groups_ok tasks → leads tasks k gl → leads tasks i p → setpgid_whose tasks gl p = 0 →
  pr_session p = pr_session gl.
Proof.
  intros Hok Hgl Hp. unfold setpgid_whose. case_goal.
  - case_bool_decide as E; [|done]. intros _.
    rewrite (leader_session tasks p i), (leader_session tasks gl k) in E by done. congruence.
  - destruct (Z.eqb_spec (pr_pid p) (pr_pid gl)) as [E|]; [|done]. intros _.
    rewrite (go_pid _ Hok i p (proj1 Hp)), (go_pid _ Hok k gl (proj1 Hgl)) in E. subst k.
    destruct Hp as [Hp _], Hgl as [Hgl _]. congruence.
Qed.

Lemma setpgid_cases tasks gl k pid pgid :
  groups_ok tasks → leads tasks k gl →
  let '(r, tasks') := setpgid tasks gl pid pgid in
  tasks' = tasks ∨ (r = 0 ∧ ∃ i p pgrp, joins tasks i p pgrp ∧ tasks' = <[i := change_pgrp pgrp p]> tasks).
Proof.
  intros Hok Hgl. unfold setpgid. cbv zeta. case_goal; [by left|].
  destruct (find_task_by_vpid _ _) as [p|] eqn:Ep; [|by left].
  apply find_task_some in Ep as (i & _ & Hi).
  destruct (thread_group_leader p) eqn:Hl; cbn [negb]; [|by left].
  destruct (Z.eqb_spec (setpgid_whose tasks gl p) 0) as [Hw|]; cbn [negb]; [|by left].
  destruct (pr_leader p) eqn:Hpl; [by left|].
  destruct (setpgid_target _ _ _ _ _) as [pgrp|] eqn:Et; [|by left].
  case_goal; [by left|]. case_bool_decide; [by left|]. right. split; [done|].
  exists i, p, pgrp. rewrite (go_pid _ Hok i p Hi). split; [|done].
  assert (Hp : leads tasks i p) by done. split; [done|done|].
  eapply setpgid_target_joins; [exact Hok|exact Hgl|exact Hp| |exact Et]. by eapply setpgid_whose_session.
Qed.

Lemma joins_groups_ok tasks i p pgrp :
  groups_ok tasks → joins tasks i p pgrp → groups_ok (<[i := change_pgrp pgrp p]> tasks).
Proof.
  intros Hok [Hp Hplain Hgroup]. set (p' := change_pgrp pgrp p).
  assert (Hi : pr_pid p = i) by (eapply go_pid; [done|apply Hp]).
  (** Sessions of the members of the group that [p] joins. *)
  assert (Hmem : ∀ j q, leads tasks j q → pr_pgrp q = pgrp → pr_session q = pr_session p).
  { intros j q Hq E. destruct Hgroup as [->|(l & g & Hg & Eg & Hs)].
    - by eapply (go_number _ Hok i j).
    - rewrite <- Hs. eapply (go_group _ Hok j l); congruence || done. }
  assert (Hnum : ∀ j q, leads tasks j q → pgrp = pr_pid q → pr_session p = pr_session q).
  { intros j q Hq E. destruct Hgroup as [->|(l & g & Hg & Eg & Hs)].
    - assert (j = i) as -> by (rewrite <- (go_pid _ Hok j q (proj1 Hq)); congruence).
      destruct Hp as [Hp _], Hq as [Hq _]. congruence.
    - rewrite <- Hs. eapply (go_number _ Hok j l); congruence || done. }
  split.
  - intros j q Hq. destruct (decide (j = i)) as [->|]; simplify_map_eq; [done|by eapply go_pid].
  - intros j1 j2 q1 q2 [[-> ->]|[? M1]]%leads_insert [[-> ->]|[? M2]]%leads_insert E; cbn in *.
    + done.
    + symmetry. by eapply Hmem.
    + by eapply Hmem.
    + by eapply (go_group _ Hok).
  - intros j1 j2 q1 q2 [[-> ->]|[? M1]]%leads_insert [[-> ->]|[? M2]]%leads_insert E; cbn in *.
    + done.
    + by eapply (go_number _ Hok).
    + by eapply Hnum.
    + by eapply (go_number _ Hok).
  - intros j q [[-> ->]|[? Hq]]%leads_insert E; cbn in *; [congruence|by eapply (go_leader _ Hok)].
  - intros j1 j2 q1 q2 [[-> ->]|[? M1]]%leads_insert [[-> ->]|[? M2]]%leads_insert E; cbn in *.
    + by eapply (go_session _ Hok i i).
    + by eapply (go_session _ Hok i j2).
    + by eapply (go_session _ Hok j1 i).
    + by eapply (go_session _ Hok j1 j2).
Qed.

(** *** [setsid] *)

Definition session_leader (p : proc) : proc :=
  mkProc (pr_pid p) (pr_group_leader p) (pr_real_parent p) (pr_pid p) (pr_pid p) true (pr_forknoexec p) None.

Lemma setsid_leader gl : clear_tty (set_special_pids (set_leader gl) (pr_pid gl)) = session_leader gl.
Proof.
  destruct gl as [a b c d e f g h]. unfold set_special_pids, session_leader. cbn.
  destruct (Z.eqb_spec e a) as [->|]; cbn; destruct (Z.eqb_spec d a) as [->|]; reflexivity.
Qed.

Lemma setsid_cases tasks gl k :
  groups_ok tasks → leads tasks k gl →
  (setsid tasks gl = (- EPERM, tasks) ∧
   (pr_leader gl = true ∨ ∃ j g, leads tasks j g ∧ pr_pgrp g = pr_pid gl)) ∨
  (setsid tasks gl = (pid_vnr k, <[k := session_leader gl]> tasks) ∧ pr_leader gl = false ∧
   ∀ j g, leads tasks j g → pr_pgrp g ≠ pr_pid gl).
Proof.
  intros Hok Hgl. unfold setsid. rewrite setsid_leader. cbv zeta.
  destruct (pr_leader gl) eqn:Hl; [by left; auto|].
  destruct (pid_task_pgid tasks (pr_pid gl)) as [g|] eqn:Eg.
  - left. split; [done|right]. apply pid_task_pgid_some in Eg as (j & ? & ? & ?). by exists j, g.
  - right. rewrite (go_pid _ Hok k gl (proj1 Hgl)) in *. split_and!; [done..|].
    intros j g [Hg Hlg]. by eapply pid_task_pgid_none.
Qed.

Lemma session_leader_groups_ok tasks k gl :
  groups_ok tasks → leads tasks k gl → pr_leader gl = false →
  (∀ j g, leads tasks j g → pr_pgrp g ≠ pr_pid gl) → groups_ok (<[k := session_leader gl]> tasks).
Proof.
  intros Hok Hgl Hplain Hfree.
  assert (Hk : pr_pid gl = k) by (eapply go_pid; [done|apply Hgl]).
  assert (Hpid : ∀ j q, j ≠ k → leads tasks j q → pr_pid q ≠ k).
  { intros j q Hne [Hq _]. by rewrite (go_pid _ Hok j q Hq). }
  split.
  - intros j q Hq. destruct (decide (j = k)) as [->|]; simplify_map_eq; [done|by eapply go_pid].
  - intros j1 j2 q1 q2 [[-> ->]|[N1 M1]]%leads_insert [[-> ->]|[N2 M2]]%leads_insert E; cbn in *.
    + done.
    + exfalso. by eapply (Hfree j2 q2).
    + exfalso. by eapply (Hfree j1 q1).
    + by eapply (go_group _ Hok).
  - intros j1 j2 q1 q2 [[-> ->]|[N1 M1]]%leads_insert [[-> ->]|[N2 M2]]%leads_insert E; cbn in *.
    + done.
    + exfalso. by eapply (Hfree j2 q2).
    + exfalso. eapply (Hpid j1 q1); congruence.
    + by eapply (go_number _ Hok).
  - intros j q [[-> ->]|[? Hq]]%leads_insert E; cbn in *; [done|by eapply (go_leader _ Hok)].
  - intros j1 j2 q1 q2 [[-> ->]|[N1 M1]]%leads_insert [[-> ->]|[N2 M2]]%leads_insert E; cbn in *.
    + done.
    + done.
    + exfalso. eapply (Hpid j1 q1); congruence.
    + by eapply (go_session _ Hok j1 j2).
Qed.
Lemma group_step_ok tasks call : groups_ok tasks → groups_ok (group_step tasks call).
Proof.
  intros Hok. unfold group_step. destruct (tasks !! caller_of call) as [gl|] eqn:E; [|done].
  destruct (thread_group_leader gl) eqn:El; [|done]. assert (Hgl : leads tasks (caller_of call) gl) by done.
  destruct call as [caller pid pgid|caller].
  - pose proof (setpgid_cases tasks gl caller pid pgid Hok Hgl) as Hc.
    destruct (setpgid tasks gl pid pgid) as [r tasks'].
    destruct Hc as [->|(_ & i & p & pgrp & Hj & ->)]; [done|by apply joins_groups_ok].
  - destruct (setsid_cases tasks gl caller Hok Hgl) as [[-> _]|(-> & Hl & Hf)]; [done|].
    by apply session_leader_groups_ok.
Qed.

(** C17: Process groups and sessions stay consistent under every sequence of
    setpgid and setsid by any processes: a process group never spans two
    sessions, a session leader stays in the group and session of its number, and
    no process enters a session under a number that is not that of a session
    leader. *)
Theorem sessions_stay_ok tasks calls : groups_ok tasks → groups_ok (foldl group_step tasks calls).
Proof.
  revert tasks. induction calls as [|call calls IH]; intros tasks Hok; [done|]. by apply IH, group_step_ok.
Qed.

(** [setsid] fails with EPERM exactly for a session leader and for a process
    whose number is that of an existing group, and then changes nothing. Otherwise it
    returns the caller's number, the caller is alone in a new session and a new
    group without a terminal, no other process is touched, and a second call
    fails. *)
Theorem setsid_correct tasks gl k :
  groups_ok tasks → leads tasks k gl →
  let blocked := pr_leader gl = true ∨ ∃ j g, leads tasks j g ∧ pr_pgrp g = pr_pid gl in
  let '(r, tasks') := setsid tasks gl in
  (blocked ∧ r = - EPERM ∧ tasks' = tasks) ∨
  (¬ blocked ∧ r = pid_vnr k ∧ (∀ j, j ≠ k → tasks' !! j = tasks !! j) ∧
   ∃ gl', leads tasks' k gl' ∧ pr_session gl' = k ∧ pr_pgrp gl' = k ∧ pr_tty gl' = None ∧
     (∀ j q, leads tasks' j q → pr_session q = k ∨ pr_pgrp q = k → j = k) ∧
     setsid tasks' gl' = (- EPERM, tasks')).
Proof.
  intros Hok Hgl blocked. assert (Hk : pr_pid gl = k) by (eapply go_pid; [done|apply Hgl]).
  destruct (setsid_cases tasks gl k Hok Hgl) as [[-> Hb]|(-> & Hl & Hf)]; [by left|right].
  split_and!; [|done| |].
  - intros [Hb|(j & g & Hg & E)]; [congruence|by eapply Hf].
  - intros j Hne. by rewrite lookup_insert_ne.
  - exists (session_leader gl). split_and!; [|done|done|done| |].
    + split; [by rewrite lookup_insert_eq|]. apply Hgl.
    + intros j q Hq Hs. apply leads_insert in Hq as [[-> _]|[Hne Hq]]; [done|]. exfalso.
      destruct Hs as [Hs|Hs]; [|eapply (Hf j q); congruence || done].
      assert (pr_leader gl = true) by (eapply (go_session _ Hok k j gl q); congruence || done). congruence.
    + unfold setsid. by cbn.
Qed.

(** The group that a successful [setpgid] puts the process in. *)
Lemma setpgid_zero tasks gl k pid pgid tasks' :
  groups_ok tasks → leads tasks k gl → find_vpid (pid_vnr k) = Some k → setpgid tasks gl pid pgid = (0, tasks') →
  let nr := if pid =? 0 then pid_vnr k else pid in
  let want := if pgid =? 0 then nr else pgid in
  ∃ i p p' pgrp, find_vpid nr = Some i ∧ leads tasks i p ∧ pid_vnr pgrp = want ∧
    p' = change_pgrp pgrp p ∧ tasks' = <[i := p']> tasks.
Proof.
  intros Hok Hgl Hvis. unfold setpgid. cbv zeta. rewrite (go_pid _ Hok k gl (proj1 Hgl)).
  set (nr := if pid =? 0 then pid_vnr k else pid). set (want := if pgid =? 0 then nr else pgid).
  case_goal; [done|]. destruct (find_task_by_vpid tasks nr) as [p|] eqn:Ep; [|done].
  apply find_task_some in Ep as (i & Hi & Hp).
  destruct (thread_group_leader p) eqn:Hl; cbn [negb]; [|done].
  destruct (Z.eqb_spec (setpgid_whose tasks gl p) 0) as [|Hw]; cbn [negb]; [|by intros [= ? _]].
  destruct (pr_leader p); [done|].
  destruct (setpgid_target tasks gl p nr want) as [pgrp|] eqn:Et; [|done].
  destruct (Z.eqb_spec (security_task_setpgid p want) 0) as [|Hs]; cbn [negb]; [|by intros [= ? _]].
  assert (Hpid : pr_pid p = i) by by eapply go_pid.
  assert (Hwant : pid_vnr pgrp = want).
  { unfold setpgid_target in Et. destruct (Z.eqb_spec want nr) as [->|].
    - injection Et as <-. rewrite Hpid. by apply find_vpid_vnr.
    - apply bind_Some in Et as (x & Hx & Et). apply bind_Some in Et as (g & _ & Et).
      case_bool_decide; [|done]. injection Et as <-. by apply find_vpid_vnr. }
  rewrite Hpid. case_bool_decide as E; intros [= <-]; exists i, p, (change_pgrp pgrp p), pgrp; split_and!; try done.
  rewrite (leader_pgrp tasks p i) in E by done. injection E as <-.
  rewrite insert_id; [done|]. rewrite Hp. by destruct p.
Qed.

(** After a successful [setpgid], [getpgid] of the process, called by anyone
    whom the security modules let ask, returns the group that was asked for (0
    stands for the caller and for the process's own number); no session and no
    other process changed. *)
Theorem setpgid_getpgid tasks gl k pid pgid tasks' current :
  groups_ok tasks → leads tasks k gl → find_vpid (pid_vnr k) = Some k →
  (∀ p, security_task_getpgid p = 0 ∧ security_task_getsid p = 0) → setpgid tasks gl pid pgid = (0, tasks') →
  let nr := if pid =? 0 then pid_vnr k else pid in
  nr ≠ 0 →
  getpgid tasks' current nr = (if pgid =? 0 then nr else pgid) ∧
  getsid tasks' current nr = getsid tasks current nr ∧
  ∃ i, find_vpid nr = Some i ∧ ∀ j, j ≠ i → tasks' !! j = tasks !! j.
Proof.
  intros Hok Hgl Hvis Hlsm Hset nr Hnr.
  destruct (setpgid_zero tasks gl k pid pgid tasks' Hok Hgl Hvis Hset) as (i & p & p' & pgrp & Hi & Hp & Hw & -> & ->).
  fold nr in Hi, Hw. destruct Hp as [Hp Hl]. unfold thread_group_leader in Hl. apply Z.eqb_eq in Hl.
  assert (Hpid : pr_pid p = i) by by eapply go_pid. split_and!.
  - unfold getpgid. destruct (Z.eqb_spec nr 0) as [|_]; [done|]. unfold find_task_by_vpid. rewrite Hi. cbn.
    rewrite lookup_insert_eq. unfold task_pgrp. cbn. rewrite Hl, Hpid, lookup_insert_eq. cbn. by rewrite (proj1 (Hlsm _)).
  - unfold getsid. destruct (Z.eqb_spec nr 0) as [|_]; [done|]. unfold find_task_by_vpid. rewrite Hi. cbn.
    rewrite lookup_insert_eq, Hp. unfold task_session. cbn. rewrite Hl, Hpid, lookup_insert_eq, Hp. cbn.
    by rewrite !(proj2 (Hlsm _)).
  - exists i. split; [done|]. intros j Hj. by rewrite lookup_insert_ne.
Qed.
End theorems.

(** ** Concrete instances

    Process 10 is a session leader (a shell), 11 and 12 are children it has
    forked; 12 has a second thread, 13. *)
Definition demo_in_group (pgrp : Z) (ip : Z * proc) : Prop :=
  thread_group_leader ip.2 = true ∧ pr_pgrp ip.2 = pgrp.

Definition demo_pid_task (tasks : procs) (pgrp : Z) : option proc :=
  (λ r, r.2.2) <$> list_find (demo_in_group pgrp) (map_to_list tasks).

#[local] Existing Instances demo_linux demo_pids.

Program Definition demo_groups : Groups := {|
  pid_task_pgid := demo_pid_task;
  security_task_setpgid := λ _ _, 0;
  security_task_getpgid := λ _, 0;
  security_task_getsid := λ _, 0
|}.
Next Obligation.
  intros tasks pgrp g. unfold demo_pid_task. intros ([n [i p]] & E & ->)%fmap_Some. cbn.
  apply list_find_Some in E as (E & [? ?] & _). apply list_elem_of_lookup_2, elem_of_map_to_list in E.
  by exists i.
Qed.
Next Obligation.
  intros tasks pgrp. unfold demo_pid_task. intros E%fmap_None i p Hi Hl Hg.
  apply list_find_None in E. rewrite Forall_forall in E. apply (E (i, p)); [by apply elem_of_map_to_list|done].
Qed.

#[local] Existing Instance demo_groups.

Definition demo_shell : proc := mkProc 10 10 10 10 10 true true (Some 1).
Definition demo_tasks : procs := list_to_map
  [(10, demo_shell); (11, mkProc 11 11 10 10 10 false true (Some 1));
   (12, mkProc 12 12 10 10 10 false true (Some 1)); (13, mkProc 13 12 10 0 0 false true None)].

Lemma demo_tasks_cases i p : demo_tasks !! i = Some p →
  p = mkProc 13 12 10 0 0 false true None ∧ i = 13 ∨
  (i = 10 ∨ i = 11 ∨ i = 12) ∧ p = mkProc i i 10 10 10 (i =? 10) true (Some 1).
Proof.
  unfold demo_tasks. cbn [list_to_map foldr fst snd].
  rewrite !lookup_insert_Some, lookup_empty. naive_solver.
Qed.

Lemma demo_groups_ok : groups_ok demo_tasks.
Proof.
  assert (Hl : ∀ i p, leads demo_tasks i p →
    (i = 10 ∨ i = 11 ∨ i = 12) ∧ p = mkProc i i 10 10 10 (i =? 10) true (Some 1)).
  { intros i p [Hp Ht]. apply demo_tasks_cases in Hp as [[-> ->]|?]; [discriminate Ht|done]. }
  split.
  - intros i p Hp. apply demo_tasks_cases in Hp as [[-> ->]|[_ ->]]; done.
  - intros i j p q [? ->]%Hl [? ->]%Hl _. done.
  - intros i j p q [? ->]%Hl [? ->]%Hl. cbn. lia.
  - intros i p [? ->]%Hl. cbn. lia.
  - intros i j p q [? ->]%Hl [? ->]%Hl. cbn. lia.
Qed.

Lemma demo_leads : leads demo_tasks 10 demo_shell ∧ leads demo_tasks 11 (mkProc 11 11 10 10 10 false true (Some 1)).
Proof. by split. Qed.

(** The shell makes a job of its children; 11 then asks for a session of its
    own, which is refused, and 12 gets one after it was told to leave. *)
Lemma sessions_stay_ok_witness :
  groups_ok (foldl group_step demo_tasks [Setpgid 10 11 0; Setpgid 10 12 11; Setsid 11; Setsid 12]).
Proof. apply (sessions_stay_ok demo_tasks). exact demo_groups_ok. Defined.

Lemma setsid_correct_witness :
  (setsid demo_tasks (mkProc 11 11 10 10 10 false true (Some 1))).1 = 11 ∧
  (setsid demo_tasks demo_shell).1 = - EPERM.
Proof.
  pose proof (setsid_correct demo_tasks _ 11 demo_groups_ok (proj2 demo_leads)) as E1.
  pose proof (setsid_correct demo_tasks _ 10 demo_groups_ok (proj1 demo_leads)) as E2.
  cbv zeta in E1, E2. destruct (setsid demo_tasks (mkProc _ _ _ _ _ _ _ _)) as [r1 t1] eqn:H1.
  destruct (setsid demo_tasks demo_shell) as [r2 t2] eqn:H2. cbn [fst]. split.
  - destruct E1 as [(_ & _ & Ht)|(_ & Hr & _)]; [exfalso|exact Hr].
    subst t1. revert H1. vm_compute. discriminate.
  - destruct E2 as [(_ & Hr & _)|(Hb & _)]; [exact Hr|]. exfalso. apply Hb. left. reflexivity.
Defined.

Lemma setpgid_getpgid_witness :
  getpgid (setpgid demo_tasks demo_shell 11 0).2 demo_shell 11 = 11.
Proof.
  assert (E : setpgid demo_tasks demo_shell 11 0 = (0, (setpgid demo_tasks demo_shell 11 0).2))
    by (vm_compute; reflexivity).
  assert (Ev : find_vpid (pid_vnr 10) = Some 10) by reflexivity.
  assert (Es : ∀ p, security_task_getpgid p = 0 ∧ security_task_getsid p = 0) by (intros; split; reflexivity).
  apply (setpgid_getpgid demo_tasks demo_shell 10 11 0 _ demo_shell demo_groups_ok (proj1 demo_leads) Ev Es E).
  discriminate.
Defined.
