(* ===== verification/Limits.v ===== *)
(** * Resource limits

    getrlimit, old_getrlimit, the conversions between rlimit and rlimit64,
    do_prlimit, check_prlimit_permission, prlimit64 and setrlimit of
    lab2/lab2.1/linux/sys.c, for a kernel with 64-bit longs. *)

From Stdlib Require Import Lia.
From stdpp Require Import base numbers option list gmap.
From S2P Require Import Prelude Linux.
Local Open Scope Z_scope.

(** ** State *)

Record rlimit := mkRlimit { rlim_cur : Z; rlim_max : Z }.
Record rlimit64 := mkRlimit64 { rlim64_cur : Z; rlim64_max : Z }.

#[global] Instance rlimit_eq_dec : EqDecision rlimit.
Proof. solve_decision. Defined.
#[global] Instance rlimit_inhabited : Inhabited rlimit := populate (mkRlimit 0 0).

Definition RLIM_NLIMITS : Z := 16.
Definition RLIMIT_CPU : Z := 0.
Definition RLIMIT_NOFILE : Z := 7.
Definition RLIM_INFINITY : Z := 18446744073709551615.
Definition RLIM64_INFINITY : Z := 18446744073709551615.

(** Of a task: its [struct pid], its credentials, whether it still has its
    [sighand] (it loses it when it exits), [signal->rlim], and the limit its CPU
    timer was last set to. *)
Record limited := mkLimited {
  li_pid : Z; li_cred : cred; li_sighand : bool; li_rlim : list rlimit; li_cpu : option Z
}.

Definition set_rlim (l : list rlimit) (t : limited) : limited :=
  mkLimited (li_pid t) (li_cred t) (li_sighand t) l (li_cpu t).

(** [update_rlimit_cpu]. *)
Definition update_rlimit_cpu (secs : Z) (t : limited) : limited :=
  mkLimited (li_pid t) (li_cred t) (li_sighand t) (li_rlim t) (Some secs).

Abbreviation tasks := (gmap Z limited).

(** A user pointer that is NULL, faults, or reads as a value. *)
Inductive user_ptr (A : Type) := Null | Faults | Points (a : A).
Arguments Null {A}.
Arguments Faults {A}.
Arguments Points {A} a.

Class Limits `{Linux, PidNamespace} := {
  sysctl_nr_open : Z;
  security_task_setrlimit : limited → Z → rlimit → Z
}.

Section calls.
Context `{Limits}.

(** ** Conversions *)

Definition rlim64_is_infinity (rlim64 : Z) : bool := rlim64 =? RLIM64_INFINITY.

Definition rlim_to_rlim64 (rlim : rlimit) : rlimit64 :=
  mkRlimit64
    (if rlim_cur rlim =? RLIM_INFINITY then RLIM64_INFINITY else rlim_cur rlim)
    (if rlim_max rlim =? RLIM_INFINITY then RLIM64_INFINITY else rlim_max rlim).

Definition rlim64_to_rlim (rlim64 : rlimit64) : rlimit :=
  mkRlimit
    (if rlim64_is_infinity (rlim64_cur rlim64) then RLIM_INFINITY else u64 (rlim64_cur rlim64))
    (if rlim64_is_infinity (rlim64_max rlim64) then RLIM_INFINITY else u64 (rlim64_max rlim64)).

(** ** Setting and reading one limit

    [new_rlim] is [None] for NULL. The result has the return value, the task
    afterwards and the value stored through [old_rlim]. *)
Definition do_prlimit (current : cred) (tsk : limited) (resource : Z) (new_rlim : option rlimit)
    : Z * limited * option rlimit :=
  if RLIM_NLIMITS <=? resource then (- EINVAL, tsk, None)
  else
    let early := match new_rlim with
      | Some new =>
        if rlim_max new <? rlim_cur new then - EINVAL
        else if (resource =? RLIMIT_NOFILE) && (sysctl_nr_open <? rlim_max new) then - EPERM
        else 0
      | None => 0
      end in
    if negb (early =? 0) then (early, tsk, None)
    else if negb (li_sighand tsk) then (- ESRCH, tsk, None)
    else
      let i := Z.to_nat resource in
      let rlim := li_rlim tsk !!! i in
      match new_rlim with
      | None => (0, tsk, Some rlim)
      | Some new =>
        let retval := if (rlim_max rlim <? rlim_max new) && negb (capable current CAP_SYS_RESOURCE)
          then - EPERM else 0 in
        let retval := if retval =? 0 then security_task_setrlimit tsk resource new else retval in
        let new := if (resource =? RLIMIT_CPU) && (rlim_cur new =? 0) then mkRlimit 1 (rlim_max new) else new in
        if negb (retval =? 0) then (retval, tsk, None)
        else
          let tsk := set_rlim (<[i := new]> (li_rlim tsk)) tsk in
          let tsk := if (resource =? RLIMIT_CPU) && negb (rlim_cur new =? RLIM_INFINITY)
            then update_rlimit_cpu (rlim_cur new) tsk else tsk in
          (0, tsk, Some rlim)
      end.

Definition getrlimit (current : limited) (resource : Z) (writable : bool) : Z * option rlimit :=
  let '(ret, _, value) := do_prlimit (li_cred current) current resource None in
  if ret =? 0 then (if writable then (0, value) else (- EFAULT, None)) else (ret, None).

(** Limits cut to what a signed 32-bit number holds. *)
Definition cap31 (x : Z) : Z := if 2147483647 <? x then 2147483647 else x.

Definition old_getrlimit (current : limited) (resource : Z) (writable : bool) : Z * option rlimit :=
  if RLIM_NLIMITS <=? resource then (- EINVAL, None)
  else
    let x := li_rlim current !!! Z.to_nat resource in
    let x := mkRlimit (cap31 (rlim_cur x)) (cap31 (rlim_max x)) in
    if writable then (0, Some x) else (- EFAULT, None).

(** A [copy_from_user] that may fault. *)
Definition setrlimit (current : limited) (resource : Z) (rlim : option rlimit) : Z * limited :=
  match rlim with
  | None => (- EFAULT, current)
  | Some new_rlim => let '(ret, tsk, _) := do_prlimit (li_cred current) current resource (Some new_rlim) in (ret, tsk)
  end.

Definition check_prlimit_permission (current task : limited) : Z :=
  if li_pid current =? li_pid task then 0
  else
    let cred := li_cred current in
    let tcred := li_cred task in
    if uid_eq (cr_uid cred) (cr_euid tcred) && uid_eq (cr_uid cred) (cr_suid tcred) &&
       uid_eq (cr_uid cred) (cr_uid tcred) && gid_eq (cr_gid cred) (cr_egid tcred) &&
       gid_eq (cr_gid cred) (cr_sgid tcred) && gid_eq (cr_gid cred) (cr_gid tcred) then 0
    else if ns_capable cred (cr_user_ns tcred) CAP_SYS_RESOURCE then 0
    else - EPERM.

(** [pid ? find_task_by_vpid(pid) : current]. *)
Definition prlimit_target (current : limited) (ts : tasks) (pid : Z) : option limited :=
  if negb (pid =? 0) then nr ← find_vpid pid; ts !! nr else Some current.

(** [old_rlim]: [Points tt] is a pointer that can be written. *)
Definition prlimit64 (current : limited) (ts : tasks) (pid resource : Z)
    (new_rlim : user_ptr rlimit64) (old_rlim : user_ptr unit) : Z * tasks * option rlimit64 :=
  match new_rlim with
  | Faults => (- EFAULT, ts, None)
  | _ =>
    let new := match new_rlim with Points new64 => Some (rlim64_to_rlim new64) | _ => None end in
    match prlimit_target current ts pid with
    | None => (- ESRCH, ts, None)
    | Some tsk =>
      let ret := check_prlimit_permission current tsk in
      if negb (ret =? 0) then (ret, ts, None)
      else
        let '(ret, tsk, old) := do_prlimit (li_cred current) tsk resource new in
        let ts := <[li_pid tsk := tsk]> ts in
        match (if ret =? 0 then old_rlim else Null) with
        | Null => (ret, ts, None)
        | Faults => (- EFAULT, ts, None)
        | Points _ => (ret, ts, rlim_to_rlim64 <$> old)
        end
    end
  end.
End calls.

(** ** Well-formed limits *)

(** The soft limit is at most the hard limit; only the CPU limit may be the
    second that stands for "at once", above a hard limit of 0. *)
Record limit_ok (resource : Z) (l : rlimit) : Prop := {
  lo_cur : 0 <= rlim_cur l <= RLIM_INFINITY;
  lo_max : 0 <= rlim_max l <= RLIM_INFINITY;
  lo_order : rlim_cur l <= rlim_max l ∨ resource = RLIMIT_CPU ∧ l = mkRlimit 1 0
}.

Definition limits_ok (l : list rlimit) : Prop :=
  length l = Z.to_nat RLIM_NLIMITS ∧ ∀ i x, l !! i = Some x → limit_ok (Z.of_nat i) x.

Definition tasks_ok (ts : tasks) : Prop :=
  ∀ i t, ts !! i = Some t → li_pid t = i ∧ limits_ok (li_rlim t).

Definition u64_limit (l : rlimit64) : Prop :=
  0 <= rlim64_cur l <= RLIM64_INFINITY ∧ 0 <= rlim64_max l <= RLIM64_INFINITY.

(** A call of prlimit64 by the task [caller]; what it reads is a number of 64
    bits, and the resource is unsigned. *)
Record limit_call := LimitCall {
  lc_caller : Z; lc_pid : Z; lc_resource : Z; lc_new : user_ptr rlimit64; lc_old : user_ptr unit
}.

Definition limit_call_ok (c : limit_call) : Prop :=
  0 <= lc_resource c ∧ match lc_new c with Points l => u64_limit l | _ => True end.

Section theorems.
Context `{Limits}.

Definition limit_step (ts : tasks) (c : limit_call) : tasks :=
  match ts !! lc_caller c with
  | Some current => (prlimit64 current ts (lc_pid c) (lc_resource c) (lc_new c) (lc_old c)).1.2
  | None => ts
  end.

(** On 64-bit machines the two representations are the same. *)
Lemma rlim64_to_rlim_id l : u64_limit l → rlim64_to_rlim l = mkRlimit (rlim64_cur l) (rlim64_max l).
Proof.
  intros [Hc Hm]. unfold rlim64_to_rlim, rlim64_is_infinity, RLIM_INFINITY, RLIM64_INFINITY in *.
  rewrite !u64_small by lia. f_equal; case_goal; lia.
Qed.

Lemma rlim_to_rlim64_id l : rlim_to_rlim64 l = mkRlimit64 (rlim_cur l) (rlim_max l).
Proof.
  unfold rlim_to_rlim64, RLIM_INFINITY, RLIM64_INFINITY.
  f_equal; case_goal; lia.
Qed.

(** The value that is stored: zero seconds of CPU time become one. *)
Definition stored (resource : Z) (new : rlimit) : rlimit :=
  if (resource =? RLIMIT_CPU) && (rlim_cur new =? 0) then mkRlimit 1 (rlim_max new) else new.

(** What [do_prlimit] may do to a task. *)
Definition limit_change (current : cred) (resource : Z) (t t' : limited) (new : rlimit) : Prop :=
  0 <= resource < RLIM_NLIMITS ∧
  rlim_cur new <= rlim_max new ∧ (resource = RLIMIT_NOFILE → rlim_max new <= sysctl_nr_open) ∧
  (rlim_max (li_rlim t !!! Z.to_nat resource) < rlim_max new → capable current CAP_SYS_RESOURCE = true) ∧
  li_pid t' = li_pid t ∧ li_cred t' = li_cred t ∧ li_sighand t' = li_sighand t ∧
  li_rlim t' = <[Z.to_nat resource := stored resource new]> (li_rlim t).

Lemma do_prlimit_cases current t resource new r t' old :
  0 <= resource → do_prlimit current t resource new = (r, t', old) →
  (t' = t ∧ (new = None ∨ r ≠ 0) ∧ (old = None ∨ r = 0 ∧ old = Some (li_rlim t !!! Z.to_nat resource))) ∨
  (r = 0 ∧ old = Some (li_rlim t !!! Z.to_nat resource) ∧
   ∃ x, new = Some x ∧ limit_change current resource t t' x).
Proof.
  intros Hr. unfold do_prlimit. destruct (Z.leb_spec RLIM_NLIMITS resource) as [|Hn].
  { intros [= <- <- <-]. left. split_and!; [done|by right|by left]. }
  destruct new as [x|].
  2:{ cbn. case_goal; intros [= <- <- <-]; left; split_and!; auto. }
  destruct (Z.ltb_spec (rlim_max x) (rlim_cur x)) as [|Ho]; cbn [negb Z.eqb].
  { intros [= <- <- <-]. left. split_and!; [done|by right|by left]. }
  destruct ((resource =? RLIMIT_NOFILE) && (sysctl_nr_open <? rlim_max x)) eqn:Hf; cbn [negb Z.eqb].
  { intros [= <- <- <-]. left. split_and!; [done|by right|by left]. }
  case_goal; [intros [= <- <- <-]; left; split_and!; [done|by right|by left]|].
  destruct ((rlim_max (li_rlim t !!! Z.to_nat resource) <? rlim_max x) && negb (capable current CAP_SYS_RESOURCE)) eqn:Hc;
    cbn [negb Z.eqb].
  { intros [= <- <- <-]. left. split_and!; [done|by right|by left]. }
  destruct (Z.eqb_spec (security_task_setrlimit t resource x) 0) as [|Hs]; cbn [negb].
  2:{ intros [= <- <- <-]. left. split_and!; [done|by right|by left]. }
  intros [= <- <- <-]. right. split_and!; [done|done|]. exists x. split; [done|].
  unfold limit_change. fold (stored resource x).
  apply andb_false_iff in Hf. apply andb_false_iff in Hc.
  assert (Ht : ∀ b : bool, ∀ f, (∀ y, li_pid (f y) = li_pid y ∧ li_cred (f y) = li_cred y ∧
    li_sighand (f y) = li_sighand y ∧ li_rlim (f y) = li_rlim y) →
    ∀ y, let z := (if b then f y else y) in li_pid z = li_pid y ∧ li_cred z = li_cred y ∧
    li_sighand z = li_sighand y ∧ li_rlim z = li_rlim y) by (intros [] f Hy y; [apply Hy|done]).
  match goal with |- context [if ?b then update_rlimit_cpu ?s ?y else ?y] =>
    destruct (Ht b (update_rlimit_cpu s) (λ _, conj eq_refl (conj eq_refl (conj eq_refl eq_refl))) y)
      as (E1 & E2 & E3 & E4) end.
  rewrite E1, E2, E3, E4. split_and!; try done; try lia.
  intros Hlt. destruct Hc as [Hc|Hc]; [lia|]. by apply negb_false_iff in Hc.
Qed.

Lemma prlimit_target_in current ts pid t :
  (∀ i t, ts !! i = Some t → li_pid t = i) → ts !! li_pid current = Some current →
  prlimit_target current ts pid = Some t → ts !! li_pid t = Some t.
Proof.
  intros Hpid Hcur. unfold prlimit_target. case_goal; [|by intros [= <-]].
  intros (nr & _ & E)%bind_Some. by rewrite (Hpid _ _ E).
Qed.

(** What [prlimit64] may do to the tasks: change the limit of one task, which
    is the caller or one that the caller has the right to change. *)
Lemma prlimit64_cases current ts pid resource new old r ts' out :
  0 <= resource → (∀ i t, ts !! i = Some t → li_pid t = i) → ts !! li_pid current = Some current →
  prlimit64 current ts pid resource new old = (r, ts', out) →
  ts' = ts ∨
  ∃ i t t' new64, ts !! i = Some t ∧ new = Points new64 ∧ check_prlimit_permission current t = 0 ∧
    limit_change (li_cred current) resource t t' (rlim64_to_rlim new64) ∧ ts' = <[i := t']> ts.
Proof.
  intros Hr Hpid Hcur. unfold prlimit64.
  destruct new as [| |new64]; [|by intros [= <- <- <-]; left|].
  - destruct (prlimit_target current ts pid) as [t|] eqn:Hwho; [|by intros [= <- <- <-]; left].
    apply prlimit_target_in in Hwho; [|done|done].
    case_goal; [by intros [= <- <- <-]; left|].
    destruct (do_prlimit _ _ _ _) as [[r0 t'] o] eqn:E. apply do_prlimit_cases in E; [|done].
    destruct E as [(-> & _)|(_ & _ & x & Hx & _)]; [|done].
    rewrite insert_id by auto. intros Hres. left. by destruct (r0 =? 0), old; injection Hres.
  - destruct (prlimit_target current ts pid) as [t|] eqn:Hwho; [|by intros [= <- <- <-]; left].
    apply prlimit_target_in in Hwho; [|done|done].
    case_goal; [by intros [= <- <- <-]; left|].
    destruct (do_prlimit _ _ _ _) as [[r0 t'] o] eqn:E. apply do_prlimit_cases in E; [|done].
    destruct E as [(-> & _)|(_ & _ & x & [= <-] & Hch)].
    + rewrite insert_id by auto. intros Hres. left. by destruct (r0 =? 0), old; injection Hres.
    + intros Hres. right. exists (li_pid t), t, t', new64.
      assert (Ep : li_pid t' = li_pid t) by apply Hch. rewrite Ep in Hres.
      split_and!; [done|done|lia|done|]. by destruct (r0 =? 0), old; injection Hres.
Qed.
Lemma stored_ok resource new :
  0 <= rlim_cur new <= RLIM_INFINITY → 0 <= rlim_max new <= RLIM_INFINITY → rlim_cur new <= rlim_max new →
  limit_ok resource (stored resource new).
Proof.
  intros Hc Hm Ho. unfold stored.
  destruct (Z.eqb_spec resource RLIMIT_CPU) as [->|], (Z.eqb_spec (rlim_cur new) 0) as [E|]; cbn [andb];
    (split; [cbn; unfold RLIM_INFINITY in *; lia|done|]).
  - cbn [rlim_cur rlim_max]. destruct (decide (rlim_max new = 0)) as [->|]; [by right|left; lia].
  - by left.
  - by left.
  - by left.
Qed.

(** The steps of a sequence one by one: nothing, or a change the caller may make. *)
Lemma limit_step_cases ts c :
  (∀ i t, ts !! i = Some t → li_pid t = i) → limit_call_ok c →
  limit_step ts c = ts ∨
  ∃ current i t t' new, ts !! lc_caller c = Some current ∧ ts !! i = Some t ∧ u64_limit new ∧
    check_prlimit_permission current t = 0 ∧
    limit_change (li_cred current) (lc_resource c) t t' (mkRlimit (rlim64_cur new) (rlim64_max new)) ∧
    limit_step ts c = <[i := t']> ts.
Proof.
  intros Hpid [Hr Hn]. unfold limit_step. destruct (ts !! lc_caller c) as [current|] eqn:Hcur; [|by left].
  destruct (prlimit64 current ts (lc_pid c) (lc_resource c) (lc_new c) (lc_old c)) as [[r ts'] out] eqn:E.
  apply prlimit64_cases in E; [|done|done|by rewrite (Hpid _ _ Hcur)].
  destruct E as [->|(i & t & t' & new & Ht & En & Hp & Hch & ->)]; [by left|right].
  rewrite En in Hn. exists current, i, t, t', new. rewrite rlim64_to_rlim_id in Hch by done. by split_and!.
Qed.

Lemma limit_step_ok ts c : tasks_ok ts → limit_call_ok c → tasks_ok (limit_step ts c).
Proof.
  intros Hok Hc. destruct (limit_step_cases ts c (λ i t E, proj1 (Hok i t E)) Hc)
    as [->|(current & i & t & t' & new & _ & Ht & Hu & _ & Hch & ->)]; [done|].
  intros j x Hx. destruct (decide (j = i)) as [->|]; simplify_map_eq; [|by apply Hok].
  destruct Hch as ((Hr & Hr') & Ho & _ & _ & -> & _ & _ & ->). destruct (Hok i t Ht) as [-> [Hlen Hl]].
  split; [done|]. split; [by rewrite length_insert|]. intros k y Hy.
  apply list_lookup_insert_Some in Hy as [(<- & <- & _)|[_ Hy]]; [|by apply Hl].
  rewrite Z2Nat.id by done. destruct Hu as [? ?].
  apply stored_ok; cbn [rlim_cur rlim_max]; change RLIM_INFINITY with RLIM64_INFINITY; done.
Qed.

(** Limits stay well formed under every sequence of prlimit64 calls by any
    tasks, with whatever numbers they pass: a soft limit never exceeds its hard
    limit, except that a CPU limit of zero seconds is kept as one second also
    when the hard limit is zero. *)
Theorem limits_stay_ok ts calls :
  tasks_ok ts → Forall limit_call_ok calls → tasks_ok (foldl limit_step ts calls).
Proof.
  intros Hok Hcalls. revert ts Hok. induction Hcalls as [|c calls Hc _ IH]; intros ts Hok; [done|].
  cbn [foldl]. by apply IH, limit_step_ok.
Qed.

(** C21: Hard limits are one-way for tasks without CAP_SYS_RESOURCE: if no task
    has it, then after any sequence of prlimit64 calls no hard limit of any task
    is higher than before, and the open file limit in force is never above the
    system's. *)
Theorem hard_limits_only_fall ts calls :
  tasks_ok ts → Forall limit_call_ok calls →
  (∀ i t, ts !! i = Some t → capable (li_cred t) CAP_SYS_RESOURCE = false) →
  let ts' := foldl limit_step ts calls in
  ∀ i t, ts !! i = Some t → ∃ t', ts' !! i = Some t' ∧
    ∀ r l, li_rlim t !! r = Some l → ∃ l', li_rlim t' !! r = Some l' ∧ rlim_max l' <= rlim_max l ∧
      (Z.of_nat r = RLIMIT_NOFILE → rlim_max l <= sysctl_nr_open → rlim_max l' <= sysctl_nr_open).
Proof.
  intros Hok Hcalls. revert ts Hok. induction Hcalls as [|c calls Hc _ IH]; intros ts Hok Hcap ts' i t Ht; unfold ts'; clear ts'.
  { exists t. split; [done|]. intros r l Hl. exists l. split_and!; [done|lia|lia]. }
  cbn [foldl]. pose proof (limit_step_ok ts c Hok Hc) as Hok1.
  destruct (limit_step_cases ts c (λ i t E, proj1 (Hok i t E)) Hc)
    as [E|(current & j & x & x' & new & Hcur & Hx & Hu & _ & Hch & E)]; rewrite E in *; [by apply IH|].
  destruct Hch as (Hr & Ho & Hnf & Hmax & Hpid & Hcred & _ & Hrl). cbn [rlim_max] in *.
  assert (Hcap1 : ∀ k y, <[j := x']> ts !! k = Some y → capable (li_cred y) CAP_SYS_RESOURCE = false).
  { intros k y Hy. destruct (decide (k = j)) as [->|]; simplify_map_eq; [rewrite Hcred|]; by eapply Hcap. }
  assert (Hle : rlim_max (stored (lc_resource c) (mkRlimit (rlim64_cur new) (rlim64_max new))) <=
    rlim_max (li_rlim x !!! Z.to_nat (lc_resource c))).
  { unfold stored. case_goal; cbn [rlim_max]; (destruct (Z.le_gt_cases (rlim64_max new)
      (rlim_max (li_rlim x !!! Z.to_nat (lc_resource c)))) as [|Hgt]; [done|];
      rewrite (Hcap _ _ Hcur) in Hmax; specialize (Hmax ltac:(lia)); done). }
  destruct (decide (i = j)) as [->|Hne].
  - destruct (IH _ Hok1 Hcap1 j x' ltac:(by rewrite lookup_insert_eq)) as (t' & Ht' & Hl').
    exists t'. split; [done|]. intros r l Hl. assert (x = t) as -> by congruence.
    assert (Hl1 : ∃ l1, li_rlim x' !! r = Some l1 ∧ rlim_max l1 <= rlim_max l).
    { rewrite Hrl. destruct (decide (r = Z.to_nat (lc_resource c))) as [->|].
      - rewrite list_lookup_insert_eq by (by eapply lookup_lt_Some). eexists. split; [done|].
        etrans; [exact Hle|]. by erewrite list_lookup_total_correct.
      - rewrite list_lookup_insert_ne by done. exists l. split; [done|lia]. }
    destruct Hl1 as (l1 & Hl1 & Hle1). destruct (Hl' r l1 Hl1) as (l' & ? & ? & ?).
    exists l'. split_and!; [done|lia|lia].
  - destruct (IH _ Hok1 Hcap1 i t ltac:(by rewrite lookup_insert_ne)) as (t' & ? & ?). by exists t'.
Qed.

(** A task that is exiting has no limits any more. *)
Lemma do_prlimit_exiting current t resource new :
  li_sighand t = false → ∃ r, r ≠ 0 ∧ do_prlimit current t resource new = (r, t, None).
Proof.
  intros Hs. unfold do_prlimit. rewrite Hs. case_goal; [by exists (- EINVAL)|]. cbv zeta. cbn [negb].
  match goal with |- context [if negb (?e =? 0) then _ else _] => destruct (Z.eqb_spec e 0) as [Hz|Hz] end; cbn [negb]; [by exists (- ESRCH)|eexists; split; [exact Hz|done]].
Qed.

(** Asking for a limit. *)
Lemma prlimit64_get current ts pid resource t :
  (∀ i t, ts !! i = Some t → li_pid t = i) → ts !! li_pid current = Some current →
  prlimit_target current ts pid = Some t → check_prlimit_permission current t = 0 →
  0 <= resource < RLIM_NLIMITS → li_sighand t = true →
  prlimit64 current ts pid resource Null (Points tt) =
    (0, ts, Some (rlim_to_rlim64 (li_rlim t !!! Z.to_nat resource))).
Proof.
  intros Hpid Hcur Ht Hp Hr Hs. unfold prlimit64. rewrite Ht, Hp. cbn [negb Z.eqb].
  unfold do_prlimit. destruct (Z.leb_spec RLIM_NLIMITS resource) as [|_]; [lia|]. rewrite Hs. cbn [negb Z.eqb].
  rewrite insert_id; [done|]. by eapply prlimit_target_in.
Qed.

(** [prlimit64] is a swap: a call that sets a limit and returns 0 delivers
    the limit that the same call without a new limit would have delivered, it
    changes nothing but this limit of this task, and the next call that asks gets
    what was set (for the CPU limit, 1 where 0 was passed). *)
Theorem prlimit64_swaps current ts pid resource new ts' out :
  tasks_ok ts → 0 <= resource → u64_limit new → ts !! li_pid current = Some current →
  prlimit64 current ts pid resource (Points new) (Points tt) = (0, ts', out) →
  let set := stored resource (mkRlimit (rlim64_cur new) (rlim64_max new)) in
  prlimit64 current ts pid resource Null (Points tt) = (0, ts, out) ∧
  (∃ i t t', ts !! i = Some t ∧ ts' = <[i := t']> ts ∧
    li_rlim t' = <[Z.to_nat resource := set]> (li_rlim t) ∧ li_cred t' = li_cred t) ∧
  ∀ current', ts' !! li_pid current = Some current' →
    prlimit64 current' ts' pid resource Null (Points tt) = (0, ts', Some (rlim_to_rlim64 set)).
Proof.
  intros Hok Hr Hu Hcur Hcall set. assert (Hpid : ∀ i t, ts !! i = Some t → li_pid t = i) by apply Hok.
  unfold prlimit64 in Hcall. rewrite rlim64_to_rlim_id in Hcall by done.
  destruct (prlimit_target current ts pid) as [t|] eqn:Ht; [|done].
  destruct (Z.eqb_spec (check_prlimit_permission current t) 0) as [Hp|]; cbn [negb] in Hcall; [|congruence].
  destruct (do_prlimit (li_cred current) t resource (Some _)) as [[r0 t'] o] eqn:E.
  assert (Hsig : li_sighand t = true).
  { destruct (li_sighand t) eqn:Hs; [done|exfalso].
    destruct (do_prlimit_exiting (li_cred current) t resource
      (Some (mkRlimit (rlim64_cur new) (rlim64_max new))) Hs) as (r & Hne & E').
    rewrite E' in E. injection E as <- <- <-. destruct (Z.eqb_spec r 0); [done|]. congruence. }
  apply do_prlimit_cases in E; [|done].
  destruct E as [(-> & Hn & Ho)|(-> & -> & x & [= <-] & Hch)].
  { destruct Hn as [|Hn]; [done|]. destruct (Z.eqb_spec r0 0); [done|]. congruence. }
  cbn [Z.eqb] in Hcall. injection Hcall as <- <-.
  pose proof (prlimit_target_in current ts pid t Hpid Hcur Ht) as Hin.
  pose proof Hch as (Hres & _ & _ & _ & Epid & Ecred & Esig & Erl). rewrite Epid.
  split; [by rewrite (prlimit64_get _ _ _ _ t)|]. split; [by exists (li_pid t), t, t'|].
  intros current' Hcur'.
  assert (Hsame : li_pid current' = li_pid current ∧ li_cred current' = li_cred current).
  { destruct (decide (li_pid current = li_pid t)) as [E|]; simplify_map_eq; [|done].
    rewrite E in Hcur'. rewrite lookup_insert_eq in Hcur'. injection Hcur' as <-. rewrite E in Hcur.
    assert (current = t) as -> by congruence. done. }
  destruct Hsame as [Sp Sc].
  assert (Ht' : prlimit_target current' (<[li_pid t := t']> ts) pid = Some t').
  { revert Ht. unfold prlimit_target. case_goal.
    - destruct (find_vpid pid) as [nr|]; cbn; [|done]. intros E. rewrite <- (Hpid _ _ E). by rewrite lookup_insert_eq.
    - intros [= <-]. rewrite lookup_insert_eq in Hcur'. by injection Hcur' as <-. }
  rewrite (prlimit64_get _ _ _ _ t'); try done.
  - rewrite Erl. do 2 f_equal. rewrite list_lookup_total_insert_eq; [done|].
    destruct (Hok _ _ Hin) as [_ [-> _]]. unfold RLIM_NLIMITS in *. lia.
  - intros i y Hy. destruct (decide (i = li_pid t)) as [->|]; simplify_map_eq; auto.
  - by rewrite Sp.
  - unfold check_prlimit_permission in *. by rewrite Sp, Sc, Epid, Ecred.
  - by rewrite Esig.
Qed.

(** A CPU limit of no seconds: the soft limit ends up above the hard limit. *)
Lemma cpu_limit_above_max current t t' old :
  do_prlimit current t RLIMIT_CPU (Some (mkRlimit 0 0)) = (0, t', old) → length (li_rlim t) = 16%nat →
  li_rlim t' !! 0%nat = Some (mkRlimit 1 0).
Proof.
  intros E Hlen. apply do_prlimit_cases in E; [|done].
  destruct E as [(_ & [?|?] & _)|(_ & _ & x & [= <-] & Hch)]; [done|done|].
  destruct Hch as (_ & _ & _ & _ & _ & _ & _ & ->). apply list_lookup_insert_eq. rewrite Hlen. unfold RLIMIT_CPU. lia.
Qed.

(** The old call: what fits a signed 32-bit number is exact, the rest is cut. *)
Lemma old_getrlimit_cut current resource :
  0 <= resource < RLIM_NLIMITS →
  old_getrlimit current resource true = (0, Some
    (mkRlimit (Z.min 2147483647 (rlim_cur (li_rlim current !!! Z.to_nat resource)))
              (Z.min 2147483647 (rlim_max (li_rlim current !!! Z.to_nat resource))))).
Proof.
  intros Hr. unfold old_getrlimit. destruct (Z.leb_spec RLIM_NLIMITS resource) as [|_]; [lia|].
  do 2 f_equal. unfold cap31. f_equal; case_goal; lia.
Qed.
End theorems.

(** ** Concrete instances: two processes of user 1000 and one of root *)

#[local] Existing Instances demo_linux demo_pids.

Definition demo_limits : Limits := {| sysctl_nr_open := 1048576; security_task_setrlimit := λ _ _ _, 0 |}.
#[local] Existing Instance demo_limits.

Definition demo_user_cred (u : Z) : cred := mkCred u u u u u u u u (mkUser u u 1) 0 0.
Definition demo_rlims : list rlimit := replicate 16 (mkRlimit 1024 4096).
Definition demo_limited : tasks := list_to_map
  [(1, mkLimited 1 (demo_user_cred 0) true demo_rlims None);
   (10, mkLimited 10 (demo_user_cred 1000) true demo_rlims None);
   (11, mkLimited 11 (demo_user_cred 1000) true demo_rlims None)].

Lemma demo_limited_cases i t : demo_limited !! i = Some t →
  (i = 1 ∧ t = mkLimited 1 (demo_user_cred 0) true demo_rlims None) ∨
  ((i = 10 ∨ i = 11) ∧ t = mkLimited i (demo_user_cred 1000) true demo_rlims None).
Proof.
  unfold demo_limited. cbn [list_to_map foldr fst snd]. rewrite !lookup_insert_Some, lookup_empty. naive_solver.
Qed.

Lemma demo_tasks_ok : tasks_ok demo_limited.
Proof.
  assert (Hl : limits_ok demo_rlims).
  { split; [done|]. intros i x [-> _]%lookup_replicate. split; cbn; unfold RLIM_INFINITY; lia. }
  intros i t Ht. apply demo_limited_cases in Ht as [[-> ->]|[_ ->]]; done.
Qed.

(** User 1000 lowers a limit of its other process, sets a CPU limit of nothing
    and tries to raise a hard limit. *)
Definition demo_calls : list limit_call :=
  [LimitCall 10 11 RLIMIT_NOFILE (Points (mkRlimit64 64 128)) Null;
   LimitCall 10 0 RLIMIT_CPU (Points (mkRlimit64 0 0)) (Points tt);
   LimitCall 11 11 RLIMIT_NOFILE (Points (mkRlimit64 64 4096)) Null].

Lemma demo_calls_ok : Forall limit_call_ok demo_calls.
Proof.
  unfold demo_calls, limit_call_ok, u64_limit, RLIM64_INFINITY, RLIMIT_NOFILE, RLIMIT_CPU.
  repeat apply Forall_cons_2; cbn; [lia..|apply Forall_nil_2].
Qed.

Lemma limits_stay_ok_witness : tasks_ok (foldl limit_step demo_limited demo_calls).
Proof. apply (limits_stay_ok demo_limited demo_calls demo_tasks_ok demo_calls_ok). Defined.

(** The same without the process of root. *)
Lemma hard_limits_only_fall_witness :
  ∃ t', foldl limit_step (delete 1 demo_limited) demo_calls !! 11 = Some t' ∧
    ∃ l', li_rlim t' !! 7%nat = Some l' ∧ rlim_max l' <= 4096.
Proof.
  assert (Hok : tasks_ok (delete 1 demo_limited)).
  { intros i t [_ Ht]%lookup_delete_Some. by apply demo_tasks_ok. }
  assert (Hcap : ∀ i t, delete 1 demo_limited !! i = Some t → capable (li_cred t) CAP_SYS_RESOURCE = false).
  { intros i t [Hne Ht]%lookup_delete_Some. apply demo_limited_cases in Ht as [[-> ->]|[_ ->]]; [done|reflexivity]. }
  destruct (hard_limits_only_fall (delete 1 demo_limited) demo_calls Hok demo_calls_ok Hcap 11
    (mkLimited 11 (demo_user_cred 1000) true demo_rlims None) eq_refl) as (t' & Ht' & Hl).
  exists t'. split; [exact Ht'|]. destruct (Hl 7%nat (mkRlimit 1024 4096) eq_refl) as (l' & Hl' & Hle & _).
  exists l'. split; [exact Hl'|exact Hle].
Defined.

Lemma prlimit64_swaps_witness :
  prlimit64 (mkLimited 10 (demo_user_cred 1000) true demo_rlims None) demo_limited 11 RLIMIT_NOFILE Null (Points tt) =
    (0, demo_limited, Some (mkRlimit64 1024 4096)).
Proof.
  set (me := mkLimited 10 (demo_user_cred 1000) true demo_rlims None).
  assert (E : prlimit64 me demo_limited 11 RLIMIT_NOFILE (Points (mkRlimit64 64 128)) (Points tt) =
    (0, (prlimit64 me demo_limited 11 RLIMIT_NOFILE (Points (mkRlimit64 64 128)) (Points tt)).1.2,
     Some (mkRlimit64 1024 4096))) by (vm_compute; reflexivity).
  assert (Hu : u64_limit (mkRlimit64 64 128)) by (unfold u64_limit, RLIM64_INFINITY; cbn; lia).
  assert (Hr : 0 <= RLIMIT_NOFILE) by (unfold RLIMIT_NOFILE; lia).
  assert (Hin : demo_limited !! li_pid me = Some me) by reflexivity.
  exact (proj1 (prlimit64_swaps me demo_limited 11 RLIMIT_NOFILE (mkRlimit64 64 128) _ _ demo_tasks_ok Hr Hu Hin E)).
Defined.
