(* ===== verification/UtsName.v ===== *)
(** * The names of the system

    override_release, newuname, uname, olduname, sethostname, gethostname and
    setdomainname of lab2/lab2.1/linux/sys.c. A structure is the bytes of its
    fields one after the other; so is the memory at a user's pointer. *)

From Stdlib Require Import Lia String.
From stdpp Require Import base numbers option list.
From S2P Require Import Prelude Bytes CString Linux.
Local Open Scope Z_scope.

Definition NEW_UTS_LEN : Z := 64.
Definition OLD_UTS_LEN : Z := 8.
(** Flag of a personality that wants to see a 2.6 kernel. *)
Definition UNAME26 : Z := 131072.

(** [struct new_utsname]: six arrays of 65 bytes. *)
Record utsname := mkUts {
  sysname : list Z; nodename : list Z; release : list Z; version : list Z; machine : list Z; domainname : list Z
}.

Definition uts_bytes (u : utsname) : list Z :=
  sysname u ++ nodename u ++ release u ++ version u ++ machine u ++ domainname u.

Definition set_nodename (n : list Z) (u : utsname) : utsname :=
  mkUts (sysname u) n (release u) (version u) (machine u) (domainname u).
Definition set_domainname (n : list Z) (u : utsname) : utsname :=
  mkUts (sysname u) (nodename u) (release u) (version u) (machine u) n.

(** Outside sys.c: [copy_to_user] to an offset in the user's memory, whose
    result is the number of bytes that were not copied; the version the kernel
    was built as. *)
Class Uts `{Linux} := {
  copy_to_user : list Z → Z → list Z → Z * list Z;
  copy_to_user_all mem off data mem' : copy_to_user mem off data = (0, mem') → mem' = splice off data mem;
  copy_to_user_inside mem off data : let mem' := (copy_to_user mem off data).2 in
    length mem' = length mem ∧
    ∀ i, (Z.of_nat i < off ∨ off + lenZ data <= Z.of_nat i) → mem' !! i = mem !! i;
  UTS_RELEASE : list Z;
  UTS_RELEASE_str : no_nul UTS_RELEASE;
  LINUX_VERSION_CODE : Z
}.

Section calls.
Context `{Uts}.

Definition isdigit (c : Z) : bool := (48 <=? c) && (c <=? 57).

(** The loop over UTS_RELEASE: what follows three numbers. *)
Fixpoint release_rest (rest : list Z) (ndots : Z) : list Z :=
  match rest with
  | [] => []
  | c :: more =>
    if (c =? ch_dot) && (3 <=? ndots + 1) then rest
    else if negb (isdigit c) && negb (c =? ch_dot) then rest
    else release_rest more (if c =? ch_dot then ndots + 1 else ndots)
  end.

(** [scnprintf(buf, size, ...)] of a text: what it puts before the zero. *)
Definition scnprintf (size : Z) (text : list Z) : list Z := take (Z.to_nat (size - 1)) text.

(** The text of an old release: "2.6." and the number. *)
Definition old_release_text : list Z :=
  [50; ch_dot; 54; ch_dot] ++ sprintf_u (Z.land (Z.shiftr LINUX_VERSION_CODE 8) 255 + 60) ++
  release_rest UTS_RELEASE 0.

(** [release] is the offset of the field in the user's structure, [len] its size. *)
Definition override_release (personality : Z) (mem : list Z) (release len : Z) : Z * list Z :=
  if negb (Z.land personality UNAME26 =? 0) then
    let size := Z.min (Z.max len 1) 65 in
    copy_to_user mem release (scnprintf size old_release_text ++ [0])
  else (0, mem).

(** [override_architecture] is 0 on a kernel without COMPAT_UTS_MACHINE. *)
Definition newuname (personality : Z) (u : utsname) (name : list Z) : Z * list Z :=
  let '(r, name) := copy_to_user name 0 (uts_bytes u) in
  if negb (r =? 0) then (- EFAULT, name)
  else
    let '(r, name) := override_release personality name 130 65 in
    if negb (r =? 0) then (- EFAULT, name) else (0, name).

(** [struct old_utsname] has the first five fields; [name] is [None] for NULL. *)
Definition uname (personality : Z) (u : utsname) (name : option (list Z)) : Z * option (list Z) :=
  match name with
  | None => (- EFAULT, None)
  | Some name =>
    let '(r, name) := copy_to_user name 0 (slice 0 325 (uts_bytes u)) in
    if negb (r =? 0) then (- EFAULT, Some name)
    else
      let '(r, name) := override_release personality name 130 65 in
      if negb (r =? 0) then (- EFAULT, Some name) else (0, Some name)
  end.

(** A field of [struct oldold_utsname]: eight bytes and the zero of the memset. *)
Definition old_field (s : list Z) : list Z := slice 0 OLD_UTS_LEN s ++ [0].

Definition oldold_bytes (u : utsname) : list Z :=
  old_field (sysname u) ++ old_field (nodename u) ++ old_field (release u) ++ old_field (version u) ++
  old_field (machine u).

Definition olduname (personality : Z) (u : utsname) (name : option (list Z)) : Z * option (list Z) :=
  match name with
  | None => (- EFAULT, None)
  | Some name =>
    let '(r, name) := copy_to_user name 0 (oldold_bytes u) in
    if negb (r =? 0) then (- EFAULT, Some name)
    else
      let '(r, name) := override_release personality name 18 9 in
      if negb (r =? 0) then (- EFAULT, Some name) else (0, Some name)
  end.

(** The field after [memcpy(field, tmp, len)] and the [memset] of the rest.
    [user] is the memory at the caller's pointer, [None] when it faults. *)
Definition put_name (tmp field : list Z) : list Z :=
  let field := splice 0 tmp field in
  splice (lenZ tmp) (replicate (Z.to_nat (65 - lenZ tmp)) 0) field.

Definition sethostname (cred : cred) (uts_user_ns : Z) (u : utsname) (user : option (list Z)) (len : Z)
    : Z * utsname :=
  if negb (ns_capable cred uts_user_ns CAP_SYS_ADMIN) then (- EPERM, u)
  else if (len <? 0) || (NEW_UTS_LEN <? len) then (- EINVAL, u)
  else
    match user with
    | None => (- EFAULT, u)
    | Some name => (0, set_nodename (put_name (slice 0 len name) (nodename u)) u)
    end.

Definition setdomainname (cred : cred) (uts_user_ns : Z) (u : utsname) (user : option (list Z)) (len : Z)
    : Z * utsname :=
  if negb (ns_capable cred uts_user_ns CAP_SYS_ADMIN) then (- EPERM, u)
  else if (len <? 0) || (NEW_UTS_LEN <? len) then (- EINVAL, u)
  else
    match user with
    | None => (- EFAULT, u)
    | Some name => (0, set_domainname (put_name (slice 0 len name) (domainname u)) u)
    end.

(** [memcpy(tmp, u->nodename, i)] into an array of 65 bytes. *)
Definition gethostname (u : utsname) (name : list Z) (len : Z) : res (Z * list Z) :=
  if len <? 0 then Ok (- EINVAL, name)
  else
    let i := 1 + lenZ (c_str (nodename u)) in
    let i := if len <? i then len else i in
    _ ← require (i <=? NEW_UTS_LEN + 1) OutOfBounds;
    let '(r, name) := copy_to_user name 0 (slice 0 i (nodename u)) in
    if negb (r =? 0) then Ok (- EFAULT, name) else Ok (0, name).
End calls.

(** ** The names are strings *)

(** A field of 65 bytes that ends with a zero. *)
Definition name_ok (f : list Z) : Prop := lenZ f = 65 ∧ byte_at f 64 = 0.

Record uts_ok (u : utsname) : Prop := {
  uo_sysname : name_ok (sysname u);
  uo_nodename : name_ok (nodename u);
  uo_release : name_ok (release u);
  uo_version : name_ok (version u);
  uo_machine : name_ok (machine u);
  uo_domainname : name_ok (domainname u)
}.

Section theorems.
Context `{Uts}.

Lemma put_name_eq tmp field :
  lenZ field = 65 → lenZ tmp <= 64 → put_name tmp field = tmp ++ replicate (65 - length tmp) 0.
Proof.
  intros Hf Ht. unfold put_name.
  assert (E : splice 0 tmp field = tmp ++ drop (length tmp) field).
  { rewrite <- (take_drop (length tmp) field) at 1.
    pose proof (splice_app_mid 0 tmp [] (take (length tmp) field) (drop (length tmp) field)) as E0.
    cbn [app] in E0. apply E0; [done|]. rewrite length_take. lia. }
  rewrite E.
  pose proof (splice_app_mid (lenZ tmp) (replicate (Z.to_nat (65 - lenZ tmp)) 0) tmp
    (drop (length tmp) field) []) as E2.
  rewrite !app_nil_r in E2. rewrite E2; [|done|rewrite length_replicate, length_drop; lia].
  do 2 f_equal. lia.
Qed.

Lemma put_name_ok tmp field : name_ok field → lenZ tmp <= 64 → name_ok (put_name tmp field).
Proof.
  intros [Hf _] Ht. rewrite put_name_eq by done. split.
  - rewrite length_app, length_replicate. lia.
  - unfold byte_at. rewrite lookup_app_r by lia. rewrite lookup_replicate_2 by lia. done.
Qed.

Lemma length_slice_le off n (l : list Z) : 0 <= n → lenZ (slice off n l) <= n.
Proof. intros. unfold slice. rewrite length_take. lia. Qed.

(** A call that sets one of the two names. *)
Inductive name_call :=
  | Sethostname (caller : cred) (user : option (list Z)) (len : Z)
  | Setdomainname (caller : cred) (user : option (list Z)) (len : Z).

Definition name_step (uts_user_ns : Z) (u : utsname) (c : name_call) : utsname :=
  match c with
  | Sethostname cred user len => (sethostname cred uts_user_ns u user len).2
  | Setdomainname cred user len => (setdomainname cred uts_user_ns u user len).2
  end.

Lemma name_step_ok ns u c : uts_ok u → uts_ok (name_step ns u c).
Proof.
  intros Hu. destruct c as [cred user len|cred user len]; cbn [name_step]; unfold sethostname, setdomainname;
    (case_goal; [done|]; destruct ((len <? 0) || (NEW_UTS_LEN <? len)) eqn:El; [done|];
     destruct user as [name|]; [|done]; destruct Hu; split; cbn; try done;
     apply put_name_ok; [done|]; pose proof (length_slice_le 0 len name); unfold NEW_UTS_LEN in *; lia).
Qed.

Lemma name_step_unprivileged ns u c :
  match c with Sethostname cred _ _ | Setdomainname cred _ _ => ns_capable cred ns CAP_SYS_ADMIN = false end →
  name_step ns u c = u.
Proof. destruct c; cbn [name_step]; unfold sethostname, setdomainname; by intros ->. Qed.

(** The six names of the system are terminated strings of at most 64
    characters after every sequence of sethostname and setdomainname, whatever
    lengths and pointers the callers pass; without CAP_SYS_ADMIN they do not
    change at all. *)
Theorem names_stay_terminated ns u calls :
  uts_ok u → let u' := foldl (name_step ns) u calls in
  uts_ok u' ∧
  (Forall (λ c, match c with Sethostname cred _ _ | Setdomainname cred _ _ =>
     ns_capable cred ns CAP_SYS_ADMIN = false end) calls → u' = u).
Proof.
  revert u. induction calls as [|c calls IH]; intros u Hu; [done|]. cbn [foldl].
  destruct (IH _ (name_step_ok ns u c Hu)) as [Hok Hsame]. split; [exact Hok|].
  intros Hcap. apply Forall_cons in Hcap as [Hno Hcap]. rewrite (Hsame Hcap). by apply name_step_unprivileged.
Qed.

(** The host name that was set is the host name that is read: after
    [sethostname] with a name of at most 64 characters, [gethostname] into a
    buffer of more characters delivers the name and its zero and leaves the rest
    of the buffer; a shorter buffer gets the start of the name without a zero.
    The copy on the way never leaves its array of 65 bytes. *)
Theorem hostname_roundtrip cred ns u name buf len :
  uts_ok u → no_nul name → lenZ name <= 64 → ns_capable cred ns CAP_SYS_ADMIN = true → 0 <= len →
  let '(r, u') := sethostname cred ns u (Some name) (lenZ name) in
  r = 0 ∧ ∃ r buf', gethostname u' buf len = Ok (r, buf') ∧
    (r = 0 ∧ buf' = splice 0 (take (Z.to_nat len) (name ++ [0])) buf ∨ r = - EFAULT).
Proof.
  intros Hu Hn Hl Hcap Hlen. unfold sethostname. rewrite Hcap. cbn [negb].
  assert (Hb : (lenZ name <? 0) || (NEW_UTS_LEN <? lenZ name) = false) by (unfold NEW_UTS_LEN; lia).
  rewrite Hb, slice_all. split; [done|]. unfold gethostname.
  destruct (Z.ltb_spec len 0) as [|_]; [lia|]. cbn [nodename set_nodename].
  rewrite put_name_eq by (try apply Hu; lia).
  assert (Ez : replicate (65 - length name) 0 = 0 :: replicate (64 - length name) 0).
  { replace (65 - length name)%nat with (S (64 - length name)) by lia. done. }
  rewrite Ez, c_str_cut by done. set (i := if len <? 1 + lenZ name then len else 1 + lenZ name).
  assert (Hi : (i <=? NEW_UTS_LEN + 1) = true) by (unfold i, NEW_UTS_LEN; case_goal; lia).
  rewrite Hi. res_steps.
  destruct (copy_to_user buf 0 _) as [r0 b] eqn:Ec. destruct (Z.eqb_spec r0 0) as [->|]; cbn [negb]; [|eauto].
  exists 0, b. split; [done|left]. split; [done|]. apply copy_to_user_all in Ec as ->. f_equal. unfold i.
  replace (name ++ 0 :: replicate (64 - length name) 0) with ((name ++ [0]) ++ replicate (64 - length name) 0)
    by by rewrite <- app_assoc.
  unfold slice. change (Z.to_nat 0) with 0%nat. rewrite drop_0. destruct (Z.ltb_spec len (1 + lenZ name)).
  - rewrite take_app_le; [done|]. rewrite length_app. cbn. lia.
  - rewrite take_app_le by (rewrite length_app; cbn [length]; lia).
    rewrite (take_ge (name ++ [0]) (Z.to_nat len)) by (rewrite length_app; cbn [length]; lia).
    apply take_ge. rewrite length_app. cbn [length]. lia.
Qed.
(** *** What the three calls write *)

(** A field of [len] bytes at [off] that holds a terminated string. *)
Definition terminated (mem : list Z) (off len : Z) : Prop :=
  ∃ j, off <= j < off + len ∧ byte_at mem j = 0.

Lemma override_release_spec p mem release len :
  0 <= release → 1 <= len → release + len <= lenZ mem →
  let '(r, mem') := override_release p mem release len in
  length mem' = length mem ∧
  (∀ i, Z.of_nat i < release ∨ release + len <= Z.of_nat i → mem' !! i = mem !! i) ∧
  (r = 0 → terminated mem release len → terminated mem' release len).
Proof.
  intros Hr Hl Hm. unfold override_release. case_goal; [|done].
  set (text := scnprintf (Z.min (Z.max len 1) 65) old_release_text).
  assert (Ht : lenZ text + 1 <= len).
  { unfold text, scnprintf. rewrite length_take. lia. }
  destruct (copy_to_user mem release (text ++ [0])) as [r mem'] eqn:E.
  pose proof (copy_to_user_inside mem release (text ++ [0])) as [Hlen Hout]. rewrite E in Hlen, Hout. cbn [snd] in *.
  rewrite length_app, Nat2Z.inj_add in Hout. cbn [length] in Hout. split_and!; [done|intros; apply Hout; lia|].
  intros -> _. apply copy_to_user_all in E as ->. exists (release + lenZ text). split; [lia|].
  rewrite byte_at_splice by (rewrite ?length_app, ?Nat2Z.inj_add; cbn [length]; lia).
  rewrite decide_True by (rewrite length_app, Nat2Z.inj_add; cbn [length]; lia).
  unfold byte_at. rewrite lookup_app_r by lia.
  replace (Z.to_nat (release + lenZ text - release) - length text)%nat with 0%nat by lia. done.
Qed.

(** The common shape of the calls: a structure, then the release over it. *)
Definition deliver (p : Z) (bytes : list Z) (release len : Z) (name : list Z) : Z * list Z :=
  let '(r, name) := copy_to_user name 0 bytes in
  if negb (r =? 0) then (- EFAULT, name)
  else
    let '(r, name) := override_release p name release len in
    if negb (r =? 0) then (- EFAULT, name) else (0, name).

Lemma deliver_spec p bytes release len name :
  0 <= release → 1 <= len → release + len <= lenZ bytes → lenZ bytes <= lenZ name →
  let '(r, name') := deliver p bytes release len name in
  (∀ i, lenZ bytes <= Z.of_nat i → name' !! i = name !! i) ∧ length name' = length name ∧
  (r = 0 →
   (∀ i, (Z.of_nat i < lenZ bytes) → Z.of_nat i < release ∨ release + len <= Z.of_nat i → name' !! i = bytes !! i) ∧
   (terminated bytes release len → terminated name' release len)).
Proof.
  intros Hr Hl Hb Hn. unfold deliver. destruct (copy_to_user name 0 bytes) as [r1 m1] eqn:E.
  pose proof (copy_to_user_inside name 0 bytes) as [Hlen Hout]. rewrite E in Hlen, Hout. cbn [snd] in *.
  destruct (Z.eqb_spec r1 0) as [->|]; cbn [negb].
  2:{ split_and!; [intros; apply Hout; lia|done|done]. }
  apply copy_to_user_all in E.
  pose proof (override_release_spec p m1 release len Hr Hl ltac:(lia)) as Ho.
  destruct (override_release p m1 release len) as [r2 m2]. destruct Ho as (Hlen2 & Hout2 & Hterm).
  assert (Hrest : ∀ i, lenZ bytes <= Z.of_nat i → m2 !! i = name !! i).
  { intros i Hi. rewrite Hout2 by lia. apply Hout. lia. }
  destruct (Z.eqb_spec r2 0) as [->|]; cbn [negb]; (split_and!; [done|congruence|]); [|done].
  intros _. assert (Hin : ∀ i, Z.of_nat i < lenZ bytes → m1 !! i = bytes !! i).
  { intros i Hi. rewrite E, lookup_splice by lia. rewrite decide_True by lia. f_equal. lia. }
  split.
  - intros i Hi Ho. by rewrite Hout2, Hin.
  - intros (j & Hj & Hz). apply Hterm; [done|]. exists j. split; [done|].
    unfold byte_at in *. by rewrite Hin by lia.
Qed.
(** Fields of [f] bytes, each ending with a zero. *)
Fixpoint ends_with_zero (f : Z) (fields : list (list Z)) : Prop :=
  match fields with
  | [] => True
  | x :: fields => lenZ x = f ∧ byte_at x (f - 1) = 0 ∧ ends_with_zero f fields
  end.

Lemma byte_at_app a b i : 0 <= i → byte_at (a ++ b) i = if i <? lenZ a then byte_at a i else byte_at b (i - lenZ a).
Proof.
  intros Hi. unfold byte_at. destruct (Z.ltb_spec i (lenZ a)).
  - by rewrite lookup_app_l by lia.
  - rewrite lookup_app_r by lia. do 2 f_equal. lia.
Qed.

Lemma fields_end f fields k :
  ends_with_zero f fields → 0 < f → 0 <= k < lenZ fields →
  lenZ (concat fields) = f * lenZ fields ∧ byte_at (concat fields) (f * k + (f - 1)) = 0.
Proof.
  intros Hf Hpos. revert k. induction fields as [|x fields IH]; intros k Hk; cbn [length] in *; [lia|].
  cbn [ends_with_zero concat] in *. destruct Hf as (Hl & Hz & Hf). destruct fields as [|y fields].
  { cbn [concat length] in *. rewrite app_nil_r, Hl. split; [lia|].
    replace (f * k + (f - 1)) with (f - 1) by nia. done. }
  rewrite length_app, Nat2Z.inj_add, Hl, byte_at_app by nia. cbn [length] in *. destruct (decide (k = 0)) as [->|].
  - destruct (IH Hf 0) as [-> _]; [lia|]. destruct (Z.ltb_spec (f * 0 + (f - 1)) (lenZ x)); [|lia].
    split; [lia|]. replace (f * 0 + (f - 1)) with (f - 1) by lia. done.
  - destruct (IH Hf (k - 1)) as [E Hb]; [lia|]. rewrite E.
    destruct (Z.ltb_spec (f * k + (f - 1)) (lenZ x)); [nia|].
    split; [lia|]. rewrite <- Hb. f_equal. nia.
Qed.

(** What the caller of one of the three calls may rely on: nothing outside the
    structure changes, and after success every field holds a terminated string. *)
Definition delivered (size f r : Z) (name name' : list Z) : Prop :=
  length name' = length name ∧ (∀ i, size <= Z.of_nat i → name' !! i = name !! i) ∧
  (r = 0 → ∀ k, 0 <= k → f * (k + 1) <= size → terminated name' (f * k) f).

Lemma deliver_fields p f fields name :
  ends_with_zero f fields → 0 < f → 2 < lenZ fields → f * lenZ fields <= lenZ name →
  let '(r, name') := deliver p (concat fields) (2 * f) f name in delivered (f * lenZ fields) f r name name'.
Proof.
  intros Hf Hpos Hmany Hn. destruct (fields_end f fields 0 Hf Hpos ltac:(lia)) as [Hlen _].
  pose proof (deliver_spec p (concat fields) (2 * f) f name ltac:(lia) ltac:(lia) ltac:(nia) ltac:(lia)) as Hd.
  destruct (deliver p (concat fields) (2 * f) f name) as [r name']. destruct Hd as (Hout & Hl & Hok).
  rewrite Hlen in *. split_and!; [done|done|]. intros Hr k Hk Hs. destruct (Hok Hr) as [Hin Hterm].
  assert (Hk' : 0 <= k < lenZ fields) by nia.
  destruct (fields_end f fields k Hf Hpos Hk') as [_ Hz].
  assert (Hb : terminated (concat fields) (f * k) f) by (exists (f * k + (f - 1)); split; [lia|done]).
  destruct (decide (k = 2)) as [->|Hne].
  - replace (f * 2) with (2 * f) in * by lia. by apply Hterm.
  - exists (f * k + (f - 1)). split; [lia|]. unfold byte_at in *. rewrite Hin; [done|nia|nia].
Qed.

(** C35: [newuname], [uname] and [olduname] write nothing outside the structure
    the caller passed, also for processes that see a 2.6 release number, and
    whatever release the kernel has; when they return 0 every field of the
    structure holds a terminated string. *)
Theorem uname_stays_inside p u name :
  uts_ok u →
  (390 <= lenZ name → let '(r, name') := newuname p u name in delivered 390 65 r name name') ∧
  (325 <= lenZ name → let '(r, name') := uname p u (Some name) in
     ∃ n, name' = Some n ∧ delivered 325 65 r name n) ∧
  (45 <= lenZ name → let '(r, name') := olduname p u (Some name) in
     ∃ n, name' = Some n ∧ delivered 45 9 r name n).
Proof.
  intros [[L1 Z1] [L2 Z2] [L3 Z3] [L4 Z4] [L5 Z5] [L6 Z6]]. split_and!; intros Hn.
  - assert (E : newuname p u name =
      deliver p (concat [sysname u; nodename u; release u; version u; machine u; domainname u]) (2 * 65) 65 name)
      by (unfold newuname, uts_bytes, deliver; cbn [concat]; by rewrite app_nil_r).
    rewrite E. apply deliver_fields; cbn [ends_with_zero length]; [by split_and!|lia..].
  - assert (E : uname p u (Some name) =
      let '(r, n) := deliver p (concat [sysname u; nodename u; release u; version u; machine u]) (2 * 65) 65 name in (r, Some n)).
    { assert (Es : slice 0 325 (uts_bytes u) = concat [sysname u; nodename u; release u; version u; machine u]).
      { unfold slice, uts_bytes. rewrite drop_0. cbn [concat]. rewrite app_nil_r, !app_assoc.
        rewrite take_app_le by (rewrite !length_app; lia). apply take_ge. rewrite !length_app. lia. }
      unfold uname, deliver. rewrite Es. change (2 * 65) with 130. destruct (copy_to_user _ _ _) as [r m].
      destruct (negb (r =? 0)); [done|]. destruct (override_release _ _ _ _) as [r2 m2]. by destruct (negb (r2 =? 0)). }
    rewrite E. pose proof (deliver_fields p 65 [sysname u; nodename u; release u; version u; machine u] name) as Hd.
    destruct (deliver _ _ _ _ _) as [r n]. exists n. split; [done|].
    apply Hd; cbn [ends_with_zero length]; [by split_and!|lia..].
  - assert (Ho : ∀ s, lenZ s = 65 → lenZ (old_field s) = 9 ∧ byte_at (old_field s) (9 - 1) = 0).
    { intros s Hs. unfold old_field, OLD_UTS_LEN. assert (Hl : length (slice 0 8 s) = 8%nat) by (rewrite length_slice; lia).
      rewrite length_app, Hl, byte_at_app, Hl by lia. done. }
    assert (E : olduname p u (Some name) =
      let '(r, n) := deliver p (concat (old_field <$> [sysname u; nodename u; release u; version u; machine u])) (2 * 9) 9 name in
      (r, Some n)).
    { unfold olduname, deliver, oldold_bytes. cbn [concat fmap list_fmap]. rewrite app_nil_r.
      change (2 * 9) with 18. destruct (copy_to_user _ _ _) as [r m].
      destruct (negb (r =? 0)); [done|]. destruct (override_release _ _ _ _) as [r2 m2]. by destruct (negb (r2 =? 0)). }
    rewrite E. pose proof (deliver_fields p 9 (old_field <$> [sysname u; nodename u; release u; version u; machine u]) name) as Hd.
    destruct (deliver _ _ _ _ _) as [r n]. exists n. split; [done|].
    apply Hd; cbn [fmap list_fmap ends_with_zero length]; [|lia..].
    repeat match goal with H : lenZ ?s = 65 |- _ => destruct (Ho s H); clear H end. by split_and!.
Qed.
End theorems.

(** ** Concrete instances: a kernel 4.4.0-21-generic *)

#[local] Existing Instance demo_linux.

Program Definition demo_uts : Uts := {|
  copy_to_user := λ mem off data,
    if (0 <=? off) && (off + lenZ data <=? lenZ mem) then (0, splice off data mem) else (lenZ data, mem);
  UTS_RELEASE := chars "4.4.0-21-generic";
  LINUX_VERSION_CODE := 263168
|}.
Next Obligation.
  intros mem off data mem'. cbn. case_match; [by intros [= <-]|]. intros [= E <-].
  unfold splice. by destruct data.
Qed.
Next Obligation.
  intros mem off data. cbn. case_match; [|done]. cbn [snd]. split; [apply length_splice; lia|].
  intros i Hi. rewrite lookup_splice by lia. rewrite decide_False by lia. done.
Qed.
Next Obligation. apply (bool_decide_unpack _). vm_compute. exact I. Qed.

#[local] Existing Instance demo_uts.

Definition demo_field (s : string) : list Z := chars s ++ replicate (65 - length (chars s)) 0.
Definition demo_names : utsname :=
  mkUts (demo_field "Linux") (demo_field "lab") (demo_field "4.4.0-21-generic") (demo_field "#1") (demo_field "x86_64")
    (demo_field "(none)").

Lemma demo_names_ok : uts_ok demo_names.
Proof. split; by split. Qed.

Lemma demo_old_release : slice 130 20 (newuname UNAME26 demo_names (replicate 390 255)).2 = chars "2.6.64-21-generic" ++ [0; 0; 0].
Proof. vm_compute. reflexivity. Qed.

Definition root_cred : cred := mkCred 0 0 0 0 0 0 0 0 (mkUser 0 0 1) 0 0.

Lemma names_stay_terminated_witness :
  uts_ok (foldl (name_step 0) demo_names
    [Sethostname root_cred (Some (chars "sakura")) 6; Setdomainname root_cred None 5;
     Sethostname root_cred (Some (chars "umi")) 65]).
Proof. apply (names_stay_terminated 0 demo_names). exact demo_names_ok. Defined.

Lemma hostname_roundtrip_witness :
  ∃ r buf', gethostname (sethostname root_cred 0 demo_names (Some (chars "sakura")) 6).2 (replicate 10 255) 10 = Ok (r, buf') ∧
    (r = 0 ∧ buf' = chars "sakura" ++ [0; 255; 255; 255] ∨ r = - EFAULT).
Proof.
  assert (Hn : no_nul (chars "sakura")) by (apply (bool_decide_unpack _); vm_compute; exact I).
  pose proof (hostname_roundtrip root_cred 0 demo_names (chars "sakura") (replicate 10 255) 10 demo_names_ok Hn
    ltac:(cbn; lia) eq_refl ltac:(lia)) as E.
  change (lenZ (chars "sakura")) with 6 in E.
  destruct (sethostname root_cred 0 demo_names (Some (chars "sakura")) 6) as [r u]. cbn [snd].
  destruct E as [_ (r' & buf' & Hg & Hb)]. exists r', buf'. split; [exact Hg|]. exact Hb.
Defined.

Lemma uname_stays_inside_witness :
  let '(r, name') := newuname UNAME26 demo_names (replicate 400 255) in
  delivered 390 65 r (replicate 400 255) name'.
Proof. apply (uname_stays_inside UNAME26 demo_names (replicate 400 255) demo_names_ok). vm_compute. discriminate. Defined.
