(* ===== verification/SysInfo.v ===== *)
(** * Memory statistics

    do_sysinfo, sysinfo and compat_sys_sysinfo of lab2/lab2.1/linux/sys.c. *)

From Stdlib Require Import Lia.
From stdpp Require Import base numbers option list.
From S2P Require Import Prelude Linux.
Local Open Scope Z_scope.

(** [struct sysinfo]: unsigned longs, with [mem_unit] of 32 bits and [procs] of 16. *)
Record sysinfo := mkInfo {
  uptime : Z; loads : Z * Z * Z;
  totalram : Z; freeram : Z; sharedram : Z; bufferram : Z; totalswap : Z; freeswap : Z;
  procs : Z; totalhigh : Z; freehigh : Z; mem_unit : Z
}.

#[global] Instance sysinfo_eq_dec : EqDecision sysinfo.
Proof. solve_decision. Defined.

(** The eight amounts of memory, through a function. *)
Definition map_memory (f : Z → Z) (unit : Z) (i : sysinfo) : sysinfo :=
  mkInfo (uptime i) (loads i) (f (totalram i)) (f (freeram i)) (f (sharedram i)) (f (bufferram i))
    (f (totalswap i)) (f (freeswap i)) (procs i) (f (totalhigh i)) (f (freehigh i)) unit.

(** Outside sys.c: the clock, the load averages, the number of threads, and the
    functions that fill in memory and swap space. *)
Class Statistics := {
  monotonic_boottime : Z * Z;
  avenrun : Z * Z * Z;
  nr_threads : Z;
  si_meminfo : sysinfo → sysinfo;
  si_swapinfo : sysinfo → sysinfo
}.

(** The [while] loop that counts the bits of [mem_unit]; [None] is [goto out]. *)
Fixpoint unit_bits (fuel : nat) (mem_unit mem_total bitcount : Z) : res (option Z) :=
  match fuel with
  | O => OutOfFuel
  | S fuel =>
    if 1 <? mem_unit then
      let sav_total := mem_total in
      let mem_total := u64 (Z.shiftl mem_total 1) in
      if mem_total <? sav_total then Ok None
      else unit_bits fuel (Z.shiftr mem_unit 1) mem_total (bitcount + 1)
    else Ok (Some bitcount)
  end.

(** From [mem_total = ...] on: amounts in bytes when they fit. *)
Definition scale_to_bytes (info : sysinfo) : res sysinfo :=
  let mem_total := u64 (totalram info + totalswap info) in
  if (mem_total <? totalram info) || (mem_total <? totalswap info) then Ok info
  else
    bits ← unit_bits 33 (mem_unit info) mem_total 0;
    match bits with
    | None => Ok info
    | Some bitcount => Ok (map_memory (λ x, u64 (Z.shiftl x bitcount)) 1 info)
    end.

Definition PAGE_SIZE : Z := 4096.

(** The loop of the compat call: the bits up to a unit of one page. *)
Fixpoint page_bits (fuel : nat) (mem_unit bitcount : Z) : res (Z * Z) :=
  match fuel with
  | O => OutOfFuel
  | S fuel =>
    if mem_unit <? PAGE_SIZE then page_bits fuel (u32 (Z.shiftl mem_unit 1)) (bitcount + 1)
    else Ok (mem_unit, bitcount)
  end.

Definition upper_32_bits (x : Z) : Z := Z.shiftr x 32.

Definition scale_to_pages (s : sysinfo) : res sysinfo :=
  if negb (upper_32_bits (totalram s) =? 0) || negb (upper_32_bits (totalswap s) =? 0) then
    '(unit, bitcount) ← page_bits 13 (mem_unit s) 0;
    Ok (map_memory (λ x, Z.shiftr x bitcount) unit s)
  else Ok s.

(** The values that are stored, in the widths of [struct compat_sysinfo]. *)
Definition compat_values (s : sysinfo) : list Z :=
  let '(l0, l1, l2) := loads s in
  [s32 (uptime s); u32 l0; u32 l1; u32 l2; u32 (totalram s); u32 (freeram s); u32 (sharedram s);
   u32 (bufferram s); u32 (totalswap s); u32 (freeswap s); u16 (procs s); u32 (totalhigh s);
   u32 (freehigh s); u32 (mem_unit s)].

Section calls.
Context `{Statistics}.

Definition empty_info : sysinfo := mkInfo 0 (0, 0, 0) 0 0 0 0 0 0 0 0 0 0.

(** The structure before the amounts are scaled. *)
Definition raw_info : sysinfo :=
  let '(sec, nsec) := monotonic_boottime in
  let info := empty_info in
  let info := mkInfo (sec + (if nsec =? 0 then 0 else 1)) avenrun (totalram info) (freeram info)
    (sharedram info) (bufferram info) (totalswap info) (freeswap info) (u16 nr_threads) (totalhigh info)
    (freehigh info) (mem_unit info) in
  si_swapinfo (si_meminfo info).

Definition do_sysinfo : res sysinfo := scale_to_bytes raw_info.

(** [writable]: can the structure be stored at the user's pointer? *)
Definition sys_sysinfo (writable : bool) : res (Z * option sysinfo) :=
  val ← do_sysinfo;
  Ok (if writable then (0, Some val) else (- EFAULT, None)).

(** [access] is the answer of [access_ok], [puts] how many of the fourteen
    [__put_user] succeed; the result has what they stored. *)
Definition compat_sysinfo (access : bool) (puts : nat) : res (Z * list Z) :=
  s ← do_sysinfo;
  s ← scale_to_pages s;
  let values := compat_values s in
  Ok (if negb access then (- EFAULT, [])
      else if (puts <? length values)%nat then (- EFAULT, take puts values)
      else (0, values)).
End calls.

(** ** Amounts are kept *)

(** The amounts of memory of a structure. *)
Definition amounts (i : sysinfo) : list Z :=
  [totalram i; freeram i; sharedram i; bufferram i; totalswap i; freeswap i; totalhigh i; freehigh i].

(** The totals fit 64 bits, and no amount is more than the larger of ram and swap space. *)
Record info_ok (i : sysinfo) : Prop := {
  io_range : Forall (λ x, 0 <= x <= Z.max (totalram i) (totalswap i)) (amounts i);
  io_u64 : totalram i < 2 ^ 64 ∧ totalswap i < 2 ^ 64;
  io_unit : 0 < mem_unit i < 2 ^ 32
}.

(** The loop counts the bits, or finds that the total does not fit. *)
Lemma unit_bits_spec fuel unit total bits :
  0 < unit < 2 ^ Z.of_nat fuel → 0 <= total < 2 ^ 64 →
  unit_bits fuel unit total bits =
    Ok (if total * 2 ^ Z.log2 unit <? 2 ^ 64 then Some (bits + Z.log2 unit) else None).
Proof.
  revert unit total bits. induction fuel as [|fuel IH]; intros unit total bits Hu Ht.
  { change (2 ^ Z.of_nat 0) with 1 in Hu. lia. }
  cbn [unit_bits]. destruct (Z.ltb_spec 1 unit) as [H1|H1].
  2:{ assert (unit = 1) as -> by lia. change (Z.log2 1) with 0. rewrite Z.pow_0_r, Z.mul_1_r, Z.add_0_r.
      by rewrite (proj2 (Z.ltb_lt _ _)) by lia. }
  rewrite Nat2Z.inj_succ, Z.pow_succ_r in Hu by lia.
  assert (Hhalf : 0 < Z.shiftr unit 1 < 2 ^ Z.of_nat fuel).
  { rewrite Z.shiftr_div_pow2 by lia. change (2 ^ 1) with 2. split.
    - apply Z.div_str_pos. lia.
    - apply Z.div_lt_upper_bound; lia. }
  assert (Hlog : Z.log2 unit = Z.log2 (Z.shiftr unit 1) + 1).
  { rewrite Z.log2_shiftr by lia. pose proof (Z.log2_pos unit H1). lia. }
  rewrite Z.shiftl_mul_pow2 by lia. change (2 ^ 1) with 2.
  pose proof (Z.log2_nonneg (Z.shiftr unit 1)) as Hl0.
  pose proof (Z.pow_pos_nonneg 2 (Z.log2 (Z.shiftr unit 1)) ltac:(lia) Hl0) as Hpow.
  rewrite Hlog, Z.pow_add_r, Z.pow_1_r by lia.
  unfold u64. destruct (Z.le_gt_cases (2 ^ 64) (total * 2)) as [Hbig|Hfit].
  - assert (E : (total * 2) mod 2 ^ 64 = total * 2 - 2 ^ 64).
    { symmetry. apply (Z.mod_unique_pos _ _ 1); lia. }
    rewrite E. destruct (Z.ltb_spec (total * 2 - 2 ^ 64) total); [|lia].
    by rewrite (proj2 (Z.ltb_ge _ _)) by nia.
  - rewrite Z.mod_small by lia. destruct (Z.ltb_spec (total * 2) total); [lia|].
    rewrite IH by lia.
    replace (total * (2 ^ Z.log2 (Z.shiftr unit 1) * 2)) with (total * 2 * 2 ^ Z.log2 (Z.shiftr unit 1)) by lia.
    do 2 f_equal. by case_goal; f_equal; lia.
Qed.

(** Do all amounts fit 64 bits when they are counted in bytes? *)
Definition fits (i : sysinfo) : bool := (totalram i + totalswap i) * 2 ^ Z.log2 (mem_unit i) <? 2 ^ 64.

Lemma scale_to_bytes_spec i :
  info_ok i →
  scale_to_bytes i = Ok (if fits i then map_memory (λ x, x * 2 ^ Z.log2 (mem_unit i)) 1 i else i).
Proof.
  intros [Hr Hu Hunit]. unfold scale_to_bytes, fits.
  assert (H0 : 0 <= totalram i ∧ 0 <= totalswap i).
  { unfold amounts in Hr. rewrite !Forall_cons in Hr. lia. }
  pose proof (Z.log2_nonneg (mem_unit i)) as Hl.
  pose proof (Z.pow_pos_nonneg 2 (Z.log2 (mem_unit i)) ltac:(lia) Hl) as Hp.
  destruct (Z.le_gt_cases (2 ^ 64) (totalram i + totalswap i)) as [Hbig|Hfit].
  - assert (E : u64 (totalram i + totalswap i) = totalram i + totalswap i - 2 ^ 64).
    { symmetry. apply (Z.mod_unique_pos _ _ 1); lia. }
    rewrite E. rewrite (proj2 (Z.ltb_ge ((totalram i + totalswap i) * _) _)) by nia.
    case_goal; [done|lia].
  - rewrite (u64_small (totalram i + totalswap i)) by lia.
    case_goal; [lia|]. rewrite unit_bits_spec by (change (2 ^ Z.of_nat 33) with (2 * 2 ^ 32); lia). cbn [mbind res_bind].
    destruct (Z.ltb_spec ((totalram i + totalswap i) * 2 ^ Z.log2 (mem_unit i)) (2 ^ 64)) as [Hlt|]; [|done].
    f_equal. rewrite Z.add_0_l. unfold amounts in Hr. rewrite !Forall_cons in Hr.
    destruct i as [up lo a b c d e f p g h un]. cbn [totalram freeram sharedram bufferram totalswap freeswap totalhigh freehigh mem_unit] in *.
    unfold map_memory. cbn.
    assert (Hs : ∀ x, 0 <= x <= a + e → u64 (Z.shiftl x (Z.log2 un)) = x * 2 ^ Z.log2 un).
    { intros x Hx. rewrite Z.shiftl_mul_pow2 by done. apply u64_small.
      assert (x * 2 ^ Z.log2 un <= (a + e) * 2 ^ Z.log2 un) by nia. lia. }
    rewrite !Hs by lia. done.
Qed.

Section theorems.
Context `{Statistics}.

(** C40: [do_sysinfo] changes the unit and never the amounts. For a unit that is
    a power of two, every amount times its unit is what it was, the unit is one
    byte whenever ram and swap space together are less than 2^64 bytes, and the
    rest of the structure is kept; the loop ends for every unit. *)
Theorem sysinfo_keeps_amounts k :
  info_ok raw_info → mem_unit raw_info = 2 ^ k → 0 <= k →
  ∃ info, do_sysinfo = Ok info ∧
    Forall2 (λ x y, y * mem_unit info = x * mem_unit raw_info ∧ 0 <= y < 2 ^ 64) (amounts raw_info) (amounts info) ∧
    ((totalram raw_info + totalswap raw_info) * mem_unit raw_info < 2 ^ 64 → mem_unit info = 1) ∧
    uptime info = uptime raw_info ∧ loads info = loads raw_info ∧ procs info = procs raw_info.
Proof.
  intros Hok Hk H0k. unfold do_sysinfo. rewrite scale_to_bytes_spec by done. unfold fits.
  rewrite Hk, Z.log2_pow2 by done. pose proof (Z.pow_pos_nonneg 2 k ltac:(lia) H0k) as Hp.
  destruct Hok as [Hr Hu _]. revert Hr Hu Hk. generalize raw_info. intros i Hr Hu Hk.
  assert (H0 : 0 <= totalram i ∧ 0 <= totalswap i) by (unfold amounts in Hr; rewrite !Forall_cons in Hr; lia).
  destruct (Z.ltb_spec ((totalram i + totalswap i) * 2 ^ k) (2 ^ 64)) as [Hlt|]; eexists; (split; [reflexivity|]).
  - split_and!; [|done..]. change (mem_unit (map_memory _ 1 i)) with 1.
    change (amounts (map_memory (λ x, x * 2 ^ k) 1 i)) with ((λ x, x * 2 ^ k) <$> amounts i).
    apply Forall2_fmap_r, Forall_Forall2_diag. eapply Forall_impl; [exact Hr|]. intros a Ha. cbv [compose] in *. split; [lia|].
    assert (a * 2 ^ k <= (totalram i + totalswap i) * 2 ^ k) by nia. nia.
  - split_and!; [|lia|done..]. apply Forall_Forall2_diag. eapply Forall_impl; [exact Hr|]. intros a Ha. cbv beta in *. rewrite Hk. split; [done|lia].
Qed.

(** *** The 32-bit call *)

(** What fits 32 bits is stored as it is. *)
Definition exact_values (s : sysinfo) : list Z :=
  let '(l0, l1, l2) := loads s in
  [s32 (uptime s); u32 l0; u32 l1; u32 l2; totalram s; freeram s; sharedram s; bufferram s; totalswap s;
   freeswap s; u16 (procs s); totalhigh s; freehigh s; mem_unit s].

Lemma compat_values_exact s :
  Forall (λ y, 0 <= y < 2 ^ 32) (amounts s) → 0 <= mem_unit s < 2 ^ 32 → compat_values s = exact_values s.
Proof.
  unfold amounts. rewrite !Forall_cons. intros H1 H2. unfold compat_values, exact_values.
  destruct (loads s) as [[l0 l1] l2]. rewrite !(u32_small (totalram s)), !(u32_small (freeram s)),
    !(u32_small (sharedram s)), !(u32_small (bufferram s)), !(u32_small (totalswap s)), !(u32_small (freeswap s)),
    !(u32_small (totalhigh s)), !(u32_small (freehigh s)), !(u32_small (mem_unit s)) by lia. done.
Qed.

Lemma scale_to_pages_spec i :
  Forall (λ x, 0 <= x <= Z.max (totalram i) (totalswap i)) (amounts i) → mem_unit i = 1 →
  totalram i < 2 ^ 44 → totalswap i < 2 ^ 44 →
  ∃ s, scale_to_pages i = Ok s ∧
    Forall2 (λ x y, y * mem_unit s <= x < (y + 1) * mem_unit s ∧ 0 <= y < 2 ^ 32) (amounts i) (amounts s) ∧
    (mem_unit s = 1 ∨ mem_unit s = 4096).
Proof.
  intros Hr Hu Hram Hswap. unfold scale_to_pages, upper_32_bits.
  assert (H0 : 0 <= totalram i ∧ 0 <= totalswap i) by (unfold amounts in Hr; rewrite !Forall_cons in Hr; lia).
  rewrite !Z.shiftr_div_pow2 by lia. case_goal.
  - rewrite Hu. change (page_bits 13 1 0) with (Ok (4096, 12)). cbn [mbind res_bind].
    eexists. split; [reflexivity|]. split; [|by right]. change (mem_unit (map_memory _ 4096 i)) with 4096.
    change (amounts (map_memory (λ x, Z.shiftr x 12) 4096 i)) with ((λ x, Z.shiftr x 12) <$> amounts i).
    apply Forall2_fmap_r, Forall_Forall2_diag. eapply Forall_impl; [exact Hr|]. intros a Ha. cbv beta in *.
    cbv [compose].     rewrite Z.shiftr_div_pow2 by lia. change (2 ^ 12) with 4096.
    pose proof (Z.div_mod a 4096 ltac:(lia)). pose proof (Z.mod_pos_bound a 4096 ltac:(lia)).
    split; [lia|]. split; [apply Z.div_pos; lia|]. apply Z.div_lt_upper_bound; lia.
  - exists i. split; [done|]. split; [|by left]. apply Forall_Forall2_diag.
    eapply Forall_impl; [exact Hr|]. intros a Ha. cbv beta in *. rewrite Hu. split; [lia|].
    assert (Hz : ∀ x, x / 2 ^ 32 = 0 → x < 2 ^ 32).
    { intros x Hx. pose proof (Z.div_mod x (2 ^ 32) ltac:(lia)). pose proof (Z.mod_pos_bound x (2 ^ 32) ltac:(lia)). lia. }
    pose proof (Hz (totalram i)). pose proof (Hz (totalswap i)). lia.
Qed.

(** With less than 2^44 bytes of ram and of swap space, the call for 32-bit programs
    returns 0 when it can store its result, and stores every amount rounded down
    to its unit, one byte or one page, without loss in 32 bits. *)
Theorem compat_sysinfo_rounds k :
  info_ok raw_info → mem_unit raw_info = 2 ^ k → 0 <= k →
  totalram raw_info * mem_unit raw_info < 2 ^ 44 → totalswap raw_info * mem_unit raw_info < 2 ^ 44 →
  ∃ s, compat_sysinfo true 14 = Ok (0, exact_values s) ∧
    Forall2 (λ x y, y * mem_unit s <= x * mem_unit raw_info < (y + 1) * mem_unit s ∧ 0 <= y < 2 ^ 32)
      (amounts raw_info) (amounts s) ∧
    (mem_unit s = 1 ∨ mem_unit s = 4096).
Proof.
  intros Hok Hk H0k Hram Hswap. unfold compat_sysinfo, do_sysinfo. rewrite scale_to_bytes_spec by done. unfold fits.
  rewrite Hk, Z.log2_pow2 in * by done. pose proof (Z.pow_pos_nonneg 2 k ltac:(lia) H0k) as Hp.
  destruct Hok as [Hr _ _]. revert Hr Hram Hswap. generalize raw_info. intros i Hr Hram Hswap.
  rewrite (proj2 (Z.ltb_lt _ _)) by nia. cbn [mbind res_bind]. set (j := map_memory (λ x, x * 2 ^ k) 1 i).
  assert (Hj : amounts j = (λ x, x * 2 ^ k) <$> amounts i) by done.
  assert (Hjr : Forall (λ x, 0 <= x <= Z.max (totalram j) (totalswap j)) (amounts j)).
  { rewrite Hj. apply Forall_fmap. eapply Forall_impl; [exact Hr|]. intros a Ha.
    cbv beta in Ha. cbv [compose]. unfold j, map_memory. cbn [totalram totalswap]. rewrite Z.mul_max_distr_nonneg_r by lia.
    split; [nia|apply Z.mul_le_mono_nonneg_r; lia]. }
  destruct (scale_to_pages_spec j Hjr eq_refl Hram Hswap) as (s & -> & Hs & Hun). cbn [mbind res_bind].
  exists s. split_and!; [|by rewrite Hj in Hs; apply Forall2_fmap_l in Hs|done].
  rewrite compat_values_exact; [|by eapply Forall2_Forall_r; [exact Hs|apply Forall_true; intros ? ? []]|lia].
  unfold exact_values. destruct (loads s) as [[l0 l1] l2]. done.
Qed.

(** Beyond that, a page is still the largest unit, and what does not fit 32 bits is cut. *)
Lemma compat_values_cut s : compat_values s !! 4%nat = Some (totalram s mod 2 ^ 32).
Proof. unfold compat_values. by destruct (loads s) as [[? ?] ?]. Qed.

(** A unit of zero would never reach a page. *)
Lemma page_bits_zero fuel bits : page_bits fuel 0 bits = OutOfFuel.
Proof. revert bits. induction fuel as [|fuel IH]; intros bits; [done|]. cbn [page_bits]. apply IH. Qed.
End theorems.

(** ** A concrete machine: 8 GiB of ram in pages, 16 GiB of swap space *)

Definition demo_statistics : Statistics := {|
  monotonic_boottime := (100, 5); avenrun := (1, 2, 3); nr_threads := 200;
  si_meminfo := λ i, mkInfo (uptime i) (loads i) 2097152 1000001 50000 60000 (totalswap i) (freeswap i) (procs i) 0 0 4096;
  si_swapinfo := λ i, mkInfo (uptime i) (loads i) (totalram i) (freeram i) (sharedram i) (bufferram i) 4194304 4194303
    (procs i) (totalhigh i) (freehigh i) (mem_unit i)
|}.
#[local] Existing Instance demo_statistics.

Lemma demo_info_ok : info_ok raw_info.
Proof.
  split; [|cbn; lia|cbn; lia]. unfold amounts. repeat apply Forall_cons_2; [cbn; lia..|apply Forall_nil_2].
Qed.

Lemma sysinfo_keeps_amounts_witness : ∃ info, do_sysinfo = Ok info ∧ mem_unit info = 1.
Proof.
  destruct (sysinfo_keeps_amounts 12 demo_info_ok eq_refl ltac:(lia)) as (info & E & _ & H & _).
  exists info. split; [exact E|]. apply H. vm_compute. reflexivity.
Defined.

Lemma compat_sysinfo_rounds_witness : ∃ s, compat_sysinfo true 14 = Ok (0, exact_values s).
Proof.
  destruct (compat_sysinfo_rounds 12 demo_info_ok eq_refl ltac:(lia)) as (s & E & _).
  - vm_compute. reflexivity.
  - vm_compute. reflexivity.
  - exists s. exact E.
Defined.
