(* ===== verification/Usage.v ===== *)
(** * What a process is and uses

    getpid to getegid's neighbours getpid, gettid and getppid, do_sys_times,
    times, accumulate_thread_rusage, k_getrusage, getrusage with its compat
    variant, umask and getcpu of lab2/lab2.1/linux/sys.c. *)

From Stdlib Require Import Lia.
From stdpp Require Import base numbers option list.
From S2P Require Import Prelude Linux.
Local Open Scope Z_scope.

(** ** State *)

(** The counters that a thread, a thread group's dead threads, and its reaped
    children have; all are unsigned longs. *)
Record counts := mkCounts {
  nvcsw : Z; nivcsw : Z; min_flt : Z; maj_flt : Z; inblock : Z; oublock : Z
}.

#[global] Instance counts_eq_dec : EqDecision counts.
Proof. solve_decision. Defined.

(** [struct signal_struct]. *)
Record signal := mkSignal {
  sg_counts : counts; sg_maxrss : Z;
  sg_cutime : Z; sg_cstime : Z; sg_ccounts : counts; sg_cmaxrss : Z
}.

(** A process: the counters of its threads from the one asked for on, in the
    order of [while_each_thread]; the times of that thread and of the whole
    group; [None] for [mm] is a kernel thread; without [sighand] it is exiting. *)
Record process := mkProcess {
  pc_tgid : Z; pc_pid : Z; pc_ppid : Z;
  pc_threads : list counts;
  pc_time : Z * Z; pc_group_time : Z * Z;
  pc_signal : signal; pc_mm : option Z; pc_sighand : bool; pc_umask : Z
}.

(** [struct rusage]; the unused fields stay zero. *)
Record rusage := mkRusage { ru_utime : Z * Z; ru_stime : Z * Z; ru_maxrss : Z; ru_counts : counts }.

#[global] Instance rusage_eq_dec : EqDecision rusage.
Proof. solve_decision. Defined.

Definition RUSAGE_SELF : Z := 0.
Definition RUSAGE_CHILDREN : Z := -1.
Definition RUSAGE_BOTH : Z := -2.
Definition RUSAGE_THREAD : Z := 1.

(** Outside sys.c: conversions of times, the clock, the number of a task in its
    namespace, [setmax_mm_hiwater_rss], the processor and its node. *)
Class Clock := {
  cputime_to_timeval : Z → Z * Z;
  cputime_to_clock_t : Z → Z;
  jiffies_clock : Z;
  task_vnr : Z → Z;
  setmax_mm_hiwater_rss : Z → Z → Z;
  smp_processor_id : Z;
  cpu_to_node : Z → Z
}.

Section calls.
Context `{Clock}.

(** ** Numbers of the process *)

Definition getpid (p : process) : Z := task_vnr (pc_tgid p).
Definition gettid (p : process) : Z := task_vnr (pc_pid p).
Definition getppid (p : process) : Z := task_vnr (pc_ppid p).

(** ** Times *)

(** [tms_utime], [tms_stime], [tms_cutime], [tms_cstime]. *)
Definition do_sys_times (p : process) : list Z :=
  let '(tgutime, tgstime) := pc_group_time p in
  cputime_to_clock_t <$> [tgutime; tgstime; sg_cutime (pc_signal p); sg_cstime (pc_signal p)].

(** [tbuf]: [None] is NULL, else whether it can be written. *)
Definition times (p : process) (tbuf : option bool) : Z * option (list Z) :=
  match tbuf with
  | None => (jiffies_clock, None)
  | Some false => (- EFAULT, None)
  | Some true => (jiffies_clock, Some (do_sys_times p))
  end.

(** ** Resource usage *)

Definition add_counts (a b : counts) : counts :=
  mkCounts (u64 (nvcsw a + nvcsw b)) (u64 (nivcsw a + nivcsw b)) (u64 (min_flt a + min_flt b))
    (u64 (maj_flt a + maj_flt b)) (u64 (inblock a + inblock b)) (u64 (oublock a + oublock b)).

Definition no_counts : counts := mkCounts 0 0 0 0 0 0.

Definition accumulate_thread_rusage (t r : counts) : counts := add_counts r t.

(** [utime], [stime], [maxrss] and the counters before the end of [k_getrusage]. *)
Record usage := mkUsage { us_utime : Z; us_stime : Z; us_maxrss : Z; us_counts : counts }.

(** The case RUSAGE_SELF, which the case RUSAGE_BOTH falls into. *)
Definition add_self (p : process) (u : usage) : usage :=
  let '(tgutime, tgstime) := pc_group_time p in
  let s := pc_signal p in
  mkUsage (u64 (us_utime u + tgutime)) (u64 (us_stime u + tgstime))
    (if us_maxrss u <? sg_maxrss s then sg_maxrss s else us_maxrss u)
    (foldl (λ r t, accumulate_thread_rusage t r) (add_counts (us_counts u) (sg_counts s)) (pc_threads p)).

Definition children_usage (p : process) : usage :=
  let s := pc_signal p in mkUsage (sg_cutime s) (sg_cstime s) (sg_cmaxrss s) (sg_ccounts s).

Definition no_usage : usage := mkUsage 0 0 0 no_counts.

(** [out:] to the end. *)
Definition finish (p : process) (who : Z) (u : usage) : rusage :=
  let maxrss :=
    if who =? RUSAGE_CHILDREN then us_maxrss u
    else match pc_mm p with Some mm => setmax_mm_hiwater_rss (us_maxrss u) mm | None => us_maxrss u end in
  mkRusage (cputime_to_timeval (us_utime u)) (cputime_to_timeval (us_stime u)) (u64 (maxrss * 4)) (us_counts u).

(** [current] is the calling thread, whose times RUSAGE_THREAD reports. *)
Definition k_getrusage (current p : process) (who : Z) : res rusage :=
  if who =? RUSAGE_THREAD then
    let '(utime, stime) := pc_time current in
    Ok (finish p who (mkUsage utime stime (sg_maxrss (pc_signal p))
      (match pc_threads p with t :: _ => accumulate_thread_rusage t no_counts | [] => no_counts end)))
  else if negb (pc_sighand p) then Ok (mkRusage (0, 0) (0, 0) 0 no_counts)
  else if who =? RUSAGE_BOTH then Ok (finish p who (add_self p (children_usage p)))
  else if who =? RUSAGE_CHILDREN then Ok (finish p who (children_usage p))
  else if who =? RUSAGE_SELF then Ok (finish p who (add_self p no_usage))
  else Undef KernelBug.

Definition getrusage (current p : process) (who : Z) (writable : bool) : res (Z * option rusage) :=
  r ← k_getrusage current p who;
  Ok (if writable then (0, Some r) else (- EFAULT, None)).

Definition sys_getrusage (current : process) (who : Z) (writable : bool) : res (Z * option rusage) :=
  if negb (who =? RUSAGE_SELF) && negb (who =? RUSAGE_CHILDREN) && negb (who =? RUSAGE_THREAD)
  then Ok (- EINVAL, None)
  else getrusage current current who writable.

(** [put_compat_rusage] is outside sys.c: its result and what it stores. *)
Definition compat_getrusage (put_compat_rusage : rusage → Z * option rusage) (current : process) (who : Z)
    : res (Z * option rusage) :=
  if negb (who =? RUSAGE_SELF) && negb (who =? RUSAGE_CHILDREN) && negb (who =? RUSAGE_THREAD)
  then Ok (- EINVAL, None)
  else r ← k_getrusage current current who; Ok (put_compat_rusage r).

(** ** The file mode mask *)

Definition S_IRWXUGO : Z := 511.

Definition set_umask (m : Z) (p : process) : process :=
  mkProcess (pc_tgid p) (pc_pid p) (pc_ppid p) (pc_threads p) (pc_time p) (pc_group_time p) (pc_signal p)
    (pc_mm p) (pc_sighand p) m.

Definition umask (p : process) (mask : Z) : Z * process :=
  (pc_umask p, set_umask (Z.land mask S_IRWXUGO) p).

(** ** The processor *)

(** [Some w]: a pointer that can be written or not; both are tried. *)
Definition getcpu (cpup nodep : option bool) : Z * option Z * option Z :=
  let put (ptr : option bool) (v : Z) : bool * option Z :=
    match ptr with
    | None => (true, None)
    | Some true => (true, Some v)
    | Some false => (false, None)
    end in
  let '(ok1, c) := put cpup smp_processor_id in
  let '(ok2, n) := put nodep (cpu_to_node smp_processor_id) in
  ((if ok1 && ok2 then 0 else - EFAULT), c, n).
End calls.

(** ** Sums *)

(** One of the six counters. *)
Definition counter (f : counts → Z) : Prop :=
  f no_counts = 0 ∧ ∀ a b, f (add_counts a b) = u64 (f a + f b).

Lemma counters : Forall counter [nvcsw; nivcsw; min_flt; maj_flt; inblock; oublock].
Proof. repeat apply Forall_cons_2; [by split..|apply Forall_nil_2]. Qed.

Definition total (f : counts → Z) (ts : list counts) : Z := foldr (λ t n, f t + n) 0 ts.

Lemma u64_add_l a b : u64 (u64 a + b) = u64 (a + b).
Proof. unfold u64. by rewrite Zplus_mod_idemp_l. Qed.

Lemma u64_add_r a b : u64 (a + u64 b) = u64 (a + b).
Proof. unfold u64. by rewrite Zplus_mod_idemp_r. Qed.

Lemma fold_threads f r ts :
  counter f → u64 (f r) = f r → f (foldl (λ r t, accumulate_thread_rusage t r) r ts) = u64 (f r + total f ts).
Proof.
  intros [_ Hf]. unfold accumulate_thread_rusage. revert r. induction ts as [|t ts IH]; intros r Hr; cbn [foldl total foldr].
  { by rewrite Z.add_0_r, Hr. }
  rewrite IH, Hf, u64_add_l; [f_equal; unfold total; lia|]. rewrite Hf. unfold u64. by rewrite Zmod_mod.
Qed.

Section theorems.
Context `{Clock}.

Lemma add_self_counts f p u :
  counter f → f (us_counts (add_self p u)) =
    u64 (f (us_counts u) + f (sg_counts (pc_signal p)) + total f (pc_threads p)).
Proof.
  intros Hf. unfold add_self. destruct (pc_group_time p) as [a b]. cbn [us_counts].
  rewrite fold_threads; [by rewrite (proj2 Hf), u64_add_l|done|rewrite (proj2 Hf); unfold u64; by rewrite Zmod_mod].
Qed.

Lemma sys_getrusage_returns p who w :
  ∃ r, sys_getrusage p who w = Ok r ∧
    (who ≠ RUSAGE_SELF → who ≠ RUSAGE_CHILDREN → who ≠ RUSAGE_THREAD → r = (- EINVAL, None)).
Proof.
  unfold sys_getrusage. case_goal; [by eexists|].
  assert (who = RUSAGE_SELF ∨ who = RUSAGE_CHILDREN ∨ who = RUSAGE_THREAD) as [->|[->| ->]]
    by (unfold RUSAGE_SELF, RUSAGE_CHILDREN, RUSAGE_THREAD in *; lia);
    unfold getrusage, k_getrusage; cbn [Z.eqb RUSAGE_SELF RUSAGE_CHILDREN RUSAGE_THREAD RUSAGE_BOTH];
    destruct (pc_sighand p), (pc_time p); cbn [negb mbind res_bind]; by eexists.
Qed.

(** [getrusage] returns for every argument: EINVAL unless it is one of the
    three that programs may ask for, so the BUG in [k_getrusage] is never
    reached. Of a process that is not exiting, every counter it reports for
    RUSAGE_SELF is that of the threads that have ended plus those of all
    threads, for RUSAGE_CHILDREN that of the reaped children, for RUSAGE_THREAD
    that of the calling thread, and the kernel's RUSAGE_BOTH is the sum of the
    first two, modulo 2^64. *)
Theorem getrusage_adds_up p :
  (∀ who w, ∃ r, sys_getrusage p who w = Ok r ∧
     (who ≠ RUSAGE_SELF → who ≠ RUSAGE_CHILDREN → who ≠ RUSAGE_THREAD → r = (- EINVAL, None))) ∧
  (pc_sighand p = true →
   ∃ self children both, k_getrusage p p RUSAGE_SELF = Ok self ∧ k_getrusage p p RUSAGE_CHILDREN = Ok children ∧
     k_getrusage p p RUSAGE_BOTH = Ok both ∧
     Forall (λ f, f (ru_counts self) = u64 (f (sg_counts (pc_signal p)) + total f (pc_threads p)) ∧
                  f (ru_counts children) = f (sg_ccounts (pc_signal p)) ∧
                  f (ru_counts both) = u64 (f (ru_counts self) + f (ru_counts children)))
       [nvcsw; nivcsw; min_flt; maj_flt; inblock; oublock]) ∧
  (∀ t ts, pc_threads p = t :: ts → ∃ r, k_getrusage p p RUSAGE_THREAD = Ok r ∧
     Forall (λ f, f (ru_counts r) = u64 (f t)) [nvcsw; nivcsw; min_flt; maj_flt; inblock; oublock]).
Proof.
  split_and!.
  - apply sys_getrusage_returns.
  - intros Hs. unfold k_getrusage. rewrite Hs. cbn [negb]. do 3 eexists. split_and!; [reflexivity..|].
    eapply Forall_impl; [exact counters|]. intros f Hf. cbn [finish ru_counts].
    rewrite !add_self_counts by done. unfold children_usage. cbn [us_counts no_usage]. rewrite (proj1 Hf).
    split_and!; [done|done|]. rewrite u64_add_l. f_equal. lia.
  - intros t ts Ht. unfold k_getrusage. rewrite Ht. destruct (pc_time p) as [ut st]. eexists. split; [reflexivity|].
    eapply Forall_impl; [exact counters|]. intros f [Hz Hf]. cbn [finish ru_counts us_counts].
    unfold accumulate_thread_rusage. by rewrite Hf, Hz.
Qed.

Lemma umask_range p mask : 0 <= pc_umask (umask p mask).2 <= S_IRWXUGO.
Proof.
  cbn [umask snd pc_umask set_umask].
  change (Z.land mask S_IRWXUGO) with (Z.land mask (Z.ones 9)). rewrite Z.land_ones by lia.
  pose proof (Z.mod_pos_bound mask (2 ^ 9) ltac:(lia)). unfold S_IRWXUGO. lia.
Qed.

(** [umask] returns the mask that was in force and sets its argument cut to
    the nine permission bits, so a mask is always between 0 and 0777, and two
    calls restore it. *)
Theorem umask_swaps p mask :
  0 <= pc_umask p <= S_IRWXUGO →
  let '(old, p') := umask p mask in
  old = pc_umask p ∧ 0 <= pc_umask p' <= S_IRWXUGO ∧ (∀ i, 0 <= i < 9 → Z.testbit (pc_umask p') i = Z.testbit mask i) ∧
  umask p' old = (pc_umask p', p).
Proof.
  intros Hm. unfold umask. cbn [pc_umask set_umask].
  assert (Hl : ∀ x, Z.land x S_IRWXUGO = x mod 2 ^ 9) by (intros; by apply (Z.land_ones x 9)).
  rewrite !Hl. unfold S_IRWXUGO in Hm. split; [done|split; [|split]].
  - unfold S_IRWXUGO. pose proof (Z.mod_pos_bound mask (2 ^ 9) ltac:(lia)). lia.
  - intros i Hi. apply Z.mod_pow2_bits_low. lia.
  - rewrite (Z.mod_small (pc_umask p)) by lia. f_equal. by destruct p.
Qed.
End theorems.

(** ** Concrete instances *)

Definition demo_clock : Clock := {|
  cputime_to_timeval := λ t, (t / 1000, t mod 1000); cputime_to_clock_t := λ t, t / 10; jiffies_clock := 12345;
  task_vnr := id; setmax_mm_hiwater_rss := Z.max; smp_processor_id := 1; cpu_to_node := λ _, 0
|}.
#[local] Existing Instance demo_clock.

Definition demo_process : process :=
  mkProcess 10 10 1 [mkCounts 1 2 3 4 5 6; mkCounts 10 20 30 40 50 60] (100, 50) (1500, 700)
    (mkSignal (mkCounts 7 7 7 7 7 7) 300 40 30 (mkCounts 5 5 5 5 5 5) 900) (Some 400) true 18.

Lemma getrusage_adds_up_witness :
  ∃ r, k_getrusage demo_process demo_process RUSAGE_SELF = Ok r ∧ nvcsw (ru_counts r) = 18.
Proof.
  destruct (getrusage_adds_up demo_process) as (_ & H & _).
  destruct (H eq_refl) as (self & children & both & E & _ & _ & Hall).
  exists self. split; [exact E|]. apply Forall_cons in Hall as [[Hn _] _]. rewrite Hn. reflexivity.
Defined.

Lemma umask_swaps_witness : umask (umask demo_process 4095).2 18 = (511, demo_process).
Proof.
  assert (Hm : 0 <= pc_umask demo_process <= S_IRWXUGO) by (cbn; unfold S_IRWXUGO; lia).
  exact (proj2 (proj2 (proj2 (umask_swaps demo_process 4095 Hm)))).
Defined.
