(* ===== verification/MmMap.v ===== *)
(** * The layout of a process's memory, as set by prctl

    prctl_set_mm_exe_file, validate_prctl_map, prctl_set_mm_map, prctl_set_auxv
    and prctl_set_mm of lab2/lab2.1/linux/sys.c, for a kernel with
    CONFIG_CHECKPOINT_RESTORE. *)

From Stdlib Require Import Lia.
From stdpp Require Import base numbers option list.
From S2P Require Import Prelude Bytes Linux.
Local Open Scope Z_scope.

(** ** State *)

(** An open file: its identity and path, and what the checks ask of it. *)
Record file := mkFile {
  f_id : Z; f_path : Z; f_isreg : bool; f_noexec : bool; f_exec_permission : Z
}.

(** The eleven addresses that [mm_struct] and [prctl_mm_map] share. *)
Record layout := mkLayout {
  start_code : Z; end_code : Z; start_data : Z; end_data : Z; start_brk : Z; brk : Z;
  start_stack : Z; arg_start : Z; arg_end : Z; env_start : Z; env_end : Z
}.

#[global] Instance file_eq_dec : EqDecision file.
Proof. solve_decision. Defined.
#[global] Instance layout_eq_dec : EqDecision layout.
Proof. solve_decision. Defined.

(** Of [mm_struct]: the layout, [saved_auxv] as bytes, the executable and
    whether it was changed before, the mapped areas (end and file), the flags for
    new mappings and the dumpable flag. *)
Record mm := mkMm {
  mm_layout : layout; saved_auxv : list Z; exe_file : option file; exe_file_changed : bool;
  mm_areas : list (Z * option Z); def_flags : Z; dumpable : Z
}.

Definition set_layout (l : layout) (m : mm) : mm :=
  mkMm l (saved_auxv m) (exe_file m) (exe_file_changed m) (mm_areas m) (def_flags m) (dumpable m).
Definition set_auxv (a : list Z) (m : mm) : mm :=
  mkMm (mm_layout m) a (exe_file m) (exe_file_changed m) (mm_areas m) (def_flags m) (dumpable m).
Definition set_exe (f : file) (m : mm) : mm :=
  mkMm (mm_layout m) (saved_auxv m) (Some f) true (mm_areas m) (def_flags m) (dumpable m).
Definition set_def_flags (d : Z) (m : mm) : mm :=
  mkMm (mm_layout m) (saved_auxv m) (exe_file m) (exe_file_changed m) (mm_areas m) d (dumpable m).
Definition set_dumpable (d : Z) (m : mm) : mm :=
  mkMm (mm_layout m) (saved_auxv m) (exe_file m) (exe_file_changed m) (mm_areas m) (def_flags m) d.

(** [struct prctl_mm_map], 104 bytes. *)
Record prctl_mm_map := mkMap { pm_layout : layout; pm_auxv : Z; pm_auxv_size : Z; pm_exe_fd : Z }.

Definition sizeof_prctl_mm_map : Z := 104.

Definition no_fd : Z := 4294967295.

(** Outside sys.c: the bounds of the address space, the length of the auxiliary
    vector in words, the test of the limit on data, the open files of the task,
    and its memory as far as the calls read it. *)
Class AddressSpace `{Linux, Platform} := {
  TASK_SIZE : Z;
  mmap_min_addr : Z;
  AT_VECTOR_SIZE : Z;
  AT_VECTOR_SIZE_ge : 2 <= AT_VECTOR_SIZE;
  check_data_rlimit : Z → Z → Z → Z → bool;
  fdget : Z → option file;
  (** The bytes at an address; [None] when [copy_from_user] faults. *)
  user_read : Z → Z → option (list Z);
  user_read_length addr n bytes : 0 <= n → user_read addr n = Some bytes → lenZ bytes = n;
  (** The structure at an address; [auxv_size] is unsigned. *)
  user_read_map : Z → option prctl_mm_map;
  user_read_map_unsigned addr p : user_read_map addr = Some p → 0 <= pm_auxv_size p;
  (** Can [put_user] store at the address? *)
  user_writable : Z → bool
}.

Section calls.
Context `{AddressSpace}.

(** [put_user] of [n] bytes: the result and what was stored. *)
Definition put_user (n : nat) (v addr : Z) : Z * option (list Z) :=
  if user_writable addr then (0, Some (le_bytes n v)) else (- EFAULT, None).

Definition sizeof_auxv : Z := 8 * AT_VECTOR_SIZE.

(** ** The executable *)

Definition prctl_set_mm_exe_file (m : mm) (fd : Z) : Z * mm :=
  match fdget fd with
  | None => (- EBADF, m)
  | Some exe =>
    if negb (f_isreg exe) || f_noexec exe then (- EACCES, m)
    else if negb (f_exec_permission exe =? 0) then (f_exec_permission exe, m)
    else
      let mapped := match exe_file m with
        | Some old => existsb (λ area, bool_decide (snd area = Some (f_path old))) (mm_areas m)
        | None => false
        end in
      if mapped then (- EBUSY, m)
      else if exe_file_changed m then (- EPERM, m)
      else (0, set_exe exe m)
  end.

(** ** The checks of a layout *)

Definition addresses (l : layout) : list Z :=
  [start_code l; end_code l; start_data l; end_data l; start_brk l; brk l; start_stack l;
   arg_start l; arg_end l; env_start l; env_end l].

Definition address_ok (val : Z) : bool := negb ((TASK_SIZE <=? val) || (val <? mmap_min_addr)).

(** The pairs of [__prctl_check_order]. *)
Definition ordered (l : layout) : bool :=
  (start_code l <? end_code l) && (start_data l <=? end_data l) && (start_brk l <=? brk l) &&
  (arg_start l <=? arg_end l) && (env_start l <=? env_end l).

Definition validate_prctl_map (cred : cred) (p : prctl_mm_map) : Z :=
  let l := pm_layout p in
  if negb (forallb address_ok (addresses l)) then - EINVAL
  else if negb (ordered l) then - EINVAL
  else if (start_brk l <=? end_data l) || (brk l <=? end_data l) then - EINVAL
  else if check_data_rlimit (brk l) (start_brk l) (end_data l) (start_data l) then - EINVAL
  else if negb (pm_auxv_size p =? 0) && ((pm_auxv p =? 0) || (sizeof_auxv <? pm_auxv_size p)) then - EINVAL
  else if negb (pm_exe_fd p =? no_fd) &&
          (negb (uid_eq (cr_uid cred) (make_kuid (cr_user_ns cred) 0)) ||
           negb (gid_eq (cr_gid cred) (make_kgid (cr_user_ns cred) 0))) then - EINVAL
  else 0.

(** ** Setting all of it *)

(** The last two words of a vector cleared. *)
Definition at_null (auxv : list Z) : list Z := splice (sizeof_auxv - 16) (replicate 16 0) auxv.

Definition PR_SET_MM_MAP : Z := 14.
Definition PR_SET_MM_MAP_SIZE : Z := 15.

Definition prctl_set_mm_map (cred : cred) (m : mm) (opt addr data_size : Z) : Z * mm * option (list Z) :=
  if opt =? PR_SET_MM_MAP_SIZE then
    let '(r, out) := put_user 4 sizeof_prctl_mm_map addr in (r, m, out)
  else if negb (data_size =? sizeof_prctl_mm_map) then (- EINVAL, m, None)
  else
    match user_read_map addr with
    | None => (- EFAULT, m, None)
    | Some p =>
      let error := validate_prctl_map cred p in
      if negb (error =? 0) then (error, m, None)
      else
        match (if pm_auxv_size p =? 0 then Some None
               else match user_read (pm_auxv p) (pm_auxv_size p) with
                    | None => None
                    | Some bytes =>
                      Some (Some (at_null (splice 0 bytes (replicate (Z.to_nat sizeof_auxv) 0))))
                    end) with
        | None => (- EFAULT, m, None)
        | Some user_auxv =>
          let '(error, m1) :=
            if pm_exe_fd p =? no_fd then (0, m) else prctl_set_mm_exe_file m (pm_exe_fd p) in
          if negb (error =? 0) then (error, m1, None)
          else
            let m2 := set_layout (pm_layout p) m1 in
            (0, match user_auxv with Some a => set_auxv a m2 | None => m2 end, None)
        end
    end.

(** The array on the stack is not initialised; its first [len] bytes are copied
    in, its last two words cleared, and its first [len] bytes copied out. *)
Definition prctl_set_auxv (m : mm) (addr len : Z) : Z * mm :=
  if sizeof_auxv <? len then (- EINVAL, m)
  else
    match user_read addr len with
    | None => (- EFAULT, m)
    | Some bytes =>
      let user_auxv := at_null (splice 0 bytes (uninit (Z.to_nat sizeof_auxv))) in
      (0, set_auxv (splice 0 (slice 0 len user_auxv) (saved_auxv m)) m)
    end.

(** ** Setting one address *)

Definition PR_SET_MM_START_CODE : Z := 1.
Definition PR_SET_MM_END_CODE : Z := 2.
Definition PR_SET_MM_START_DATA : Z := 3.
Definition PR_SET_MM_END_DATA : Z := 4.
Definition PR_SET_MM_START_STACK : Z := 5.
Definition PR_SET_MM_START_BRK : Z := 6.
Definition PR_SET_MM_BRK : Z := 7.
Definition PR_SET_MM_ARG_START : Z := 8.
Definition PR_SET_MM_ARG_END : Z := 9.
Definition PR_SET_MM_ENV_START : Z := 10.
Definition PR_SET_MM_ENV_END : Z := 11.
Definition PR_SET_MM_AUXV : Z := 12.
Definition PR_SET_MM_EXE_FILE : Z := 13.

(** The first [switch]; [None] is its default. *)
Definition set_address (opt addr : Z) (l : layout) : option layout :=
  let '(mkLayout sc ec sd ed sb b ss as_ ae es ee) := l in
  if opt =? PR_SET_MM_START_CODE then Some (mkLayout addr ec sd ed sb b ss as_ ae es ee)
  else if opt =? PR_SET_MM_END_CODE then Some (mkLayout sc addr sd ed sb b ss as_ ae es ee)
  else if opt =? PR_SET_MM_START_DATA then Some (mkLayout sc ec addr ed sb b ss as_ ae es ee)
  else if opt =? PR_SET_MM_END_DATA then Some (mkLayout sc ec sd addr sb b ss as_ ae es ee)
  else if opt =? PR_SET_MM_START_STACK then Some (mkLayout sc ec sd ed sb b addr as_ ae es ee)
  else if opt =? PR_SET_MM_START_BRK then Some (mkLayout sc ec sd ed addr b ss as_ ae es ee)
  else if opt =? PR_SET_MM_BRK then Some (mkLayout sc ec sd ed sb addr ss as_ ae es ee)
  else if opt =? PR_SET_MM_ARG_START then Some (mkLayout sc ec sd ed sb b ss addr ae es ee)
  else if opt =? PR_SET_MM_ARG_END then Some (mkLayout sc ec sd ed sb b ss as_ addr es ee)
  else if opt =? PR_SET_MM_ENV_START then Some (mkLayout sc ec sd ed sb b ss as_ ae addr ee)
  else if opt =? PR_SET_MM_ENV_END then Some (mkLayout sc ec sd ed sb b ss as_ ae es addr)
  else None.

(** The second [switch]: addresses that must lie in a mapped area. *)
Definition needs_area (opt : Z) : bool :=
  (opt =? PR_SET_MM_START_STACK) || (opt =? PR_SET_MM_ARG_START) || (opt =? PR_SET_MM_ARG_END) ||
  (opt =? PR_SET_MM_ENV_START) || (opt =? PR_SET_MM_ENV_END).

(** [find_vma]: is there an area that ends above the address? *)
Definition find_vma (m : mm) (addr : Z) : bool := existsb (λ area, addr <? fst area) (mm_areas m).

Definition prctl_set_mm (cred : cred) (m : mm) (opt addr arg4 arg5 : Z) : Z * mm * option (list Z) :=
  if negb (arg5 =? 0) ||
     (negb (arg4 =? 0) && negb (opt =? PR_SET_MM_AUXV) && negb (opt =? PR_SET_MM_MAP) &&
      negb (opt =? PR_SET_MM_MAP_SIZE)) then (- EINVAL, m, None)
  else if (opt =? PR_SET_MM_MAP) || (opt =? PR_SET_MM_MAP_SIZE) then prctl_set_mm_map cred m opt addr arg4
  else if negb (capable cred CAP_SYS_RESOURCE) then (- EPERM, m, None)
  else if opt =? PR_SET_MM_EXE_FILE then (prctl_set_mm_exe_file m (u32 addr), None)
  else if opt =? PR_SET_MM_AUXV then (prctl_set_auxv m addr arg4, None)
  else if (TASK_SIZE <=? addr) || (addr <? mmap_min_addr) then (- EINVAL, m, None)
  else
    let vma := find_vma m addr in
    match set_address opt addr (mm_layout m) with
    | None => (- EINVAL, m, None)
    | Some l =>
      let error := validate_prctl_map cred (mkMap l 0 0 no_fd) in
      if negb (error =? 0) then (error, m, None)
      else if needs_area opt && negb vma then (- EFAULT, m, None)
      else (0, set_layout l m, None)
    end.
End calls.

(** ** A well-formed memory description *)

Definition layout_ok `{AddressSpace} (l : layout) : bool :=
  forallb address_ok (addresses l) && ordered l && negb ((start_brk l <=? end_data l) || (brk l <=? end_data l)).

(** The auxiliary vector has its size and ends with two words AT_NULL. *)
Record auxv_ok `{AddressSpace} (a : list Z) : Prop := {
  ao_length : lenZ a = sizeof_auxv;
  ao_null i : sizeof_auxv - 16 <= i < sizeof_auxv → byte_at a i = 0
}.

Record mm_ok `{AddressSpace} (m : mm) : Prop := {
  mo_layout : layout_ok (mm_layout m) = true;
  mo_auxv : auxv_ok (saved_auxv m)
}.

(** A call of [prctl(PR_SET_MM, ...)]. *)
Record set_mm_call := SetMm { sm_cred : cred; sm_opt : Z; sm_addr : Z; sm_arg4 : Z; sm_arg5 : Z }.

Section theorems.
Context `{AddressSpace}.

Definition set_mm_step (m : mm) (c : set_mm_call) : mm :=
  (prctl_set_mm (sm_cred c) m (sm_opt c) (sm_addr c) (sm_arg4 c) (sm_arg5 c)).1.2.

Lemma validate_layout cred p : validate_prctl_map cred p = 0 → layout_ok (pm_layout p) = true.
Proof.
  unfold validate_prctl_map, layout_ok. cbv zeta.
  destruct (forallb address_ok _); cbn [negb]; [|done]. destruct (ordered _); cbn [negb]; [|done].
  by destruct ((start_brk _ <=? _) || _).
Qed.

(** *** The auxiliary vector *)

Lemma sizeof_auxv_ge : 16 <= sizeof_auxv.
Proof. unfold sizeof_auxv. pose proof AT_VECTOR_SIZE_ge. lia. Qed.

Lemma at_null_length a : lenZ a = sizeof_auxv → lenZ (at_null a) = sizeof_auxv.
Proof.
  intros Ha. pose proof sizeof_auxv_ge. unfold at_null.
  rewrite length_splice; [done|lia|]. rewrite length_replicate. lia.
Qed.

Lemma at_null_byte a i :
  lenZ a = sizeof_auxv → 0 <= i → byte_at (at_null a) i = if decide (sizeof_auxv - 16 <= i < sizeof_auxv) then 0 else byte_at a i.
Proof.
  intros Ha Hi. pose proof sizeof_auxv_ge. unfold at_null.
  rewrite byte_at_splice by (rewrite ?length_replicate; lia). rewrite length_replicate.
  replace (sizeof_auxv - 16 + Z.of_nat 16) with sizeof_auxv by lia. case_decide; [|done].
  unfold byte_at. by rewrite lookup_replicate_2 by lia.
Qed.

Lemma at_null_ok a : lenZ a = sizeof_auxv → auxv_ok (at_null a).
Proof.
  intros Ha. split; [by apply at_null_length|]. intros i Hi. pose proof sizeof_auxv_ge.
  by rewrite at_null_byte, decide_True by lia.
Qed.

Lemma length_fill bytes (a : list Z) :
  lenZ bytes <= lenZ a → lenZ (splice 0 bytes a) = lenZ a.
Proof. intros. rewrite length_splice by lia. done. Qed.

(** The first bytes of a vector that ends properly, over one that does. *)
Lemma head_auxv_ok a b len :
  auxv_ok a → auxv_ok b → 0 <= len <= sizeof_auxv → auxv_ok (splice 0 (slice 0 len a) b).
Proof.
  intros [La Na] [Lb Nb] Hl. assert (Hs : lenZ (slice 0 len a) = len) by (rewrite length_slice; lia).
  split; [by rewrite length_fill by lia|]. intros i Hi. pose proof sizeof_auxv_ge.
  rewrite byte_at_splice by lia. rewrite Hs. case_decide; [|by apply Nb].
  rewrite byte_at_slice by lia. apply Na. lia.
Qed.

(** *** What a call may do *)

(** The executable changes at most once. *)
Definition exe_kept (m m' : mm) : Prop :=
  exe_file_changed m = true → exe_file_changed m' = true ∧ exe_file m' = exe_file m.

Record mm_change (m m' : mm) : Prop := {
  mc_ok : mm_ok m → mm_ok m';
  mc_exe : exe_kept m m'
}.

Lemma mm_change_refl m : mm_change m m.
Proof. by split. Qed.

Lemma exe_file_cases m fd r m' :
  prctl_set_mm_exe_file m fd = (r, m') →
  (r ≠ 0 ∧ m' = m) ∨ (r = 0 ∧ exe_file_changed m = false ∧ ∃ f, fdget fd = Some f ∧ m' = set_exe f m).
Proof.
  unfold prctl_set_mm_exe_file. destruct (fdget fd) as [exe|]; [|intros [= <- <-]; by left].
  case_goal; [intros [= <- <-]; by left|].
  destruct (Z.eqb_spec (f_exec_permission exe) 0); cbn [negb]; [|intros [= <- <-]; by left].
  cbv zeta. case_goal; [intros [= <- <-]; by left|].
  destruct (exe_file_changed m); intros [= <- <-]; [by left|right]. eauto.
Qed.

Lemma exe_file_change m fd r m' : prctl_set_mm_exe_file m fd = (r, m') → mm_change m m'.
Proof.
  intros [[_ ->]|(_ & Hc & f & _ & ->)]%exe_file_cases; [apply mm_change_refl|].
  split; [by intros [? ?]|unfold exe_kept; congruence].
Qed.

Lemma set_auxv_cases m addr len r m' :
  0 <= len → prctl_set_auxv m addr len = (r, m') → (r ≠ 0 ∧ m' = m) ∨ (r = 0 ∧ mm_change m m').
Proof.
  intros Hlen. unfold prctl_set_auxv. destruct (Z.ltb_spec sizeof_auxv len); [intros [= <- <-]; by left|].
  destruct (user_read addr len) as [bytes|] eqn:E; [|intros [= <- <-]; by left].
  intros [= <- <-]. right. split; [done|]. apply user_read_length in E; [|done]. pose proof sizeof_auxv_ge.
  assert (Hu : lenZ (uninit (Z.to_nat sizeof_auxv)) = sizeof_auxv) by (rewrite length_uninit; lia).
  split; [|unfold exe_kept; done]. intros [Hl Ha]. split; [done|]. cbn [saved_auxv set_auxv].
  apply head_auxv_ok; [|done|lia]. apply at_null_ok. rewrite length_fill; lia.
Qed.

Lemma set_mm_map_cases cred m opt addr size r m' out :
  prctl_set_mm_map cred m opt addr size = (r, m', out) → (r ≠ 0 ∧ m' = m) ∨ (r = 0 ∧ mm_change m m').
Proof.
  unfold prctl_set_mm_map. case_goal.
  { destruct (put_user 4 _ addr) as [r0 o]. intros [= <- <- <-].
    destruct (decide (r0 = 0)); [right|left]; auto using mm_change_refl. }
  case_goal; [intros [= <- <- <-]; by left|].
  destruct (user_read_map addr) as [p|] eqn:Em; [|intros [= <- <- <-]; by left].
  destruct (Z.eqb_spec (validate_prctl_map cred p) 0) as [Hv|]; cbn [negb]; [|intros [= <- <- <-]; by left].
  destruct (if pm_auxv_size p =? 0 then _ else _) as [ua|] eqn:Eu; [|intros [= <- <- <-]; by left].
  destruct (if pm_exe_fd p =? no_fd then _ else _) as [err m1] eqn:Ee.
  assert (Hexe : (err ≠ 0 ∧ m1 = m) ∨ (err = 0 ∧ exe_kept m m1 ∧ mm_layout m1 = mm_layout m ∧ saved_auxv m1 = saved_auxv m)).
  { revert Ee. case_goal; [intros [= <- <-]; right; by split_and!|].
    intros [[? ->]|(-> & Hc & f & _ & ->)]%exe_file_cases; [by left|right].
    split_and!; try done. unfold exe_kept. congruence. }
  destruct (Z.eqb_spec err 0) as [->|Hne]; cbn [negb].
  2:{ intros [= <- <- <-]. left. destruct Hexe as [[_ ->]|[? _]]; done. }
  destruct Hexe as [[? _]|(_ & Hk & Hl & Ha)]; [done|]. intros [= <- <- <-]. right. split; [done|].
  assert (Hua : match ua with Some a => auxv_ok a | None => True end).
  { revert Eu. destruct (Z.eqb_spec (pm_auxv_size p) 0) as [_|Hs]; [by intros [= <-]|].
    destruct (user_read _ _) as [bytes|] eqn:Er; [|done]. intros [= <-]. apply at_null_ok.
    assert (Hlen : lenZ (replicate (Z.to_nat sizeof_auxv) 0) = sizeof_auxv).
    { rewrite length_replicate. pose proof sizeof_auxv_ge. lia. }
    rewrite length_fill; [done|]. rewrite Hlen. revert Hv Er. unfold validate_prctl_map. cbv zeta.
    do 4 (case_goal; [done|]). destruct (Z.eqb_spec (pm_auxv_size p) 0); [done|]. cbn [negb andb].
    destruct (pm_auxv p =? 0); cbn [orb]; [done|]. destruct (Z.ltb_spec sizeof_auxv (pm_auxv_size p)) as [|Hle]; [done|].
    intros _ Er. apply user_read_length in Er; [lia|by eapply user_read_map_unsigned]. }
  apply validate_layout in Hv. split.
  - intros [_ Hao]. destruct ua as [a|]; (split; cbn; [done|]); [done|by rewrite Ha].
  - destruct ua; unfold exe_kept in *; cbn; done.
Qed.

(** *** Addresses one by one *)

Lemma set_one_address cred m opt addr r m' out :
  (if (TASK_SIZE <=? addr) || (addr <? mmap_min_addr) then (- EINVAL, m, None)
   else
     match set_address opt addr (mm_layout m) with
     | None => (- EINVAL, m, None)
     | Some l =>
       if negb (validate_prctl_map cred (mkMap l 0 0 no_fd) =? 0) then (validate_prctl_map cred (mkMap l 0 0 no_fd), m, None)
       else if needs_area opt && negb (find_vma m addr) then (- EFAULT, m, None)
       else (0, set_layout l m, @None (list Z))
     end) = (r, m', out) → (r ≠ 0 ∧ m' = m) ∨ (r = 0 ∧ mm_change m m').
Proof.
  case_goal; [intros [= <- <- <-]; by left|].
  destruct (set_address _ _ _) as [l|]; [|intros [= <- <- <-]; by left].
  destruct (Z.eqb_spec (validate_prctl_map cred (mkMap l 0 0 no_fd)) 0) as [Hv|]; cbn [negb]; [|intros [= <- <- <-]; by left].
  case_goal; intros [= <- <- <-]; [by left|right]. split; [done|]. apply validate_layout in Hv.
  split; [by intros [_ ?]|done].
Qed.

Lemma prctl_set_mm_cases cred m opt addr arg4 arg5 r m' out :
  0 <= arg4 → prctl_set_mm cred m opt addr arg4 arg5 = (r, m', out) →
  (r ≠ 0 ∧ m' = m) ∨ (r = 0 ∧ mm_change m m').
Proof.
  intros H4. unfold prctl_set_mm. case_goal; [intros [= <- <- <-]; by left|].
  case_goal; [by apply set_mm_map_cases|]. case_goal; [intros [= <- <- <-]; by left|].
  case_goal.
  { destruct (prctl_set_mm_exe_file m (u32 addr)) as [r0 m0] eqn:E. intros [= <- <- <-].
    pose proof (exe_file_change _ _ _ _ E) as Hc.
    apply exe_file_cases in E as [[? ->]|(-> & _)]; [by left|by right]. }
  case_goal; [|apply set_one_address].
  destruct (prctl_set_auxv m addr arg4) as [r0 m0] eqn:E. intros [= <- <- <-]. by eapply set_auxv_cases.
Qed.

(** Whatever sequence of prctl(PR_SET_MM, ...) calls tasks with whatever
    credentials make, the description of the memory stays well formed: all eleven
    addresses lie in the address space, the pairs are ordered, the heap is behind
    the data, and the auxiliary vector ends with AT_NULL; once the executable has
    been changed it never changes again; and a call that fails changes nothing. *)
Theorem prctl_set_mm_keeps_ok m calls :
  Forall (λ c, 0 <= sm_arg4 c) calls →
  let m' := foldl set_mm_step m calls in
  (mm_ok m → mm_ok m') ∧ (exe_file_changed m = true → exe_file_changed m' = true ∧ exe_file m' = exe_file m) ∧
  Forall (λ c, (prctl_set_mm (sm_cred c) m (sm_opt c) (sm_addr c) (sm_arg4 c) (sm_arg5 c)).1.1 ≠ 0 →
    set_mm_step m c = m) calls.
Proof.
  intros Hcalls m'. split_and!.
  3:{ eapply Forall_impl; [exact Hcalls|]. intros c Hc. cbv beta. unfold set_mm_step.
      destruct (prctl_set_mm _ _ _ _ _ _) as [[r m1] out] eqn:E. apply prctl_set_mm_cases in E; [|done].
      cbn. intros Hr. by destruct E as [[_ ->]|[? _]]. }
  all: subst m'; revert m; induction Hcalls as [|c calls Hc _ IH]; intros m; [done|]; cbn [foldl].
  all: assert (Hch : mm_change m (set_mm_step m c));
    [ unfold set_mm_step; destruct (prctl_set_mm _ _ _ _ _ _) as [[r m1] out] eqn:E; cbn [fst snd];
      apply prctl_set_mm_cases in E as [[_ ->]|[_ Hch]]; [apply mm_change_refl|done|done] |].
  - intros Hm. by apply IH, Hch.
  - intros Hx. destruct Hch as [_ Hk]. destruct (Hk Hx) as [Hx1 <-]. by apply IH.
Qed.

(** *** One address, as documented

    The options 1 to 11 of PR_SET_MM each name an address of the layout. *)
Definition replaced (opt addr : Z) (l : layout) : layout := {|
  start_code := if opt =? 1 then addr else start_code l;
  end_code := if opt =? 2 then addr else end_code l;
  start_data := if opt =? 3 then addr else start_data l;
  end_data := if opt =? 4 then addr else end_data l;
  start_stack := if opt =? 5 then addr else start_stack l;
  start_brk := if opt =? 6 then addr else start_brk l;
  brk := if opt =? 7 then addr else brk l;
  arg_start := if opt =? 8 then addr else arg_start l;
  arg_end := if opt =? 9 then addr else arg_end l;
  env_start := if opt =? 10 then addr else env_start l;
  env_end := if opt =? 11 then addr else env_end l
|}.

Definition in_space (a : Z) : Prop := mmap_min_addr <= a < TASK_SIZE.

(** All addresses lie in the address space; code, data, heap, arguments and
    environment do not end before they start, the heap lies behind the data,
    and the limit on data is kept. *)
Definition valid (l : layout) : Prop :=
  (in_space (start_code l) ∧ in_space (end_code l) ∧ in_space (start_data l) ∧ in_space (end_data l) ∧
   in_space (start_brk l) ∧ in_space (brk l) ∧ in_space (start_stack l) ∧ in_space (arg_start l) ∧
   in_space (arg_end l) ∧ in_space (env_start l) ∧ in_space (env_end l)) ∧
  start_code l < end_code l ∧ start_data l <= end_data l ∧ end_data l < start_brk l <= brk l ∧
  arg_start l <= arg_end l ∧ env_start l <= env_end l ∧
  check_data_rlimit (brk l) (start_brk l) (end_data l) (start_data l) = false.

#[global] Instance valid_dec l : Decision (valid l).
Proof. unfold valid, in_space. apply _. Defined.

Lemma address_ok_iff a : address_ok a = true ↔ in_space a.
Proof. unfold address_ok, in_space. rewrite negb_true_iff, orb_false_iff. lia. Qed.

Lemma validate_valid cred l :
  validate_prctl_map cred (mkMap l 0 0 no_fd) = if decide (valid l) then 0 else - EINVAL.
Proof.
  assert (E : validate_prctl_map cred (mkMap l 0 0 no_fd) =
    if forallb address_ok (addresses l) && ordered l &&
       negb ((start_brk l <=? end_data l) || (brk l <=? end_data l)) &&
       negb (check_data_rlimit (brk l) (start_brk l) (end_data l) (start_data l)) then 0 else - EINVAL).
  { unfold validate_prctl_map. cbn [pm_layout pm_auxv pm_auxv_size pm_exe_fd].
    change (0 =? 0) with true. change (no_fd =? no_fd) with true. cbn [negb andb]. cbv zeta.
    destruct (forallb _ _); cbn [negb andb]; [|done]. destruct (ordered _); cbn [negb andb]; [|done].
    destruct (_ || _); cbn [negb andb]; [done|]. by destruct (check_data_rlimit _ _ _ _). }
  rewrite E. clear E. unfold addresses, ordered. cbn [forallb].
  case_decide as Hv; match goal with |- context [if ?b then _ else _] => destruct b eqn:Hc end; try done; exfalso.
  - revert Hc. apply not_false_iff_true. destruct Hv as ((? & ? & ? & ? & ? & ? & ? & ? & ? & ? & ?) & ? & ? & ? & ? & ? & ->).
    cbn [negb]. rewrite !andb_true_iff, negb_true_iff, orb_false_iff, !address_ok_iff. split_and!; (done || lia).
  - apply Hv. rewrite !andb_true_iff, !negb_true_iff, orb_false_iff, !address_ok_iff in Hc.
    unfold valid. split_and!; (tauto || lia).
Qed.

Lemma set_address_replaced opt addr l : 1 <= opt <= 11 → set_address opt addr l = Some (replaced opt addr l).
Proof.
  intros Ho. destruct l. assert (Hcases : opt ∈ seqZ 1 11) by (apply elem_of_seqZ; lia).
  cbn in Hcases. repeat (apply elem_of_cons in Hcases as [->|Hcases]; [reflexivity|]).
  by apply elem_of_nil in Hcases.
Qed.

Lemma replaced_valid opt addr l : 1 <= opt <= 11 → valid (replaced opt addr l) → in_space addr.
Proof.
  intros Ho [Hs _]. assert (Hcases : opt ∈ seqZ 1 11) by (apply elem_of_seqZ; lia).
  cbn in Hcases. repeat (apply elem_of_cons in Hcases as [->|Hcases]; [cbn in Hs; tauto|]).
  by apply elem_of_nil in Hcases.
Qed.

Lemma needs_area_iff opt : needs_area opt = bool_decide (opt ∈ [5; 8; 9; 10; 11]).
Proof.
  unfold needs_area. apply eq_bool_prop_intro. rewrite !orb_True, !Is_true_true, !Z.eqb_eq, bool_decide_eq_true.
  rewrite !elem_of_cons, elem_of_nil. unfold PR_SET_MM_START_STACK, PR_SET_MM_ARG_START, PR_SET_MM_ARG_END,
    PR_SET_MM_ENV_START, PR_SET_MM_ENV_END. tauto.
Qed.

(** C33: Setting one address is setting them all. Each of the options 1 to 11
    replaces one address; the new layout is taken when it is valid, the caller
    has CAP_SYS_RESOURCE and, for the stack, the arguments and the environment,
    there is an area that ends above the address, and nothing but the layout
    changes. PR_SET_MM_MAP with the same layout comes to the same, for any
    caller and without asking for an area. Every refusal leaves the memory as
    it is and says EPERM, EINVAL or EFAULT as stated. *)
Theorem one_address_is_whole_map cred m opt addr a :
  1 <= opt <= 11 →
  let l := replaced opt addr (mm_layout m) in
  let m' := mkMm l (saved_auxv m) (exe_file m) (exe_file_changed m) (mm_areas m) (def_flags m) (dumpable m) in
  prctl_set_mm cred m opt addr 0 0 =
    (if negb (capable cred CAP_SYS_RESOURCE) then (- EPERM, m, None)
     else if decide (valid l) then
       if bool_decide (opt ∈ [5; 8; 9; 10; 11]) && negb (bool_decide (Exists (λ area, addr < fst area) (mm_areas m)))
       then (- EFAULT, m, None) else (0, m', None)
     else (- EINVAL, m, None)) ∧
  (user_read_map a = Some (mkMap l 0 0 no_fd) →
   prctl_set_mm cred m PR_SET_MM_MAP a sizeof_prctl_mm_map 0 =
     if decide (valid l) then (0, m', None) else (- EINVAL, m, None)).
Proof.
  intros Ho l m'. split.
  - unfold prctl_set_mm, PR_SET_MM_MAP, PR_SET_MM_MAP_SIZE, PR_SET_MM_EXE_FILE, PR_SET_MM_AUXV.
    rewrite !(proj2 (Z.eqb_neq opt _)) by lia. cbn [Z.eqb negb orb andb].
    destruct (capable cred CAP_SYS_RESOURCE); cbn [negb]; [|done].
    rewrite set_address_replaced by done. cbv zeta. fold l. rewrite validate_valid, needs_area_iff.
    replace (find_vma m addr) with (bool_decide (Exists (λ area, addr < fst area) (mm_areas m))).
    2:{ unfold find_vma. apply eq_bool_prop_intro. rewrite bool_decide_spec, Is_true_true, existsb_exists, Exists_exists.
        split; intros (x & Hx & Hlt); exists x; (split; [by apply list_elem_of_In|lia]). }
    case_decide as Hv.
    + apply replaced_valid in Hv; [|done]. unfold in_space in Hv.
      rewrite (proj2 (Z.leb_gt _ _)), (proj2 (Z.ltb_ge _ _)) by lia. by cbn [orb Z.eqb negb].
    + by case_goal.
  - intros Ha. unfold prctl_set_mm. change (PR_SET_MM_MAP =? PR_SET_MM_MAP) with true.
    cbn [Z.eqb negb orb andb]. rewrite andb_false_r. cbn [andb]. unfold prctl_set_mm_map. rewrite Ha.
    change (PR_SET_MM_MAP =? PR_SET_MM_MAP_SIZE) with false. rewrite Z.eqb_refl. cbn [negb]. rewrite validate_valid.
    by case_decide.
Qed.
End theorems.

(** ** Concrete instances *)

#[local] Existing Instances demo_linux demo_platform.

Definition demo_layout : layout :=
  mkLayout 4194304 4259840 6291456 6295552 25165824 25300992 140737488347136 140737488347500 140737488347600
    140737488347600 140737488351000.

(** The layout with a larger heap, which the demo program has in its memory. *)
Definition demo_layout_brk : layout :=
  mkLayout 4194304 4259840 6291456 6295552 25165824 30000000 140737488347136 140737488347500 140737488347600
    140737488347600 140737488351000.

Program Definition demo_space : AddressSpace := {|
  TASK_SIZE := 140737488351232; mmap_min_addr := 65536; AT_VECTOR_SIZE := 46;
  check_data_rlimit := λ _ _ _ _, false;
  fdget := λ fd, if fd =? 3 then Some (mkFile 1 77 true false 0) else None;
  user_read := λ addr n, if addr =? 0 then None else Some (replicate (Z.to_nat n) 7);
  user_read_map := λ addr, if addr =? 0 then None else Some (mkMap demo_layout_brk 0 0 no_fd);
  user_writable := λ addr, negb (addr =? 0)
|}.
Next Obligation. lia. Qed.
Next Obligation. intros addr n bytes Hn. cbn. case_match; [done|]. intros [= <-]. rewrite length_replicate. lia. Qed.
Next Obligation. intros addr p. cbn. case_match; [done|]. by intros [= <-]. Qed.

#[local] Existing Instance demo_space.

Definition demo_mm : mm :=
  mkMm demo_layout (replicate 368 0) (Some (mkFile 0 50 true false 0)) false [(140737488351232, None)] 0 1.

Definition demo_root : cred := mkCred 0 0 0 0 0 0 0 0 (mkUser 0 0 1) 0 0.

Lemma demo_mm_ok : mm_ok demo_mm.
Proof.
  split; [vm_compute; reflexivity|]. split; [reflexivity|]. intros i Hi. unfold byte_at. cbn [saved_auxv demo_mm].
  change sizeof_auxv with 368 in Hi. by rewrite lookup_replicate_2 by lia.
Qed.

(** A heap that grows, a vector of which only the first bytes are given, an
    executable that is changed twice, and a layout that makes no sense. *)
Lemma prctl_set_mm_keeps_ok_witness :
  mm_ok (foldl set_mm_step demo_mm
    [SetMm demo_root PR_SET_MM_BRK 30000000 0 0; SetMm demo_root PR_SET_MM_AUXV 4096 360 0;
     SetMm demo_root PR_SET_MM_EXE_FILE 3 0 0; SetMm demo_root PR_SET_MM_EXE_FILE 3 0 0;
     SetMm demo_root PR_SET_MM_END_CODE 70000 0 0]).
Proof.
  apply (prctl_set_mm_keeps_ok demo_mm); [|exact demo_mm_ok].
  repeat apply Forall_cons_2; cbn; [lia..|apply Forall_nil_2].
Defined.

Lemma one_address_is_whole_map_witness :
  (prctl_set_mm demo_root demo_mm PR_SET_MM_BRK 30000000 0 0).1 = (0, set_layout demo_layout_brk demo_mm) ∧
  prctl_set_mm demo_root demo_mm PR_SET_MM_MAP 4096 104 0 = (0, set_layout demo_layout_brk demo_mm, None) ∧
  (prctl_set_mm demo_root demo_mm PR_SET_MM_ARG_START 140737488348000 0 0).1 = (- EINVAL, demo_mm).
Proof.
  assert (H1 : 1 <= 7 <= 11) by lia. assert (H2 : 1 <= 8 <= 11) by lia.
  destruct (one_address_is_whole_map demo_root demo_mm 7 30000000 4096 H1) as [E1 E2].
  destruct (one_address_is_whole_map demo_root demo_mm 8 140737488348000 4096 H2) as [E3 _].
  split_and!.
  - change PR_SET_MM_BRK with 7. rewrite E1. vm_compute. reflexivity.
  - change 104 with sizeof_prctl_mm_map. rewrite E2 by reflexivity. vm_compute. reflexivity.
  - change PR_SET_MM_ARG_START with 8. rewrite E3. vm_compute. reflexivity.
Defined.
