(* ===== verification/Prctl.v ===== *)
(** * prctl

    prctl with prctl_get_tid_address, arch_prctl_spec_ctrl_get and
    arch_prctl_spec_ctrl_set of lab2/lab2.1/linux/sys.c. The options that
    describe the memory are in MmMap. *)

From Stdlib Require Import Lia.
From stdpp Require Import base numbers option list.
From S2P Require Import Prelude Bytes Linux MmMap.
Local Open Scope Z_scope.

(** ** State *)

(** Of [task_struct], [signal_struct] and the memory description: what the
    options read and write. [fatal_signal] tells whether the task is killed while
    it waits for a lock; [others] is the state of the options that other parts
    of the kernel handle. *)
Record task := mkTask {
  t_cred : cred; t_mm : mm; pdeath_signal : Z; comm : list Z;
  timer_slack_ns : Z; default_timer_slack_ns : Z; flags : Z;
  is_child_subreaper : bool; no_new_privs : bool; clear_child_tid : Z;
  fatal_signal : bool; others : Z
}.

Definition with_cred c (t : task) := mkTask c (t_mm t) (pdeath_signal t) (comm t) (timer_slack_ns t)
  (default_timer_slack_ns t) (flags t) (is_child_subreaper t) (no_new_privs t) (clear_child_tid t) (fatal_signal t) (others t).
Definition with_mm m (t : task) := mkTask (t_cred t) m (pdeath_signal t) (comm t) (timer_slack_ns t)
  (default_timer_slack_ns t) (flags t) (is_child_subreaper t) (no_new_privs t) (clear_child_tid t) (fatal_signal t) (others t).
Definition with_pdeath_signal v (t : task) := mkTask (t_cred t) (t_mm t) v (comm t) (timer_slack_ns t)
  (default_timer_slack_ns t) (flags t) (is_child_subreaper t) (no_new_privs t) (clear_child_tid t) (fatal_signal t) (others t).
Definition with_comm v (t : task) := mkTask (t_cred t) (t_mm t) (pdeath_signal t) v (timer_slack_ns t)
  (default_timer_slack_ns t) (flags t) (is_child_subreaper t) (no_new_privs t) (clear_child_tid t) (fatal_signal t) (others t).
Definition with_timer_slack v (t : task) := mkTask (t_cred t) (t_mm t) (pdeath_signal t) (comm t) v
  (default_timer_slack_ns t) (flags t) (is_child_subreaper t) (no_new_privs t) (clear_child_tid t) (fatal_signal t) (others t).
Definition with_flags v (t : task) := mkTask (t_cred t) (t_mm t) (pdeath_signal t) (comm t) (timer_slack_ns t)
  (default_timer_slack_ns t) v (is_child_subreaper t) (no_new_privs t) (clear_child_tid t) (fatal_signal t) (others t).
Definition with_subreaper v (t : task) := mkTask (t_cred t) (t_mm t) (pdeath_signal t) (comm t) (timer_slack_ns t)
  (default_timer_slack_ns t) (flags t) v (no_new_privs t) (clear_child_tid t) (fatal_signal t) (others t).
Definition task_set_no_new_privs (t : task) := mkTask (t_cred t) (t_mm t) (pdeath_signal t) (comm t) (timer_slack_ns t)
  (default_timer_slack_ns t) (flags t) (is_child_subreaper t) true (clear_child_tid t) (fatal_signal t) (others t).
Definition with_others v (t : task) := mkTask (t_cred t) (t_mm t) (pdeath_signal t) (comm t) (timer_slack_ns t)
  (default_timer_slack_ns t) (flags t) (is_child_subreaper t) (no_new_privs t) (clear_child_tid t) (fatal_signal t) v.

(** A call works on the current task and writes to the memory of its program:
    an address and the bytes stored there, in order. *)
Record pstate := mkPstate { me : task; written : list (Z * list Z) }.

(** ** Numbers *)

Definition PR_SET_PDEATHSIG : Z := 1.
Definition PR_GET_PDEATHSIG : Z := 2.
Definition PR_GET_DUMPABLE : Z := 3.
Definition PR_SET_DUMPABLE : Z := 4.
Definition PR_GET_UNALIGN : Z := 5.
Definition PR_SET_UNALIGN : Z := 6.
Definition PR_GET_FPEMU : Z := 9.
Definition PR_SET_FPEMU : Z := 10.
Definition PR_GET_FPEXC : Z := 11.
Definition PR_SET_FPEXC : Z := 12.
Definition PR_GET_TIMING : Z := 13.
Definition PR_SET_TIMING : Z := 14.
Definition PR_SET_NAME : Z := 15.
Definition PR_GET_NAME : Z := 16.
Definition PR_GET_ENDIAN : Z := 19.
Definition PR_SET_ENDIAN : Z := 20.
Definition PR_GET_SECCOMP : Z := 21.
Definition PR_SET_SECCOMP : Z := 22.
Definition PR_GET_TSC : Z := 25.
Definition PR_SET_TSC : Z := 26.
Definition PR_SET_TIMERSLACK : Z := 29.
Definition PR_GET_TIMERSLACK : Z := 30.
Definition PR_TASK_PERF_EVENTS_DISABLE : Z := 31.
Definition PR_TASK_PERF_EVENTS_ENABLE : Z := 32.
Definition PR_MCE_KILL : Z := 33.
Definition PR_MCE_KILL_GET : Z := 34.
Definition PR_SET_MM : Z := 35.
Definition PR_SET_CHILD_SUBREAPER : Z := 36.
Definition PR_GET_CHILD_SUBREAPER : Z := 37.
Definition PR_SET_NO_NEW_PRIVS : Z := 38.
Definition PR_GET_NO_NEW_PRIVS : Z := 39.
Definition PR_GET_TID_ADDRESS : Z := 40.
Definition PR_SET_THP_DISABLE : Z := 41.
Definition PR_GET_THP_DISABLE : Z := 42.
Definition PR_MPX_ENABLE_MANAGEMENT : Z := 43.
Definition PR_MPX_DISABLE_MANAGEMENT : Z := 44.
Definition PR_SET_FP_MODE : Z := 45.
Definition PR_GET_FP_MODE : Z := 46.
Definition PR_GET_SPECULATION_CTRL : Z := 52.
Definition PR_SET_SPECULATION_CTRL : Z := 53.

Definition SUID_DUMP_DISABLE : Z := 0.
Definition SUID_DUMP_USER : Z := 1.
Definition PR_TIMING_STATISTICAL : Z := 0.
Definition PR_MCE_KILL_CLEAR : Z := 0.
Definition PR_MCE_KILL_SET : Z := 1.
Definition PR_MCE_KILL_LATE : Z := 0.
Definition PR_MCE_KILL_EARLY : Z := 1.
Definition PR_MCE_KILL_DEFAULT : Z := 2.
Definition PF_MCE_PROCESS : Z := 128.
Definition PF_MCE_EARLY : Z := 134217728.
Definition VM_NOHUGEPAGE : Z := 1073741824.
Definition ULONG_MAX : Z := 18446744073709551615.
(** [sizeof(me->comm)]. *)
Definition TASK_COMM_LEN : Z := 16.

Definition s64 (x : Z) : Z := (x + 2 ^ 63) mod 2 ^ 64 - 2 ^ 63.

(** The macros that an architecture may define. *)
Inductive arch_call :=
  | SET_UNALIGN_CTL | GET_UNALIGN_CTL | SET_FPEMU_CTL | GET_FPEMU_CTL | SET_FPEXC_CTL | GET_FPEXC_CTL
  | GET_ENDIAN | SET_ENDIAN | GET_TSC_CTL | SET_TSC_CTL | MPX_ENABLE_MANAGEMENT | MPX_DISABLE_MANAGEMENT
  | GET_FP_MODE | SET_FP_MODE.

(** The functions of other parts of the kernel. *)
Inductive kernel_call :=
  | Prctl_get_seccomp | Prctl_set_seccomp | Perf_event_task_disable | Perf_event_task_enable.

(** Code with a state of its own that may write to the program's memory: two
    arguments and the state to the result, the state and the writes. *)
Definition outside : Type := Z → Z → Z → Z * Z * list (Z * list Z).

(** Outside sys.c. An architecture may leave its macros and the two functions of
    speculation control undefined. *)
Class Processes := {
  security_task_prctl : cred → Z → Z → Z → Z → Z → Z * cred;
  _NSIG : Z;
  arch_macro : arch_call → option outside;
  strong_spec_ctrl_get : option (Z → Z → Z);
  strong_spec_ctrl_set : option (Z → Z → Z → Z * Z);
  kernel_function : kernel_call → outside;
  (** The string at an address, at most so many characters of it; [None] when
      [strncpy_from_user] faults. *)
  user_string : Z → Z → option (list Z);
  user_string_spec addr n str : user_string addr n = Some str → Forall (λ b, b ≠ 0) str ∧ lenZ str <= n;
  (** The name of a task: [set_task_comm old buf] and [get_task_comm]. *)
  set_task_comm : list Z → list Z → list Z;
  get_task_comm : list Z → list Z;
  get_set_task_comm old str rest :
    Forall (λ b, b ≠ 0) str → lenZ str < TASK_COMM_LEN →
    get_task_comm (set_task_comm old (str ++ 0 :: rest)) = str ++ replicate (16 - length str) 0
}.

Section calls.
Context `{AddressSpace, !Processes}.

(** ** Steps *)

Definition current : sys pstate task := s ← get; mret (me s).
Definition update (f : task → task) : sys pstate unit := modify (λ s, mkPstate (f (me s)) (written s)).
Definition write_user (addr : Z) (bytes : list Z) : sys pstate unit :=
  modify (λ s, mkPstate (me s) (written s ++ [(addr, bytes)])).

(** [put_user] of [n] bytes at an address. *)
Definition put (n : nat) (v addr : Z) : sys pstate Z :=
  match put_user n v addr with
  | (r, Some bytes) => write_user addr bytes;; mret r
  | (r, None) => mret r
  end.

(** A call of code outside sys.c. *)
Definition call_outside (f : outside) (a b : Z) : sys pstate Z :=
  λ s, let '(r, st, out) := f a b (others (me s)) in
       (inr r, mkPstate (with_others st (me s)) (written s ++ out)).

(** The macros: without a definition by the architecture they are -EINVAL. *)
Definition ctl (c : arch_call) (a : Z) : sys pstate Z :=
  match arch_macro c with
  | Some f => call_outside f a 0
  | None => mret (- EINVAL)
  end.

(** ** The helpers of sys.c *)

Definition prctl_get_tid_address (tid_addr : Z) : sys pstate Z :=
  t ← current; put 8 (clear_child_tid t) tid_addr.

(** Weak symbols: used unless the architecture defines the function. *)
Definition arch_prctl_spec_ctrl_get (which : Z) : sys pstate Z :=
  match strong_spec_ctrl_get with
  | Some f => call_outside (λ a _ st, (f a st, st, [])) which 0
  | None => mret (- EINVAL)
  end.
Definition arch_prctl_spec_ctrl_set (which ctrl : Z) : sys pstate Z :=
  match strong_spec_ctrl_set with
  | Some f => call_outside (λ a b st, (f a b st, [])) which ctrl
  | None => mret (- EINVAL)
  end.

(** ** The options *)

Definition valid_signal (sig : Z) : bool := sig <=? _NSIG.

Definition set_pdeathsig (arg2 : Z) : sys pstate Z :=
  if negb (valid_signal arg2) then mret (- EINVAL)
  else update (with_pdeath_signal arg2);; mret 0.

Definition set_dumpable_option (arg2 : Z) : sys pstate Z :=
  if negb (arg2 =? SUID_DUMP_DISABLE) && negb (arg2 =? SUID_DUMP_USER) then mret (- EINVAL)
  else update (λ t, with_mm (set_dumpable arg2 (t_mm t)) t);; mret 0.

(** What [comm] holds after [strncpy_from_user]: its last byte was cleared, the
    rest was not initialised, and the string ends with a 0 if there is room. *)
Definition comm_buffer (str : list Z) : list Z :=
  splice 0 (str ++ if lenZ str <? TASK_COMM_LEN - 1 then [0] else [])
    (uninit (Z.to_nat (TASK_COMM_LEN - 1)) ++ [0]).

Definition set_name (arg2 : Z) : sys pstate Z :=
  str ← return_unless (user_string arg2 (TASK_COMM_LEN - 1)) (- EFAULT);
  update (λ t, with_comm (set_task_comm (comm t) (comm_buffer str)) t);;
  mret 0.

Definition get_name (arg2 : Z) : sys pstate Z :=
  t ← current;
  return_if (negb (user_writable arg2)) (- EFAULT);;
  write_user arg2 (get_task_comm (comm t));;
  mret 0.

(** [error] is a signed long. *)
Definition get_timerslack : sys pstate Z :=
  t ← current;
  mret (s64 (if ULONG_MAX <? timer_slack_ns t then ULONG_MAX else timer_slack_ns t)).

Definition set_timerslack (arg2 : Z) : sys pstate Z :=
  (if arg2 <=? 0 then update (λ t, with_timer_slack (default_timer_slack_ns t) t)
   else update (with_timer_slack arg2));;
  mret 0.

Definition set_flag (f : Z) (t : task) : task := with_flags (Z.lor (flags t) f) t.
Definition clear_flag (f : Z) (t : task) : task := with_flags (Z.ldiff (flags t) f) t.
Definition has_flag (f : Z) (t : task) : bool := negb (Z.land (flags t) f =? 0).

Definition mce_kill (arg2 arg3 arg4 arg5 : Z) : sys pstate Z :=
  return_if (negb (Z.lor arg4 arg5 =? 0)) (- EINVAL);;
  (if arg2 =? PR_MCE_KILL_CLEAR then
     return_if (negb (arg3 =? 0)) (- EINVAL);;
     update (clear_flag PF_MCE_PROCESS)
   else if arg2 =? PR_MCE_KILL_SET then
     update (set_flag PF_MCE_PROCESS);;
     (if arg3 =? PR_MCE_KILL_EARLY then update (set_flag PF_MCE_EARLY)
      else if arg3 =? PR_MCE_KILL_LATE then update (clear_flag PF_MCE_EARLY)
      else if arg3 =? PR_MCE_KILL_DEFAULT then update (clear_flag (Z.lor PF_MCE_EARLY PF_MCE_PROCESS))
      else return_now (- EINVAL))
   else return_now (- EINVAL));;
  mret 0.

Definition mce_kill_get (arg2 arg3 arg4 arg5 : Z) : sys pstate Z :=
  return_if (negb (Z.lor (Z.lor arg2 arg3) (Z.lor arg4 arg5) =? 0)) (- EINVAL);;
  t ← current;
  mret (if has_flag PF_MCE_PROCESS t
        then if has_flag PF_MCE_EARLY t then PR_MCE_KILL_EARLY else PR_MCE_KILL_LATE
        else PR_MCE_KILL_DEFAULT).

(** The first argument of [prctl_set_mm] is an int. *)
Definition set_mm (arg2 arg3 arg4 arg5 : Z) : sys pstate Z :=
  t ← current;
  let '(error, m, out) := prctl_set_mm (t_cred t) (t_mm t) (s32 arg2) arg3 arg4 arg5 in
  update (with_mm m);;
  match out with Some bytes => write_user arg3 bytes | None => mret tt end;;
  mret error.

Definition any (args : list Z) : bool := existsb (λ a, negb (a =? 0)) args.

Definition set_no_new_privs (arg2 arg3 arg4 arg5 : Z) : sys pstate Z :=
  return_if (negb (arg2 =? 1) || any [arg3; arg4; arg5]) (- EINVAL);;
  update task_set_no_new_privs;;
  mret 0.

Definition get_no_new_privs (arg2 arg3 arg4 arg5 : Z) : sys pstate Z :=
  return_if (any [arg2; arg3; arg4; arg5]) (- EINVAL);;
  t ← current; mret (if no_new_privs t then 1 else 0).

Definition get_thp_disable (arg2 arg3 arg4 arg5 : Z) : sys pstate Z :=
  return_if (any [arg2; arg3; arg4; arg5]) (- EINVAL);;
  t ← current; mret (if Z.land (def_flags (t_mm t)) VM_NOHUGEPAGE =? 0 then 0 else 1).

Definition set_thp_disable (arg2 arg3 arg4 arg5 : Z) : sys pstate Z :=
  return_if (any [arg3; arg4; arg5]) (- EINVAL);;
  t ← current;
  return_if (fatal_signal t) (- EINTR);;
  update (λ t, with_mm (set_def_flags
    (if negb (arg2 =? 0) then Z.lor (def_flags (t_mm t)) VM_NOHUGEPAGE
     else Z.ldiff (def_flags (t_mm t)) VM_NOHUGEPAGE) (t_mm t)) t);;
  mret 0.

(** A [switch] whose cases end with [break] or [return]. *)
Fixpoint switch {A} (x : Z) (cases : list (Z * A)) (otherwise : A) : A :=
  match cases with
  | [] => otherwise
  | (c, a) :: cases => if x =? c then a else switch x cases otherwise
  end.

(** The last cases are those of macros and functions of the architecture. *)
Definition prctl_arch_options (arg2 arg3 arg4 arg5 : Z) : list (Z * sys pstate Z) := [
  (PR_MPX_ENABLE_MANAGEMENT,
    return_if (any [arg2; arg3; arg4; arg5]) (- EINVAL);; ctl MPX_ENABLE_MANAGEMENT 0);
  (PR_MPX_DISABLE_MANAGEMENT,
    return_if (any [arg2; arg3; arg4; arg5]) (- EINVAL);; ctl MPX_DISABLE_MANAGEMENT 0);
  (PR_SET_FP_MODE, ctl SET_FP_MODE arg2);
  (PR_GET_FP_MODE, ctl GET_FP_MODE 0);
  (PR_GET_SPECULATION_CTRL,
    return_if (any [arg3; arg4; arg5]) (- EINVAL);; arch_prctl_spec_ctrl_get arg2);
  (PR_SET_SPECULATION_CTRL,
    return_if (any [arg4; arg5]) (- EINVAL);; arch_prctl_spec_ctrl_set arg2 arg3)
].

Definition prctl_options (arg2 arg3 arg4 arg5 : Z) : list (Z * sys pstate Z) := [
  (PR_SET_PDEATHSIG, set_pdeathsig arg2);
  (PR_GET_PDEATHSIG, t ← current; put 4 (pdeath_signal t) arg2);
  (PR_GET_DUMPABLE, t ← current; mret (dumpable (t_mm t)));
  (PR_SET_DUMPABLE, set_dumpable_option arg2);
  (PR_SET_UNALIGN, ctl SET_UNALIGN_CTL arg2);
  (PR_GET_UNALIGN, ctl GET_UNALIGN_CTL arg2);
  (PR_SET_FPEMU, ctl SET_FPEMU_CTL arg2);
  (PR_GET_FPEMU, ctl GET_FPEMU_CTL arg2);
  (PR_SET_FPEXC, ctl SET_FPEXC_CTL arg2);
  (PR_GET_FPEXC, ctl GET_FPEXC_CTL arg2);
  (PR_GET_TIMING, mret PR_TIMING_STATISTICAL);
  (PR_SET_TIMING, mret (if negb (arg2 =? PR_TIMING_STATISTICAL) then - EINVAL else 0));
  (PR_SET_NAME, set_name arg2);
  (PR_GET_NAME, get_name arg2);
  (PR_GET_ENDIAN, ctl GET_ENDIAN arg2);
  (PR_SET_ENDIAN, ctl SET_ENDIAN arg2);
  (PR_GET_SECCOMP, call_outside (kernel_function Prctl_get_seccomp) 0 0);
  (PR_SET_SECCOMP, call_outside (kernel_function Prctl_set_seccomp) arg2 arg3);
  (PR_GET_TSC, ctl GET_TSC_CTL arg2);
  (PR_SET_TSC, ctl SET_TSC_CTL arg2);
  (PR_TASK_PERF_EVENTS_DISABLE, call_outside (kernel_function Perf_event_task_disable) 0 0);
  (PR_TASK_PERF_EVENTS_ENABLE, call_outside (kernel_function Perf_event_task_enable) 0 0);
  (PR_GET_TIMERSLACK, get_timerslack);
  (PR_SET_TIMERSLACK, set_timerslack arg2);
  (PR_MCE_KILL, mce_kill arg2 arg3 arg4 arg5);
  (PR_MCE_KILL_GET, mce_kill_get arg2 arg3 arg4 arg5);
  (PR_SET_MM, set_mm arg2 arg3 arg4 arg5);
  (PR_GET_TID_ADDRESS, prctl_get_tid_address arg2);
  (PR_SET_CHILD_SUBREAPER, update (with_subreaper (negb (arg2 =? 0)));; mret 0);
  (PR_GET_CHILD_SUBREAPER, t ← current; put 4 (if is_child_subreaper t then 1 else 0) arg2);
  (PR_SET_NO_NEW_PRIVS, set_no_new_privs arg2 arg3 arg4 arg5);
  (PR_GET_NO_NEW_PRIVS, get_no_new_privs arg2 arg3 arg4 arg5);
  (PR_GET_THP_DISABLE, get_thp_disable arg2 arg3 arg4 arg5);
  (PR_SET_THP_DISABLE, set_thp_disable arg2 arg3 arg4 arg5)
] ++ prctl_arch_options arg2 arg3 arg4 arg5.


Definition prctl (option arg2 arg3 arg4 arg5 : Z) : sys pstate Z :=
  t ← current;
  let '(error, c) := security_task_prctl (t_cred t) option arg2 arg3 arg4 arg5 in
  update (with_cred c);;
  return_if (negb (error =? - ENOSYS)) error;;
  switch option (prctl_options arg2 arg3 arg4 arg5) (mret (- EINVAL)).
End calls.

(** One call, with its arguments. *)
Record prctl_call := PrctlCall { pc_option : Z; pc_arg2 : Z; pc_arg3 : Z; pc_arg4 : Z; pc_arg5 : Z }.

Section theorems.
Context `{AddressSpace, !Processes}.

Definition prctl_step (s : pstate) (c : prctl_call) : pstate :=
  (run (prctl (pc_option c) (pc_arg2 c) (pc_arg3 c) (pc_arg4 c) (pc_arg5 c)) s).2.

(** *** The switch *)

Lemma switch_cases {A} (P : Z → A → Prop) x cases otherwise :
  Forall (λ c, P c.1 c.2) cases → P x otherwise → P x (switch x cases otherwise).
Proof.
  intros Hc Ho. induction Hc as [|[c a] cases Hca _ IH]; [done|]. cbn [switch].
  destruct (Z.eqb_spec x c) as [->|]; [exact Hca|exact IH].
Qed.

Lemma any_false l : any l = false ↔ Forall (λ a, a = 0) l.
Proof.
  unfold any. induction l as [|a l IH]; cbn [existsb]; [done|].
  rewrite orb_false_iff, IH, Forall_cons, negb_false_iff, Z.eqb_eq. done.
Qed.

(** *** What a step may do to the task *)

Definition on_task (Q : task → Prop) (s : pstate) : Prop := Q (me s).

Lemma keeps_current Q : keeps (on_task Q) current.
Proof. by intros s. Qed.
Lemma keeps_write_user Q addr bytes : keeps (on_task Q) (write_user addr bytes).
Proof. by intros s. Qed.
Lemma keeps_put Q n v addr : keeps (on_task Q) (put n v addr).
Proof. unfold put. destruct (put_user n v addr) as [r [bytes|]]; by intros s. Qed.
Lemma keeps_update Q f : (∀ t, Q t → Q (f t)) → keeps (on_task Q) (update f).
Proof. intros Hf s Hs. by apply Hf. Qed.
Lemma keeps_outside Q f a b : (∀ t st, Q t → Q (with_others st t)) → keeps (on_task Q) (call_outside f a b).
Proof. intros Hf s Hs. unfold call_outside. destruct (f a b _) as [[r st] out]. by apply Hf. Qed.
Lemma keeps_ctl Q c a : (∀ t st, Q t → Q (with_others st t)) → keeps (on_task Q) (ctl c a).
Proof. intros Hf. unfold ctl. destruct (arch_macro c); [by apply keeps_outside|by intros s]. Qed.

#[local] Hint Resolve keeps_current keeps_write_user keeps_put keeps_update keeps_outside keeps_ctl : keeps.

Lemma keeps_set_mm Q arg2 arg3 arg4 arg5 :
  (∀ t m, Q t → (∃ r out, prctl_set_mm (t_cred t) (t_mm t) (s32 arg2) arg3 arg4 arg5 = (r, m, out)) → Q (with_mm m t)) →
  keeps (on_task Q) (set_mm arg2 arg3 arg4 arg5).
Proof.
  intros Hq s Hs. unfold set_mm. sys_cbn. cbv [current mbind sys_bind get mret sys_ret].
  destruct (prctl_set_mm _ _ _ _ _ _) as [[r m] out] eqn:E. cbv [update modify write_user].
  assert (Q (with_mm m (me s))) by (apply Hq; [done|eauto]). by destruct out.
Qed.

Lemma set_exe_dumpable m fd r m' : prctl_set_mm_exe_file m fd = (r, m') → dumpable m' = dumpable m.
Proof. intros [(_ & ->)|(_ & _ & f & _ & ->)]%exe_file_cases; done. Qed.

Lemma prctl_set_mm_dumpable cred m opt addr arg4 arg5 r m' out :
  prctl_set_mm cred m opt addr arg4 arg5 = (r, m', out) → dumpable m' = dumpable m.
Proof.
  unfold prctl_set_mm, prctl_set_mm_map, prctl_set_auxv. cbv zeta. intros E.
  assert (Hdone : ∀ p, p = (r, m', out) → dumpable p.1.2 = dumpable m → dumpable m' = dumpable m) by (by intros ? ->).
  apply (Hdone _ E). clear E Hdone r m' out.
  assert (Hexe : ∀ fd, dumpable (prctl_set_mm_exe_file m fd).2 = dumpable m).
  { intros fd. destruct (prctl_set_mm_exe_file m fd) as [r m'] eqn:E. by eapply set_exe_dumpable. }
  repeat first [case_goal; [done || idtac..] | progress cbn [fst snd] | done | apply Hexe
    | match goal with |- context [match ?x with _ => _ end] => destruct x eqn:? end].
  all: repeat match goal with
    | Hx : (0, _) = (_, _) |- _ => injection Hx as <- <-
    | Hx : (if ?b then _ else _) = _ |- _ => destruct b
    end; try done.
  all: match goal with Hx : prctl_set_mm_exe_file _ _ = _ |- _ => apply set_exe_dumpable in Hx end; cbn; done.
Qed.

(** *** The invariant *)

Record task_ok (t : task) : Prop := {
  to_signal : 0 <= pdeath_signal t <= _NSIG;
  to_slack : 0 <= timer_slack_ns t < 2 ^ 64;
  to_default : 0 <= default_timer_slack_ns t < 2 ^ 64;
  to_dumpable : 0 <= dumpable (t_mm t) <= 2;
  to_mm : mm_ok (t_mm t)
}.

(** What holds of a task that was once [t0]. *)
Record since (t0 t : task) : Prop := {
  si_ok : task_ok t0 → task_ok t;
  si_no_new_privs : no_new_privs t0 = true → no_new_privs t = true;
  si_exe : exe_kept (t_mm t0) (t_mm t);
  si_tid : clear_child_tid t = clear_child_tid t0;
  si_default : default_timer_slack_ns t = default_timer_slack_ns t0
}.

Lemma since_refl t : since t t.
Proof. by split. Qed.

(** A change that keeps the fields of [since]. *)
Lemma since_change t0 t t' :
  since t0 t → (task_ok t → task_ok t') → (no_new_privs t = true → no_new_privs t' = true) →
  exe_kept (t_mm t) (t_mm t') → clear_child_tid t' = clear_child_tid t →
  default_timer_slack_ns t' = default_timer_slack_ns t → since t0 t'.
Proof.
  intros [S1 S2 S3 S4 S5] ? ? He ? ?. split; [auto|auto| |congruence|congruence].
  intros Hx. destruct (S3 Hx) as [Hy <-]. by apply He.
Qed.

(** [since_by] proves the obligations of [since_change] that are evident. *)
Ltac since_by :=
  intros; eapply since_change; [eassumption|intros []; split; cbn; try done|cbn; try done..]; try done.

Definition word (a : Z) : Prop := 0 <= a < 2 ^ 64.

Lemma options_since t0 arg2 arg3 arg4 arg5 :
  word arg2 → word arg4 →
  Forall (λ c, keeps (on_task (since t0)) c.2) (prctl_options arg2 arg3 arg4 arg5).
Proof.
  intros A2 A4. unfold word in *.
  assert (Ho : ∀ t st, since t0 t → since t0 (with_others st t)) by since_by.
  unfold prctl_options, prctl_arch_options; cbn [app]. repeat (apply Forall_cons; split; cbn [snd]); try apply Forall_nil_2; try by (keeps_steps; eauto with keeps).
  - unfold set_pdeathsig, valid_signal. destruct (Z.leb_spec arg2 _NSIG); cbn [negb]; keeps_steps.
    apply keeps_update. since_by. lia.
  - unfold set_dumpable_option, SUID_DUMP_DISABLE, SUID_DUMP_USER. case_goal; keeps_steps. apply keeps_update.
    since_by; [lia|]. match goal with Hm : mm_ok _ |- _ => by destruct Hm end.
  - unfold set_name. keeps_steps. apply keeps_update. since_by.
  - unfold set_timerslack. keeps_steps; apply keeps_update; since_by.
  - unfold mce_kill. keeps_steps; apply keeps_update; unfold set_flag, clear_flag; since_by.
  - apply keeps_set_mm. intros t m Ht (r & out & E).
    pose proof (prctl_set_mm_dumpable _ _ _ _ _ _ _ _ _ E) as Hd.
    apply prctl_set_mm_cases in E as [[_ ->]|[_ [Hok Hx]]]; [by destruct t| |lia].
    since_by; [by rewrite Hd|by apply Hok].
  - keeps_steps. apply keeps_update. since_by.
  - unfold set_no_new_privs. keeps_steps. apply keeps_update. since_by.
  - unfold set_thp_disable. keeps_steps; apply keeps_update; since_by;
      match goal with Hm : mm_ok _ |- _ => by destruct Hm end.
  - unfold arch_prctl_spec_ctrl_get. keeps_steps.
  - unfold arch_prctl_spec_ctrl_set. keeps_steps.
Qed.

Lemma prctl_since t0 option arg2 arg3 arg4 arg5 :
  word arg2 → word arg4 → keeps (on_task (since t0)) (prctl option arg2 arg3 arg4 arg5).
Proof.
  intros A2 A4. unfold prctl. apply keeps_bind; [apply keeps_current|intros t].
  destruct (security_task_prctl _ _ _ _ _ _) as [error c]. keeps_steps.
  - apply keeps_update. since_by.
  - apply (switch_cases (λ _ m, keeps (on_task (since t0)) m)); [by apply options_since|auto with keeps].
Qed.

(** The credentials after a call are those of the hook. *)
Lemma options_cred c arg2 arg3 arg4 arg5 :
  Forall (λ o, keeps (on_task (λ t, t_cred t = c)) o.2) (prctl_options arg2 arg3 arg4 arg5).
Proof.
  assert (Hu : ∀ f, (∀ t, t_cred (f t) = t_cred t) → keeps (on_task (λ t, t_cred t = c)) (update f))
    by (intros f Hf; apply keeps_update; intros t <-; apply Hf).
  unfold prctl_options, prctl_arch_options, set_pdeathsig, set_dumpable_option, set_name, set_timerslack, mce_kill, set_flag, clear_flag,
    set_no_new_privs, set_thp_disable, arch_prctl_spec_ctrl_get, arch_prctl_spec_ctrl_set.
  repeat (apply Forall_cons; split; cbn [snd]); try apply Forall_nil_2;
    by (keeps_steps; eauto with keeps).
Qed.

Lemma prctl_cred option arg2 arg3 arg4 arg5 s :
  t_cred (me (run (prctl option arg2 arg3 arg4 arg5) s).2) =
    (security_task_prctl (t_cred (me s)) option arg2 arg3 arg4 arg5).2.
Proof.
  unfold run, prctl. cbv [current mbind sys_bind get mret sys_ret].
  destruct (security_task_prctl _ _ _ _ _ _) as [error c]. cbv [update modify return_if return_now mret sys_ret].
  case_goal; [done|].
  apply (keeps_run (on_task (λ t, t_cred t = c))); [|done].
  apply (switch_cases (λ _ m, keeps (on_task (λ t, t_cred t = c)) m)); [apply options_cred|by intros ?].
Qed.

(** C16: Whatever a process asks of prctl, in whatever order: once it has given
    up new privileges, no call takes that back; once its executable has been
    changed, no call changes it again; and its description stays well formed -
    the death signal is 0 or a signal, the timer slack a word, the dumpable flag
    at most 2 and the memory layout in order. *)
Theorem prctl_keeps_task_ok s calls :
  Forall (λ c, word (pc_arg2 c) ∧ word (pc_arg4 c)) calls →
  let t := me s in
  let t' := me (foldl prctl_step s calls) in
  (no_new_privs t = true → no_new_privs t' = true) ∧
  (exe_file_changed (t_mm t) = true → exe_file_changed (t_mm t') = true ∧ exe_file (t_mm t') = exe_file (t_mm t)) ∧
  (task_ok t → task_ok t').
Proof.
  intros Hcalls. cbv zeta. enough (Hs : on_task (since (me s)) (foldl prctl_step s calls)) 
    by (destruct Hs as [S1 S2 S3 _ _]; split_and!; [exact S2|exact S3|exact S1]).
  assert (Hs : on_task (since (me s)) s) by apply since_refl. revert Hs. generalize (me s) as t0. intros t0. revert s.
  induction Hcalls as [|c calls [A2 A4] _ IH]; intros s Hs; [done|]. cbn [foldl]. apply IH.
  unfold prctl_step. by apply keeps_run; [apply prctl_since|].
Qed.

(** *** Calls that fail *)

(** Two tasks differ in their credentials and the state of others at most. *)
Definition same (t t' : task) : Prop := t' = with_cred (t_cred t') (with_others (others t') t).

Definition fails_clean (m : sys pstate Z) : Prop :=
  ∀ s, (run m s).1 < 0 → same (me s) (me (run m s).2).

Lemma keeps_fails_clean m : (∀ t0, keeps (on_task (same t0)) m) → fails_clean m.
Proof. intros Hm s _. apply (keeps_run (on_task (same (me s)))); [apply Hm|]. unfold on_task, same. by destruct (me s). Qed.

Lemma same_others t0 t st : same t0 t → same t0 (with_others st t).
Proof. unfold same. intros ->. by destruct t0. Qed.

Lemma same_refl t : same t t.
Proof. by destruct t. Qed.

(** Options that only read, and options of other parts of the kernel. *)
#[local] Hint Extern 1 (keeps (on_task (same _)) (call_outside _ _ _)) =>
  apply keeps_outside; intros; by apply same_others : keeps.
#[local] Hint Extern 1 (keeps (on_task (same _)) (ctl _ _)) =>
  apply keeps_ctl; intros; by apply same_others : keeps.

Ltac sys_run := cbv [run mbind sys_bind mret sys_ret current get update modify write_user return_if return_now return_unless].

(** Options that store something: they fail before they do. *)
Lemma set_pdeathsig_fails arg2 : fails_clean (set_pdeathsig arg2).
Proof. intros s. unfold set_pdeathsig. case_goal; sys_run; cbn [fst snd]; [intros; apply same_refl|lia]. Qed.

Lemma set_dumpable_fails arg2 : fails_clean (set_dumpable_option arg2).
Proof. intros s. unfold set_dumpable_option. case_goal; sys_run; cbn [fst snd]; [intros; apply same_refl|lia]. Qed.

Lemma set_name_fails arg2 : fails_clean (set_name arg2).
Proof. intros s. unfold set_name. sys_run. destruct (user_string _ _); cbn [fst snd]; [lia|intros; apply same_refl]. Qed.

Lemma set_timerslack_fails arg2 : fails_clean (set_timerslack arg2).
Proof. intros s. unfold set_timerslack. case_goal; sys_run; cbn [fst snd]; lia. Qed.

Lemma set_no_new_privs_fails arg2 arg3 arg4 arg5 : fails_clean (set_no_new_privs arg2 arg3 arg4 arg5).
Proof. intros s. unfold set_no_new_privs. sys_run. case_goal; cbn [fst snd]; [intros; apply same_refl|lia]. Qed.

Lemma set_thp_disable_fails arg2 arg3 arg4 arg5 : fails_clean (set_thp_disable arg2 arg3 arg4 arg5).
Proof.
  intros s. unfold set_thp_disable. sys_run. case_goal; cbn [fst snd]; [intros; apply same_refl|].
  destruct (fatal_signal _); cbn [fst snd]; [intros; apply same_refl|lia].
Qed.

Lemma set_mm_fails arg2 arg3 arg4 arg5 : word arg4 → fails_clean (set_mm arg2 arg3 arg4 arg5).
Proof.
  intros A4 s. unfold set_mm. sys_run. destruct (prctl_set_mm _ _ _ _ _ _) as [[r m] out] eqn:E.
  apply prctl_set_mm_cases in E as [[_ ->]|[-> _]]; [| |by destruct A4]; destruct out; cbn [fst snd]; try lia.
  all: intros; unfold same; by destruct (me s).
Qed.

(** The only failing call that leaves a trace. *)
Definition mce_kill_bad (arg2 arg3 arg4 arg5 : Z) : Prop :=
  arg2 = PR_MCE_KILL_SET ∧ ¬ arg3 ∈ [PR_MCE_KILL_EARLY; PR_MCE_KILL_LATE; PR_MCE_KILL_DEFAULT] ∧
  Z.lor arg4 arg5 = 0.

Lemma mce_kill_fails arg2 arg3 arg4 arg5 s :
  (run (mce_kill arg2 arg3 arg4 arg5) s).1 < 0 →
  same (me s) (me (run (mce_kill arg2 arg3 arg4 arg5) s).2) ∨
  mce_kill_bad arg2 arg3 arg4 arg5 ∧ me (run (mce_kill arg2 arg3 arg4 arg5) s).2 = set_flag PF_MCE_PROCESS (me s).
Proof.
  unfold mce_kill, mce_kill_bad. sys_run.
  destruct (Z.eqb_spec (Z.lor arg4 arg5) 0) as [Hor|]; cbn [negb]; [|intros; left; apply same_refl].
  destruct (arg2 =? PR_MCE_KILL_CLEAR); [case_goal; cbn [fst snd]; [intros; left; apply same_refl|lia]|].
  destruct (Z.eqb_spec arg2 PR_MCE_KILL_SET); [|intros; left; apply same_refl].
  destruct (Z.eqb_spec arg3 PR_MCE_KILL_EARLY); [cbn [fst snd]; lia|].
  destruct (Z.eqb_spec arg3 PR_MCE_KILL_LATE); [cbn [fst snd]; lia|].
  destruct (Z.eqb_spec arg3 PR_MCE_KILL_DEFAULT); [cbn [fst snd]; lia|]. intros _. right. split; [|done].
  split_and!; [done| |done]. rewrite !elem_of_cons. intros [?|[?|[?|?%elem_of_nil]]]; done.
Qed.

Lemma options_fail arg2 arg3 arg4 arg5 :
  word arg4 →
  Forall (λ c, c.1 = PR_MCE_KILL ∧ c.2 = mce_kill arg2 arg3 arg4 arg5 ∨ fails_clean c.2)
    (prctl_options arg2 arg3 arg4 arg5).
Proof.
  intros A4. unfold prctl_options, prctl_arch_options; cbn [app]. repeat (apply Forall_cons; split; cbn [fst snd]); try apply Forall_nil_2.
  all: first [by left|right].
  all: try first
    [ by apply set_pdeathsig_fails | by apply set_dumpable_fails | by apply set_name_fails
    | by apply set_timerslack_fails | by apply set_no_new_privs_fails | by apply set_thp_disable_fails
    | by apply set_mm_fails | by intros s; sys_run; cbn [fst snd]; lia
    | apply keeps_fails_clean; intros t0; by keeps_steps; eauto with keeps ].
  - apply keeps_fails_clean. intros t0. unfold arch_prctl_spec_ctrl_get. keeps_steps; eauto with keeps.
  - apply keeps_fails_clean. intros t0. unfold arch_prctl_spec_ctrl_set. keeps_steps; eauto with keeps.
Qed.

(** C34: A call of prctl that returns an error leaves the task as it was, up to
    the credentials and what other parts of the kernel keep - with one
    exception: PR_MCE_KILL_SET with a policy that does not exist returns -EINVAL
    and yet has set PF_MCE_PROCESS. *)
Theorem prctl_errors_change_nothing option arg2 arg3 arg4 arg5 s :
  word arg4 →
  let '(r, s') := run (prctl option arg2 arg3 arg4 arg5) s in
  r < 0 →
  same (me s) (me s') ∨
  option = PR_MCE_KILL ∧ mce_kill_bad arg2 arg3 arg4 arg5 ∧ same (set_flag PF_MCE_PROCESS (me s)) (me s').
Proof.
  intros A4. destruct (run _ s) as [r s'] eqn:E. intros Hr. revert E.
  unfold prctl. cbv [current mbind sys_bind get mret sys_ret run].
  destruct (security_task_prctl _ _ _ _ _ _) as [error c]. cbv [update modify return_if return_now mret sys_ret].
  assert (Hc : same (me s) (with_cred c (me s))) by (unfold same; by destruct (me s)).
  case_goal; [intros [= <- <-]; by left|]. set (s1 := mkPstate _ _).
  assert (Htrans : same (me s1) (me s') → same (me s) (me s')).
  { unfold same. intros ->. by destruct (me s). }
  refine (switch_cases (λ o m, run m s1 = (r, s') → same (me s) (me s') ∨ o = PR_MCE_KILL ∧
    mce_kill_bad arg2 arg3 arg4 arg5 ∧ same (set_flag PF_MCE_PROCESS (me s)) (me s')) option _ _ _ _).
  - eapply Forall_impl; [by apply options_fail|]. intros [o m] [[Ho Hm]|Hm]; cbn in *; intros E.
    + subst o m. pose proof (mce_kill_fails arg2 arg3 arg4 arg5 s1) as Hf. rewrite E in Hf. cbn [fst snd] in Hf.
      destruct (Hf Hr) as [?|[? ->]]; [left; auto|right]. by split_and!.
    + left. apply Htrans. specialize (Hm s1). rewrite E in Hm. by apply Hm.
  - intros [= <- <-]. left. apply Htrans, same_refl.
Qed.

(** *** Setting and getting *)

(** No security module takes the option over. *)
Definition no_module_takes (option : Z) : Prop :=
  ∀ c arg2 arg3 arg4 arg5, security_task_prctl c option arg2 arg3 arg4 arg5 = (- ENOSYS, c).

Lemma prctl_passes option arg2 arg3 arg4 arg5 s :
  no_module_takes option →
  run (prctl option arg2 arg3 arg4 arg5) s = run (switch option (prctl_options arg2 arg3 arg4 arg5) (mret (- EINVAL))) s.
Proof.
  intros Hn. unfold prctl. cbv [current mbind sys_bind get mret sys_ret run]. rewrite Hn.
  cbv [update modify return_if return_now mret sys_ret]. rewrite Z.eqb_refl. cbn [negb].
  by destruct s as [[] w].
Qed.

(** What a call returns and what it writes to the program's memory. *)
Definition answer (option arg2 : Z) (s : pstate) : Z * list (Z * list Z) :=
  let '(r, s') := run (prctl option arg2 0 0 0) s in (r, drop (length (written s)) (written s')).

Definition after_set (option arg2 arg3 : Z) (s : pstate) : pstate := (run (prctl option arg2 arg3 0 0) s).2.

Lemma drop_written {A} (w new : list A) : drop (length w) (w ++ new) = new.
Proof. by rewrite drop_app_length. Qed.

Lemma drop_all_written {A} (w : list A) : drop (length w) w = [].
Proof. by apply drop_ge. Qed.

Lemma comm_buffer_string str :
  Forall (λ b, b ≠ 0) str → lenZ str <= 15 → ∃ rest, comm_buffer str = str ++ 0 :: rest.
Proof.
  intros _ Hl. unfold comm_buffer, TASK_COMM_LEN. change (16 - 1) with 15.
  set (u := uninit (Z.to_nat 15)). assert (Hu : length u = 15%nat) by apply length_uninit.
  destruct (Z.ltb_spec (lenZ str) 15) as [Hlt|Hge].
  - pose (n := S (length str)). exists (drop n (u ++ [0])).
    rewrite <- (take_drop n (u ++ [0])) at 1.
    pose proof (splice_app_mid 0 (str ++ [0]) [] (take n (u ++ [0])) (drop n (u ++ [0]))) as Hs. cbn [app] in Hs.
    rewrite Hs; [by rewrite <- app_assoc|done|]. rewrite length_take, !length_app, Hu. cbn. lia.
  - exists []. rewrite app_nil_r.
    pose proof (splice_app_mid 0 str [] u [0]) as Hs. cbn [app] in Hs. rewrite Hs; [done|done|]. lia.
Qed.

Lemma lor_flag f g : Z.land (Z.lor g f) f = f.
Proof. apply Z.bits_inj'. intros n _. rewrite Z.land_spec, Z.lor_spec. by destruct (Z.testbit g n), (Z.testbit f n). Qed.
Lemma ldiff_flag f g : Z.land (Z.ldiff g f) f = 0.
Proof. apply Z.bits_inj'. intros n _. rewrite Z.land_spec, Z.ldiff_spec, Z.bits_0. by destruct (Z.testbit g n), (Z.testbit f n). Qed.
Lemma lor_other f g x : Z.land f g = 0 → Z.land (Z.lor x f) g = Z.land x g.
Proof. intros Hfg. by rewrite Z.land_lor_distr_l, Hfg, Z.lor_0_r. Qed.
Lemma ldiff_other f g x : Z.land f g = 0 → Z.land (Z.ldiff x f) g = Z.land x g.
Proof.
  intros Hfg. apply Z.bits_inj'. intros n _. rewrite !Z.land_spec, Z.ldiff_spec.
  assert (Hn : Z.testbit (Z.land f g) n = false) by (by rewrite Hfg, Z.bits_0). rewrite Z.land_spec in Hn.
  by destruct (Z.testbit x n), (Z.testbit f n), (Z.testbit g n).
Qed.

(** The answer of an option from that of its handler. *)
Lemma answer_of option arg2 s m :
  no_module_takes option → switch option (prctl_options arg2 0 0 0) (mret (- EINVAL)) = m →
  answer option arg2 s = let '(r, s') := run m s in (r, drop (length (written s)) (written s')).
Proof. intros Hn <-. unfold answer. by rewrite prctl_passes. Qed.

Lemma after_set_of option arg2 arg3 s m :
  no_module_takes option → switch option (prctl_options arg2 arg3 0 0) (mret (- EINVAL)) = m →
  after_set option arg2 arg3 s = (run m s).2.
Proof. intros Hn <-. unfold after_set. by rewrite prctl_passes. Qed.

(** [by_handlers get set] replaces an answer after a setting by the handlers. *)
Tactic Notation "by_handlers" uconstr(g) uconstr(s) :=
  rewrite (answer_of _ _ _ g), (after_set_of _ _ _ _ s) by (auto || reflexivity).

Lemma put_answer n v p s :
  user_writable p = true → put n v p s = (inr 0, mkPstate (me s) (written s ++ [(p, le_bytes n v)])).
Proof. intros Hp. unfold put, put_user. by rewrite Hp. Qed.

Lemma flags_mce t arg3 :
  0 <= arg3 <= 2 →
  (run (mce_kill_get 0 0 0 0) (run (mce_kill PR_MCE_KILL_SET arg3 0 0) t).2).1 = arg3.
Proof.
  intros Ha. assert (arg3 = 0 ∨ arg3 = 1 ∨ arg3 = 2) as [->|[->| ->]] by lia;
    unfold mce_kill, mce_kill_get, PR_MCE_KILL_SET, PR_MCE_KILL_CLEAR, PR_MCE_KILL_EARLY, PR_MCE_KILL_LATE,
      PR_MCE_KILL_DEFAULT; do 2 change (Z.lor 0 0) with 0; sys_run; cbn [Z.eqb Pos.eqb negb fst snd me];
    unfold has_flag, set_flag, clear_flag; cbn [flags with_flags me].
  - rewrite (ldiff_other PF_MCE_EARLY PF_MCE_PROCESS), lor_flag, ldiff_flag by reflexivity. reflexivity.
  - rewrite (lor_other PF_MCE_EARLY PF_MCE_PROCESS), !lor_flag by reflexivity. reflexivity.
  - assert (Hz : ∀ x, Z.land (Z.ldiff x (Z.lor PF_MCE_EARLY PF_MCE_PROCESS)) PF_MCE_PROCESS = 0).
    { intros x. rewrite <- (ldiff_flag PF_MCE_PROCESS (Z.ldiff x PF_MCE_EARLY)). f_equal.
      apply Z.bits_inj'. intros n _. rewrite !Z.ldiff_spec, Z.lor_spec.
      by destruct (Z.testbit x n), (Z.testbit PF_MCE_EARLY n), (Z.testbit PF_MCE_PROCESS n). }
    rewrite Hz. reflexivity.
Qed.

(** C30: What a process sets with prctl is what it gets: the death signal, the
    dumpable flag, its name (cut to 15 characters and filled with zeros to 16
    bytes), the timer slack (0 stands for the default; values from 2^63 on come
    back negative), the policy for machine checks, the subreaper flag, no new
    privileges, and the flag for huge pages. *)
Theorem prctl_set_get s p :
  (∀ option, no_module_takes option) → user_writable p = true →
  (∀ v, v <= _NSIG → answer PR_GET_PDEATHSIG p (after_set PR_SET_PDEATHSIG v 0 s) = (0, [(p, le_bytes 4 v)])) ∧
  (∀ v, 0 <= v <= 1 → answer PR_GET_DUMPABLE 0 (after_set PR_SET_DUMPABLE v 0 s) = (v, [])) ∧
  (∀ a str, user_string a 15 = Some str →
    answer PR_GET_NAME p (after_set PR_SET_NAME a 0 s) = (0, [(p, str ++ replicate (16 - length str) 0)])) ∧
  (∀ v, 0 <= v < 2 ^ 64 → 0 <= default_timer_slack_ns (me s) < 2 ^ 64 →
    answer PR_GET_TIMERSLACK 0 (after_set PR_SET_TIMERSLACK v 0 s) =
    (s64 (if decide (v = 0) then default_timer_slack_ns (me s) else v), [])) ∧
  (∀ v, 0 <= v <= 2 → (answer PR_MCE_KILL_GET 0 (after_set PR_MCE_KILL PR_MCE_KILL_SET v s)).1 = v) ∧
  (∀ v, answer PR_GET_CHILD_SUBREAPER p (after_set PR_SET_CHILD_SUBREAPER v 0 s) =
    (0, [(p, le_bytes 4 (if decide (v = 0) then 0 else 1))])) ∧
  answer PR_GET_NO_NEW_PRIVS 0 (after_set PR_SET_NO_NEW_PRIVS 1 0 s) = (1, []) ∧
  (∀ v, fatal_signal (me s) = false →
    (answer PR_GET_THP_DISABLE 0 (after_set PR_SET_THP_DISABLE v 0 s)).1 = (if decide (v = 0) then 0 else 1)).
Proof.
  intros Hn Hp. split_and!; [intros v Hv|intros v Hv|intros a str Hstr|intros v Hv Hd|intros v Hv|intros v| |intros v Hf].
  - by_handlers (t ← current; put 4 (pdeath_signal t) p) (set_pdeathsig v). unfold set_pdeathsig, valid_signal. rewrite (proj2 (Z.leb_le v _NSIG)) by done. cbn [negb]. sys_run.
    cbn [fst snd me]. rewrite put_answer by done. cbn [written]. by rewrite drop_written.
  - by_handlers (t ← current; mret (dumpable (t_mm t))) (set_dumpable_option v).
    unfold set_dumpable_option, SUID_DUMP_DISABLE, SUID_DUMP_USER.
    assert (v = 0 ∨ v = 1) as [->| ->] by lia; sys_run; cbn; by rewrite drop_all_written.
  - by_handlers (get_name p) (set_name a). unfold set_name, get_name. sys_run. change (TASK_COMM_LEN - 1) with 15. rewrite Hstr, Hp. cbn [negb snd me written].
    rewrite drop_written. apply user_string_spec in Hstr as [Hz Hl].
    destruct (comm_buffer_string str Hz Hl) as [rest ->]. cbn [comm with_comm].
    rewrite get_set_task_comm; [done|done|]. unfold TASK_COMM_LEN. lia.
  - by_handlers get_timerslack (set_timerslack v). unfold set_timerslack, get_timerslack. destruct (Z.leb_spec v 0); sys_run; cbn [snd me written].
    all: rewrite drop_all_written; do 2 f_equal; cbn [timer_slack_ns with_timer_slack].
    all: unfold ULONG_MAX; case_decide; try lia; case_goal; lia.
  - by_handlers (mce_kill_get 0 0 0 0) (mce_kill PR_MCE_KILL_SET v 0 0). rewrite <- (flags_mce s v Hv) at 2. by destruct (run (mce_kill_get 0 0 0 0) _).
  - by_handlers (t ← current; put 4 (if is_child_subreaper t then 1 else 0) p)
      (update (with_subreaper (negb (v =? 0)));; mret 0).
    destruct (Z.eqb_spec v 0); sys_run; cbn [snd me]; rewrite put_answer by done; cbn [written];
      rewrite drop_written; by case_decide.
  - by_handlers (get_no_new_privs 0 0 0 0) (set_no_new_privs 1 0 0 0). unfold set_no_new_privs, get_no_new_privs. sys_run. cbn. by rewrite drop_all_written.
  - by_handlers (get_thp_disable 0 0 0 0) (set_thp_disable v 0 0 0). unfold set_thp_disable, get_thp_disable. sys_run. cbn [any existsb Z.eqb negb orb]. rewrite Hf. cbn [snd me fst].
    cbn [t_mm with_mm def_flags set_def_flags]. case_decide.
    + subst v. cbn [Z.eqb negb]. by rewrite ldiff_flag.
    + rewrite (proj2 (Z.eqb_neq v 0)) by done. cbn [negb]. by rewrite lor_flag.
Qed.
End theorems.

(** ** Concrete instances *)

#[local] Existing Instances demo_linux demo_platform demo_space.

(** The bytes before the first 0. *)
Fixpoint c_string (l : list Z) : list Z :=
  match l with
  | [] => []
  | b :: l => if b =? 0 then [] else b :: c_string l
  end.

Lemma c_string_app str rest : Forall (λ b, b ≠ 0) str → c_string (str ++ 0 :: rest) = str.
Proof.
  induction 1 as [|b str Hb _ IH]; [done|]. cbn [app c_string].
  rewrite (proj2 (Z.eqb_neq b 0)) by done. by rewrite IH.
Qed.

(** A kernel whose security modules take no option, without an architecture's
    macros; the programs' memory holds the name init at every address but 0. *)
Program Definition demo_processes : Processes := {|
  security_task_prctl := λ c _ _ _ _ _, (- ENOSYS, c); _NSIG := 64;
  arch_macro := λ _, None; strong_spec_ctrl_get := None; strong_spec_ctrl_set := None;
  kernel_function := λ _ _ _ st, (0, st, []);
  user_string := λ addr n, if (addr =? 0) || (n <? 4) then None else Some [105; 110; 105; 116];
  set_task_comm := λ _ buf, c_string buf;
  get_task_comm := λ name, name ++ replicate (16 - length name) 0
|}.
Next Obligation.
  intros addr n str. cbn. destruct (addr =? 0), (Z.ltb_spec n 4); cbn; try done.
  intros [= <-]. split; [by repeat constructor|cbn; lia].
Qed.
Next Obligation. intros old str rest Hz _. cbn. by rewrite c_string_app. Qed.

#[local] Existing Instance demo_processes.

Definition demo_task : task :=
  mkTask demo_root demo_mm 0 [115; 104] 50000 50000 4194304 false false 0 false 0.
Definition demo_state : pstate := mkPstate demo_task [].

Lemma demo_task_ok : task_ok demo_task.
Proof. split; cbn; [lia|lia|lia|lia|exact demo_mm_ok]. Qed.

(** No new privileges, then attempts to take that back, a heap that grows and a
    signal that does not exist. *)
Lemma prctl_keeps_task_ok_witness :
  let s := mkPstate (task_set_no_new_privs demo_task) [] in
  let calls := [PrctlCall PR_SET_NO_NEW_PRIVS 0 0 0 0; PrctlCall PR_SET_MM PR_SET_MM_BRK 30000000 0 0;
    PrctlCall PR_SET_PDEATHSIG 65 0 0 0; PrctlCall PR_SET_NAME 4096 0 0 0] in
  no_new_privs (me (foldl prctl_step s calls)) = true ∧ task_ok (me (foldl prctl_step s calls)).
Proof.
  intros s calls. assert (Hcalls : Forall (λ c, word (pc_arg2 c) ∧ word (pc_arg4 c)) calls).
  { repeat apply Forall_cons_2; try apply Forall_nil_2; unfold word, PR_SET_MM_BRK; cbn [pc_arg2 pc_arg4]; lia. }
  pose proof (prctl_keeps_task_ok s calls Hcalls) as (Hnn & _ & Hok). split; [by apply Hnn|].
  apply Hok. destruct demo_task_ok. split; assumption.
Defined.

Lemma prctl_errors_change_nothing_witness :
  (run (prctl PR_MCE_KILL PR_MCE_KILL_SET 3 0 0) demo_state).1 = - EINVAL ∧
  flags (me (run (prctl PR_MCE_KILL PR_MCE_KILL_SET 3 0 0) demo_state).2) = 4194304 + PF_MCE_PROCESS ∧
  (run (prctl PR_SET_DUMPABLE 2 0 0 0) demo_state).1 = - EINVAL ∧
  same demo_task (me (run (prctl PR_SET_DUMPABLE 2 0 0 0) demo_state).2).
Proof.
  split; [vm_compute; reflexivity|]. split; [vm_compute; reflexivity|]. split; [vm_compute; reflexivity|].
  assert (A4 : word 0) by (unfold word; lia).
  pose proof (prctl_errors_change_nothing PR_SET_DUMPABLE 2 0 0 0 demo_state A4) as Hf.
  destruct (run (prctl PR_SET_DUMPABLE 2 0 0 0) demo_state) as [r s'] eqn:E.
  assert (Hr : r < 0). { change r with ((r, s').1). rewrite <- E. vm_compute. reflexivity. }
  destruct (Hf Hr) as [Hs|[Ho _]]; [exact Hs|discriminate Ho].
Defined.

Lemma prctl_set_get_witness :
  answer PR_GET_NAME 8192 (after_set PR_SET_NAME 4096 0 demo_state) =
  (0, [(8192, [105; 110; 105; 116; 0; 0; 0; 0; 0; 0; 0; 0; 0; 0; 0; 0])]).
Proof.
  assert (Hn : ∀ option, no_module_takes option) by (intros option c a b d e; reflexivity).
  assert (Hp : user_writable 8192 = true) by (vm_compute; reflexivity).
  assert (Hs : user_string 4096 15 = Some [105; 110; 105; 116]) by (vm_compute; reflexivity).
  exact (proj1 (proj2 (proj2 (prctl_set_get demo_state 8192 Hn Hp))) 4096 _ Hs).
Defined.

(** The call that fails and stays in force: machine checks then kill late. *)
Lemma mce_kill_error_sets_flag :
  answer PR_MCE_KILL_GET 0 demo_state = (PR_MCE_KILL_DEFAULT, []) ∧
  (run (prctl PR_MCE_KILL PR_MCE_KILL_SET 3 0 0) demo_state).1 = - EINVAL ∧
  answer PR_MCE_KILL_GET 0 (after_set PR_MCE_KILL PR_MCE_KILL_SET 3 demo_state) = (PR_MCE_KILL_LATE, []).
Proof. vm_compute. done. Qed.
