(* ===== verification/Kernel.v ===== *)
(** * Processes that make system calls

    The way into the system calls of lab2/lab2.1/linux/sys.c: the table of
    syscall_64.tbl and the macros SYSCALL_DEFINEx and declarations of
    lab2/lab2.1/linux/syscalls.h, which turn a number and the registers into a
    call; and the state on which all the calls work together. The components
    have each its own view of that state.

    Each process has one thread here, and none is created or ends. The theorems
    are about any number of processes that make any calls in any order; a call
    that is undefined would end a run without a state. *)

From Stdlib Require Import Lia.
From stdpp Require Import base numbers option list gmap.
From S2P Require Import Prelude Bytes Syscalls SysInfo Usage Linux Credentials Priority ProcessGroups Limits UtsName.
From S2P Require Import MmMap Prctl.
Local Open Scope Z_scope.

(** ** State *)

(** What a process has used, and its personality. *)
Record account := mkAccount {
  ac_threads : list counts; ac_utime : Z; ac_time : Z * Z; ac_group_time : Z * Z;
  ac_signal : signal; ac_mm : option Z; ac_personality : Z
}.

(** A process: its place among the others ([kt_proc]); its credentials, memory,
    flags and what prctl sets ([kt_self]); its nice value, its limits, its file
    mode mask and what it has used. *)
Record ktask := mkKtask {
  kt_proc : proc; kt_self : Prctl.task; kt_nice : Z;
  kt_sighand : bool; kt_rlim : list rlimit; kt_cpu : option Z;
  kt_umask : Z; kt_account : account
}.

Definition set_proc p (t : ktask) :=
  mkKtask p (kt_self t) (kt_nice t) (kt_sighand t) (kt_rlim t) (kt_cpu t) (kt_umask t) (kt_account t).
Definition set_self s (t : ktask) :=
  mkKtask (kt_proc t) s (kt_nice t) (kt_sighand t) (kt_rlim t) (kt_cpu t) (kt_umask t) (kt_account t).
Definition set_nice n (t : ktask) :=
  mkKtask (kt_proc t) (kt_self t) n (kt_sighand t) (kt_rlim t) (kt_cpu t) (kt_umask t) (kt_account t).
Definition set_limits l c (t : ktask) :=
  mkKtask (kt_proc t) (kt_self t) (kt_nice t) (kt_sighand t) l c (kt_umask t) (kt_account t).
Definition set_mask m (t : ktask) :=
  mkKtask (kt_proc t) (kt_self t) (kt_nice t) (kt_sighand t) (kt_rlim t) (kt_cpu t) m (kt_account t).

Definition kt_pid (t : ktask) : Z := pr_pid (kt_proc t).
Definition kt_cred (t : ktask) : cred := Prctl.t_cred (kt_self t).

(** The task list, and the names of the system with the namespace that owns them. *)
Record kernel := mkKernel { k_tasks : list ktask; k_uts : utsname; k_uts_user_ns : Z }.

Definition with_tasks (l : list ktask) (k : kernel) : kernel := mkKernel l (k_uts k) (k_uts_user_ns k).
Definition with_uts (u : utsname) (k : kernel) : kernel := mkKernel (k_tasks k) u (k_uts_user_ns k).

(** ** The views of the components *)

Definition RLIMIT_NPROC : nat := 6.

(** The id calls see the credentials, the flags and the limit on processes. *)
Definition id_view (t : ktask) : Credentials.task :=
  Credentials.mkTask (kt_cred t) (Prctl.flags (kt_self t)) (rlim_cur (kt_rlim t !!! RLIMIT_NPROC)).
Definition id_back (v : Credentials.task) (t : ktask) : ktask :=
  set_self (with_flags (Credentials.t_flags v) (with_cred (Credentials.t_cred v) (kt_self t))) t.

Definition thread_view (t : ktask) : thread :=
  mkThread (kt_pid t) (pr_pgrp (kt_proc t)) (kt_cred t) (kt_nice t).
Definition thread_back (threads : list thread) (t : ktask) : ktask :=
  match list_find (λ p, p_pid p = kt_pid t) threads with
  | Some (_, p) => set_nice (p_nice p) t
  | None => t
  end.

(** What the components see of the tasks, by number. *)
Definition index {A} (f : ktask → A) (l : list ktask) : gmap Z A := list_to_map ((λ t, (kt_pid t, f t)) <$> l).

Definition group_view (k : kernel) : procs := index kt_proc (k_tasks k).
Definition group_back (m : procs) (t : ktask) : ktask :=
  match m !! kt_pid t with Some p => set_proc p t | None => t end.

Definition limited_view (t : ktask) : limited :=
  mkLimited (kt_pid t) (kt_cred t) (kt_sighand t) (kt_rlim t) (kt_cpu t).
Definition limit_view (k : kernel) : Limits.tasks := index limited_view (k_tasks k).
Definition limit_back (m : Limits.tasks) (t : ktask) : ktask :=
  match m !! kt_pid t with Some l => set_limits (li_rlim l) (li_cpu l) t | None => t end.

Definition usage_view (t : ktask) : process :=
  let a := kt_account t in
  mkProcess (pr_group_leader (kt_proc t)) (kt_pid t) (pr_real_parent (kt_proc t)) (ac_threads a) (ac_time a)
    (ac_group_time a) (ac_signal a) (ac_mm a) (kt_sighand t) (kt_umask t).

(** What the exercise's calls read of a task. *)
Definition state_view (t : ktask) : task_struct :=
  mkTaskStruct (kt_pid t) (ac_utime (kt_account t)) (Prctl.comm (kt_self t)).

(** ** The calls

    With what their pointers lead to. Those that change the state: *)
Inductive call :=
  | IdCall (c : id_call)
  | SetPriority (which who niceval : Z)
  | SetPgid (pid pgid : Z) | SetSid
  | PrLimit64 (pid resource : Z) (new : user_ptr rlimit64) (old : user_ptr unit)
  | SetRlimit (resource : Z) (new : option rlimit)
  | SetHostname (name : option (list Z)) (len : Z)
  | SetDomainname (name : option (list Z)) (len : Z)
  | Umask (mask : Z)
  | DoPrctl (c : prctl_call).

(** Those that only read it; the pointers of the last three are addresses. *)
Inductive query :=
  | Getuid | Geteuid | Getgid | Getegid
  | GetResuid (w : bool * bool * bool) | GetResgid (w : bool * bool * bool)
  | GetPriority (which who : Z)
  | GetPgid (pid : Z) | GetPgrp | GetSid (pid : Z)
  | GetRlimit (resource : Z) (writable : bool)
  | GetPid | GetTid | GetPpid
  | Times (tbuf : option bool) | GetRusage (who : Z) (writable : bool)
  | Sysinfo (writable : bool) | GetCpu (cpup nodep : option bool)
  | NewUname (name : Z) | PsCounter (num : Z) | PsState (buf : Z).

(** What a query stores for the program, besides the number it returns. *)
Inductive answer :=
  | Nothing
  | Ids (ids : list Z)
  | TheLimit (l : option rlimit)
  | TheTimes (tms : option (list Z))
  | TheUsage (r : option rusage)
  | TheInfo (i : option sysinfo)
  | TheCpu (cpu node : option Z)
  | Memory (mem : list Z).

(** Outside sys.c: the heap; the memory from an address on; how many of so many
    bytes [copy_to_user] manages to store at an address. *)
Class Heap := {
  kmalloc : Z → option (list Z);
  user_bytes : Z → list Z;
  user_copied : Z → Z → Z
}.

Section kernel.
Context `{HL : Linux, HP : PidNamespace, HPl : Platform, !Scheduler, !Groups, !Limits, !AddressSpace, !Processes,
  !Uts, !Clock, !Statistics, !Heap}.

(** A change of the task with a number, and of all tasks. *)
Definition change_tasks (f : ktask → ktask) (k : kernel) : kernel := with_tasks (f <$> k_tasks k) k.
Definition change_task (pid : Z) (f : ktask → ktask) : kernel → kernel :=
  change_tasks (λ t, if kt_pid t =? pid then f t else t).

(** A call by the task [cur]: the result and the state afterwards. *)
Definition serve_call (k : kernel) (cur : ktask) (c : call) : Z * kernel :=
  let own f := change_task (kt_pid cur) f k in
  match c with
  | IdCall c => let '(r, v) := run (id_step c) (id_view cur) in (r, own (id_back v))
  | SetPriority which who niceval =>
    let '(r, threads) := setpriority (thread_view cur) (thread_view <$> k_tasks k) which who niceval in
    (r, change_tasks (thread_back threads) k)
  | SetPgid pid pgid =>
    let '(r, m) := setpgid (group_view k) (kt_proc cur) pid pgid in (r, change_tasks (group_back m) k)
  | SetSid => let '(r, m) := setsid (group_view k) (kt_proc cur) in (r, change_tasks (group_back m) k)
  | PrLimit64 pid resource new old =>
    let '(r, m, _) := prlimit64 (limited_view cur) (limit_view k) pid resource new old in
    (r, change_tasks (limit_back m) k)
  | SetRlimit resource new =>
    let '(r, l) := setrlimit (limited_view cur) resource new in
    (r, own (set_limits (li_rlim l) (li_cpu l)))
  | SetHostname name len =>
    let '(r, u) := sethostname (kt_cred cur) (k_uts_user_ns k) (k_uts k) name len in (r, with_uts u k)
  | SetDomainname name len =>
    let '(r, u) := setdomainname (kt_cred cur) (k_uts_user_ns k) (k_uts k) name len in (r, with_uts u k)
  | Umask mask => let '(r, p) := umask (usage_view cur) mask in (r, own (set_mask (pc_umask p)))
  | DoPrctl (PrctlCall option a2 a3 a4 a5) =>
    let '(r, s) := run (prctl option a2 a3 a4 a5) (mkPstate (kt_self cur) []) in (r, own (set_self (me s)))
  end.

(** The answer to the task [cur]. *)
Definition serve_query (k : kernel) (cur : ktask) (q : query) : res (Z * answer) :=
  match q with
  | Getuid => Ok (getuid (kt_cred cur), Nothing)
  | Geteuid => Ok (geteuid (kt_cred cur), Nothing)
  | Getgid => Ok (getgid (kt_cred cur), Nothing)
  | Getegid => Ok (getegid (kt_cred cur), Nothing)
  | GetResuid w => let '(r, ids) := getresuid (kt_cred cur) w in Ok (r, Ids ids)
  | GetResgid w => let '(r, ids) := getresgid (kt_cred cur) w in Ok (r, Ids ids)
  | GetPriority which who => Ok (getpriority (thread_view cur) (thread_view <$> k_tasks k) which who, Nothing)
  | GetPgid pid => Ok (getpgid (group_view k) (kt_proc cur) pid, Nothing)
  | GetPgrp => Ok (getpgrp (group_view k) (kt_proc cur), Nothing)
  | GetSid pid => Ok (getsid (group_view k) (kt_proc cur) pid, Nothing)
  | GetRlimit resource w => let '(r, l) := getrlimit (limited_view cur) resource w in Ok (r, TheLimit l)
  | GetPid => Ok (getpid (usage_view cur), Nothing)
  | GetTid => Ok (gettid (usage_view cur), Nothing)
  | GetPpid => Ok (getppid (usage_view cur), Nothing)
  | Times tbuf => let '(r, tms) := times (usage_view cur) tbuf in Ok (r, TheTimes tms)
  | GetRusage who w => '(r, u) ← sys_getrusage (usage_view cur) who w; Ok (r, TheUsage u)
  | Sysinfo w => '(r, i) ← sys_sysinfo w; Ok (r, TheInfo i)
  | GetCpu cpup nodep => let '(r, c, n) := getcpu cpup nodep in Ok (r, TheCpu c n)
  | NewUname name =>
    let '(r, mem) := newuname (ac_personality (kt_account cur)) (k_uts k) (user_bytes name) in Ok (r, Memory mem)
  | PsCounter num =>
    let '(r, mem) := ps_counter (state_view <$> k_tasks k) (user_copied num 4) (user_bytes num) in Ok (r, Memory mem)
  | PsState buf =>
    let states := state_view <$> k_tasks k in
    '(r, mem) ← ps_state kmalloc states states (user_copied buf (32 * lenZ states)) (user_bytes buf);
    Ok (r, Memory mem)
  end.

(** ** The way in *)

(** The types of the parameters and what a register becomes ([__SC_CAST]). *)
Inductive ctype := C_int | C_pid_t | C_uint | C_uid_t | C_gid_t | C_ulong | C_pointer.

Definition cast (t : ctype) (a : Z) : Z :=
  match t with
  | C_int | C_pid_t => s32 a
  | C_uint | C_uid_t | C_gid_t => u32 a
  | C_ulong | C_pointer => u64 a
  end.

(** SYSCALL_DEFINEx: the function with the name of the call casts the registers
    and calls the body. *)
Inductive body := Do (c : call) | Ask (q : query).
Definition handler : Type := list Z → body.
Definition SYSCALL_DEFINE0 (body : body) : handler := λ _, body.
Definition SYSCALL_DEFINE1 (t1 : ctype) (body : Z → body) : handler := λ r, body (cast t1 (r !!! 0%nat)).
Definition SYSCALL_DEFINE2 t1 (t2 : ctype) (body : Z → Z → body) : handler :=
  λ r, SYSCALL_DEFINE1 t2 (body (cast t1 (r !!! 0%nat))) (tail r).
Definition SYSCALL_DEFINE3 t1 (t2 t3 : ctype) (body : Z → Z → Z → body) : handler :=
  λ r, SYSCALL_DEFINE2 t2 t3 (body (cast t1 (r !!! 0%nat))) (tail r).
Definition SYSCALL_DEFINE4 t1 (t2 t3 t4 : ctype) (body : Z → Z → Z → Z → body) : handler :=
  λ r, SYSCALL_DEFINE3 t2 t3 t4 (body (cast t1 (r !!! 0%nat))) (tail r).
Definition SYSCALL_DEFINE5 t1 (t2 t3 t4 t5 : ctype) (body : Z → Z → Z → Z → Z → body) : handler :=
  λ r, SYSCALL_DEFINE4 t2 t3 t4 t5 (body (cast t1 (r !!! 0%nat))) (tail r).

(** Two numbers of 64 bits at an address. *)
Definition user_pair (addr : Z) : option (Z * Z) :=
  (λ b, (u64 (le (slice 0 8 b)), u64 (le (slice 8 8 b)))) <$> user_read addr 16.

Definition new_rlim_at (addr : Z) : user_ptr rlimit64 :=
  if addr =? 0 then Null
  else match user_pair addr with Some (c, m) => Points (mkRlimit64 c m) | None => Faults end.
Definition old_rlim_at (addr : Z) : user_ptr unit :=
  if addr =? 0 then Null else if user_writable addr then Points tt else Faults.
Definition rlim_at (addr : Z) : option rlimit := (λ '(c, m), mkRlimit c m) <$> user_pair addr.

(** A pointer that may be NULL: can it be written? *)
Definition writable_at (addr : Z) : option bool := if addr =? 0 then None else Some (user_writable addr).

(** The prototypes in the order of the header, with the numbers of the table. *)
Definition process_entries : list (Z * handler) := [
  (100, SYSCALL_DEFINE1 C_pointer (λ p, Ask (Times (writable_at p))));
  (186, SYSCALL_DEFINE0 (Ask GetTid));
  (39, SYSCALL_DEFINE0 (Ask GetPid));
  (110, SYSCALL_DEFINE0 (Ask GetPpid))
].

Definition id_group_entries : list (Z * handler) := [
  (102, SYSCALL_DEFINE0 (Ask Getuid));
  (107, SYSCALL_DEFINE0 (Ask Geteuid));
  (104, SYSCALL_DEFINE0 (Ask Getgid));
  (108, SYSCALL_DEFINE0 (Ask Getegid));
  (118, SYSCALL_DEFINE3 C_pointer C_pointer C_pointer
    (λ r e s, Ask (GetResuid (user_writable r, user_writable e, user_writable s))));
  (120, SYSCALL_DEFINE3 C_pointer C_pointer C_pointer
    (λ r e s, Ask (GetResgid (user_writable r, user_writable e, user_writable s))));
  (121, SYSCALL_DEFINE1 C_pid_t (λ p, Ask (GetPgid p)));
  (111, SYSCALL_DEFINE0 (Ask GetPgrp));
  (124, SYSCALL_DEFINE1 C_pid_t (λ p, Ask (GetSid p)));
  (114, SYSCALL_DEFINE2 C_gid_t C_gid_t (λ r e, Do (IdCall (Setregid r e))));
  (106, SYSCALL_DEFINE1 C_gid_t (λ g, Do (IdCall (Setgid g))));
  (113, SYSCALL_DEFINE2 C_uid_t C_uid_t (λ r e, Do (IdCall (Setreuid r e))));
  (105, SYSCALL_DEFINE1 C_uid_t (λ u, Do (IdCall (Setuid u))));
  (117, SYSCALL_DEFINE3 C_uid_t C_uid_t C_uid_t (λ r e s, Do (IdCall (Setresuid r e s))));
  (119, SYSCALL_DEFINE3 C_gid_t C_gid_t C_gid_t (λ r e s, Do (IdCall (Setresgid r e s))));
  (122, SYSCALL_DEFINE1 C_uid_t (λ u, Do (IdCall (Setfsuid u))));
  (123, SYSCALL_DEFINE1 C_gid_t (λ g, Do (IdCall (Setfsgid g))));
  (109, SYSCALL_DEFINE2 C_pid_t C_pid_t (λ p g, Do (SetPgid p g)));
  (112, SYSCALL_DEFINE0 (Do SetSid))
].

Definition priority_entries : list (Z * handler) := [
  (141, SYSCALL_DEFINE3 C_int C_int C_int (λ which who n, Do (SetPriority which who n)));
  (140, SYSCALL_DEFINE2 C_int C_int (λ which who, Ask (GetPriority which who)))
].

Definition name_limit_entries : list (Z * handler) := [
  (170, SYSCALL_DEFINE2 C_pointer C_int (λ name len, Do (SetHostname (user_read name len) len)));
  (171, SYSCALL_DEFINE2 C_pointer C_int (λ name len, Do (SetDomainname (user_read name len) len)));
  (63, SYSCALL_DEFINE1 C_pointer (λ name, Ask (NewUname name)));
  (97, SYSCALL_DEFINE2 C_uint C_pointer (λ r p, Ask (GetRlimit r (user_writable p))));
  (160, SYSCALL_DEFINE2 C_uint C_pointer (λ r p, Do (SetRlimit r (rlim_at p))));
  (302, SYSCALL_DEFINE4 C_pid_t C_uint C_pointer C_pointer
    (λ pid r new old, Do (PrLimit64 pid r (new_rlim_at new) (old_rlim_at old))));
  (98, SYSCALL_DEFINE2 C_int C_pointer (λ who ru, Ask (GetRusage who (user_writable ru))));
  (95, SYSCALL_DEFINE1 C_int (λ mask, Do (Umask mask)))
].

Definition prctl_entries : list (Z * handler) := [
  (157, SYSCALL_DEFINE5 C_int C_ulong C_ulong C_ulong C_ulong
    (λ option a2 a3 a4 a5, Do (DoPrctl (PrctlCall option a2 a3 a4 a5))))
].

Definition sysinfo_entries : list (Z * handler) := [
  (99, SYSCALL_DEFINE1 C_pointer (λ info, Ask (Sysinfo (user_writable info))))
].

Definition getcpu_entries : list (Z * handler) := [
  (309, SYSCALL_DEFINE3 C_pointer C_pointer C_pointer (λ cpu node _, Ask (GetCpu (writable_at cpu) (writable_at node))))
].

Definition ps_entries : list (Z * handler) := [
  (548, SYSCALL_DEFINE1 C_pointer (λ num, Ask (PsCounter num)));
  (549, SYSCALL_DEFINE1 C_pointer (λ buf, Ask (PsState buf)))
].

Definition sys_call_table : list (Z * handler) :=
  process_entries ++ id_group_entries ++ priority_entries ++ name_limit_entries ++ prctl_entries ++
  sysinfo_entries ++ getcpu_entries ++ ps_entries.

(** The call that a number and the registers stand for; [None] for the calls of
    other files and numbers without a call. *)
Definition decode (nr : Z) (regs : list Z) : option body :=
  (λ '(_, (_, h)), h regs) <$> list_find (λ e, e.1 = nr) sys_call_table.

Definition serve_body (k : kernel) (cur : ktask) (b : body) : res ((Z * answer) * kernel) :=
  match b with
  | Do c => let '(r, k') := serve_call k cur c in Ok ((r, Nothing), k')
  | Ask q => a ← serve_query k cur q; Ok (a, k)
  end.

(** A process makes a call: what it gets, and the state; [None] when there is no
    such process or call. *)
Record request := Request { rq_pid : Z; rq_nr : Z; rq_regs : list Z }.

Definition kernel_step (k : kernel) (q : request) : res (option (Z * answer) * kernel) :=
  match list_find (λ t, kt_pid t = rq_pid q) (k_tasks k), decode (rq_nr q) (rq_regs q) with
  | Some (_, cur), Some b => '(a, k') ← serve_body k cur b; Ok (Some a, k')
  | _, _ => Ok (None, k)
  end.

Fixpoint kernel_run (k : kernel) (qs : list request) : res (list (option (Z * answer)) * kernel) :=
  match qs with
  | [] => Ok ([], k)
  | q :: qs =>
    '(a, k1) ← kernel_step k q;
    '(more, k2) ← kernel_run k1 qs;
    Ok (a :: more, k2)
  end.
End kernel.

(** ** What holds of the system *)

Section theorems.
Context `{HL : Linux, HP : PidNamespace, HPl : Platform, !Scheduler, !Groups, !Limits, !AddressSpace, !Processes,
  !Uts, !Clock, !Statistics, !Heap}.

(** The most processes there can be. *)
Definition PID_MAX_LIMIT : Z := 4194304.

(** What is taken of the rest of the kernel: the security hook of prctl leaves
    valid credentials, the memory statistics fit their words, and kmalloc finds
    room for the records of all processes. *)
Record rest_ok : Prop := {
  ro_hook c o a2 a3 a4 a5 : cred_ok c → cred_ok (security_task_prctl c o a2 a3 a4 a5).2;
  ro_info : info_ok raw_info;
  ro_heap n : 0 <= n <= 32 * PID_MAX_LIMIT → ∃ block, kmalloc n = Some block ∧ n <= lenZ block
}.

Record ktask_ok (t : ktask) : Prop := {
  ko_leader : pr_group_leader (kt_proc t) = kt_pid t;
  ko_cred : cred_ok (kt_cred t);
  ko_self : Prctl.task_ok (kt_self t);
  ko_nice : MIN_NICE <= kt_nice t <= MAX_NICE;
  ko_limits : limits_ok (kt_rlim t);
  ko_umask : 0 <= kt_umask t <= S_IRWXUGO
}.

Record kernel_ok (k : kernel) : Prop := {
  ko_pids : NoDup (kt_pid <$> k_tasks k);
  ko_few : lenZ (k_tasks k) <= PID_MAX_LIMIT;
  ko_tasks : Forall ktask_ok (k_tasks k);
  ko_groups : groups_ok (group_view k);
  ko_uts : uts_ok (k_uts k)
}.

(** What the calls pass to the components is of the width that they take. *)
Definition call_ok (c : call) : Prop :=
  match c with
  | PrLimit64 _ resource new _ => 0 <= resource ∧ match new with Points l => u64_limit l | _ => True end
  | SetRlimit resource new =>
    0 <= resource ∧ match new with Some l => 0 <= rlim_cur l <= RLIM_INFINITY ∧ 0 <= rlim_max l <= RLIM_INFINITY
                    | None => True end
  | DoPrctl c => word (pc_arg2 c) ∧ word (pc_arg4 c)
  | _ => True
  end.

(** What a call by a task with the credentials [cur] may do to a task. *)
Record kchange (cur : cred) (t t' : ktask) : Prop := {
  kc_pid : kt_pid t' = kt_pid t ∧ pr_group_leader (kt_proc t') = pr_group_leader (kt_proc t);
  kc_cred : kt_cred t' = kt_cred t ∨ id_change (kt_cred t) (kt_cred t') ∨
    ∃ o a2 a3 a4 a5, kt_cred t' = (security_task_prctl (kt_cred t) o a2 a3 a4 a5).2;
  kc_nice : kt_nice t' = kt_nice t ∨ MIN_NICE <= kt_nice t' <= MAX_NICE;
  kc_self : since (kt_self t) (kt_self t');
  kc_rlim : kt_rlim t' = kt_rlim t ∨ ∃ resource new,
    0 <= resource ∧ limit_ok resource new ∧
    (rlim_max (kt_rlim t !!! Z.to_nat resource) < rlim_max new → capable cur CAP_SYS_RESOURCE = true) ∧
    kt_rlim t' = <[Z.to_nat resource := new]> (kt_rlim t);
  kc_umask : kt_umask t' = kt_umask t ∨ 0 <= kt_umask t' <= S_IRWXUGO;
  kc_account : kt_account t' = kt_account t
}.

Lemma kchange_refl cur t : kchange cur t t.
Proof. split; [done|by left|by left|apply since_refl|by left|by left|done]. Qed.

(** The state after a call by [cur], a task of [k]: all tasks change by one
    function. *)
Record kstep (cur : cred) (k k' : kernel) : Prop := {
  ks_tasks : ∃ f, k_tasks k' = f <$> k_tasks k ∧ ∀ t, t ∈ k_tasks k → kchange cur t (f t);
  ks_groups : groups_ok (group_view k');
  ks_user_ns : k_uts_user_ns k' = k_uts_user_ns k;
  ks_uts : k_uts k' = k_uts k ∨ ns_capable cur (k_uts_user_ns k) CAP_SYS_ADMIN = true ∧ uts_ok (k_uts k')
}.

(** *** The views *)

Lemma index_lookup {A} (f : ktask → A) l i a :
  NoDup (kt_pid <$> l) → index f l !! i = Some a ↔ ∃ t, t ∈ l ∧ kt_pid t = i ∧ f t = a.
Proof.
  intros Hnd. unfold index. rewrite <- elem_of_list_to_map.
  - rewrite list_elem_of_fmap. split; [intros (t & [= -> ->] & ?)|intros (t & ? & <- & <-)]; eauto.
  - by rewrite <- list_fmap_compose.
Qed.

Lemma index_in {A} (f : ktask → A) l t : NoDup (kt_pid <$> l) → t ∈ l → index f l !! kt_pid t = Some (f t).
Proof. intros Hnd Ht. apply index_lookup; eauto. Qed.

Lemma same_task l t u : NoDup (kt_pid <$> l) → t ∈ l → u ∈ l → kt_pid t = kt_pid u → t = u.
Proof.
  intros Hnd Ht Hu E. pose proof (index_in id l t Hnd Ht) as E1. pose proof (index_in id l u Hnd Hu) as E2.
  rewrite E in E1. unfold id in *. congruence.
Qed.

Lemma index_fmap {A} (g : ktask → A) f l :
  (∀ t, t ∈ l → kt_pid (f t) = kt_pid t ∧ g (f t) = g t) → index g (f <$> l) = index g l.
Proof.
  intros Hf. unfold index. f_equal. rewrite <- list_fmap_compose. apply list_fmap_ext. intros i t Ht.
  cbn. destruct (Hf t) as [-> ->]; [by eapply list_elem_of_lookup_2|done].
Qed.

(** A table of the tasks that was changed is seen as it is. *)
Lemma group_view_back k m :
  NoDup (kt_pid <$> k_tasks k) → (∀ i p, m !! i = Some p → pr_pid p = i) → dom m = dom (group_view k) →
  group_view (change_tasks (group_back m) k) = m.
Proof.
  intros Hnd Hpid Hdom. unfold group_view, change_tasks. cbn [k_tasks with_tasks].
  assert (Hb : ∀ t, t ∈ k_tasks k → ∃ p, m !! kt_pid t = Some p ∧ group_back m t = set_proc p t ∧ pr_pid p = kt_pid t).
  { intros t Ht. assert (Hin : kt_pid t ∈ dom m) by (rewrite Hdom; apply elem_of_dom; eexists; by apply index_in).
    apply elem_of_dom in Hin as [p Hp]. exists p. unfold group_back. rewrite Hp. eauto. }
  assert (Epids : kt_pid <$> (group_back m <$> k_tasks k) = kt_pid <$> k_tasks k).
  { rewrite <- list_fmap_compose. apply list_fmap_ext. intros i t Ht%list_elem_of_lookup_2. cbn.
    destruct (Hb t Ht) as (p & _ & -> & E). exact E. }
  apply map_eq. intros i. apply option_eq. intros p. rewrite index_lookup by (by rewrite Epids). split.
  - intros (t' & Ht & <- & <-). apply list_elem_of_fmap in Ht as (t & -> & Ht).
    destruct (Hb t Ht) as (p & Hp & -> & E). change (m !! pr_pid p = Some p). by rewrite E.
  - intros Hp. assert (Hin : i ∈ dom (group_view k)) by (rewrite <- Hdom; apply elem_of_dom; eauto).
    apply elem_of_dom in Hin as [q Hq]. apply index_lookup in Hq as (t & Ht & <- & _); [|done].
    destruct (Hb t Ht) as (p' & Hp' & E & Epid). simplify_eq. exists (group_back m t).
    rewrite E. split_and!; [rewrite <- E; by apply list_elem_of_fmap_2|exact Epid|done].
Qed.

(** *** The calls one by one *)

Lemma kstep_refl cur k : kernel_ok k → kstep cur k k.
Proof.
  intros Hk. split; [|apply Hk|done|by left]. exists id. split; [by rewrite list_fmap_id|]. intros. apply kchange_refl.
Qed.

(** A change of tasks that leaves their places alone. *)
Lemma kstep_tasks cur k f :
  kernel_ok k → (∀ t, t ∈ k_tasks k → kt_proc (f t) = kt_proc t ∧ kchange cur t (f t)) →
  kstep cur k (change_tasks f k).
Proof.
  intros Hk Hf. split; [|..|done|by left].
  - exists f. split; [done|]. intros t Ht. by apply Hf.
  - unfold group_view, change_tasks. cbn [k_tasks with_tasks]. rewrite index_fmap; [apply Hk|].
    intros t Ht. unfold kt_pid. by rewrite (proj1 (Hf t Ht)).
Qed.

Lemma kstep_own k cur f :
  kernel_ok k → cur ∈ k_tasks k → kt_proc (f cur) = kt_proc cur → kchange (kt_cred cur) cur (f cur) →
  kstep (kt_cred cur) k (change_task (kt_pid cur) f k).
Proof.
  intros Hk Hcur Hp Hc. apply kstep_tasks; [done|]. intros t Ht. cbn.
  destruct (Z.eqb_spec (kt_pid t) (kt_pid cur)) as [E|]; [|split; [done|apply kchange_refl]].
  by rewrite (same_task (k_tasks k) t cur) by (done || apply Hk).
Qed.

Lemma id_call_step k cur c :
  kernel_ok k → cur ∈ k_tasks k → kstep (kt_cred cur) k (serve_call k cur (IdCall c)).2.
Proof.
  intros Hk Hcur. cbn [serve_call]. pose proof (id_step_changes c (id_view cur)) as Hc.
  destruct (run (id_step c) (id_view cur)) as [r v]. cbn [snd] in *. apply kstep_own; [done..|]. split; cbn.
  - done.
  - destruct Hc as [Hc|Hc]; [by left|by right; left].
  - by left.
  - eapply since_change; [apply since_refl|intros []; by split|done..].
  - by left.
  - by left.
  - done.
Qed.

Lemma setpriority_step k cur which who n :
  kernel_ok k → cur ∈ k_tasks k → kstep (kt_cred cur) k (serve_call k cur (SetPriority which who n)).2.
Proof.
  intros Hk Hcur. cbn [serve_call].
  assert (Hs : system_ok (thread_view cur) (thread_view <$> k_tasks k)).
  { split.
    - rewrite <- list_fmap_compose. apply Hk.
    - by apply list_elem_of_fmap_2.
    - apply Forall_fmap. eapply Forall_impl; [apply Hk|]. intros t Ht. apply Ht. }
  pose proof (setpriority_range _ _ which who n Hs) as Hr.
  destruct (setpriority (thread_view cur) (thread_view <$> k_tasks k) which who n) as [r threads].
  cbn [snd] in *.
  apply kstep_tasks; [done|]. intros t _. unfold thread_back.
  destruct (list_find _ threads) as [[i p]|] eqn:E; [|split; [done|apply kchange_refl]].
  apply list_find_Some in E as (Hp & _). split; [done|]. split; cbn; [done|by left| |apply since_refl|by left|by left|done].
  right. rewrite Forall_lookup in Hr. by eapply Hr.
Qed.

(** A new table of the places in which one leader has changed. *)
Lemma groups_step cur k i p p' :
  kernel_ok k → group_view k !! i = Some p → pr_pid p' = pr_pid p → pr_group_leader p' = pr_group_leader p →
  groups_ok (<[i := p']> (group_view k)) → kstep cur k (change_tasks (group_back (<[i := p']> (group_view k))) k).
Proof.
  intros Hk Hi Epid Elead Hok. split; [|..|done|by left].
  - eexists. split; [done|]. intros t Ht. unfold group_back.
    pose proof (index_in kt_proc (k_tasks k) t (ko_pids k Hk) Ht) as Ev. fold (group_view k) in Ev.
    destruct (decide (i = kt_pid t)) as [->|]; [rewrite lookup_insert_eq|rewrite lookup_insert_ne, Ev by done].
    + assert (p = kt_proc t) as -> by congruence.
      split; cbn; [by rewrite Elead|by left|by left|apply since_refl|by left|by left|done].
    + destruct t. apply kchange_refl.
  - rewrite group_view_back; [done|apply Hk|apply Hok|].
    rewrite dom_insert_L. assert (i ∈ dom (group_view k)) by (apply elem_of_dom; eauto). set_solver.
Qed.

(** The table as it was. *)
Lemma groups_step_none cur k : kernel_ok k → kstep cur k (change_tasks (group_back (group_view k)) k).
Proof.
  intros Hk. apply kstep_tasks; [done|]. intros t Ht. unfold group_back, group_view.
  rewrite index_in by (done || apply Hk). destruct t. split; [done|apply kchange_refl].
Qed.

Lemma leads_view k cur : kernel_ok k → cur ∈ k_tasks k → leads (group_view k) (kt_pid cur) (kt_proc cur).
Proof.
  intros Hk Hcur. split; [apply index_in; [apply Hk|done]|].
  unfold thread_group_leader. apply Z.eqb_eq. pose proof (ko_tasks k Hk) as Ht. rewrite Forall_forall in Ht.
  by apply (Ht cur).
Qed.

Lemma group_call_step k cur pid pgid :
  kernel_ok k → cur ∈ k_tasks k →
  kstep (kt_cred cur) k (serve_call k cur (SetPgid pid pgid)).2 ∧ kstep (kt_cred cur) k (serve_call k cur SetSid).2.
Proof.
  intros Hk Hcur. pose proof (leads_view k cur Hk Hcur) as Hl. pose proof (ko_groups k Hk) as Hg.
  cbn [serve_call]. split.
  - pose proof (setpgid_cases (group_view k) (kt_proc cur) _ pid pgid Hg Hl) as Hc.
    destruct (setpgid _ _ _ _) as [r m]. cbn [snd].
    destruct Hc as [->|(_ & i & p & pgrp & Hj & ->)]; [by apply groups_step_none|].
    eapply groups_step; [done|apply Hj|done|done|by apply joins_groups_ok].
  - destruct (setsid_cases (group_view k) (kt_proc cur) _ Hg Hl) as [[-> _]|(-> & Hn & Hf)]; cbn [snd];
      [by apply groups_step_none|].
    eapply groups_step; [done|apply Hl|done|done|by apply session_leader_groups_ok].
Qed.

(** What changes a limit. *)
Lemma limit_change_kchange cur t l resource new64 :
  u64_limit new64 → ktask_ok t →
  limit_change cur resource (limited_view t) l (mkRlimit (rlim64_cur new64) (rlim64_max new64)) →
  kchange cur t (set_limits (li_rlim l) (li_cpu l) t).
Proof.
  intros [Hc Hm] Ht (Hr & Ho & _ & Hmax & _ & _ & _ & El). cbn in Hmax, El. cbn [rlim_cur rlim_max] in Ho.
  split; [done|by left|by left|apply since_refl|right|by left|done].
  exists resource, (stored resource (mkRlimit (rlim64_cur new64) (rlim64_max new64))).
  split_and!; [apply Hr| | |exact El].
  { apply stored_ok; cbn [rlim_cur rlim_max]; change RLIM_INFINITY with RLIM64_INFINITY; done. }
  intros Hlt. apply Hmax. revert Hlt. unfold stored. by case_goal.
Qed.

Lemma limit_view_step k cur pid resource new old :
  kernel_ok k → cur ∈ k_tasks k → call_ok (PrLimit64 pid resource new old) →
  kstep (kt_cred cur) k (serve_call k cur (PrLimit64 pid resource new old)).2.
Proof.
  intros Hk Hcur [Hr Hnew]. cbn [serve_call].
  assert (Hin : ∀ t, t ∈ k_tasks k → limit_view k !! kt_pid t = Some (limited_view t))
    by (intros; apply index_in; [apply Hk|done]).
  assert (Hpid : ∀ i l, limit_view k !! i = Some l → li_pid l = i)
    by (intros i l Hi; apply index_lookup in Hi as (t & _ & <- & <-); [done|apply Hk]).
  destruct (prlimit64 _ _ _ _ _ _) as [[r m] out] eqn:E. cbn [snd].
  apply prlimit64_cases in E; [|done|done|by apply Hin].
  apply kstep_tasks; [done|]. intros t Ht. unfold limit_back.
  destruct E as [->|(i & l & l' & new64 & Hl & -> & _ & Hch & ->)].
  { rewrite Hin by done. destruct t. split; [done|apply kchange_refl]. }
  destruct (decide (i = kt_pid t)) as [->|].
  - rewrite lookup_insert_eq. rewrite Hin in Hl by done. injection Hl as <-. split; [done|].
    rewrite rlim64_to_rlim_id in Hch by done. eapply limit_change_kchange; [done| |exact Hch].
    pose proof (ko_tasks k Hk) as Hall. rewrite Forall_forall in Hall. auto.
  - rewrite lookup_insert_ne, Hin by done. destruct t. split; [done|apply kchange_refl].
Qed.

Lemma setrlimit_step k cur resource new :
  kernel_ok k → cur ∈ k_tasks k → call_ok (SetRlimit resource new) →
  kstep (kt_cred cur) k (serve_call k cur (SetRlimit resource new)).2.
Proof.
  intros Hk Hcur [Hr Hnew]. cbn [serve_call]. unfold setrlimit.
  assert (Hsame : kchange (kt_cred cur) cur (set_limits (kt_rlim cur) (kt_cpu cur) cur))
    by (destruct cur; apply kchange_refl).
  destruct new as [x|]; [|by apply kstep_own].
  destruct (do_prlimit _ _ _ _) as [[r l] out] eqn:E. cbn [snd].
  apply do_prlimit_cases in E as [(-> & _)|(_ & _ & y & [= <-] & Hch)]; [by apply kstep_own| |done].
  apply kstep_own; [done..|]. eapply (limit_change_kchange _ _ _ _ (mkRlimit64 (rlim_cur x) (rlim_max x))).
  - exact Hnew.
  - pose proof (ko_tasks k Hk) as Hall. rewrite Forall_forall in Hall. auto.
  - by destruct x.
Qed.

Lemma names_step k cur user len :
  kernel_ok k →
  kstep (kt_cred cur) k (serve_call k cur (SetHostname user len)).2 ∧
  kstep (kt_cred cur) k (serve_call k cur (SetDomainname user len)).2.
Proof.
  intros Hk.
  assert (Hgo : ∀ c, match c with UtsName.Sethostname x _ _ | UtsName.Setdomainname x _ _ => x = kt_cred cur end →
    kstep (kt_cred cur) k (with_uts (name_step (k_uts_user_ns k) (k_uts k) c) k)).
  { intros c Hc. destruct (kstep_refl (kt_cred cur) k Hk) as [S1 S2 S3 _]. split; [exact S1|exact S2|exact S3|]. cbn.
    destruct (ns_capable (kt_cred cur) (k_uts_user_ns k) CAP_SYS_ADMIN) eqn:Ecap.
    - right. split; [done|]. apply name_step_ok, Hk.
    - left. apply name_step_unprivileged. by destruct c; rewrite Hc. }
  split; cbn [serve_call].
  - specialize (Hgo (UtsName.Sethostname (kt_cred cur) user len) eq_refl). cbn [name_step] in Hgo.
    by destruct (sethostname _ _ _ _ _).
  - specialize (Hgo (UtsName.Setdomainname (kt_cred cur) user len) eq_refl). cbn [name_step] in Hgo.
    by destruct (setdomainname _ _ _ _ _).
Qed.

Lemma prctl_call_step k cur c :
  kernel_ok k → cur ∈ k_tasks k → call_ok (DoPrctl c) → kstep (kt_cred cur) k (serve_call k cur (DoPrctl c)).2.
Proof.
  intros Hk Hcur [A2 A4]. destruct c as [o a2 a3 a4 a5]. cbn [serve_call pc_arg2 pc_arg4] in *.
  set (s0 := mkPstate (kt_self cur) []).
  pose proof (prctl_cred o a2 a3 a4 a5 s0) as Ec.
  pose proof (keeps_run _ _ s0 (prctl_since (kt_self cur) o a2 a3 a4 a5 A2 A4) (since_refl _)) as Hs.
  destruct (run _ s0) as [r s]. cbn [snd] in *. apply kstep_own; [done..|].
  split; cbn; [done| |by left|exact Hs|by left|by left|done]. right; right. unfold kt_cred. cbn. eauto 10.
Qed.

Lemma umask_step k cur mask :
  kernel_ok k → cur ∈ k_tasks k → kstep (kt_cred cur) k (serve_call k cur (Umask mask)).2.
Proof.
  intros Hk Hcur. cbn [serve_call]. pose proof (umask_range (usage_view cur) mask) as Hu.
  destruct (umask _ _) as [r p]. cbn [snd] in *. apply kstep_own; [done..|].
  split; cbn; [done|by left|by left|apply since_refl|by left|by right|done].
Qed.

Lemma serve_call_step k cur c :
  kernel_ok k → cur ∈ k_tasks k → call_ok c → kstep (kt_cred cur) k (serve_call k cur c).2.
Proof.
  intros Hk Hcur Hc.
  destruct c; try by apply kstep_refl.
  - by apply id_call_step.
  - by apply setpriority_step.
  - by apply group_call_step.
  - by apply (group_call_step k cur 0 0).
  - by apply limit_view_step.
  - by apply setrlimit_step.
  - by apply names_step.
  - by apply names_step.
  - by apply umask_step.
  - by apply prctl_call_step.
Qed.

(** *** Every question is answered *)

Lemma ps_state_answered k mem copied :
  rest_ok → kernel_ok k → let states := state_view <$> k_tasks k in
  ∃ mem', ps_state kmalloc states states copied mem = Ok (0, mem').
Proof.
  intros Hr Hk states. assert (Hlen : lenZ states <= PID_MAX_LIMIT) by (unfold states; rewrite length_fmap; apply Hk).
  destruct (ro_heap Hr (32 * lenZ states)) as (block & Hb & Hl); [lia|].
  eexists. apply (ps_state_same _ _ _ _ block); [unfold PID_MAX_LIMIT in Hlen; lia|done..].
Qed.

Lemma serve_query_answered k cur q : rest_ok → kernel_ok k → ∃ a, serve_query k cur q = Ok a.
Proof.
  intros Hr Hk. destruct q; cbn [serve_query]; try by eexists.
  - destruct (getresuid _ _). by eexists.
  - destruct (getresgid _ _). by eexists.
  - destruct (getrlimit _ _ _). by eexists.
  - destruct (times _ _). by eexists.
  - destruct (sys_getrusage_returns (usage_view cur) who writable) as ([r u] & -> & _). by eexists.
  - unfold sys_sysinfo, do_sysinfo. rewrite scale_to_bytes_spec by apply Hr. res_steps. case_goal; by eexists.
  - destruct (getcpu _ _) as [[? ?] ?]. by eexists.
  - destruct (newuname _ _ _). by eexists.
  - destruct (ps_state_answered k (user_bytes buf) (user_copied buf (32 * lenZ (state_view <$> k_tasks k))) Hr Hk)
      as [mem ->]. by eexists.
Qed.

(** *** Any registers make a call that is well formed *)

Definition body_ok (b : body) : Prop := match b with Do c => call_ok c | Ask _ => True end.

Lemma entries_ok : Forall (λ e, ∀ regs, body_ok (e.2 regs)) sys_call_table.
Proof.
  assert (Hu64 : ∀ x, 0 <= u64 x < 2 ^ 64) by (intros x; apply Z.mod_pos_bound; lia).
  assert (Hpair : ∀ a p, user_pair a = Some p → (0 <= p.1 <= RLIM_INFINITY) ∧ (0 <= p.2 <= RLIM_INFINITY)).
  { intros a p (b & _ & ->)%fmap_Some. cbn [fst snd]. pose proof (Hu64 (le (slice 0 8 b))).
    pose proof (Hu64 (le (slice 8 8 b))). unfold RLIM_INFINITY. lia. }
  unfold sys_call_table, process_entries, id_group_entries, priority_entries, name_limit_entries, prctl_entries,
    sysinfo_entries, getcpu_entries, ps_entries. cbn [app].
  repeat (apply Forall_cons; split); try apply Forall_nil_2; cbn [snd]; intros regs; try exact I.
  - split; [apply u32_range|]. unfold rlim_at. destruct (user_pair _) as [[c m]|] eqn:E; cbn; [|done].
    exact (Hpair _ _ E).
  - split; [apply u32_range|]. unfold new_rlim_at. case_goal; [done|].
    destruct (user_pair _) as [[c m]|] eqn:E; [|done]. exact (Hpair _ _ E).
  - split; apply Hu64.
Qed.

Lemma decode_ok nr regs b : decode nr regs = Some b → body_ok b.
Proof.
  unfold decode. intros ([i [n h]] & E & ->)%fmap_Some. apply list_find_Some in E as (E & _).
  pose proof entries_ok as Hall. rewrite Forall_lookup in Hall. exact (Hall i (n, h) E regs).
Qed.

Lemma kernel_step_kstep k q :
  rest_ok → kernel_ok k →
  ∃ a k' cur, kernel_step k q = Ok (a, k') ∧ kstep cur k k' ∧ (k' = k ∨ ∃ t, t ∈ k_tasks k ∧ cur = kt_cred t).
Proof.
  intros Hr Hk. unfold kernel_step. set (any := mkCred 0 0 0 0 0 0 0 0 (mkUser 0 0 0) 0 0).
  assert (Hno : kstep any k k) by by apply kstep_refl.
  destruct (list_find _ _) as [[i cur]|] eqn:E; [|exists None, k, any; auto].
  destruct (decode _ _) as [[c|qu]|] eqn:Ed; [| |exists None, k, any; auto]; cbn [serve_body].
  - apply list_find_Some in E as (E%list_elem_of_lookup_2 & _). apply decode_ok in Ed.
    pose proof (serve_call_step k cur c Hk E Ed) as Hs. destruct (serve_call k cur c) as [r k']. cbn [snd] in Hs.
    exists (Some (r, Nothing)), k', (kt_cred cur). split_and!; [done..|right; eauto].
  - destruct (serve_query_answered k cur qu Hr Hk) as [a ->]. exists (Some a), k, any. auto.
Qed.

(** A relation that every step keeps holds after any run, and runs do not fail. *)
Lemma kernel_run_ind (I : kernel → Prop) k qs :
  rest_ok → (∀ k, I k → kernel_ok k) →
  (∀ k k' cur, I k → kstep cur k k' → k' = k ∨ (∃ t, t ∈ k_tasks k ∧ cur = kt_cred t) → I k') →
  I k → ∃ answers k', kernel_run k qs = Ok (answers, k') ∧ length answers = length qs ∧ I k'.
Proof.
  intros Hr Hok Hstep. revert k. induction qs as [|q qs IH]; intros k Hk; cbn [kernel_run]; [by exists [], k|].
  destruct (kernel_step_kstep k q Hr (Hok k Hk)) as (a & k1 & cur & -> & Hs & Hc). res_steps.
  destruct (IH k1 (Hstep _ _ _ Hk Hs Hc)) as (more & k2 & -> & Hl & HI). res_steps.
  exists (a :: more), k2. cbn [length]. auto.
Qed.

(** *** Well-formedness *)

Lemma kchange_ok cur t t' : rest_ok → kchange cur t t' → ktask_ok t → ktask_ok t'.
Proof.
  intros Hrest [[Hpid Hlead] Hcred Hnice Hself Hrlim Hmask _] [L C S N R M]. split.
  - congruence.
  - destruct Hcred as [->|[Hc|(o & a2 & a3 & a4 & a5 & ->)]]; [done|by apply (ic_ok _ _ Hc)|by apply (ro_hook Hrest)].
  - by apply (si_ok _ _ Hself).
  - by destruct Hnice as [->|].
  - destruct Hrlim as [->|(resource & new & Hr & Hnew & _ & ->)]; [done|]. destruct R as [Hlen Hl].
    split; [by rewrite length_insert|]. intros i x Hx.
    apply list_lookup_insert_Some in Hx as [(<- & <- & _)|[_ Hx]]; [|by apply Hl].
    by rewrite Z2Nat.id.
  - by destruct Hmask as [->|].
Qed.

Lemma kstep_ok cur k k' : rest_ok → kstep cur k k' → kernel_ok k → kernel_ok k'.
Proof.
  intros Hrest [(f & Ef & Hf) Hg _ Hu] [P L T G U]. split; [..|done|].
  - rewrite Ef. assert (E : kt_pid <$> (f <$> k_tasks k) = kt_pid <$> k_tasks k); [|by rewrite E].
    rewrite <- list_fmap_compose. apply list_fmap_ext. intros i t Ht%list_elem_of_lookup_2. by apply Hf.
  - by rewrite Ef, length_fmap.
  - rewrite Ef. rewrite Forall_forall in T. apply Forall_fmap, Forall_forall. intros t Ht.
    eapply kchange_ok; [done|by apply Hf|by apply T].
  - destruct Hu as [->|[_ Hu]]; done.
Qed.

(** What a task keeps, whatever it and the others do. *)
Record lasting (t t' : ktask) : Prop := {
  la_pid : kt_pid t' = kt_pid t;
  la_privs : no_new_privs (kt_self t) = true → no_new_privs (kt_self t') = true;
  la_exe : exe_file_changed (t_mm (kt_self t)) = true →
    exe_file_changed (t_mm (kt_self t')) = true ∧ exe_file (t_mm (kt_self t')) = exe_file (t_mm (kt_self t))
}.

#[local] Instance lasting_preorder : PreOrder lasting.
Proof.
  split.
  - intros t. by split.
  - intros t u v [P1 N1 E1] [P2 N2 E2]. split; [congruence|auto|]. intros Hx. destruct (E1 Hx) as [Hy <-]. auto.
Qed.

(** A relation between the tasks of a state and those of the state after a step. *)
Lemma kstep_Forall2 (R : ktask → ktask → Prop) cur k k' :
  (∀ t t', t ∈ k_tasks k → kchange cur t t' → R t t') → kstep cur k k' → Forall2 R (k_tasks k) (k_tasks k').
Proof.
  intros HR [(f & -> & Hf) _ _ _]. apply Forall2_fmap_r, Forall_Forall2_diag, Forall_forall.
  intros t Ht. apply HR; [done|by apply Hf].
Qed.

Lemma kchange_lasting cur t t' : kchange cur t t' → lasting t t'.
Proof. intros Hc. destruct (kc_self _ _ _ Hc). split; [apply Hc|done|done]. Qed.

Lemma kernel_run_ok k qs :
  rest_ok → kernel_ok k →
  ∃ answers k', kernel_run k qs = Ok (answers, k') ∧ length answers = length qs ∧
    kernel_ok k' ∧ Forall2 lasting (k_tasks k) (k_tasks k').
Proof.
  intros Hr Hk.
  apply (kernel_run_ind (λ k', kernel_ok k' ∧ Forall2 lasting (k_tasks k) (k_tasks k')) k qs Hr);
    [by intros ? []| |split; [done|by apply Forall_Forall2_diag, Forall_true]].
  intros k1 k2 cur [Hok Hl] Hs _. split; [by eapply kstep_ok|].
  etrans; [exact Hl|]. eapply kstep_Forall2; [|exact Hs]. intros t t' _. apply kchange_lasting.
Qed.

(** C7: The system stays well formed whatever its processes do: any processes
    make any system calls of the table, with any numbers in the registers, in any
    order; each call returns, and still every number names one process, sessions
    and groups fit together, all credentials are valid, nice values, limits, file
    masks and memory layouts are in range, and the names of the system are
    terminated strings. What a process has renounced (new privileges, another
    executable) stays renounced. *)
Theorem kernel_stays_ok k qs :
  rest_ok → kernel_ok k →
  ∃ answers k', kernel_run k qs = Ok (answers, k') ∧ length answers = length qs ∧
    kernel_ok k' ∧ Forall2 lasting (k_tasks k) (k_tasks k').
Proof. apply kernel_run_ok. Qed.

(** *** Processes without privileges

    Ids in [hu] and [hg], and data of the security modules that are [powerless],
    give no capability; the modules do not give power to who has none. *)
Section unprivileged.
Context (hu hg powerless : Z → Prop).

Definition confined (c : cred) : Prop :=
  (∀ x, holds_uid c x → hu x) ∧ (∀ x, holds_gid c x → hg x) ∧ powerless (cr_security c).

Record no_power : Prop := {
  np_capable c ns cap : confined c → ns_capable c ns cap = false;
  np_setuid new old how : confined new → confined old → powerless (security_task_fix_setuid new old how).2;
  np_prctl c o a2 a3 a4 a5 : confined c →
    ∃ m, (security_task_prctl c o a2 a3 a4 a5).2 = with_security m c ∧ powerless m
}.

(** A task has not gained an id or a higher limit. *)
Record no_gain (t t' : ktask) : Prop := {
  ng_uids x : holds_uid (kt_cred t') x → holds_uid (kt_cred t) x;
  ng_gids x : holds_gid (kt_cred t') x → holds_gid (kt_cred t) x;
  ng_fsuid : holds_uid (kt_cred t) (cr_fsuid (kt_cred t')) ∨ cr_fsuid (kt_cred t') = cr_fsuid (kt_cred t);
  ng_fsgid : holds_gid (kt_cred t) (cr_fsgid (kt_cred t')) ∨ cr_fsgid (kt_cred t') = cr_fsgid (kt_cred t);
  ng_limits r l : kt_rlim t !! r = Some l → ∃ l', kt_rlim t' !! r = Some l' ∧ rlim_max l' <= rlim_max l
}.

#[local] Instance no_gain_preorder : PreOrder no_gain.
Proof.
  split.
  - intros t. split; auto. intros r l Hl. exists l. split; [done|lia].
  - intros t u v [U1 G1 FU1 FG1 L1] [U2 G2 FU2 FG2 L2]. split; [auto|auto|..].
    + destruct FU2 as [?|E]; [left; auto|]. rewrite E. done.
    + destruct FG2 as [?|E]; [left; auto|]. rewrite E. done.
    + intros r l Hl. destruct (L1 r l Hl) as (l1 & Hl1 & ?). destruct (L2 r l1 Hl1) as (l2 & ? & ?).
      exists l2. split; [done|lia].
Qed.

(** The new credentials of a task without power. *)
Lemma confined_change cur t t' :
  no_power → confined (kt_cred t) → kchange cur t t' →
  confined (kt_cred t') ∧ (∀ x, holds_uid (kt_cred t') x → holds_uid (kt_cred t) x) ∧
  (∀ x, holds_gid (kt_cred t') x → holds_gid (kt_cred t) x) ∧
  (holds_uid (kt_cred t) (cr_fsuid (kt_cred t')) ∨ cr_fsuid (kt_cred t') = cr_fsuid (kt_cred t)) ∧
  (holds_gid (kt_cred t) (cr_fsgid (kt_cred t')) ∨ cr_fsgid (kt_cred t') = cr_fsgid (kt_cred t)).
Proof.
  intros Hn Hc Hch. destruct (kc_cred _ _ _ Hch) as [->|[Hid|(o & a2 & a3 & a4 & a5 & ->)]].
  - split_and!; auto.
  - destruct Hid as [_ Hu Hg Hs _]. pose proof (np_capable Hn _ (cr_user_ns (kt_cred t)) CAP_SETUID Hc) as Cu.
    pose proof (np_capable Hn _ (cr_user_ns (kt_cred t)) CAP_SETGID Hc) as Cg.
    destruct (Hu Cu) as [Ku Fu], (Hg Cg) as [Kg Fg]. destruct Hc as (Cu' & Cg' & Cp).
    split_and!; [|done..]. unfold confined. split_and!; [auto..|].
    destruct Hs as [->|[how ->]]; [done|]. apply (np_setuid Hn); [|done].
    unfold confined, holds_uid, holds_gid in *. cbn. split_and!; auto.
  - destruct (np_prctl Hn _ o a2 a3 a4 a5 Hc) as (m & -> & Hm). destruct Hc as (Cu & Cg & _).
    unfold confined, holds_uid, holds_gid in *. cbn. split_and!; auto.
Qed.

Lemma no_gain_change cur t t' :
  no_power → confined cur → confined (kt_cred t) → kchange cur t t' → no_gain t t'.
Proof.
  intros Hn Hcur Hc Hch. destruct (confined_change cur t t' Hn Hc Hch) as (_ & Ku & Kg & Fu & Fg).
  split; [done..|]. intros r l Hl.
  destruct (kc_rlim _ _ _ Hch) as [->|(resource & new & _ & _ & Hmax & ->)]; [exists l; split; [done|lia]|].
  destruct (decide (r = Z.to_nat resource)) as [->|].
  - exists new. split; [by rewrite list_lookup_insert_eq by (by eapply lookup_lt_Some)|].
    rewrite (list_lookup_total_correct _ _ _ Hl) in Hmax.
    destruct (Z.le_gt_cases (rlim_max new) (rlim_max l)) as [|Hgt]; [done|].
    specialize (Hmax ltac:(lia)). unfold capable in Hmax. rewrite (np_capable Hn) in Hmax by done. discriminate.
  - exists l. split; [by rewrite list_lookup_insert_ne|lia].
Qed.

(** C8: A system without privileges cannot gain any. If no process has a
    capability, then whatever system calls the processes make, with any numbers
    in the registers and in any order, no process gets a user or group id that it
    did not hold, no hard limit of any process rises, and the names of the
    system stay; no combination of calls of the different parts - ids, limits,
    names, sessions, priorities, prctl - leads out. *)
Theorem unprivileged_system_stays k qs :
  no_power → rest_ok → kernel_ok k → Forall (λ t, confined (kt_cred t)) (k_tasks k) →
  ∃ answers k', kernel_run k qs = Ok (answers, k') ∧
    Forall2 no_gain (k_tasks k) (k_tasks k') ∧ k_uts k' = k_uts k.
Proof.
  intros Hn Hr Hk Hall.
  destruct (kernel_run_ind (λ k', kernel_ok k' ∧ Forall (λ t, confined (kt_cred t)) (k_tasks k') ∧
    Forall2 no_gain (k_tasks k) (k_tasks k') ∧ k_uts k' = k_uts k) k qs Hr)
    as (answers & k' & E & _ & _ & _ & Hg & Hu); [by intros ? []| | |by exists answers, k'].
  - intros k1 k2 cur (Hk1 & Hc1 & Hg1 & Hu1) Hs [->|(c & Hin & ->)]; [done|].
    rewrite Forall_forall in Hc1. split_and!.
    + by eapply kstep_ok.
    + destruct Hs as [(f & -> & Hf) _ _ _]. apply Forall_fmap, Forall_forall. intros t Ht.
      eapply (confined_change (kt_cred c)); [done|by apply Hc1|by apply Hf].
    + etrans; [exact Hg1|]. eapply kstep_Forall2; [|exact Hs]. intros t t' Ht Hch.
      eapply no_gain_change; [done| |by apply Hc1|exact Hch]. by apply Hc1.
    + rewrite <- Hu1. destruct (ks_uts _ _ _ Hs) as [->|[Hcap _]]; [done|].
      rewrite (np_capable Hn) in Hcap by (by apply Hc1). discriminate.
  - split_and!; [done..| |done]. by apply Forall_Forall2_diag, Forall_true.
Qed.
End unprivileged.
End theorems.

(** ** A concrete system

    A shell with number 10 and its child 11, both of user 1000. *)
#[local] Existing Instances demo_linux demo_pids demo_platform demo_scheduler demo_groups demo_limits demo_space
  demo_processes demo_uts demo_clock demo_statistics.

#[local] Instance demo_heap : Heap := {|
  kmalloc := λ n, Some (replicate (Z.to_nat n) 165); user_bytes := λ _, replicate 400 255; user_copied := λ _ n, n
|}.

Definition demo_ktask (pid : Z) (leader : bool) : ktask :=
  mkKtask (mkProc pid pid 10 10 10 leader true (Some 1)) (with_cred (demo_user_cred 1000) Prctl.demo_task) 0 true
    demo_rlims None 18 (mkAccount (pc_threads demo_process) 100 (100, 50) (1500, 700) (pc_signal demo_process)
    (Some 400) 0).
Definition demo_kernel : kernel := mkKernel [demo_ktask 10 true; demo_ktask 11 false] demo_names 0.

Lemma demo_ktask_ok pid leader : ktask_ok (demo_ktask pid leader).
Proof.
  split; [done|split; [split_and!; reflexivity..|reflexivity]| |cbn; unfold MIN_NICE, MAX_NICE; lia| |].
  - destruct demo_task_ok as [S1 S2 S3 S4 S5]. by split.
  - split; [done|]. intros i x [-> _]%lookup_replicate. split; cbn; unfold RLIM_INFINITY; lia.
  - cbn. unfold S_IRWXUGO. lia.
Qed.

Lemma demo_places i p : group_view demo_kernel !! i = Some p →
  (i = 10 ∨ i = 11) ∧ p = mkProc i i 10 10 10 (i =? 10) true (Some 1).
Proof.
  unfold group_view, index. cbn [demo_kernel k_tasks fmap list_fmap list_to_map foldr fst snd kt_pid demo_ktask kt_proc pr_pid].
  rewrite !lookup_insert_Some, lookup_empty. naive_solver.
Qed.

Lemma demo_kernel_ok : kernel_ok demo_kernel.
Proof.
  split.
  - cbn. repeat apply NoDup_cons_2; try apply NoDup_nil_2; rewrite ?elem_of_cons, ?elem_of_nil; unfold kt_pid; cbn; lia.
  - by vm_compute.
  - repeat (apply Forall_cons; split); try apply Forall_nil_2; apply demo_ktask_ok.
  - assert (Hl : ∀ i p, leads (group_view demo_kernel) i p →
      (i = 10 ∨ i = 11) ∧ p = mkProc i i 10 10 10 (i =? 10) true (Some 1)) by (intros i p [? _]; by apply demo_places).
    split.
    + intros i p [_ ->]%demo_places. done.
    + intros i j p q [_ ->]%Hl [_ ->]%Hl _. done.
    + intros i j p q [? ->]%Hl [? ->]%Hl. cbn. lia.
    + intros i p [? ->]%Hl. cbn. lia.
    + intros i j p q [? ->]%Hl [? ->]%Hl. cbn. lia.
  - exact demo_names_ok.
Qed.

(** Attempts of all kinds: root's id, a higher hard limit for the other process,
    another host name, a session of its own, no new privileges and back again, a
    number without a call; then the file mask, the names and the list of processes. *)
Definition demo_requests : list request := [
  Request 11 105 [0]; Request 11 117 [0; 18446744073709551615; 0];
  Request 10 302 [11; 7; 4096; 0]; Request 11 160 [7; 4096];
  Request 10 170 [4096; 8]; Request 11 112 []; Request 10 109 [11; 11]; Request 10 141 [0; 11; 5];
  Request 11 157 [38; 1; 0; 0; 0]; Request 11 157 [38; 0; 0; 0; 0]; Request 10 999 [];
  Request 10 95 [63]; Request 11 63 [4096]; Request 11 98 [0; 4096]; Request 10 549 [4096] ].

Lemma demo_hook_ok c (o a2 a3 a4 a5 : Z) : cred_ok c → cred_ok (security_task_prctl c o a2 a3 a4 a5).2.
Proof. done. Qed.

Lemma demo_rest_ok : rest_ok.
Proof.
  split; [apply demo_hook_ok|exact demo_info_ok|]. intros m Hm. eexists. split; [reflexivity|].
  rewrite length_replicate. lia.
Qed.

(** The state after all of them, and what a reader of it sees. *)
Definition demo_outcome {A} (f : kernel → A) : option (list Z * A) :=
  match kernel_run demo_kernel demo_requests with
  | Ok (answers, k) => Some (from_option fst (-38) <$> answers, f k)
  | _ => None
  end.

(** The child has left for a session of its own, and has no new privileges. *)
Lemma kernel_stays_ok_witness :
  ∃ answers k', kernel_run demo_kernel demo_requests = Ok (answers, k') ∧ kernel_ok k' ∧
    demo_outcome (λ k, (λ t, (kt_pid t, pr_session (kt_proc t), no_new_privs (kt_self t), kt_nice t, kt_umask t)) <$>
      k_tasks k) = Some ([-1; -1; -1; -1; -1; 11; -1; 0; 0; -22; -38; 18; 0; 0; 0],
        [(10, 10, false, 0, 63); (11, 11, true, 5, 18)]).
Proof.
  destruct (kernel_stays_ok demo_kernel demo_requests demo_rest_ok demo_kernel_ok) as (answers & k' & E & _ & Hk & _).
  exists answers, k'. split_and!; [exact E|exact Hk|]. vm_compute. reflexivity.
Defined.

Lemma demo_no_power : no_power (λ x, x = 1000) (λ x, x = 1000) (λ _, True).
Proof.
  split.
  - intros c ns cap (Hu & _). assert (E : cr_euid c = 1000) by (apply Hu; right; by left).
    change ((cr_euid c =? 100000 * ns) = false). rewrite E. lia.
  - done.
  - intros c o a2 a3 a4 a5 _. exists (cr_security c). split; [by destruct c|done].
Qed.

Lemma unprivileged_system_stays_witness :
  ∃ answers k', kernel_run demo_kernel demo_requests = Ok (answers, k') ∧
    Forall (λ t, cr_uid (kt_cred t) = 1000 ∧ cr_suid (kt_cred t) = 1000) (k_tasks k') ∧ k_uts k' = demo_names.
Proof.
  assert (Hall : Forall (λ t, confined (λ x, x = 1000) (λ x, x = 1000) (λ _, True) (kt_cred t)) (k_tasks demo_kernel)).
  { repeat (apply Forall_cons; split); try apply Forall_nil_2; (split_and!; [intros x [->|[->| ->]]; reflexivity..|exact I]). }
  destruct (unprivileged_system_stays (λ x, x = 1000) (λ x, x = 1000) (λ _, True) demo_kernel demo_requests
    demo_no_power demo_rest_ok demo_kernel_ok Hall) as (answers & k' & E & Hg & Hu).
  exists answers, k'. split; [exact E|]. split; [|exact Hu]. eapply Forall2_Forall_r; [exact Hg|]. eapply Forall_impl; [exact Hall|].
  intros t (Ht & _) t' Hgain. split; apply Ht, (ng_uids _ _ Hgain); [by left|by right; right].
Defined.
