(* ===== verification/Tests.v ===== *)
(** * The tests of the file system

    lab4/bench.h and the branch of main in lab4/simple_fat16_new.c that runs
    it: which volumes pass, and why the first test is not certain to. *)

From Stdlib Require Import Lia String.
From stdpp Require Import base numbers option list.
From S2P Require Import Prelude Bytes CString Names Volume Directory Namespace FileIO.
Local Open Scope Z_scope.

(** ** Assertions *)

(** [assert]: a failing one calls [abort], and the process ends with status
    128 + SIGABRT. *)
Definition SIGABRT_status : Z := 134.
Definition assert_ (b : bool) : res unit := if b then Ok tt else Exit SIGABRT_status.

(** [strcmp(a, b) == 0] for a string [a] and a block [b] that may have no NUL:
    a read beyond the block is undefined. *)
Fixpoint strcmp_block (a block : list Z) : res bool :=
  match block with
  | [] => Undef HeapOverflow
  | y :: block =>
    match a with
    | [] => Ok (y =? 0)
    | x :: a => if x =? y then strcmp_block a block else Ok false
    end
  end.

Section tests.
Context `{Platform}.

(** A row that [path_split] returns: eleven bytes that it fills, and what else
    there is in the block that [malloc(11)] gave. *)
Definition row_block (row : list Z) : list Z := row ++ drop 11 (uninit (Z.to_nat (malloc_usable 11))).

(** ** [test_path_split] *)

Fixpoint compare_rows (expected rows : list (list Z)) : res unit :=
  match expected, rows with
  | e :: expected, row :: rows =>
    same ← strcmp_block e (row_block row);
    _ ← assert_ same;
    compare_rows expected rows
  | [], _ => Ok tt
  | _ :: _, [] => Undef OutOfBounds
  end.

Fixpoint path_split_cases (cases : list (list Z * Z * list (list Z))) : res unit :=
  match cases with
  | [] => Ok tt
  | (s, dr, sr) :: cases =>
    '(ss, r, _) ← path_split s;
    _ ← assert_ (r =? dr);
    _ ← compare_rows (take (Z.to_nat dr) sr) ss;
    path_split_cases cases
  end.

Definition split_cases : list (list Z * Z * list (list Z)) := [
  (chars "/texts", 1, [chars "TEXTS      "]);
  (chars "/dir1/dir2/file.txt", 3, [chars "DIR1       "; chars "DIR2       "; chars "FILE    TXT"]);
  (chars "/.Trash-100", 1, [chars "        TRA"])].

Definition test_path_split : res unit := path_split_cases split_cases.

(** ** [test_path_decode], which main does not run *)

Fixpoint path_decode_cases (cases : list (list Z * list Z)) : res unit :=
  match cases with
  | [] => Ok tt
  | (s, sr) :: cases =>
    ss ← path_decode (resize 32 0 s);
    _ ← assert_ (strcmp_eq ss sr);
    path_decode_cases cases
  end.

Definition test_path_decode : res unit := path_decode_cases [
  (chars "..        ", chars "..");
  (chars "FILE    TXT", chars "file.txt");
  (chars "ABCD    RM ", chars "abcd.rm")].

(** ** The tests that read the image

    [img] is the content of the file fat16_test.img. *)

Definition test_pre_init_fat16 (img : image) : res unit :=
  fs ← pre_init_fat16 img;
  _ ← assert_ (FirstRootDirSecNum fs =? 124);
  _ ← assert_ (FirstDataSector fs =? 156);
  _ ← assert_ (RsvdSecCnt fs =? 4);
  _ ← assert_ (RootEntCnt fs =? 512);
  _ ← assert_ (BS_BootSig (Bpb fs) =? 41);
  _ ← assert_ (BS_VollID (Bpb fs) =? 1576933109);
  assert_ (Signature_word (Bpb fs) =? 43605).

Fixpoint fat_entry_cases (fs : FAT16) (img : image) (cases : list (Z * Z)) : res unit :=
  match cases with
  | [] => Ok tt
  | (cn, ce) :: cases =>
    r ← fat_entry_by_cluster fs img cn;
    _ ← assert_ (r =? ce);
    fat_entry_cases fs img cases
  end.

Definition test_fat_entry_by_cluster (img : image) : res unit :=
  fs ← pre_init_fat16 img;
  fat_entry_cases fs img [(1, 65535); (2, 0); (4, 65535)].

(** The four assertions of a case; what [find_root] returns is not looked at. *)
Fixpoint find_cases (fuel : nat) (fs : FAT16) (img : image)
    (cases : list (list Z * list Z * (Z * Z * Z))) : res unit :=
  match cases with
  | [] => Ok tt
  | (path, name, (tenth, clus, size)) :: cases =>
    '(_, Dir, _) ← find_root fs img fuel uninit_dir path;
    _ ← assert_ (strncmp_eq 11 (DIR_Name Dir) name);
    _ ← assert_ (DIR_CrtTimeTenth Dir =? tenth);
    _ ← assert_ (DIR_FstClusLO Dir =? clus);
    _ ← assert_ (DIR_FileSize Dir =? size);
    find_cases fuel fs img cases
  end.

(** Main does not run this one either. *)
Definition test_find_root (fuel : nat) (img : image) : res unit :=
  fs ← pre_init_fat16 img;
  find_cases fuel fs img [
    (chars "/dir1", chars "DIR1       ", (100, 4, 0));
    (chars "/makefile", chars "MAKEFILE   ", (100, 8, 226));
    (chars "/log.c", chars "LOG     C  ", (100, 3, 517))].

Definition test_find_subdir (fuel : nat) (img : image) : res unit :=
  fs ← pre_init_fat16 img;
  find_cases fuel fs img [
    (chars "/dir1/dir2", chars "DIR2       ", (100, 5, 0));
    (chars "/dir1/dir2/dir3", chars "DIR3       ", (0, 6, 0));
    (chars "/dir1/dir2/dir3/test.c", chars "TEST    C  ", (0, 7, 517))].

(** [main] with the argument --test. *)
Definition main_test (fuel : nat) (img : image) : res unit :=
  _ ← test_path_split;
  _ ← test_pre_init_fat16 img;
  _ ← test_fat_entry_by_cluster img;
  _ ← test_find_subdir fuel img;
  Exit 0.

(** [test_read_path], at the end of simple_fat16_new.c, is not run by main. The
    buffer has the [size] bytes that are asked for. *)
Fixpoint read_cases (fuel : nat) (fs : FAT16) (img : image)
    (cases : list (list Z * Z * Z * list Z)) : res unit :=
  match cases with
  | [] => Ok tt
  | (path, size, offset, text) :: cases =>
    let buffer := uninit (Z.to_nat size) in
    '(_, data) ← read_path fs fuel img path size offset;
    let buffer := data ++ drop (length data) buffer in
    _ ← assert_ (strncmp_eq (Z.to_nat size) buffer text);
    read_cases fuel fs img cases
  end.

Definition test_read_path (fuel : nat) (img : image) : res unit :=
  fs ← pre_init_fat16 img;
  read_cases fuel fs img [
    (chars "/Makefile", 32, 8, chars "(shell pkg-config fuse --cflags)");
    (chars "/log.c", 9, 9, chars "<errno.h>");
    (chars "/dir1/dir2/dir3/test.c", 9, 9, chars "<errno.h>")].

(** ** [test_path_split] reads past the rows *)

Lemma strcmp_block_row e rest : strcmp_block e (e ++ rest) = strcmp_block [] rest.
Proof. induction e as [|x e IH]; cbn [app strcmp_block]; [done|]. by rewrite Z.eqb_refl. Qed.

(** The byte behind a row. *)
Definition behind_row : res bool := strcmp_block [] (drop 11 (uninit (Z.to_nat (malloc_usable 11)))).

Lemma compare_rows_cons e expected rows :
  compare_rows (e :: expected) (e :: rows) =
  (same ← behind_row; _ ← assert_ same; compare_rows expected rows).
Proof. cbn [compare_rows]. unfold row_block. by rewrite strcmp_block_row. Qed.

Lemma compare_rows_behind e expected :
  compare_rows (e :: expected) (e :: expected) = (same ← behind_row; assert_ same).
Proof.
  revert e. induction expected as [|e' expected IH]; intros e; rewrite compare_rows_cons;
    destruct behind_row as [[|]| | |] eqn:Eb; res_steps; try done.
  rewrite IH. done.
Qed.

Lemma behind_row_cases :
  behind_row = if malloc_usable 11 =? 11 then Undef HeapOverflow else Ok (uninit_byte 11 =? 0).
Proof.
  pose proof (malloc_usable_ge 11) as Hm. unfold behind_row, uninit.
  destruct (Z.eqb_spec (malloc_usable 11) 11) as [->|Hne]; [done|].
  destruct (Z.to_nat (malloc_usable 11)) as [|m] eqn:E; [lia|].
  do 11 (destruct m as [|m]; [lia|]). done.
Qed.

Lemma test_path_split_behind : test_path_split = (same ← behind_row; assert_ same).
Proof.
  assert (E1 : ∃ p, path_split (chars "/texts") = Ok ([chars "TEXTS      "], 1, p)) by (eexists; reflexivity).
  assert (E2 : ∃ p, path_split (chars "/dir1/dir2/file.txt") =
    Ok ([chars "DIR1       "; chars "DIR2       "; chars "FILE    TXT"], 3, p)) by (eexists; reflexivity).
  assert (E3 : ∃ p, path_split (chars "/.Trash-100") = Ok ([chars "        TRA"], 1, p)) by (eexists; reflexivity).
  destruct E1 as [p1 E1], E2 as [p2 E2], E3 as [p3 E3].
  unfold test_path_split, split_cases. cbn [path_split_cases]. rewrite E1, E2, E3. res_steps.
  cbn [assert_ Z.eqb Pos.eqb]. res_steps. change (Z.to_nat 1) with 1%nat. change (Z.to_nat 3) with 3%nat.
  cbn [take]. rewrite !compare_rows_behind.
  destruct behind_row as [[|]| | |]; reflexivity.
Qed.


(** Whether the first test succeeds is not up to path_split: it fills rows
    of eleven bytes, for which it has allocated eleven, and the test compares
    them with strcmp. The test passes if the block is longer and the byte behind
    the row happens to be 0, it aborts if that byte is another one, and if there
    is none it reads beyond the block. *)
Theorem test_path_split_reads_past :
  test_path_split =
  if malloc_usable 11 =? 11 then Undef HeapOverflow
  else if uninit_byte 11 =? 0 then Ok tt else Exit SIGABRT_status.
Proof.
  rewrite test_path_split_behind, behind_row_cases.
  destruct (malloc_usable 11 =? 11); [done|]. by destruct (uninit_byte 11 =? 0).
Qed.

(** The test of path_decode, which nobody runs, would pass. *)
Lemma test_path_decode_passes : test_path_decode = Ok tt.
Proof. reflexivity. Qed.

(** ** Volumes that pass *)

(** The layout that the second test asks for. *)
Record test_layout (fs : FAT16) : Prop := {
  tl_root : FirstRootDirSecNum fs = 124;
  tl_data : FirstDataSector fs = 156;
  tl_rsvd : RsvdSecCnt fs = 4;
  tl_rootcnt : RootEntCnt fs = 512;
  tl_sig : BS_BootSig (Bpb fs) = 41;
  tl_vol : BS_VollID (Bpb fs) = 1576933109;
  tl_word : Signature_word (Bpb fs) = 43605
}.

(** An entry with the fields that the last test asks for. *)
Record has_fields (e : DIR_ENTRY) (name : list Z) (tenth clus size : Z) : Prop := {
  hf_name : DIR_Name e = name;
  hf_tenth : DIR_CrtTimeTenth e = tenth;
  hf_clus : DIR_FstClusLO e = clus;
  hf_size : DIR_FileSize e = size
}.

Section volume.
Context {fs : FAT16} {n : Z} {img : image} (Hv : vol_ok fs n img) (fuel : nat).
Context (Hfuel : (dir_fuel fs n ≤ fuel)%nat).

Lemma find_case dirs base ext e tenth clus size cases :
  ascii_path dirs base ext → lookup fs n img (rows_of dirs base ext) (Some e) →
  has_fields e (fat_name base ext) tenth clus size →
  find_cases fuel fs img ((path_of dirs base ext, fat_name base ext, (tenth, clus, size)) :: cases) =
  find_cases fuel fs img cases.
Proof.
  intros Hp Hl [Hn Ht Hc Hs]. cbn [find_cases].
  destruct (find_root_path Hv dirs base ext (Some e) uninit_dir fuel Hp Hl Hfuel) as (D & E & HD).
  rewrite E, (HD e) by done. res_steps. rewrite Hn, strncmp_eq_refl, Ht, Hc, Hs, !Z.eqb_refl. done.
Qed.
End volume.

Lemma dir2_path : ascii_path [chars "dir1"] (chars "dir2") [].
Proof. path_tac. Qed.
Lemma dir3_path : ascii_path [chars "dir1"; chars "dir2"] (chars "dir3") [].
Proof. path_tac. Qed.
Lemma test_path : ascii_path [chars "dir1"; chars "dir2"; chars "dir3"] (chars "test") (chars "c").
Proof. path_tac. Qed.

(** Main --test succeeds on every volume that holds what it asks for: a
    layout with the expected numbers, the expected table entries for clusters 1, 2
    and 4, and directories /dir1/dir2/dir3 with the file test.c - provided that
    the byte behind the rows of path_split is there and is 0. *)
Theorem main_test_passes img fs n fuel e2 e3 e4 :
  malloc_usable 11 ≠ 11 → uninit_byte 11 = 0 →
  pre_init_fat16 img = Ok fs → vol_ok fs n img → test_layout fs →
  fat_get fs img 1 = 65535 → fat_get fs img 2 = 0 → fat_get fs img 4 = 65535 →
  lookup fs n img (rows_of [chars "dir1"] (chars "dir2") []) (Some e2) →
  lookup fs n img (rows_of [chars "dir1"; chars "dir2"] (chars "dir3") []) (Some e3) →
  lookup fs n img (rows_of [chars "dir1"; chars "dir2"; chars "dir3"] (chars "test") (chars "c")) (Some e4) →
  has_fields e2 (chars "DIR2       ") 100 5 0 →
  has_fields e3 (chars "DIR3       ") 0 6 0 →
  has_fields e4 (chars "TEST    C  ") 0 7 517 →
  (dir_fuel fs n ≤ fuel)%nat →
  main_test fuel img = Exit 0.
Proof.
  intros Hm Hu Hpre Hv Hl F1 F2 F4 L2 L3 L4 H2 H3 H4 Hfuel.
  unfold main_test. rewrite test_path_split_behind, behind_row_cases.
  rewrite (proj2 (Z.eqb_neq _ _) Hm), Hu. res_steps. cbn [assert_ Z.eqb]. res_steps.
  unfold test_pre_init_fat16, test_fat_entry_by_cluster, test_find_subdir. rewrite !Hpre. res_steps.
  destruct Hl as [-> -> -> -> -> -> ->]. cbn [Z.eqb Pos.eqb assert_]. res_steps. cbn [fat_entry_cases].
  assert (Hi : ∀ c, 0 <= c <= 4 → fat_index fs c).
  { intros c Hc. destruct (vol_geo _ _ _ Hv). unfold fat_index. lia. }
  rewrite !(fat_entry_ok img _ Hv) by (apply Hi; lia). res_steps. rewrite F1, F2, F4.
  cbn [Z.eqb Pos.eqb assert_]. res_steps.
  pose proof (find_case Hv fuel Hfuel _ _ _ _ _ _ _
    [(path_of [chars "dir1"; chars "dir2"] (chars "dir3") [], chars "DIR3       ", (0, 6, 0));
     (path_of [chars "dir1"; chars "dir2"; chars "dir3"] (chars "test") (chars "c"), chars "TEST    C  ", (0, 7, 517))]
    dir2_path L2 H2) as E2.
  pose proof (find_case Hv fuel Hfuel _ _ _ _ _ _ _
    [(path_of [chars "dir1"; chars "dir2"; chars "dir3"] (chars "test") (chars "c"), chars "TEST    C  ", (0, 7, 517))]
    dir3_path L3 H3) as E3.
  pose proof (find_case Hv fuel Hfuel _ _ _ _ _ _ _ [] test_path L4 H4) as E4.
  match goal with |- context [find_cases ?f ?v ?i ?cases] =>
    assert (E : find_cases f v i cases = Ok tt) by exact (eq_trans E2 (eq_trans E3 E4)); rewrite E end.
  done.
Qed.
End tests.

(** ** [test_read_path] writes past its blocks *)

Section read_test.
Context `{Platform} {fs : FAT16} {n : Z} {img : image} (Hv : vol_ok fs n img) {fuel : nat}.
Context (Hfuel : (dir_fuel fs n ≤ fuel)%nat).

Lemma read_case dirs base ext e l size offset text cases :
  ascii_path dirs base ext → lookup fs n img (rows_of dirs base ext) (Some e) →
  file_chain fs n img (DIR_FstClusLO e) l → 0 < size → 0 <= offset < DIR_FileSize e →
  size + offset <= 512 * SecPerClus fs * lenZ l → size + offset < 2 ^ 31 - 512 →
  read_cases fuel fs img ((path_of dirs base ext, size, offset, text) :: cases) =
    if 512 * sectors_of (size + offset) <=? malloc_usable (size + offset) then
      _ ← assert_ (strncmp_eq (Z.to_nat size) (slice offset size (chain_data fs img l)) text);
      read_cases fuel fs img cases
    else Undef HeapOverflow.
Proof.
  intros Hp Hl Hc Hs Ho Hcap Hbig. cbn [read_cases].
  rewrite (read_path_found Hv dirs base ext e l) by (done || lia).
  case_goal; [|done]. rewrite (proj2 (Z.ltb_lt _ _)) by lia. res_steps.
  pose proof (length_chain_data Hv _ (chain_in_volume _ _ _ Hc)).
  rewrite drop_ge, app_nil_r; [done|]. rewrite length_uninit, length_slice; lia.
Qed.

Lemma Makefile_path : ascii_path [] (chars "Makefile") [].
Proof. path_tac. Qed.
Lemma log_path : ascii_path [] (chars "log") (chars "c").
Proof. path_tac. Qed.

(** The test asks for parts of files that end inside a sector, for which
    read_path allocates the bytes up to that end and stores whole sectors. On
    a volume that holds the files it passes when the blocks happen to be large
    enough, the texts being right; else the first read is undefined. *)
Theorem test_read_path_outcome e1 e2 e3 l1 l2 l3 :
  pre_init_fat16 img = Ok fs →
  lookup fs n img (rows_of [] (chars "Makefile") []) (Some e1) →
  lookup fs n img (rows_of [] (chars "log") (chars "c")) (Some e2) →
  lookup fs n img (rows_of [chars "dir1"; chars "dir2"; chars "dir3"] (chars "test") (chars "c")) (Some e3) →
  file_chain fs n img (DIR_FstClusLO e1) l1 → file_chain fs n img (DIR_FstClusLO e2) l2 →
  file_chain fs n img (DIR_FstClusLO e3) l3 →
  8 < DIR_FileSize e1 → 9 < DIR_FileSize e2 → 9 < DIR_FileSize e3 →
  strncmp_eq 32 (slice 8 32 (chain_data fs img l1)) (chars "(shell pkg-config fuse --cflags)") = true →
  strncmp_eq 9 (slice 9 9 (chain_data fs img l2)) (chars "<errno.h>") = true →
  strncmp_eq 9 (slice 9 9 (chain_data fs img l3)) (chars "<errno.h>") = true →
  test_read_path fuel img =
    if (512 <=? malloc_usable 40) && (512 <=? malloc_usable 18) then Ok tt else Undef HeapOverflow.
Proof.
  intros Hpre L1 L2 L3 C1 C2 C3 S1 S2 S3 T1 T2 T3. unfold test_read_path. rewrite Hpre. res_steps.
  pose proof (geo_spc _ _ Hv).
  assert (Hcap : ∀ c l, file_chain fs n img c l → 512 <= 512 * SecPerClus fs * lenZ l).
  { intros c l Hc. destruct (chain_head _ _ _ Hc) as [l' ->]. cbn [length].
    assert (512 * 1 <= 512 * SecPerClus fs * Z.of_nat (S (length l'))); [|lia].
    rewrite <- Z.mul_assoc. apply Z.mul_le_mono_nonneg_l; [lia|]. nia. }
  pose proof (Hcap _ _ C1). pose proof (Hcap _ _ C2). pose proof (Hcap _ _ C3).
  change (chars "/Makefile") with (path_of [] (chars "Makefile") []).
  change (chars "/log.c") with (path_of [] (chars "log") (chars "c")).
  change (chars "/dir1/dir2/dir3/test.c") with (path_of [chars "dir1"; chars "dir2"; chars "dir3"] (chars "test") (chars "c")).
  rewrite (read_case [] (chars "Makefile") [] e1 l1) by (apply Makefile_path || done || lia).
  rewrite (read_case [] (chars "log") (chars "c") e2 l2) by (apply log_path || done || lia).
  rewrite (read_case _ (chars "test") (chars "c") e3 l3) by (apply test_path || done || lia).
  change (512 * sectors_of (32 + 8)) with 512. change (512 * sectors_of (9 + 9)) with 512.
  change (32 + 8) with 40. change (9 + 9) with 18.
  change (Z.to_nat 32) with 32%nat. change (Z.to_nat 9) with 9%nat. rewrite T1, T2, T3.
  cbn [assert_ read_cases]. res_steps.
  by destruct (512 <=? malloc_usable 40), (512 <=? malloc_usable 18).
Qed.
End read_test.

(** ** A volume that passes

    On a platform as glibc has it, but with memory that was zero before. *)

Program Definition zero_platform : Platform := {|
  uninit_byte := λ _, 0;
  malloc_usable := λ n, Z.max n 24;
  localtime_now := Tm 41 30 20 19 4 121;
  mktime := λ _, 0
|}.
Next Obligation. intros. unfold is_byte. lia. Qed.
Next Obligation. intros. apply Z.le_max_l. Qed.

#[local] Existing Instance zero_platform.

Definition test_boot : list Z :=
  foldl (λ img '(o, d), splice o d img) (replicate 512 0) [
    (11, le_bytes 2 512); (13, [1]); (14, le_bytes 2 4); (16, [2]); (17, le_bytes 2 512);
    (22, le_bytes 2 60); (38, [41]); (39, le_bytes 4 1576933109); (510, le_bytes 2 43605)].

Definition test_dir (Name : list Z) (attr tenth clus size : Z) : list Z :=
  Name ++ [attr; 0; tenth] ++ replicate 12 0 ++ le_bytes 2 clus ++ le_bytes 4 size.

Definition zeros (n : Z) : list Z := replicate (Z.to_nat n) 0.

(** The table is in sector 4, the root directory in sector 124, cluster 4 in
    sector 158. *)
Definition test_img : image :=
  test_boot ++ zeros 1536 ++
  ([0; 65535; 0; 0; 65535; 65535; 65535] ≫= le_bytes 2) ++ zeros 61426 ++
  test_dir (chars "DIR1       ") 16 100 4 0 ++ zeros 17376 ++
  test_dir (chars "DIR2       ") 16 100 5 0 ++ zeros 480 ++
  test_dir (chars "DIR3       ") 16 0 6 0 ++ zeros 480 ++
  test_dir (chars "TEST    C  ") 32 0 7 517 ++ zeros 992.

Definition test_fs : FAT16 := mkFAT16 124 156 (bpb_of_bytes test_boot).

Lemma test_mounted : pre_init_fat16 test_img = Ok test_fs.
Proof. vm_compute. reflexivity. Qed.

Lemma zeros_bytes n : Forall is_byte (zeros n).
Proof. apply Forall_replicate. unfold is_byte. lia. Qed.

Lemma test_vol : vol_ok test_fs 6 test_img.
Proof.
  split.
  - split; vm_compute; (reflexivity || (split; (reflexivity || discriminate)) || discriminate).
  - vm_compute. discriminate.
  - unfold test_img. repeat (refine (Forall_app_2 _ _ _ _ _); 
      [match goal with |- Forall _ (zeros _) => exact (zeros_bytes _) | _ => by_decision end|]).
    exact (zeros_bytes _).
Qed.

Definition test_dir1 : DIR_ENTRY := entry_on test_img 124 0.
Definition test_dir2 : DIR_ENTRY := entry_on test_img 158 0.
Definition test_dir3 : DIR_ENTRY := entry_on test_img 159 0.
Definition test_file : DIR_ENTRY := entry_on test_img 160 0.

Lemma test_chain c : (c =? 4) || (c =? 5) || (c =? 6) = true → dir_chain test_fs 6 test_img c [c].
Proof.
  intros Hc. assert (c = 4 ∨ c = 5 ∨ c = 6) as [->|[->| ->]] by lia;
    (apply chain_last; [unfold in_volume; lia|vm_compute; reflexivity]).
Qed.

(** From the root directory down to test.c. *)
Lemma test_walk4 : walk test_fs 6 test_img test_dir3 [fat_name (chars "test") (chars "c")] (Some test_file).
Proof. apply (walk_found _ _ _ _ _ [6] 160 0); [by apply test_chain|vm_compute; reflexivity]. Qed.

Lemma test_walk3 : walk test_fs 6 test_img test_dir2 [fat_name (chars "dir3") []] (Some test_dir3).
Proof. apply (walk_found _ _ _ _ _ [5] 159 0); [by apply test_chain|vm_compute; reflexivity]. Qed.

Lemma test_walk34 :
  walk test_fs 6 test_img test_dir2 [fat_name (chars "dir3") []; fat_name (chars "test") (chars "c")] (Some test_file).
Proof.
  apply (walk_down _ _ _ _ _ _ [5] 159 0 test_dir3); [by apply test_chain|done|vm_compute; reflexivity|exact test_walk4].
Qed.

Lemma test_walk_down rest r :
  rest ≠ [] → walk test_fs 6 test_img test_dir2 rest r →
  walk test_fs 6 test_img test_dir1 (fat_name (chars "dir2") [] :: rest) r.
Proof.
  intros Hr Hw. apply (walk_down _ _ _ _ _ _ [4] 158 0 test_dir2);
    [by apply test_chain|done|vm_compute; reflexivity|exact Hw].
Qed.

Lemma test_walk2 : walk test_fs 6 test_img test_dir1 [fat_name (chars "dir2") []] (Some test_dir2).
Proof. apply (walk_found _ _ _ _ _ [4] 158 0); [by apply test_chain|vm_compute; reflexivity]. Qed.

Lemma test_lookup rest r :
  rest ≠ [] → walk test_fs 6 test_img test_dir1 rest r →
  lookup test_fs 6 test_img (fat_name (chars "dir1") [] :: rest) r.
Proof.
  intros Hr Hw. apply (lookup_down _ _ _ _ _ 124 0 test_dir1);
    [vm_compute; reflexivity|vm_compute; discriminate|vm_compute; reflexivity|done|exact Hw].
Qed.

Lemma test_path_split_reads_past_witness : test_path_split = Ok tt.
Proof. rewrite test_path_split_reads_past. vm_compute. reflexivity. Defined.

Lemma main_test_passes_witness : main_test (dir_fuel test_fs 6) test_img = Exit 0.
Proof.
  apply (main_test_passes test_img test_fs 6 _ test_dir2 test_dir3 test_file).
  - vm_compute. discriminate.
  - reflexivity.
  - exact test_mounted.
  - exact test_vol.
  - split; vm_compute; reflexivity.
  - vm_compute. reflexivity.
  - vm_compute. reflexivity.
  - vm_compute. reflexivity.
  - refine (test_lookup _ _ _ test_walk2); discriminate.
  - refine (test_lookup _ _ _ (test_walk_down _ _ _ test_walk3)); discriminate.
  - refine (test_lookup _ _ _ (test_walk_down _ _ _ test_walk34)); discriminate.
  - split; vm_compute; reflexivity.
  - split; vm_compute; reflexivity.
  - split; vm_compute; reflexivity.
  - apply le_n.
Defined.
