(* ===== verification/Demo.v ===== *)
(** * A small volume

    A volume of eight clusters of one sector, mounted by [pre_init_fat16],
    on which the theorems about the file system are instantiated. Its root
    directory holds the files a.txt (clusters 2 and 3, 700 bytes) and n.txt
    (cluster 5, empty) and the directory sub (cluster 4) with the file b.c
    (cluster 6); clusters 7, 8 and 9 are free. *)

From Stdlib Require Import Lia String.
From stdpp Require Import base numbers option gmap list.
From S2P Require Import Prelude Bytes CString Names Volume Directory Namespace FileIO Append Nested FileSystem.
Local Open Scope Z_scope.

#[local] Existing Instance demo_platform.

Definition demo_table : list Z :=
  [65528; 65535; 3; 65535; 65535; 65535; 65535; 0; 0; 0] ≫= le_bytes 2.

Definition demo_img : image :=
  foldl (λ img '(o, d), splice o d img) (replicate (Z.to_nat 6144) 0) [
    (11, le_bytes 2 512); (13, [1]); (14, le_bytes 2 1); (16, [2]);
    (17, le_bytes 2 16); (22, le_bytes 2 1);
    (512, demo_table); (1024, demo_table);
    (1536, entry_info (chars "A       TXT") ATTR_ARCHIVE 2 700);
    (1568, entry_info (chars "SUB        ") ATTR_DIRECTORY 4 0);
    (1600, entry_info (chars "N       TXT") ATTR_ARCHIVE 5 0);
    (3072, entry_info (chars "B       C  ") ATTR_ARCHIVE 6 10);
    (2048, replicate 700 65)].

Definition demo_fs : FAT16 := mkFAT16 3 4 (bpb_of_bytes (slice 0 512 demo_img)).

Lemma demo_mounted : pre_init_fat16 demo_img = Ok demo_fs.
Proof. vm_compute. reflexivity. Qed.

Lemma demo_geometry : geometry demo_fs 8.
Proof. split; vm_compute; (reflexivity || (split; (reflexivity || discriminate)) || discriminate). Qed.

Lemma demo_vol : vol_ok demo_fs 8 demo_img.
Proof.
  split; [apply demo_geometry|vm_compute; discriminate|].
  apply (bool_decide_unpack _). vm_compute. exact I.
Qed.

#[local] Opaque demo_img demo_fs.

(** ** Tactics for concrete hypotheses *)

Ltac by_compute := vm_compute; reflexivity.
Ltac num_tac := vm_compute; repeat split; (reflexivity || discriminate).

(** ** Facts about the volume *)

Definition a_txt : DIR_ENTRY := entry_on demo_img 3 0.
Definition sub_entry : DIR_ENTRY := entry_on demo_img 3 32.
Definition n_txt : DIR_ENTRY := entry_on demo_img 3 64.
Definition b_c : DIR_ENTRY := entry_on demo_img 6 0.

Lemma in_demo c : (2 <=? c) && (c <? 10) = true → in_volume 8 c.
Proof. unfold in_volume. lia. Qed.

Lemma demo_index c : (0 <=? c) && (c <? 256) = true → fat_index demo_fs c.
Proof. unfold fat_index. assert (FATSz16 demo_fs = 1) as -> by by_compute. lia. Qed.

Lemma a_txt_chain : file_chain demo_fs 8 demo_img 2 [2; 3].
Proof.
  assert (E : fat_get demo_fs demo_img 2 = 3) by by_compute.
  apply chain_more; [by apply in_demo|rewrite E; unfold file_end; lia|rewrite E].
  apply chain_last; [by apply in_demo|]. right. vm_compute. discriminate.
Qed.

Lemma n_txt_chain : file_chain demo_fs 8 demo_img 5 [5].
Proof. apply chain_last; [by apply in_demo|]. right. vm_compute. discriminate. Qed.

Lemma b_c_chain : file_chain demo_fs 8 demo_img 6 [6].
Proof. apply chain_last; [by apply in_demo|]. right. vm_compute. discriminate. Qed.

Lemma sub_chain : dir_chain demo_fs 8 demo_img 4 [4].
Proof. apply chain_last; [by apply in_demo|by_compute]. Qed.

(** The paths /a.txt, /n.txt, /sub, /sub/b.c and /c.txt, which is new. *)
Lemma a_path : ascii_path [] (chars "a") (chars "txt").
Proof. path_tac. Qed.
Lemma n_path : ascii_path [] (chars "n") (chars "txt").
Proof. path_tac. Qed.
Lemma c_path : ascii_path [] (chars "c") (chars "txt").
Proof. path_tac. Qed.
Lemma sub_path : ascii_path [] (chars "sub") [].
Proof. path_tac. Qed.
Lemma b_path : ascii_path [chars "sub"] (chars "b") (chars "c").
Proof. path_tac. Qed.
Lemma d_path : ascii_path [chars "sub"] (chars "d") [].
Proof. path_tac. Qed.

Lemma a_lookup : lookup demo_fs 8 demo_img (rows_of [] (chars "a") (chars "txt")) (Some a_txt).
Proof. apply (lookup_file _ _ _ _ [] 3 0); [by_compute|vm_compute; discriminate|by_compute]. Qed.

Lemma c_lookup : lookup demo_fs 8 demo_img (rows_of [] (chars "c") (chars "txt")) None.
Proof. eapply (lookup_free _ _ _ _ [] 3 96); by_compute. Qed.

Lemma sub_lookup : lookup demo_fs 8 demo_img (rows_of [] (chars "sub") []) (Some sub_entry).
Proof. apply (lookup_dir _ _ _ _ 3 32); [by_compute|vm_compute; discriminate|by_compute]. Qed.

Lemma b_lookup : lookup demo_fs 8 demo_img (rows_of [chars "sub"] (chars "b") (chars "c")) (Some b_c).
Proof.
  apply (lookup_down _ _ _ _ [fat_name (chars "b") (chars "c")] 3 32 sub_entry);
    [by_compute|vm_compute; discriminate|by_compute|done|].
  apply (walk_found _ _ _ _ _ [4] 6 0); [apply sub_chain|by_compute].
Qed.

Lemma sub_slots :
  parent_slots demo_fs 8 demo_img [chars "sub"] (dir_slots demo_fs demo_img [4]) true.
Proof.
  apply (parent_dir _ _ _ [] (chars "sub") sub_entry [4]);
    [apply sub_path|apply sub_lookup|by_compute|apply sub_chain].
Qed.

Lemma demo_lowest_free : lowest_free demo_fs demo_img 7.
Proof.
  split_and!; [lia|by_compute|]. intros d Hd.
  assert (d = 2 ∨ d = 3 ∨ d = 4 ∨ d = 5 ∨ d = 6) as [->|[->|[->|[->| ->]]]] by lia;
    vm_compute; discriminate.
Qed.

Lemma demo_free_run : free_run demo_fs 8 demo_img 5 [7; 8].
Proof.
  assert (H : ∀ c f, c < f → c + 2 >= f → fat_get demo_fs demo_img f = 0 →
    (c + 1 = f ∨ fat_get demo_fs demo_img (c + 1) ≠ 0) → next_free demo_fs demo_img c f).
  { intros c f H1 H2 Hf Hn. split_and!; [lia|done|]. intros d Hd.
    assert (d = c + 1) as -> by lia. destruct Hn; [lia|done]. }
  apply free_run_cons; [by apply in_demo| |].
  { apply H; [lia|lia|by_compute|right; vm_compute; discriminate]. }
  apply free_run_cons; [by apply in_demo| |apply free_run_nil].
  apply H; [lia|lia|by_compute|by left].
Qed.

(** Fuel for the directory loops of this volume. *)
Definition fuel : nat := 129.

Lemma fuel_ok : (dir_fuel demo_fs 8 ≤ fuel)%nat.
Proof. unfold fuel. vm_compute. reflexivity. Qed.

Ltac fuel_tac := exact fuel_ok || (vm_compute; lia).

Lemma short_demo (path : list Z) : (lenZ path <=? 23) = true → short_path path.
Proof. unfold short_path. cbn. lia. Qed.

Lemma a_short : short_path (path_of [] (chars "a") (chars "txt")).
Proof. by apply short_demo. Qed.
Lemma b_short : short_path (path_of [chars "sub"] (chars "b") (chars "c")).
Proof. by apply short_demo. Qed.
Lemma d_short : short_path (path_of [chars "sub"] (chars "d") []).
Proof. by apply short_demo. Qed.

Lemma a_txt_root : root_file demo_fs demo_img (chars "a") (chars "txt") 3 0 a_txt.
Proof.
  split; [apply a_path|by apply short_demo|by_compute|by_compute|vm_compute; discriminate|by_compute].
Qed.

Lemma n_txt_root : root_file demo_fs demo_img (chars "n") (chars "txt") 3 64 n_txt.
Proof.
  split; [apply n_path|by apply short_demo|by_compute|by_compute|vm_compute; discriminate|by_compute].
Qed.

(** Directories: the only one besides the root is sub, in cluster 4. *)
Definition only_sub (img : image) : bool :=
  (fat_get demo_fs img 4 =? 65535) &&
  forallb (λ s : slot, negb (is_dir s.2) || (DIR_FstClusLO s.2 =? 4))
    (root_slots demo_fs img ++ dir_slots demo_fs img [4]).

Section only_sub.
Context {img : image} (Honly : only_sub img = true).

Lemma sub_chain_unique l : dir_chain demo_fs 8 img 4 l → l = [4].
Proof.
  destruct (andb_prop _ _ Honly) as [E _]. apply Z.eqb_eq in E.
  intros Hl. inversion Hl as [|c l' _ Hne]; subst; [reflexivity|]. destruct Hne. exact E.
Qed.

Lemma demo_directories D :
  reachable_entry demo_fs 8 img D → is_dir D = true → DIR_FstClusLO D = 4.
Proof.
  destruct (andb_prop _ _ Honly) as [_ Hall]. rewrite forallb_app in Hall. apply andb_prop in Hall as [Hroot Hsub].
  assert (Hes : ∀ (es : list slot) sec off e,
    forallb (λ s : slot, negb (is_dir s.2) || (DIR_FstClusLO s.2 =? 4)) es = true →
    (sec, off, e) ∈ es → is_dir e = true → DIR_FstClusLO e = 4).
  { intros es sec off e Hes Hin He. rewrite forallb_forall in Hes.
    specialize (Hes (sec, off, e)). cbn [snd] in Hes. rewrite He in Hes. cbn in Hes.
    apply Z.eqb_eq, Hes. by apply list_elem_of_In. }
  induction 1 as [sec off e Hin|D l sec off e _ IH HD Hl Hin]; intros He; [by apply (Hes _ _ _ _ Hroot Hin)|].
  rewrite (IH HD) in Hl. apply sub_chain_unique in Hl as ->. by apply (Hes _ _ _ _ Hsub Hin).
Qed.

Lemma only_sub_not_a_directory l : Forall (λ c, c ≠ 4) l → not_a_directory demo_fs 8 img l.
Proof.
  intros Hl D l' HD Hd Hc d Hin Hin'. rewrite (demo_directories D HD Hd) in Hc.
  apply sub_chain_unique in Hc as ->.
  apply elem_of_cons in Hin as [->|Hin]; [|by inversion Hin].
  rewrite Forall_forall in Hl. exact (Hl 4 Hin' eq_refl).
Qed.
End only_sub.

Lemma demo_only_sub : only_sub demo_img = true.
Proof. by_compute. Qed.

Lemma demo_not_a_directory l : Forall (λ c, c ≠ 4) l → not_a_directory demo_fs 8 demo_img l.
Proof. apply only_sub_not_a_directory, demo_only_sub. Qed.

(** The same volume with a file named bin in the root directory. *)
Definition demo_below : image :=
  splice 1632 (entry_info (chars "BIN        ") ATTR_ARCHIVE 7 4) demo_img.

Definition below_file : DIR_ENTRY := entry_on demo_below 3 96.

#[local] Opaque demo_below.

Lemma demo_below_vol : vol_ok demo_fs 8 demo_below.
Proof. split; [apply demo_geometry|vm_compute; discriminate|by_decision]. Qed.

(** ** Instances of the theorems on the table *)

Lemma pre_init_fat16_layout_witness :
  ∃ root data r, pre_init_fat16 demo_img =
      Ok (mkFAT16 root data (bpb_of_bytes (slice 0 512 demo_img))) ∧ root = 3 ∧ data = root + r.
Proof.
  assert (Hlen : 512 <= lenZ demo_img) by (vm_compute; discriminate).
  pose proof (pre_init_fat16_layout demo_img Hlen (vol_bytes _ _ _ demo_vol)) as E.
  assert (H0 : (BPB_BytsPerSec (bpb_of_bytes (slice 0 512 demo_img)) =? 0) = false) by by_compute.
  cbv zeta in E. rewrite H0 in E. destruct E as (root & data & r & E & Hr & Hd & _).
  exists root, data, r. split; [exact E|]. split; [rewrite Hr; by_compute|exact Hd].
Defined.

Lemma FindEmptyCluster_lowest_witness : FindEmptyCluster 7 demo_fs demo_img = Ok 7.
Proof.
  destruct demo_lowest_free as (H2 & H0 & Hd).
  apply (FindEmptyCluster_lowest (fs := demo_fs) (n := 8));
    [apply demo_vol|apply demo_index; reflexivity|exact H2|exact H0|exact Hd|].
  vm_compute. reflexivity.
Defined.

Lemma ClusterIsEmpty_links_witness :
  ∃ img', ClusterIsEmpty demo_fs demo_img 5 7 = Ok (0, img') ∧
    fat_get demo_fs img' 5 = 7 ∧ fat2_get demo_fs img' 5 = 65535.
Proof.
  destruct (ClusterIsEmpty_links (fs := demo_fs) (n := 8) demo_img 5 7) as (ret & img' & E & _ & H0 & _ & H1);
    [apply demo_vol|apply demo_index; reflexivity|right; apply demo_index; reflexivity|].
  assert (E0 : ret = 0) by (apply H0; right; by_compute). exists img'.
  destruct (H1 E0) as [Hg _]. destruct (Hg 5) as [E1 E2]; [apply demo_index; reflexivity|].
  rewrite <- E0. split; [exact E|]. rewrite E1, E2. split; by_compute.
Defined.

Lemma free_chain_releases_witness :
  ∃ img', free_chain 2 demo_fs demo_img 2 = Ok img' ∧
    fat_get demo_fs img' 3 = 0 ∧ fat_get demo_fs img' 5 = 65535.
Proof.
  destruct (free_chain_releases (fs := demo_fs) (n := 8) demo_img 2 [2; 3] 2) as (img' & E & _ & Hg & _);
    [apply demo_vol|apply a_txt_chain|vm_compute; reflexivity|].
  exists img'. split; [exact E|].
  destruct (Hg 3) as [E3 _]; [apply demo_index; reflexivity|].
  destruct (Hg 5) as [E5 _]; [apply demo_index; reflexivity|].
  rewrite E3, E5. split; by_compute.
Defined.

(** ** Instances of the theorems on directories *)

Lemma directory_loops_in_order_witness :
  (cu ← dir_open demo_fs demo_img 4 (uninit 512);
   sub_scan demo_fs demo_img (readdir_body false) fuel cu [] sub_entry) =
  scan (readdir_body false) true (dir_slots demo_fs demo_img [4]) [] sub_entry.
Proof.
  apply (directory_loops_in_order demo_vol);
    [apply sub_chain|by_compute|vm_compute; discriminate|apply fuel_ok].
Defined.

Lemma find_root_correct_witness :
  ∃ path', find_root demo_fs demo_img fuel a_txt (chars "/sub/b.c") = Ok (0, b_c, path') ∧
    c_str path' = chars "/sub".
Proof.
  destruct (find_root_correct demo_vol [chars "sub"] (chars "b") (chars "c") (Some b_c) a_txt fuel)
    as (D & path' & E & HD & Hp); [apply b_path|apply b_lookup|apply fuel_ok|].
  destruct (HD b_c eq_refl) as [HD1 _]. rewrite HD1 in E. exists path'. split; [exact E|exact Hp].
Defined.

Lemma find_root_below_a_file_witness :
  ∃ path', find_root demo_fs demo_below fuel b_c (chars "/bin/x") = Ok (0, below_file, path').
Proof.
  apply (find_root_below_a_file demo_below_vol (chars "bin") [] (chars "x") [] 3 96 below_file);
    [path_tac|by_compute|vm_compute; discriminate|by_compute|apply fuel_ok].
Defined.

Lemma fat16_readdir_root_witness :
  fat16_readdir demo_fs demo_img fuel [ch_slash] = Ok (0, [chars "a.txt"; chars "sub"; chars "n.txt"]).
Proof.
  rewrite (fat16_readdir_root demo_vol).
  assert (E : listing false (root_slots demo_fs demo_img) = [chars "a.txt"; chars "sub"; chars "n.txt"])
    by by_compute.
  rewrite E. reflexivity.
Defined.

Lemma fat16_readdir_path_witness :
  fat16_readdir demo_fs demo_img fuel (chars "/sub") = Ok (0, [chars "b.c"]).
Proof.
  rewrite (fat16_readdir_path demo_vol [] (chars "sub") [] (Some sub_entry) fuel sub_path sub_lookup
    fuel_ok [4] sub_chain).
  assert (E : listing true (dir_slots demo_fs demo_img [4]) = [chars "b.c"]) by by_compute.
  rewrite E. reflexivity.
Defined.

Lemma fat16_getattr_correct_witness :
  ∃ st, fat16_getattr demo_fs demo_img fuel (chars "/a.txt") = Ok (0, Some st) ∧
    st_size st = 700 ∧ st_blksize st = 512.
Proof.
  destruct (fat16_getattr_correct demo_vol [] (chars "a") (chars "txt") (Some a_txt) fuel a_path a_lookup
    fuel_ok) as (st & E & _ & Hs & Hb & _).
  exists st. split; [exact E|]. rewrite Hs, Hb. split; by_compute.
Defined.

(** ** Instances of the theorems on creating and deleting *)

Lemma edit_size_correct_witness :
  ∃ img', edit_size demo_fs fuel demo_img (chars "/sub/b.c") 99 = Ok (0, img') ∧
    DIR_FileSize (entry_on img' 6 0) = 99.
Proof.
  pose proof (edit_size_correct demo_vol [chars "sub"] (chars "b") (chars "c") _ true 99 fuel b_path
    b_short sub_slots fuel_ok ltac:(lia)) as E.
  assert (F : first_slot (shows (spell (chars "b") (chars "c"))) true (dir_slots demo_fs demo_img [4]) =
    Some (6, 0, b_c)) by by_compute.
  rewrite F in E. destruct E as (img' & E & _ & Hs & _). exists img'. split; [exact E|exact Hs].
Defined.

Lemma fat16_mknod_creates_witness :
  ∃ img', fat16_mknod demo_fs fuel demo_img (chars "/sub/d") = Ok (0, img') ∧
    DIR_FstClusLO (entry_on img' 6 32) = 7 ∧ fat_get demo_fs img' 7 = 65535 ∧
    entry_on img' 6 0 = b_c.
Proof.
  destruct (fat16_mknod_creates demo_vol [chars "sub"] (chars "d") [] (dir_slots demo_fs demo_img [4])
    true 6 32 (entry_on demo_img 6 32) 7 fuel d_path d_short sub_slots)
    as (img' & E & _ & He & Ho & Hg);
    [by_compute|right; lia|apply demo_lowest_free|by apply in_demo|apply fuel_ok|].
  exists img'. split; [exact E|]. rewrite He. split; [reflexivity|]. split.
  - destruct (Hg 7) as [E7 _]; [apply demo_index; reflexivity|exact E7].
  - apply Ho; [|vm_compute; discriminate].
    apply (dir_slot_ok demo_vol 4 [4] 6 0 b_c); [apply sub_chain|].
    apply (first_slot_Some (λ _, true) true). by_compute.
Defined.

Lemma fat16_mknod_then_lookup_witness :
  ∃ img' path', fat16_mknod demo_fs fuel demo_img (chars "/c.txt") = Ok (0, img') ∧
    find_root demo_fs img' fuel a_txt (chars "/c.txt") =
      Ok (0, new_entry (chars "C       TXT") 7, path').
Proof.
  apply (fat16_mknod_then_lookup demo_vol (chars "c") (chars "txt") 3 96 (entry_on demo_img 3 96) 7 fuel);
    [apply c_path|by apply short_demo|apply c_lookup|by_compute|apply demo_lowest_free|by apply in_demo
    |apply fuel_ok].
Defined.

(** The volume with fifteen entries in sub: only the last one is free. *)
Definition demo_full : image :=
  splice 3072 (concat (replicate 15 (entry_info (chars "B       C  ") ATTR_ARCHIVE 6 10))) demo_img.

#[local] Opaque demo_full.

Lemma demo_full_vol : vol_ok demo_fs 8 demo_full.
Proof. split; [apply demo_geometry|vm_compute; discriminate|by_decision]. Qed.

Lemma demo_full_lookup : lookup demo_fs 8 demo_full (rows_of [] (chars "sub") []) (Some sub_entry).
Proof. apply (lookup_dir _ _ _ _ 3 32); [by_compute|vm_compute; discriminate|by_compute]. Qed.

Lemma fat16_mknod_last_entry_witness :
  fat16_mknod demo_fs fuel demo_full (chars "/sub/d") = Ok (0, demo_full).
Proof.
  assert (Hu : forallb (λ j, negb (is_free (cluster_slot demo_fs demo_full 4 j).2)) (seqZ 0 15) = true)
    by by_compute.
  assert (Hc : dir_chain demo_fs 8 demo_full (DIR_FstClusLO sub_entry) ([] ++ 4 :: [])).
  { assert (E : DIR_FstClusLO sub_entry = 4) by by_compute. rewrite E.
    apply chain_last; [by apply in_demo|by_compute]. }
  assert (Hused : used_from (fs := demo_fs) (img := demo_full) 4 0 15).
  { intros j Hj. rewrite forallb_forall in Hu. specialize (Hu j). cbv beta in Hu.
    assert (Hin : In j (seqZ 0 15)) by (apply list_elem_of_In, elem_of_seqZ; lia).
    apply Hu in Hin. revert Hin. destruct (is_free _); [discriminate|reflexivity]. }
  assert (Hlow : lowest_free demo_fs demo_full 7).
  { split_and!; [lia|by_compute|]. intros d Hd.
    assert (d = 2 ∨ d = 3 ∨ d = 4 ∨ d = 5 ∨ d = 6) as [->|[->|[->|[->| ->]]]] by lia;
      vm_compute; discriminate. }
  assert (HS : SecPerClus demo_fs = 1) by by_compute.
  pose proof (fat16_mknod_last_entry demo_full_vol [] (chars "sub") sub_entry (chars "d") [] [] 4 [] 15 7
    fuel d_path d_short sub_path demo_full_lookup ltac:(by_compute) Hc (Forall_nil_2 _) Hused
    ltac:(by_compute) ltac:(rewrite HS; lia) eq_refl Hlow (in_demo 7 eq_refl) fuel_ok) as E.
  rewrite decide_False in E by (rewrite HS; lia). exact (E eq_refl).
Defined.

Lemma fat16_unlink_deletes_witness :
  ∃ img', fat16_unlink demo_fs fuel demo_img (chars "/a.txt") = Ok (0, img') ∧
    name0 (entry_on img' 3 0) = 229 ∧ fat_get demo_fs img' 3 = 0 ∧ fat_get demo_fs img' 4 = 65535.
Proof.
  destruct (fat16_unlink_deletes demo_vol [] (chars "a") (chars "txt") a_txt [2; 3]
    (root_slots demo_fs demo_img) false 3 0 a_txt fuel a_path a_short a_lookup)
    as (img' & E & _ & H0 & _ & Hg);
    [apply a_txt_chain|apply parent_root|apply demo_not_a_directory; by_decision|by_compute|apply fuel_ok|].
  exists img'. split; [exact E|]. split; [exact H0|].
  destruct (Hg 3) as [E3 _]; [apply demo_index; reflexivity|].
  destruct (Hg 4) as [E4 _]; [apply demo_index; reflexivity|].
  rewrite E3, E4. split; by_compute.
Defined.

Lemma fat16_unlink_keeps_entry_witness :
  ∃ img', fat16_unlink demo_fs fuel demo_img (chars "/A.TXT") = Ok (0, img') ∧
    fat_get demo_fs img' 2 = 0 ∧ entry_on img' 3 0 = a_txt.
Proof.
  assert (Hp : ascii_path [] (chars "A") (chars "TXT")) by path_tac.
  assert (Hs : short_path (path_of [] (chars "A") (chars "TXT"))) by by apply short_demo.
  assert (Hl : lookup demo_fs 8 demo_img (rows_of [] (chars "A") (chars "TXT")) (Some a_txt)).
  { assert (rows_of [] (chars "A") (chars "TXT") = rows_of [] (chars "a") (chars "txt")) as ->
      by by_compute. exact a_lookup. }
  destruct (fat16_unlink_keeps_entry demo_vol [] (chars "A") (chars "TXT") a_txt [2; 3]
    (root_slots demo_fs demo_img) false fuel Hp Hs Hl) as (img' & E & H2 & Hd);
    [exact a_txt_chain|apply parent_root|apply demo_not_a_directory; by_decision|by_compute|apply fuel_ok|].
  exists img'. split; [exact E|]. split; [apply H2, list_elem_of_here|].
  unfold entry_on. rewrite Hd; [reflexivity|vm_compute; discriminate|vm_compute; discriminate].
Defined.

(** ** Instances of the theorems on file contents *)

Lemma read_path_correct_witness :
  fat16_read demo_fs fuel demo_img (chars "/a.txt") 312 200 = Ok (312, replicate 312 65).
Proof.
  assert (HS : SecPerClus demo_fs = 1) by by_compute.
  pose proof (read_path_correct demo_vol [] (chars "a") (chars "txt") a_txt [2; 3] 312 200 fuel a_path
    a_lookup a_txt_chain fuel_ok ltac:(lia) ltac:(lia) ltac:(rewrite HS; vm_compute; discriminate)
    ltac:(lia) ltac:(vm_compute; discriminate)) as E.
  assert (H7 : (200 <? DIR_FileSize a_txt) = true) by by_compute. rewrite H7 in E.
  assert (HD : slice 200 312 (chain_data demo_fs demo_img [2; 3]) = replicate 312 65) by by_compute.
  rewrite HD in E. exact E.
Defined.

Lemma read_path_overflows_witness :
  fat16_read demo_fs fuel demo_img (chars "/a.txt") 100 0 = Undef HeapOverflow.
Proof.
  assert (HS : SecPerClus demo_fs = 1) by by_compute.
  exact (read_path_overflows demo_vol [] (chars "a") (chars "txt") a_txt [2; 3] 100 0 fuel a_path
    a_lookup a_txt_chain fuel_ok ltac:(lia) ltac:(lia) ltac:(rewrite HS; vm_compute; discriminate)
    ltac:(lia) ltac:(vm_compute; discriminate) ltac:(vm_compute; reflexivity)).
Defined.

Lemma fat16_write_in_place_witness :
  ∃ img', fat16_write demo_fs fuel demo_img (chars "/a.txt") 20 600 (replicate 20 66) = Ok (20, img') ∧
    DIR_FileSize (entry_on img' 3 0) = 620.
Proof.
  assert (HS : SecPerClus demo_fs = 1) by by_compute.
  destruct (fat16_write_in_place fuel_ok demo_img a_txt [2; 3] 3 (replicate 20 66) 600 demo_vol a_txt_root
    a_txt_chain eq_refl ltac:(vm_compute; reflexivity) ltac:(by_decision) ltac:(lia)
    ltac:(rewrite HS; vm_compute; discriminate) ltac:(rewrite HS; vm_compute; discriminate)
    ltac:(vm_compute; reflexivity)) as (img' & E & _ & _ & Hs & _).
  exists img'. split; [exact E|exact Hs].
Defined.

Lemma write_then_read_witness :
  ∃ img', fat16_write demo_fs fuel demo_img (chars "/a.txt") 424 600 (replicate 424 66) = Ok (424, img') ∧
    fat16_read demo_fs fuel img' (chars "/a.txt") 424 600 = Ok (424, replicate 424 66).
Proof.
  assert (HS : SecPerClus demo_fs = 1) by by_compute.
  exact (write_then_read fuel_ok demo_img a_txt [2; 3] 3 (replicate 424 66) 600 demo_vol a_txt_root
    a_txt_chain eq_refl ltac:(vm_compute; reflexivity) ltac:(by_decision)
    ltac:(rewrite HS; vm_compute; discriminate) ltac:(rewrite HS; vm_compute; discriminate)
    ltac:(vm_compute; reflexivity) ltac:(vm_compute; discriminate)).
Defined.

Lemma b_c_sub :
  sub_file demo_fs 8 demo_img [] (chars "sub") (chars "b") (chars "c") [4] 6 0 b_c.
Proof.
  split; [apply b_path|apply b_short|apply sub_path| |by_compute..].
  exists sub_entry. split_and!; [apply sub_lookup|by_compute|apply sub_chain].
Qed.

Lemma sub_write_then_read_witness :
  ∃ img', fat16_write demo_fs fuel demo_img (chars "/sub/b.c") 10 502 (replicate 10 66) = Ok (10, img') ∧
    fat16_read demo_fs fuel img' (chars "/sub/b.c") 10 502 = Ok (10, replicate 10 66) ∧
    DIR_FileSize (entry_on img' 6 0) = 512.
Proof.
  assert (HS : SecPerClus demo_fs = 1) by by_compute.
  destruct (sub_write_then_read demo_vol b_c_sub fuel_ok [6] 6 (replicate 10 66) 502 b_c_chain eq_refl
    ltac:(apply demo_not_a_directory; by_decision) ltac:(vm_compute; reflexivity) ltac:(by_decision)
    ltac:(rewrite HS; vm_compute; discriminate) ltac:(rewrite HS; vm_compute; discriminate)
    ltac:(vm_compute; reflexivity) ltac:(vm_compute; discriminate)) as (img' & E & R & S & _).
  exists img'. split; [exact E|]. split; [exact R|exact S].
Defined.

(** /sub/b.c has one cluster: writing where it ends puts the data at its start. *)
Lemma sub_append_overwrites_witness :
  ∃ img', fat16_write demo_fs fuel demo_img (chars "/sub/b.c") 10 512 (replicate 10 66) = Ok (10, img') ∧
    file_chain demo_fs 8 img' 6 [6; 7] ∧ slice 0 10 (cluster_data demo_fs img' 6) = replicate 10 66.
Proof.
  assert (HS : SecPerClus demo_fs = 1) by by_compute.
  assert (Hr : free_run demo_fs 8 demo_img 6 [7]).
  { apply free_run_cons; [by apply in_demo| |apply free_run_nil]. split_and!; [lia|by_compute|].
    intros d Hd. lia. }
  assert (H0 : DIR_FileSize sub_entry = 0) by by_compute.
  pose proof (sub_append_overwrites demo_vol b_c_sub fuel_ok (d0 := chars "sub") (rest := []) (l0 := [])
    (lc := 6) (f := 7) (buffer := replicate 10 66) eq_refl sub_path sub_lookup H0 b_c_chain
    ltac:(apply demo_not_a_directory; by_decision) (in_demo 7 eq_refl) Hr
    ltac:(rewrite HS; vm_compute; split; reflexivity) ltac:(by_decision)) as Ht.
  rewrite HS in Ht. destruct (Ht ltac:(vm_compute; reflexivity)) as (img' & E & Hch & _ & Hd & _).
  exists img'. split; [exact E|]. split; [exact Hch|].
  rewrite Hd. by_compute.
Defined.

Lemma fat16_write_new_file_witness :
  ∃ img', fat16_write demo_fs fuel demo_img (chars "/n.txt") 1100 0 (replicate 1100 66) = Ok (1100, img') ∧
    file_chain demo_fs 8 img' 5 [5; 7; 8] ∧ DIR_FileSize (entry_on img' 3 64) = 1100.
Proof.
  assert (HS : SecPerClus demo_fs = 1) by by_compute. assert (Hn : DIR_FstClusLO n_txt = 5) by by_compute.
  assert (Hc : file_chain demo_fs 8 demo_img (DIR_FstClusLO n_txt) [DIR_FstClusLO n_txt])
    by (rewrite Hn; exact n_txt_chain).
  assert (Hr : free_run demo_fs 8 demo_img (DIR_FstClusLO n_txt) [7; 8]) by (rewrite Hn; exact demo_free_run).
  destruct (fat16_write_new_file fuel_ok demo_img n_txt [7; 8] (replicate 1100 66) demo_vol n_txt_root
    ltac:(by_compute) Hc ltac:(by_decision) ltac:(vm_compute; reflexivity) ltac:(discriminate) Hr
    ltac:(rewrite HS; by_compute) ltac:(rewrite HS; vm_compute; discriminate))
    as (img' & E & _ & Hch & Hs & _).
  rewrite Hn in Hch. exists img'. split; [exact E|]. split; [exact Hch|exact Hs].
Defined.

Lemma fat16_write_drops_last_cluster_witness :
  ∃ img', fat16_write demo_fs fuel demo_img (chars "/n.txt") 1536 0 (replicate 1536 66) = Ok (1536, img') ∧
    DIR_FileSize (entry_on img' 3 64) = 1024.
Proof.
  assert (HS : SecPerClus demo_fs = 1) by by_compute. assert (Hn : DIR_FstClusLO n_txt = 5) by by_compute.
  assert (Hc : file_chain demo_fs 8 demo_img (DIR_FstClusLO n_txt) [DIR_FstClusLO n_txt])
    by (rewrite Hn; exact n_txt_chain).
  assert (Hr : free_run demo_fs 8 demo_img (DIR_FstClusLO n_txt) [7; 8]) by (rewrite Hn; exact demo_free_run).
  destruct (fat16_write_drops_last_cluster fuel_ok demo_img n_txt [7; 8] (replicate 1536 66) demo_vol n_txt_root
    ltac:(by_compute) Hc ltac:(by_decision) ltac:(vm_compute; reflexivity) ltac:(discriminate) Hr
    ltac:(rewrite HS; by_compute) ltac:(rewrite HS; by_compute)) as (img' & E & Hs).
  rewrite HS in Hs. exists img'. split; [exact E|exact Hs].
Defined.


(** Overwriting a file from its start with more than its clusters hold goes
    wrong: because the file is not empty the data is stored from the first new
    cluster on, and what is left when the new clusters are full goes to the
    sector computed from the end mark 0xffff, here the allocation table. *)
Lemma overwrite_destroys_table :
  ∃ img', serve_all demo_fs fuel demo_img
      [Write (chars "/n.txt") 10 0 (replicate 10 66); Write (chars "/n.txt") 700 0 (replicate 700 67)] =
    Ok ([Code 10; Code 700], img') ∧
    take 10 (cluster_data demo_fs img' 5) = replicate 10 66 ∧
    slice 512 188 img' = replicate 188 67.
Proof.
  set (r := serve_all _ _ _ _).
  assert (E : match r with
    | Ok ([Code c1; Code c2], img') => (c1 =? 10) && (c2 =? 700) &&
        bool_decide (take 10 (cluster_data demo_fs img' 5) = replicate 10 66) &&
        bool_decide (slice 512 188 img' = replicate 188 67)
    | _ => false end = true) by by_compute.
  clearbody r. destruct r as [[[|[| | |c1] [|[| | |c2] [|]]] img']| | |]; try discriminate E.
  apply andb_true_iff in E as [[[->%Z.eqb_eq ->%Z.eqb_eq]%andb_true_iff E2]%andb_true_iff E3].
  apply bool_decide_eq_true in E2, E3.
  exists img'. split; [reflexivity|]. split; [exact E2|exact E3].
Qed.

(** ** Instances of the theorems on sessions *)

(** Creates c.txt, fills it, asks for a file that is not there, deletes a.txt
    and lists the root directory. *)
Definition demo_session : list request :=
  [Mknod (chars "/c.txt"); Write (chars "/c.txt") 512 0 (replicate 512 66);
   Getattr (chars "/d.txt"); Unlink (chars "/a.txt"); Readdir (chars "/")].

Definition succeeds {A} (r : res A) : bool :=
  match r with Ok _ => true | _ => false end.

Lemma succeeds_ok {A} (r : res A) : succeeds r = true → ∃ a, r = Ok a.
Proof. destruct r; [eauto|discriminate..]. Qed.

Lemma demo_session_ok : succeeds (serve_all demo_fs fuel demo_img demo_session) = true.
Proof. by_compute. Qed.

Lemma sessions_preserve_volume_witness :
  ∃ replies img', main fuel demo_img demo_session = Ok (replies, img') ∧
    vol_ok demo_fs 8 img' ∧ length replies = 5%nat.
Proof.
  destruct (succeeds_ok _ demo_session_ok) as ((replies & img') & E).
  destruct (sessions_preserve_volume fuel demo_img demo_session replies img' demo_vol
    ltac:(unfold demo_session; repeat constructor; by_decision) E) as (Hv & _ & Hl & _).
  exists replies, img'. split; [|split; [exact Hv|exact Hl]].
  exact (eq_trans (main_mounted fuel demo_img demo_fs demo_session demo_mounted) E).
Defined.

Lemma create_write_read_witness :
  ∃ img', serve_all demo_fs fuel demo_img
      [Mknod (chars "/c.txt"); Write (chars "/c.txt") 512 0 (replicate 512 66);
       Read (chars "/c.txt") 512 0] =
    Ok ([Code 0; Code 512; Contents 512 (replicate 512 66)], img').
Proof.
  assert (HS : SecPerClus demo_fs = 1) by by_compute.
  assert (Hn : listed_name (chars "c") (chars "txt")) by (split; [discriminate|by_decision..]).
  exact (create_write_read fuel_ok demo_vol c_path Hn
    (short_demo (path_of [] (chars "c") (chars "txt")) eq_refl) c_lookup
    ltac:(by_compute) (sec := 3) (off := 96) (e := entry_on demo_img 3 96) ltac:(by_compute)
    demo_lowest_free (in_demo 7 eq_refl) (replicate 512 66)
    ltac:(rewrite HS; vm_compute; split; [reflexivity|discriminate]) ltac:(by_decision)
    ltac:(vm_compute; discriminate)).
Defined.

(** ** A volume whose table has no free entry *)

Definition full_fs : FAT16 :=
  mkFAT16 257 258 (mkBPB [] [] 512 1 1 2 16 0 0 128 0 0 0 0 0 0 0 0 [] [] [] 0).

Definition full_img : image := replicate (Z.to_nat 136192) 255.

Lemma full_img_length : lenZ full_img = 136192.
Proof. unfold full_img. rewrite length_replicate. lia. Qed.

Lemma full_vol : vol_ok full_fs 8 full_img.
Proof.
  split.
  - split; vm_compute; (reflexivity || (split; (reflexivity || discriminate)) || discriminate).
  - rewrite full_img_length. vm_compute. discriminate.
  - apply Forall_replicate. unfold is_byte. lia.
Qed.

Lemma full_table c : 0 <= c < 32768 → fat_get full_fs full_img c ≠ 0.
Proof.
  intros Hc. unfold fat_get, fat_off. change (RsvdSecCnt full_fs) with 1.
  assert (E : slice (1 * 512 + 2 * c) 2 full_img = [255; 255]); [|by rewrite E].
  unfold slice, full_img. rewrite drop_replicate, take_replicate.
  replace (Z.to_nat 2 `min` _)%nat with 2%nat by lia. reflexivity.
Qed.

Lemma FindEmptyCluster_full_diverges_witness : FindEmptyCluster 100 full_fs full_img = OutOfFuel.
Proof.
  apply (FindEmptyCluster_full_diverges (n := 8)); [apply full_vol|vm_compute; discriminate|apply full_table].
Defined.

(** ** Instance of the theorem on times *)

Lemma creation_time_readback_witness :
  tm_of_entry (new_entry (chars "A       TXT") 7) = Tm 20 30 20 19 4 121.
Proof.
  rewrite (creation_time_readback (chars "A       TXT") 7);
    [reflexivity|reflexivity|cbn; lia..].
Defined.
