(* ===== verification/FlatDemo.v ===== *)
(** * The small volume as a list of files

    The volume of Demo.v represents a list of three entries, on which the
    theorems of FlatSim.v are instantiated. *)

From Stdlib Require Import Lia String.
From stdpp Require Import base numbers option gmap list.
From S2P Require Import Prelude Bytes CString Names Volume Directory Namespace FileIO Append FileSystem Flat NestedLife FlatSim FlatTree Demo.
Local Open Scope Z_scope.

#[local] Existing Instance demo_platform.
#[local] Opaque demo_img demo_fs.

Definition a_name_of : fname := (chars "a", chars "txt").
Definition sub_name : fname := (chars "sub", []).
Definition n_name : fname := (chars "n", chars "txt").
Definition c_name : fname := (chars "c", chars "txt").

Definition demo_flat : flat := Flat
  ([Some (AEntry a_name_of false (replicate 700 65) [2; 3] clock);
    Some (AEntry sub_name true [] [] clock);
    Some (AEntry n_name false [] [5] clock)] ++ replicate 13 None) [4; 6].

Lemma valid_demo x :
  ascii_path [] x.1 x.2 → listed_name x.1 x.2 → (lenZ (root_path x) <=? 23) = true → valid_name x.
Proof. intros Hp Hl Hs. split; [exact Hp|exact Hl|]. by apply short_demo. Qed.

Ltac name_tac :=
  apply valid_demo; [path_tac|split; [discriminate|by_decision..]|reflexivity].

Lemma a_valid : valid_name a_name_of.
Proof. name_tac. Qed.
Lemma sub_valid : valid_name sub_name.
Proof. name_tac. Qed.
Lemma n_valid : valid_name n_name.
Proof. name_tac. Qed.
Lemma c_valid : valid_name c_name.
Proof. name_tac. Qed.

Lemma demo_slots : root_slots demo_fs demo_img =
  root_slot demo_fs demo_img <$> [0; 1; 2; 3; 4; 5; 6; 7; 8; 9; 10; 11; 12; 13; 14; 15].
Proof. unfold root_slots. assert (RootEntCnt demo_fs = 16) as -> by by_compute. reflexivity. Qed.

Lemma demo_slots_rep :
  Forall2 (slot_rep demo_fs 8 demo_img) (root_slots demo_fs demo_img) (slots demo_flat).
Proof.
  assert (HS : SecPerClus demo_fs = 1) by by_compute. rewrite demo_slots.
  apply Forall2_cons_2; [|apply Forall2_cons_2; [|apply Forall2_cons_2]].
  - split; cbn [snd a_name a_dir a_data a_time a_chain].
    + apply a_valid.
    + by_compute.
    + by_compute.
    + by_compute.
    + split; [by_compute|]. split; [|split; [rewrite HS; vm_compute; discriminate|by_compute]].
      assert (E : DIR_FstClusLO (root_slot demo_fs demo_img 0).2 = 2) by by_compute.
      rewrite E. apply a_txt_chain.
  - split; cbn [snd a_name a_dir a_data a_time a_chain];
      [apply sub_valid|by_compute|by_compute|by_compute|split; by_compute].
  - split; cbn [snd a_name a_dir a_data a_time a_chain].
    + apply n_valid.
    + by_compute.
    + by_compute.
    + by_compute.
    + split; [by_compute|]. split; [|split; [rewrite HS; vm_compute; discriminate|by_compute]].
      assert (E : DIR_FstClusLO (root_slot demo_fs demo_img 2).2 = 5) by by_compute.
      rewrite E. apply n_txt_chain.
  - repeat (apply Forall2_cons_2; [by_compute|]). apply Forall2_nil_2.
Qed.

Lemma demo_used_slots j a : slots demo_flat !! j = Some (Some a) → (j < 3)%nat.
Proof.
  destruct j as [|[|[|j]]]; [lia..|]. cbn [slots demo_flat app].
  intros Hj. assert (Hr : replicate 13 None !! j = Some (Some a)) by exact Hj.
  by apply lookup_replicate in Hr as [? _].
Qed.

Lemma demo_represents : represents demo_fs 8 demo_img demo_flat.
Proof.
  split.
  - exact demo_vol.
  - exact demo_slots_rep.
  - intros i j a b Hi Hj E. pose proof (demo_used_slots _ _ Hi). pose proof (demo_used_slots _ _ Hj).
    destruct i as [|[|[|i]]]; [..|lia]; (destruct j as [|[|[|j]]]; [..|lia]); try reflexivity;
      injection Hi as <-; injection Hj as <-; discriminate.
  - intros i j s a Hi H0 Hj. pose proof (demo_used_slots _ _ Hj).
    destruct (decide (j < i)%nat) as [|Hn]; [done|exfalso]. rewrite demo_slots in Hi.
    assert (Hall : Forall (λ s, name0 s.2 ≠ 0) (root_slot demo_fs demo_img <$> [0; 1; 2]))
      by (apply (bool_decide_unpack _); vm_compute; exact I).
    assert (Hi' : (root_slot demo_fs demo_img <$> [0; 1; 2]) !! i = Some s)
      by (destruct i as [|[|[|i]]]; [exact Hi..|lia]).
    exact (Forall_lookup_1 _ _ _ _ Hall Hi' H0).
  - by_decision.
  - intros c Hc. unfold in_volume in Hc.
    assert (Hall : Forall (λ c, fat_get demo_fs demo_img c = 0 ↔ c ∉ used demo_flat) (seqZ 2 8))
      by by_decision.
    rewrite Forall_forall in Hall. apply Hall, elem_of_seqZ. lia.
Qed.

(** A session: a file is created, written and extended twice and read back,
    another one is deleted, and the directory is listed. *)
Definition demo_ops : list op :=
  [Create c_name; WriteAt c_name 0 (replicate 600 66); WriteAt c_name 600 (replicate 500 67);
   ReadAt c_name 1024 0; Delete a_name_of; Stat a_name_of; Stat c_name; ListAll].

Lemma demo_ops_ok : Forall op_ok demo_ops.
Proof.
  unfold demo_ops. repeat apply Forall_cons_2; try apply Forall_nil_2;
    cbn [op_ok]; first [exact I|apply c_valid|apply a_valid|split; [apply c_valid|by_decision]].
Qed.

Definition demo_after : flat := Flat
  ([None; Some (AEntry sub_name true [] [] clock); Some (AEntry n_name false [] [5] clock);
    Some (AEntry c_name false (replicate 600 66 ++ replicate 500 67) [7; 8; 9] clock)] ++
   replicate 12 None) [4; 6].

Definition demo_replies : list reply :=
  [Code 0; Code 600; Code 500; Contents 1024 (replicate 600 66 ++ replicate 424 67); Code 0;
   Attributes (- ENOENT) None; Attributes 0 (Some (mkStat 0 512 33261 1100 3 73820));
   Listing 0 [chars "sub"; chars "n.txt"; chars "c.txt"]].

Lemma demo_run : flat_run demo_fs 8 demo_flat demo_ops = Some (demo_replies, demo_after).
Proof. by_compute. Qed.

Lemma sessions_refine_lists_witness :
  ∃ img', serve_all demo_fs fuel demo_img (concrete <$> demo_ops) = Ok (demo_replies, img') ∧
    represents demo_fs 8 img' demo_after.
Proof.
  destruct (sessions_refine_lists fuel_ok demo_represents demo_ops demo_replies demo_after
    demo_ops_ok demo_run) as (img' & E & Hr & _). exists img'. split; [exact E|exact Hr].
Defined.

Lemma sessions_refine_maps_witness :
  ∃ img', serve_all demo_fs fuel demo_img (concrete <$> demo_ops) = Ok (demo_replies, img') ∧
    represents demo_fs 8 img' demo_after ∧ map_run (contents demo_flat) demo_ops demo_replies (contents demo_after).
Proof.
  exact (sessions_refine_maps fuel_ok demo_represents demo_ops demo_replies demo_after
    demo_ops_ok demo_run).
Defined.

Lemma create_with_room_witness :
  ∃ img' A', serve demo_fs fuel demo_img (Mknod (chars "/c.txt")) = Ok (Code 0, img') ∧
    represents demo_fs 8 img' A' ∧ contents A' = <[c_name := []]> (contents demo_flat).
Proof.
  assert (Hn : find_entry c_name (slots demo_flat) = None) by by_compute.
  assert (Hhole : None ∈ slots demo_flat).
  { cbn [demo_flat slots]. apply elem_of_app. right. apply list_elem_of_here. }
  exact (create_with_room fuel_ok demo_represents c_name c_valid Hn Hhole
    ltac:(vm_compute; reflexivity)).
Defined.

Lemma created_and_deleted_witness :
  ∃ rs img', serve_all demo_fs fuel demo_img
      [Mknod (chars "/c.txt"); Write (chars "/c.txt") 600 0 (replicate 600 66);
       Write (chars "/c.txt") 500 600 (replicate 500 67); Unlink (chars "/c.txt")] = Ok (rs, img') ∧
    represents demo_fs 8 img' demo_flat.
Proof.
  assert (Hn : find_entry c_name (slots demo_flat) = None) by by_compute.
  assert (Hrun : flat_run demo_fs 8 demo_flat
    (Create c_name :: writes c_name [(0, replicate 600 66); (600, replicate 500 67)] ++ [Delete c_name]) =
    Some ([Code 0; Code 600; Code 500; Code 0], demo_flat)) by by_compute.
  destruct (created_and_deleted fuel_ok demo_represents c_name
    [(0, replicate 600 66); (600, replicate 500 67)] _ _ c_valid
    ltac:(repeat constructor; by_decision) Hn Hrun) as (img' & E & Hr).
  exists [Code 0; Code 600; Code 500; Code 0], img'. split; [exact E|exact Hr].
Defined.

(** Below sub there are only the directory itself, in cluster 4, and its file
    b.c, in cluster 6. *)
Lemma file_6_unique l : file_chain demo_fs 8 demo_img 6 l → l = [6].
Proof.
  assert (E : file_end (fat_get demo_fs demo_img 6)) by (right; vm_compute; discriminate).
  intros Hl. inversion Hl as [|c l' _ Hne]; subst; [reflexivity|]. destruct Hne. exact E.
Qed.

Lemma demo_sub_files :
  Forall (λ s, is_free s.2 = true ∨ is_dir s.2 = false ∧ DIR_FstClusLO s.2 = 6) (dir_slots demo_fs demo_img [4]).
Proof. by_decision. Qed.

Lemma demo_tree : tree_in demo_fs 8 (reserved demo_flat) demo_img sub_entry.
Proof.
  assert (Hsub : is_dir sub_entry = true ∧ DIR_FstClusLO sub_entry = 4) by (split; by_compute).
  intros e ch Hb. destruct Hb as [D|D l s e Hd Hl Hin Hf Hb]; destruct Hsub as [Hk Hc].
  - intros [[_ H4]|[H5 _]].
    + rewrite Hc in H4. apply (sub_chain_unique demo_only_sub) in H4 as ->. by_decision.
    + unfold is_dir in Hk. unfold is_file in H5. apply Z.eqb_eq in Hk. rewrite Hk in H5. discriminate H5.
  - rewrite Hc in Hl. apply (sub_chain_unique demo_only_sub) in Hl as ->.
    pose proof demo_sub_files as Hall. rewrite Forall_forall in Hall. specialize (Hall s Hin).
    destruct Hall as [Hall|[Hnd H6]]; [congruence|].
    destruct Hb as [D'|D' l' s' e' Hd' _ _ _ _]; [|congruence].
    intros [[H7 _]|[_ H7]]; [congruence|]. rewrite H6 in H7. apply file_6_unique in H7 as ->. by_decision.
Qed.

(** The session leaves /sub/b.c as it was. *)
Lemma subdirectories_stay_witness :
  ∃ img', serve_all demo_fs fuel demo_img (concrete <$> demo_ops) = Ok (demo_replies, img') ∧
    fat16_getattr demo_fs img' fuel (chars "/sub/b.c") = fat16_getattr demo_fs demo_img fuel (chars "/sub/b.c") ∧
    fat16_read demo_fs fuel img' (chars "/sub/b.c") 512 0 = fat16_read demo_fs fuel demo_img (chars "/sub/b.c") 512 0.
Proof.
  assert (Hi : find_entry (chars "sub", []) (slots demo_flat) = Some (1%nat, AEntry sub_name true [] [] clock)) by by_compute.
  assert (Hs : root_slots demo_fs demo_img !! 1%nat = Some (3, 32, sub_entry)) by (rewrite demo_slots; by_compute).
  destruct (subdirectories_stay fuel_ok demo_represents demo_ops demo_replies demo_after (chars "sub") 1%nat
    (AEntry sub_name true [] [] clock) (3, 32, sub_entry) demo_ops_ok demo_run Hi eq_refl Hs demo_tree)
    as (img' & E & Hall).
  destruct (Hall [chars "sub"] (chars "b") (chars "c") _ (Some b_c) b_path eq_refl b_lookup) as (Hg & Hrest).
  destruct (Hrest [6]) as [_ Hr]. exists img'. split; [exact E|]. split; [exact Hg|].
  assert (HS : SecPerClus demo_fs = 1) by by_compute.
  assert (Hk : is_file b_c = true) by by_compute.
  assert (H6 : DIR_FstClusLO b_c = 6) by by_compute.
  rewrite H6 in Hr. exact (Hr Hk b_c_chain 512 0 ltac:(lia) ltac:(lia) ltac:(rewrite HS; vm_compute; discriminate) ltac:(lia)).
Defined.

(** ** A file in the subdirectory *)

Lemma demo_sub_room :
  sub_room demo_fs 8 demo_img [] (chars "sub") (chars "c") (chars "txt") [4] 6 32 7.
Proof.
  assert (Hnew : Forall (λ s : slot, named (fat_name (chars "c") (chars "txt")) s.2 = false ∧
    shows (spell (chars "c") (chars "txt")) s.2 = false) (dir_slots demo_fs demo_img [4])) by by_decision.
  split.
  - path_tac.
  - apply c_valid.
  - by apply short_demo.
  - apply sub_path.
  - exists sub_entry. split_and!; [apply sub_lookup|by_compute|apply sub_chain].
  - by_decision.
  - intros s o e Hin. rewrite Forall_forall in Hnew. apply (Hnew (s, o, e) Hin).
  - exists (entry_on demo_img 6 32). by_compute.
  - discriminate.
  - apply demo_lowest_free.
  - by apply in_demo.
  - apply only_sub_not_a_directory; [by_compute|by_decision].
Qed.

Lemma sub_file_life_witness :
  ∃ img', serve_all demo_fs fuel demo_img
      [Mknod (chars "/sub/c.txt"); Write (chars "/sub/c.txt") 512 0 (replicate 512 66);
       Read (chars "/sub/c.txt") 512 0; Unlink (chars "/sub/c.txt"); Getattr (chars "/sub/c.txt")] =
      Ok ([Code 0; Code 512; Contents 512 (replicate 512 66); Code 0; Attributes (- ENOENT) None], img') ∧
    fat_get demo_fs img' 7 = 0 ∧ entry_on img' 6 0 = b_c.
Proof.
  assert (HS : SecPerClus demo_fs = 1) by by_compute.
  destruct (sub_file_life demo_fs 8 demo_img fuel [] (chars "sub") (chars "c") (chars "txt") [4] 6 32 7
    (replicate 512 66) demo_vol demo_sub_room fuel_ok ltac:(rewrite HS; num_tac) ltac:(by_decision)
    ltac:(vm_compute; discriminate)) as (img' & E & _ & Hfat & _ & Hothers & _).
  exists img'. split; [exact E|]. split.
  - rewrite Hfat by by apply in_demo. by_compute.
  - apply Hothers; [|vm_compute; discriminate].
    apply (first_slot_Some (λ _, true) true). by_compute.
Defined.
